(* ===== verification/_CoqProject ===== *)
-Q . S2P
Prelude.v
PyStr.v
PyFloat.v
PyTime.v
Fs.v
World.v
FsOps.v
Json.v
Config.v
Graph.v
Sha256.v
DockerOps.v
Builder.v
BuilderTags.v
BuilderRun.v
BuilderConfig.v
Sim.v
BuildTheorems.v
Cleanup.v
CleanupProofs.v
CleanupTheorems.v
CleanupThread.v
FindRoot.v
Coverage.v
CoverageProofs.v
CoverageTheorems.v
EventHandler.v
Mounts.v
MountsProofs.v
MountsExact.v
MountsTheorems.v
Bep.v
Bootstrap.v
BootstrapTree.v
Shlex.v
DockerRun.v
DockerRunTheorems.v
System.v
IssueCert.v
Argparse.v
ArgparseProofs.v
Cli.v
CliTheorems.v
Copies.v
MbsApiCopy.v
