(* ===== verification/Prelude.v ===== *)
(** * Devkit: a verification development for the Python of this repository

    ** The program

    The Python of the repository is its developer kit, [.devkit/scripts], which is
    present five times (at the root and under api, container-tools, mbs and
    mbs/api), and one tool, [tools/issue_certificate_response_to_der.py].
    - [docker/build.py] builds the container images that [devkit.json] and the
      [deps.json] files describe, under content-addressed tags, in the order of
      their dependencies, with the docker command line.
    - [docker_cleanup.py] removes old images in a background thread; it asks
      build.py for the tags that are still current and spares them.
    - [docker_run.py] runs a command in an image: it finds the project root
      ([find_project_root.py]), adds the mounts the symbolic links of the tree need
      ([list_external_mounts.py]), starts the clean-up and a listener for events of
      the container ([container_event_handler.py]) as threads, runs docker in the
      foreground and stops both threads.
    - [coverage_report.py] runs bazel's coverage and compares the LCOV report with
      targets; [bep.py] collects bazel's build events; [bootstrap.py] copies project
      templates through jinja2.

    ** How it is modelled

    A call is a function [S -> result A * S] (this file): it returns or raises, and
    what it did up to then stays in the state.  The state of a script is the
    [World] (World.v): environment, files, working directory, the trace of what it
    wrote, logged and started, and the state of the programs it starts.  The
    methods of the builder run over the pair of the world and the object.

    Library layer: PyStr ([str], [int]), PyFloat (binary64, [float()], formatting),
    PyTime ([datetime]), Fs (pathlib, os.path, the kernel's path walk), FsOps
    (making and removing files), Json ([json.loads]), Sha256, Shlex, Argparse
    ([argparse]) with ArgparseProofs.  Where versions of Python differ, it is 3.12,
    which the scripts pin: [Path.resolve] raises [RuntimeError] on a loop of links
    (Fs.v); [argparse] is the same in 3.11 for what the scripts declare.

    Components, with the source under src/.devkit/scripts:
    - docker/build.py: Config (schema and validator), Graph (dependency closure and
      [graphlib]), DockerOps (functions that call docker), Builder (class
      [DockerBuilder] and [main]); BuilderTags, BuilderRun and BuilderConfig hold the
      lemmas, Sim a docker that runs, BuildTheorems the theorems.
    - docker_cleanup.py: Cleanup, CleanupProofs, CleanupTheorems; CleanupThread is the
      clean-up as a thread that makes one move at a time.
    - find_project_root.py: FindRoot.
    - coverage_report.py: Coverage, CoverageProofs, CoverageTheorems.
    - container_event_handler.py: EventHandler.
    - list_external_mounts.py: Mounts, MountsProofs, MountsExact, MountsTheorems.
    - bep.py: Bep.  bootstrap.py: Bootstrap, BootstrapTree.
    - docker_run.py: DockerRun, DockerRunTheorems; System is the script together with
      its two threads, CleanupThread and the listener of EventHandler, as one
      transition system over the shared world, in which other programs may act
      and the user may interrupt the script between any two moves.
    - tools/issue_certificate_response_to_der.py: IssueCert.
    - the command lines of all scripts, and the scripts as a whole from their
      arguments on: Cli, CliTheorems.
    - the copies: Copies has what differs between them, MbsApiCopy names the
      functions of the copy under mbs/api, which are the same text.

    Names are the source's; a name that two scripts share carries a prefix in one
    of them ([bep_main], [run_main], [cert_main], ...).

    ** What is assumed

    Code outside the repository is a parameter.  [Exec] (World.v) is any effect of
    a started program on its own state and on the files; [DockerSpec] (DockerOps.v)
    says what docker's commands mean for the set of local and remote images, and
    [CleanSpec] (CleanupProofs.v) adds the removal; Sim.v and CleanupTheorems.v give
    instances.  [SetOrder] is the unspecified order of a Python set, [ScanDir] that
    of a directory listing, [TempDir] the choice of a fresh directory, [Popen] the
    running of a child that is polled, [Jinja] the template library ([JinjaSpec] says
    that it raises exceptions, not exits).  The records
    [host] (DockerRun.v) and [site_host] (Copies.v) are the answers of the account,
    the terminal and the machine.  A theorem about any of these holds for every instance.

    ** What is proved

    - Tags: the memoising recursion computes the declarative [TagOf]
      ([tag_refines_spec]), for every complete configuration ([tags_computed]),
      independently of what was asked before.
    - Building: the order is the topologically sorted closure of the targets, and a
      cycle is the only failure ([build_order_correct]); the commands follow the
      decision table ([manage_follows_table]); a completed
      build has every image in place, dependencies first ([build_images_complete],
      [dependencies_built_first], [print_tag_output]).
    - Configuration: the validator decides the schema ([validator_decides]) and a
      builder is only made from a conforming file ([builder_construction]).
    - Clean-up: the current images survive ([current_images_survive]), removals are
      a prefix of the candidates cut by cancellation ([removals_are_a_prefix]), the
      filter keeps exactly the images of the documented format with an allowed name
      ([allowed_images_documented]), which the builder's tags have
      ([built_tags_match]); the protection is lost when the tags cannot be computed
      ([ignored_images_fail_open]).
    - Mounts: the scan ends on every file system and returns exactly the outside
      targets of the links, directly or through other targets
      ([external_mounts_exact]), and what docker gets is the topmost part
      ([minimize_paths_unique], [minimal_mounts_cover]).
    - Events: cancellation ends the listener by its own moves, also when it is
      blocked in [accept] ([cancel_ends_listener]); it can wait for a peer that has
      connected and sends nothing.  Events only
      log ([event_only_logs]), and the metrics of mbs/api change no outcome
      ([metrics_never_interfere]).
    - The runner and its threads, under every schedule: an image is only removed
      after a choice that justified it ([removals_are_chosen]), and in the order of
      that choice ([removals_follow_choice]); how the script ends is decided by
      docker's end, an interrupt around it, or an exception elsewhere
      ([exit_code_is_dockers]); nobody is told to stop before docker has ended,
      everybody is before the script exits, and nothing that happens while docker
      runs makes it die before that ([threads_outlive_docker]); then only a bounded
      number of moves is left ([stopping_is_bounded]).  The lemmas
      [main_alone_is_launch] and [thread_is_cleanup] tie the two step machines to
      the sequential programs the other theorems are about.
    - Coverage: the verdict ([coverage_gate]), the LCOV reader ([lcov_round_trip]),
      ranges and thresholds ([ranges_canonical], [thresholds_file_read]).
    - Running: every run ends, having started at most one container
      ([run_starts_one_container]), with the command it logged
      ([logged_command_replays]).
    - Command lines: past its parser a script has arguments of the declared types
      ([parsed_arguments_typed]); the builder's command line can say every namespace
      ([build_argv_round_trip]); what docker_run.py does not claim
      reaches the container ([run_arguments_pass_through]).
    - Templates: the walk ends and renders every file of a template without links
      ([template_copied]); so does the script, in silence, or it fails with a message
      and code 1 ([bootstrap_outcome]).
    - The rest: [find_project_root_nearest], [bep_one_run_per_target],
      [cert_bytes_recovered].
    - Weaknesses of the code, as theorems: [tag_concatenation_collides],
      [zero_count_branch_unreported], [large_timestamp_ends_listener],
      [bep_files_collide], [abbreviation_swallowed], [copy_file_outcomes] (an undefined
      variable empties the destination), [template_lookup] (some bad template paths
      end in a traceback).

    ** Fuel

    - [calculate_tag_for_image] takes the number of stack frames that are left, and
      raises [RecursionError] at 0 as Python does; in a build two frames are enough,
      since dependencies come first ([tags_computed]).
    - [visit] has the fuel [visit_fuel], the number of nodes that can be reached,
      and never runs out ([build_order_correct] has no such case); [drain] has one
      step per node.
    - A path walk follows at most [max_symlinks] links, as Linux does, and a chain of
      links at most [chain_fuel = max_symlinks + 3] steps: a longer chain is a loop
      or an error before ([process_symlink_collects]).
    - [list_external_mounts] takes a fuel; some fuel is enough on every file system
      and more changes nothing ([external_mounts_exact]).
    - [copy_walk] follows links to directories, like [os.walk(followlinks=True)], and
      also enters what was copied below the template directory itself; its fuel, a
      number of directories, is a parameter, and running out is the value [None],
      distinct from every result.  On a template without links the number of its
      entries is enough ([template_copied]).
    - The parsers of Json, Shlex and PyStr use the length of the text as fuel, and
      every step consumes a character.

    ** What is not modelled

    The text of usage and help messages, the format of log lines and of messages that only quote an
    exception, the contents of the log file (the trace has its lines), permissions
    (copying a mode is an event of the trace), text outside ASCII, wall-clock time
    (cancellation is a position in the sequence of observations), interrupts of the
    scripts other than docker_run.py and of its preparation before the first thread
    starts, the metrics client and jinja2, and the parts of the repository in other languages (the Java
    service and storage library, C++ container tools, protocol buffers, Bazel
    files).

    The copies of the scripts under api, container-tools and mbs are, but for what
    Copies holds, the text that is modelled here, so the theorems are theirs too;
    they have no definitions of their own. *)

From stdpp Require Import base gmap sets list strings sorting.
From Stdlib Require Import ZArith.

(** ** Results, exceptions and the effect monad

    A Python call either returns a value or raises.  [exn] has one
    constructor per exception class the scripts raise, catch or let escape;
    [sys.exit(n)] raises [SystemExit n], which is *not* an [Exception]. *)

Inductive exn :=
| SystemExit (code : Z)
| KeyboardInterrupt
| ValueError (msg : string)
| JSONDecodeError (msg : string)
| UnicodeDecodeError
| KeyError (key : string)
| IndexError
| TypeError
| AttributeError
| OverflowError
| ZeroDivisionError
| FileNotFoundError (msg : string)
| OSError (msg : string)
| CalledProcessError (cmd : list string) (returncode : Z) (out err : string)
| CycleError
| RecursionError
| RuntimeError (msg : string)
| TemplateSyntaxError (lineno : Z) (msg : string)
| UndefinedError (msg : string)
| TemplateError (msg : string).

#[export] Instance exn_eq_dec : EqDecision exn.
Proof. solve_decision. Defined.

(** Python's class hierarchy, as the [except] clauses of the scripts use it. *)
Definition is_Exception (e : exn) : bool :=
  match e with SystemExit _ | KeyboardInterrupt => false | _ => true end.

Definition is_ValueError (e : exn) : bool :=
  match e with
  | ValueError _ | JSONDecodeError _ | UnicodeDecodeError => true
  | _ => false
  end.

Definition is_JSONDecodeError (e : exn) : bool :=
  match e with JSONDecodeError _ => true | _ => false end.

Definition is_KeyError (e : exn) : bool :=
  match e with KeyError _ => true | _ => false end.

Definition is_FileNotFoundError (e : exn) : bool :=
  match e with FileNotFoundError _ => true | _ => false end.

Definition is_OSError (e : exn) : bool :=
  match e with FileNotFoundError _ | OSError _ => true | _ => false end.

Definition is_CalledProcessError (e : exn) : bool :=
  match e with CalledProcessError _ _ _ _ => true | _ => false end.

Inductive result (A : Type) :=
| Ok (a : A)
| Raise (e : exn).
Arguments Ok {A} a.
Arguments Raise {A} e.

(** [M S A]: a computation over the state [S]; the state survives a raise. *)
Definition M (S A : Type) : Type := S → result A * S.

Section monad.
Context {S : Type}.

#[global] Instance M_ret : MRet (M S) := λ A a s, (Ok a, s).

#[global] Instance M_bind : MBind (M S) := λ A B f m s,
  match m s with
  | (Ok a, s') => f a s'
  | (Raise e, s') => (Raise e, s')
  end.

Definition raise {A} (e : exn) : M S A := λ s, (Raise e, s).

Definition gets {A} (f : S → A) : M S A := λ s, (Ok (f s), s).

Definition modify (f : S → S) : M S () := λ s, (Ok tt, f s).

(** [try m with h]: [h e = None] is an exception no clause matches. *)
Definition try_with {A} (m : M S A) (h : exn → option (M S A)) : M S A := λ s,
  match m s with
  | (Ok a, s') => (Ok a, s')
  | (Raise e, s') =>
      match h e with
      | Some k => k s'
      | None => (Raise e, s')
      end
  end.

(** [try m finally f]: an exception of [f] replaces the outcome of [m]. *)
Definition finally {A} (m : M S A) (f : M S ()) : M S A := λ s,
  match m s with
  | (r, s') =>
      match f s' with
      | (Ok _, s'') => (r, s'')
      | (Raise e, s'') => (Raise e, s'')
      end
  end.

Definition lift_result {A} (r : result A) : M S A := λ s, (r, s).

Definition when (b : bool) (m : M S ()) : M S () := if b then m else mret tt.

Fixpoint for_each {A} (f : A → M S ()) (l : list A) : M S () :=
  match l with
  | [] => mret tt
  | x :: l => f x ;; for_each f l
  end.

Fixpoint for_acc {A B} (f : B → A → M S B) (b : B) (l : list A) : M S B :=
  match l with
  | [] => mret b
  | x :: l => b' ← f b x; for_acc f b' l
  end.

Definition sys_exit {A} (n : Z) : M S A := raise (SystemExit n).
End monad.

(** Pure fallible code: the same shape without a state. *)
#[global] Instance result_ret : MRet result := @Ok.
#[global] Instance result_bind : MBind result := λ A B f r,
  match r with Ok a => f a | Raise e => Raise e end.

Definition is_Ok {A} (r : result A) : Prop := ∃ a, r = Ok a.

Fixpoint result_foldl {A B} (f : B → A → result B) (b : B) (l : list A) : result B :=
  match l with
  | [] => Ok b
  | x :: l => b' ← f b x; result_foldl f b' l
  end.

(** [[f(x) for x in l]] for an [f] that can raise. *)
Fixpoint result_map {A B} (f : A → result B) (l : list A) : result (list B) :=
  match l with
  | [] => Ok []
  | x :: l => y ← f x; ys ← result_map f l; Ok (y :: ys)
  end.

(** ** Tactics and hint databases *)

Create HintDb devkit discriminated.

(** Unfold the monad at a concrete state and keep case-splitting on what the
    code tests. *)
Ltac munfold :=
  unfold sys_exit, mbind, mret, M_bind, M_ret, result_bind, result_ret, raise, gets,
    modify, try_with, finally, lift_result, when in *.

Ltac mstep :=
  match goal with
  | H : (_, _) = (_, _) |- _ => injection H as H; subst
  | H : Ok _ = Ok _ |- _ => injection H as H; subst
  | H : Raise _ = Raise _ |- _ => injection H as H; subst
  | H : Ok _ = Raise _ |- _ => discriminate H
  | H : Raise _ = Ok _ |- _ => discriminate H
  | H : context [match ?x with _ => _ end] |- _ =>
      lazymatch x with
      | context [match _ with _ => _ end] => fail
      | _ => destruct x eqn:?; simplify_eq/=
      end
  end.

Ltac minv := munfold; repeat mstep.

(** ** Monad laws *)

Section laws.
Context {S : Type}.

Lemma M_bind_ok {A B} (m : M S A) (f : A → M S B) s a s' :
  m s = (Ok a, s') → (m ≫= f) s = f a s'.
Proof. unfold mbind, M_bind. by intros ->. Qed.

Lemma M_bind_raise {A B} (m : M S A) (f : A → M S B) s e s' :
  m s = (Raise e, s') → (m ≫= f) s = (Raise e, s').
Proof. unfold mbind, M_bind. by intros ->. Qed.

Lemma M_bind_inv {A B} (m : M S A) (f : A → M S B) s b s' :
  (m ≫= f) s = (Ok b, s') → ∃ a s1, m s = (Ok a, s1) ∧ f a s1 = (Ok b, s').
Proof. unfold mbind, M_bind. intros. repeat mstep. eauto. Qed.

Lemma for_each_app {A} (f : A → M S ()) l1 l2 s :
  for_each f (l1 ++ l2) s = (for_each f l1 ;; for_each f l2) s.
Proof.
  revert s. induction l1 as [|x l1 IH]; intros s; [done|]. cbn. munfold.
  destruct (f x s) as [[[]|e] s']; [|done]. apply IH.
Qed.

(** The loop rule: an invariant indexed by the processed prefix. *)
Lemma for_each_inv {A} (f : A → M S ()) (I : list A → S → Prop) l s s' :
  I [] s →
  (∀ pre x post s0 s1, l = pre ++ x :: post → I pre s0 →
     f x s0 = (Ok tt, s1) → I (pre ++ [x]) s1) →
  for_each f l s = (Ok tt, s') → I l s'.
Proof.
  intros H0 Hstep.
  enough (∀ pre post s0, l = pre ++ post → I pre s0 →
    for_each f post s0 = (Ok tt, s') → I l s') as Hgen by (by eapply (Hgen [] l)).
  intros pre post. revert pre.
  induction post as [|x post IH]; intros pre s0 -> HI Hrun; cbn in Hrun.
  - rewrite app_nil_r. by minv.
  - unfold mbind, M_bind in Hrun. destruct (f x s0) as [[[]|e] s1] eqn:E; [|done].
    apply (IH (pre ++ [x]) s1); [by rewrite <- app_assoc| |done].
    by eapply Hstep.
Qed.
End laws.

Lemma result_bind_inv {A B} (m : result A) (f : A → result B) b :
  (m ≫= f) = Ok b → ∃ a, m = Ok a ∧ f a = Ok b.
Proof. destruct m as [a|e]; [by eauto|done]. Qed.

Lemma result_map_ok {A B} (f : A → result B) l ys : result_map f l = Ok ys → Forall2 (λ x y, f x = Ok y) l ys.
Proof.
  revert ys. induction l as [|x l IH]; intros ys H; cbn in H; [injection H as <-; constructor|].
  apply result_bind_inv in H as (y & Hy & (ys' & Hys & [= <-])%result_bind_inv). constructor; auto.
Qed.

Lemma result_map_raise {A B} (f : A → result B) l e : result_map f l = Raise e → ∃ x, x ∈ l ∧ f x = Raise e.
Proof.
  induction l as [|x l IH]; cbn; [done|]. destruct (f x) as [y|e'] eqn:E; cbn; [|intros [= ->]; exists x; split; [left|done]].
  destruct (result_map f l) as [ys|e']; cbn; [done|]. intros [= ->]. destruct (IH eq_refl) as (z & ? & ?).
  exists z. split; [by right|done].
Qed.

(** ** Frame conditions

    [always R m]: however [m] ends, the states before and after are related by
    [R].  For a preorder it is closed under the whole monad, so the frame of a
    script follows from the frames of its primitive operations. *)

Section always.
Context {S : Type} (R : relation S) {HR : PreOrder R}.

Definition always {A} (m : M S A) : Prop := ∀ s r s', m s = (r, s') → R s s'.

Lemma always_ret {A} (a : A) : always (mret a).
Proof. intros s r s' H. minv. reflexivity. Qed.

Lemma always_raise {A} e : always (A:=A) (raise e).
Proof. intros s r s' H. minv. reflexivity. Qed.

Lemma always_sys_exit {A} n : always (A:=A) (sys_exit n).
Proof. apply always_raise. Qed.

Lemma always_gets {A} (f : S → A) : always (gets f).
Proof. intros s r s' H. minv. reflexivity. Qed.

Lemma always_lift {A} (x : result A) : always (lift_result x).
Proof. intros s r s' H. minv. reflexivity. Qed.

Lemma always_bind {A B} (m : M S A) (f : A → M S B) :
  always m → (∀ a, always (f a)) → always (m ≫= f).
Proof.
  intros Hm Hf s r s' H. unfold mbind, M_bind in H.
  destruct (m s) as [[a|e] s1] eqn:E; apply Hm in E.
  - apply Hf in H. by transitivity s1.
  - by simplify_eq.
Qed.

Lemma always_if {A} (b : bool) (m1 m2 : M S A) :
  always m1 → always m2 → always (if b then m1 else m2).
Proof. by destruct b. Qed.

Lemma always_when b m : always m → always (when b m).
Proof. destruct b; [done|]. intros. apply always_ret. Qed.

Lemma always_try {A} (m : M S A) h :
  always m → (∀ e k, h e = Some k → always k) → always (try_with m h).
Proof.
  intros Hm Hh s r s' H. unfold try_with in H.
  destruct (m s) as [[a|e] s1] eqn:E; apply Hm in E; [by simplify_eq|].
  destruct (h e) as [k|] eqn:Ek; [|by simplify_eq].
  apply (Hh e k Ek) in H. by transitivity s1.
Qed.

Lemma always_for_each {A} (f : A → M S ()) l : (∀ x, always (f x)) → always (for_each f l).
Proof.
  intros Hf. induction l as [|x l IH]; [apply always_ret|]. cbn. by apply always_bind.
Qed.

Lemma always_for_acc {A B} (f : B → A → M S B) b l :
  (∀ b x, always (f b x)) → always (for_acc f b l).
Proof.
  intros Hf. revert b. induction l as [|x l IH]; intros b; [apply always_ret|].
  cbn. by apply always_bind.
Qed.
End always.

Create HintDb frame discriminated.

(** Decompose a frame goal along the structure of the program. *)
Ltac frame :=
  repeat first
    [ assumption
    | lazymatch goal with |- PreOrder _ => apply _ end
    | simple apply always_ret | simple apply always_raise | simple apply always_sys_exit
    | simple apply always_gets | simple apply always_lift
    | simple apply always_bind; [..|intros ?]
    | simple apply always_if | simple apply always_when
    | simple apply always_for_each; [..|intros ?] | simple apply always_for_acc; [..|intros ? ?]
    | progress (eauto with frame)
    | match goal with
      | |- always _ (match ?x with _ => _ end) => destruct x
      end ].

(** ** Programs that see only part of the state

    [respects R m]: from states [R] relates, [m] gives the same result and leaves
    states [R] relates; that is, [m] is [Proper] for the equivalence [R]. *)

Section respects.
Context {S : Type} (R : relation S).

Definition respects {A} (m : M S A) : Prop :=
  ∀ s1 s2, R s1 s2 → (m s1).1 = (m s2).1 ∧ R (m s1).2 (m s2).2.

Lemma respects_Proper {A} (m : M S A) : respects m ↔ Proper (R ==> prod_relation eq R) m.
Proof. done. Qed.

Lemma respects_ret {A} (a : A) : respects (mret a).
Proof. by intros s1 s2. Qed.

Lemma respects_raise {A} e : respects (A:=A) (raise e).
Proof. by intros s1 s2. Qed.

Lemma respects_sys_exit {A} n : respects (A:=A) (sys_exit n).
Proof. by intros s1 s2. Qed.

Lemma respects_lift {A} (x : result A) : respects (lift_result x).
Proof. by intros s1 s2. Qed.

Lemma respects_gets {A} (f : S → A) : (∀ s1 s2, R s1 s2 → f s1 = f s2) → respects (gets f).
Proof. intros Hf s1 s2 H. cbn. by rewrite (Hf s1 s2 H). Qed.

Lemma respects_modify (f : S → S) : (∀ s1 s2, R s1 s2 → R (f s1) (f s2)) → respects (modify f).
Proof. intros Hf s1 s2 H. cbn. auto. Qed.

Lemma respects_bind {A B} (m : M S A) (f : A → M S B) :
  respects m → (∀ a, respects (f a)) → respects (m ≫= f).
Proof.
  intros Hm Hf s1 s2 H. unfold mbind, M_bind. destruct (Hm s1 s2 H) as [E1 E2].
  destruct (m s1) as [[a1|e1] t1], (m s2) as [[a2|e2] t2]; cbn in *; simplify_eq; [|done]. by apply Hf.
Qed.

Lemma respects_try {A} (m : M S A) h :
  respects m → (∀ e k, h e = Some k → respects k) → respects (try_with m h).
Proof.
  intros Hm Hh s1 s2 H. unfold try_with. destruct (Hm s1 s2 H) as [E1 E2].
  destruct (m s1) as [[a1|e1] t1], (m s2) as [[a2|e2] t2]; cbn in *; simplify_eq; [done|].
  destruct (h e2) eqn:E; [by eapply Hh|done].
Qed.

Lemma respects_when b m : respects m → respects (when b m).
Proof. destruct b; [done|]. intros _. apply respects_ret. Qed.

Lemma respects_for_each {A} (f : A → M S ()) l : (∀ x, respects (f x)) → respects (for_each f l).
Proof. intros Hf. induction l as [|x l IH]; [apply respects_ret|]. by apply respects_bind. Qed.

Lemma respects_for_acc {A B} (f : B → A → M S B) b l :
  (∀ b x, respects (f b x)) → respects (for_acc f b l).
Proof.
  intros Hf. revert b. induction l as [|x l IH]; intros b; [apply respects_ret|]. by apply respects_bind.
Qed.
End respects.

Create HintDb resp discriminated.

(** Decompose a [respects] goal along the structure of the program. *)
Ltac resp :=
  repeat first
    [ assumption
    | simple apply respects_ret | simple apply respects_raise | simple apply respects_lift
    | simple apply respects_sys_exit
    | simple apply respects_bind; [|intros ?]
    | simple apply respects_when
    | simple apply respects_for_each; intros ? | simple apply respects_for_acc; intros ? ?
    | progress (eauto with resp)
    | match goal with
      | |- respects _ (match ?x with _ => _ end) => destruct x
      end ].

(** ** Exceptions a program can let escape *)

Section raises.
Context {S : Type} (P : exn → Prop).

Definition raises {A} (m : M S A) : Prop := ∀ s e s', m s = (Raise e, s') → P e.

Lemma raises_ret {A} (a : A) : raises (mret a).
Proof. intros s e s' H. minv. Qed.

Lemma raises_gets {A} (f : S → A) : raises (gets f).
Proof. intros s e s' H. minv. Qed.

Lemma raises_modify (f : S → S) : raises (modify f).
Proof. intros s e s' H. minv. Qed.

Lemma raises_raise {A} e : P e → raises (A:=A) (raise e).
Proof. intros He s e' s' H. by minv. Qed.

Lemma raises_lift {A} (x : result A) : (∀ e, x = Raise e → P e) → raises (lift_result x).
Proof. intros Hx s e s' H. unfold lift_result in H. simplify_eq. by apply Hx. Qed.

Lemma raises_bind {A B} (m : M S A) (f : A → M S B) :
  raises m → (∀ a, raises (f a)) → raises (m ≫= f).
Proof.
  intros Hm Hf s e s' H. unfold mbind, M_bind in H.
  destruct (m s) as [[a|e1] s1] eqn:E; [by eapply Hf|]. simplify_eq. by eapply Hm.
Qed.

Lemma raises_if {A} (b : bool) (m1 m2 : M S A) :
  raises m1 → raises m2 → raises (if b then m1 else m2).
Proof. by destruct b. Qed.

Lemma raises_when b m : raises m → raises (when b m).
Proof. destruct b; [done|]. intros. apply raises_ret. Qed.

Lemma raises_for_each {A} (f : A → M S ()) l : (∀ x, raises (f x)) → raises (for_each f l).
Proof.
  intros Hf. induction l as [|x l IH]; [apply raises_ret|]. cbn. by apply raises_bind.
Qed.

Lemma raises_for_acc {A B} (f : B → A → M S B) b l :
  (∀ b x, raises (f b x)) → raises (for_acc f b l).
Proof.
  intros Hf. revert b. induction l as [|x l IH]; intros b; [apply raises_ret|].
  cbn. by apply raises_bind.
Qed.

Lemma raises_sys_exit {A} n : P (SystemExit n) → raises (A:=A) (sys_exit n).
Proof. apply raises_raise. Qed.

(** What the body raises and no clause matches, or what a clause raises. *)
Lemma raises_try {A} (Q : exn → Prop) (m : M S A) h :
  (∀ s e s', m s = (Raise e, s') → Q e) →
  (∀ e, Q e → h e = None → P e) → (∀ e k, Q e → h e = Some k → raises k) →
  raises (try_with m h).
Proof.
  intros Hm Hn Hk s e s' H. unfold try_with in H.
  destruct (m s) as [[a|e1] s1] eqn:E; [done|]. apply Hm in E.
  destruct (h e1) as [k|] eqn:Ek; [by eapply Hk|]. simplify_eq. by apply Hn.
Qed.
End raises.

Create HintDb exc discriminated.

(** Decompose a [raises] goal along the structure of the program. *)
Ltac exc :=
  repeat first
    [ assumption
    | simple apply raises_ret | simple apply raises_gets | simple apply raises_modify
    | simple apply raises_bind; [..|intros ?]
    | simple apply raises_if | simple apply raises_when
    | simple apply raises_for_each; intros ? | simple apply raises_for_acc; intros ? ?
    | progress (eauto with exc)
    | match goal with
      | |- raises _ (match ?x with _ => _ end) => destruct x
      end ].

(** ** Lists *)

(** Induction two elements at a time. *)
Lemma list_pair_ind {A} (P : list A → Prop) :
  P [] → (∀ a, P [a]) → (∀ a b l, P l → P (a :: b :: l)) → ∀ l, P l.
Proof.
  intros H0 H1 H2 l. enough (P l ∧ ∀ a, P (a :: l)) as [? _] by done.
  induction l as [|b l [IH1 IH2]]; auto.
Qed.

Lemma Forall_app_1 {A} (P : A → Prop) l x : Forall P l → P x → Forall P (l ++ [x]).
Proof. intros. apply Forall_app; auto. Qed.

Lemma filter_app_singleton_in {A} (P : A → Prop) `{!∀ x, Decision (P x)} l x :
  P x → filter P (l ++ [x]) = filter P l ++ [x].
Proof. intros. by rewrite filter_app, filter_cons_True. Qed.

Lemma filter_none {A} (P : A → Prop) `{!∀ x, Decision (P x)} (l : list A) : (∀ x, x ∈ l → ¬ P x) → filter P l = [].
Proof. intros Hn. apply elem_of_nil_inv. intros x [? ?]%list_elem_of_filter. by eapply Hn. Qed.

Lemma filter_ext_in {A} (P Q : A → Prop) `{!∀ x, Decision (P x), !∀ x, Decision (Q x)} (l : list A) :
  (∀ x, x ∈ l → P x ↔ Q x) → filter P l = filter Q l.
Proof.
  induction l as [|x l IH]; intros HPQ; [done|]. rewrite !filter_cons.
  rewrite IH by (intros; apply HPQ; by right).
  assert (P x ↔ Q x) by (apply HPQ; left). repeat case_decide; naive_solver.
Qed.

Lemma fst_of_pair {A B} (p : A * B) a b : p = (a, b) → p.1 = a.
Proof. by intros ->. Qed.

#[export] Hint Resolve Forall_app_1 : devkit.
