(* ===== verification/PyStr.v ===== *)
(** * Python strings and integers

    The [str] and [int] operations the scripts use, as executable functions on
    [string].  A character is one [ascii]; the modelled text is ASCII, so a
    character is also one byte of its UTF-8 encoding. *)

From stdpp Require Import base list strings.
From Stdlib Require Import Ascii ZArith Lia.
From S2P Require Import Prelude.

(** ** Characters *)

Definition code (c : ascii) : N := N_of_ascii c.

(** [str.isspace] on ASCII: \t \n \v \f \r, \x1c..\x1f and the blank. *)
Definition is_space (c : ascii) : bool :=
  let n := code c in
  ((9 <=? n)%N && (n <=? 13)%N) || ((28 <=? n)%N && (n <=? 32)%N).

Definition is_digit (c : ascii) : bool :=
  let n := code c in (48 <=? n)%N && (n <=? 57)%N.

Definition digit_val (c : ascii) : Z := Z.of_N (code c) - 48.

Definition digit_char (d : Z) : ascii := ascii_of_N (Z.to_N (48 + d)).

Definition newline : ascii := "010".
Definition nl : string := String newline "".

(** ** Strings *)

Fixpoint str_forall (P : ascii → bool) (s : string) : bool :=
  match s with
  | "" => true
  | String c s => P c && str_forall P s
  end.

Fixpoint str_mem (c : ascii) (s : string) : bool :=
  match s with
  | "" => false
  | String d s => bool_decide (c = d) || str_mem c s
  end.

Definition startswith (s p : string) : bool := String.prefix p s.

Definition endswith (s p : string) : bool :=
  String.prefix (String.rev p) (String.rev s).

(** [sub in s] *)
Fixpoint str_contains (s sub : string) : bool :=
  String.prefix sub s ||
  match s with
  | "" => false
  | String _ s' => str_contains s' sub
  end.

Fixpoint lstrip (s : string) : string :=
  match s with
  | "" => ""
  | String c s' => if is_space c then lstrip s' else s
  end.

Fixpoint rstrip (s : string) : string :=
  match s with
  | "" => ""
  | String c s' =>
      match rstrip s' with
      | "" => if is_space c then "" else String c ""
      | r => String c r
      end
  end.

Definition strip (s : string) : string := lstrip (rstrip s).

(** [s.replace(old, new)], [old] not empty: leftmost matches, no overlap.
    [skip] counts the characters of a match still to be dropped. *)
Fixpoint replace_go (old new : string) (skip : nat) (s : string) : string :=
  match s with
  | "" => ""
  | String c s' =>
      match skip with
      | S k => replace_go old new k s'
      | O => if String.prefix old s
             then new +:+ replace_go old new (String.length old - 1) s'
             else String c (replace_go old new 0 s')
      end
  end.
Definition replace (s old new : string) : string := replace_go old new 0 s.

(** [s.split(c)] for a one-character separator. *)
Fixpoint split_on (c : ascii) (s : string) : list string :=
  match s with
  | "" => [""]
  | String d s' =>
      if bool_decide (d = c) then "" :: split_on c s'
      else match split_on c s' with
           | [] => [String d ""]
           | w :: ws => String d w :: ws
           end
  end.

(** [s.split(c, 1)] when [c in s]: what is before and after the first [c]. *)
Fixpoint split1 (c : ascii) (s : string) : string * string :=
  match s with
  | "" => ("", "")
  | String d s' =>
      if bool_decide (d = c) then ("", s')
      else let '(a, b) := split1 c s' in (String d a, b)
  end.

Fixpoint join (sep : string) (l : list string) : string :=
  match l with
  | [] => ""
  | [w] => w
  | w :: ws => w +:+ sep +:+ join sep ws
  end.

(** [s.splitlines()]: ends a line at \n, \r, \r\n, \v, \f, \x1c, \x1d, \x1e;
    no empty last line. *)
Definition is_linebreak (c : ascii) : bool :=
  let n := code c in
  ((10 <=? n)%N && (n <=? 13)%N) || ((28 <=? n)%N && (n <=? 30)%N).

Fixpoint splitlines_go (cur : string) (prev_cr : bool) (s : string) : list string :=
  match s with
  | "" => match cur with "" => [] | _ => [cur] end
  | String c s' =>
      if prev_cr && (code c =? 10)%N then splitlines_go "" false s'
      else if is_linebreak c then cur :: splitlines_go "" (code c =? 13)%N s'
      else splitlines_go (cur +:+ String c "") false s'
  end.
Definition splitlines (s : string) : list string := splitlines_go "" false s.

(** Text-mode iteration over a file: universal newlines, every line keeps
    nothing of its terminator once it is stripped. *)
Fixpoint file_lines_go (cur : string) (prev_cr : bool) (s : string) : list string :=
  match s with
  | "" => match cur with "" => [] | _ => [cur] end
  | String c s' =>
      if prev_cr && (code c =? 10)%N then file_lines_go "" false s'
      else if (code c =? 10)%N || (code c =? 13)%N
           then (cur +:+ nl) :: file_lines_go "" (code c =? 13)%N s'
           else file_lines_go (cur +:+ String c "") false s'
  end.
Definition file_lines (s : string) : list string := file_lines_go "" false s.

Fixpoint str_repeat (s : string) (n : nat) : string :=
  match n with O => "" | S n => s +:+ str_repeat s n end.

Fixpoint str_drop (n : nat) (s : string) : string :=
  match n, s with
  | O, _ => s
  | S n, "" => ""
  | S n, String _ s => str_drop n s
  end.

Fixpoint str_take (n : nat) (s : string) : string :=
  match n, s with
  | O, _ => ""
  | S n, "" => ""
  | S n, String c s => String c (str_take n s)
  end.

(** [s[k:]] for any integer [k]: a negative start counts from the end and is
    clamped to the string. *)
Definition slice_from (s : string) (k : Z) : string :=
  let len := Z.of_nat (String.length s) in
  let start := if (k <? 0)%Z then Z.max 0 (len + k) else k in
  str_drop (Z.to_nat start) s.

(** ** Integers *)

(** [str(n)] *)
Fixpoint digits_go (fuel : nat) (n : Z) (acc : string) : string :=
  match fuel with
  | O => acc
  | S fuel =>
      let acc' := String (digit_char (n mod 10)) acc in
      if (n <? 10)%Z then acc' else digits_go fuel (n / 10) acc'
  end.
Definition nat_digits (n : Z) : string := digits_go (S (Z.to_nat (Z.log2 n))) n "".

Definition str_of_Z (n : Z) : string :=
  if (n <? 0)%Z then "-" +:+ nat_digits (- n) else nat_digits n.

(** The digits of an integer literal: digits, with single underscores between
    them.  [prev] tells whether the last character was a digit. *)
Fixpoint parse_digits (prev : bool) (acc : Z) (s : string) : option Z :=
  match s with
  | "" => if prev then Some acc else None
  | String c s =>
      if is_digit c then parse_digits true (10 * acc + digit_val c) s
      else if bool_decide (c = "_"%char) && prev then parse_digits false acc s
      else None
  end.

Fixpoint count_digits (s : string) : nat :=
  match s with
  | "" => 0
  | String c s => (if is_digit c then 1 else 0) + count_digits s
  end.

(** CPython refuses a decimal literal of more than 4300 digits. *)
Definition max_str_digits : nat := 4300.

Definition parse_unsigned (s : string) : option Z :=
  if (max_str_digits <? count_digits s)%nat then None else parse_digits false 0 s.

(** [int(s)]; [None] is a [ValueError]. *)
Definition py_int (s : string) : option Z :=
  match strip s with
  | String "-" s => Z.opp <$> parse_unsigned s
  | String "+" s => parse_unsigned s
  | s => parse_unsigned s
  end.

Definition py_int_r (s : string) : result Z :=
  match py_int s with
  | Some n => Ok n
  | None => Raise (ValueError ("invalid literal for int() with base 10: '" +:+ s +:+ "'"))
  end.

(** ** Lemmas: append, prefix, length *)

Lemma str_app_cons c s t : String c s +:+ t = String c (s +:+ t).
Proof. done. Qed.

Lemma str_app_nil_l s : "" +:+ s = s.
Proof. done. Qed.

Lemma str_app_nil_r s : s +:+ "" = s.
Proof. induction s as [|c s IH]; [done|]. by rewrite str_app_cons, IH. Qed.

Lemma str_app_assoc s t u : (s +:+ t) +:+ u = s +:+ (t +:+ u).
Proof. induction s as [|c s IH]; [done|]. by rewrite !str_app_cons, IH. Qed.

(** Concatenations to the right, literals unfolded. *)
Ltac str_norm := repeat first [rewrite str_app_assoc | rewrite str_app_cons | rewrite str_app_nil_l].

Lemma str_app_inj_l p s t : p +:+ s = p +:+ t → s = t.
Proof. induction p as [|c p IH]; [done|]. rewrite !str_app_cons. intros [= ?]. auto. Qed.

Lemma str_length_app s t : String.length (s +:+ t) = String.length s + String.length t.
Proof. induction s as [|c s IH]; [done|]. rewrite str_app_cons. simpl. by rewrite IH. Qed.

Create Rewrite HintDb pystr.
#[export] Hint Rewrite str_app_cons str_app_nil_l str_app_nil_r str_app_assoc
  str_length_app : pystr.

(** Equal concatenations with right parts of one length agree part by part. *)
Lemma str_app_inj_length s1 s2 t1 t2 : String.length t1 = String.length t2 →
  s1 +:+ t1 = s2 +:+ t2 → s1 = s2 ∧ t1 = t2.
Proof.
  intros Ht. revert s2. induction s1 as [|c s1 IH]; intros [|c2 s2] E;
    rewrite ?str_app_nil_l, ?str_app_cons in E.
  - done.
  - apply (f_equal String.length) in E. cbn in E. rewrite str_length_app in E. lia.
  - apply (f_equal String.length) in E. cbn in E. rewrite str_length_app in E. lia.
  - injection E as -> E. destruct (IH _ E) as [-> ->]. done.
Qed.

Lemma prefix_spec p s : String.prefix p s = true ↔ ∃ t, s = p +:+ t.
Proof.
  revert s. induction p as [|c p IH]; intros s; simpl.
  - destruct s; (split; [by eexists|done]).
  - destruct s as [|d s]; simpl.
    + split; [done|]. intros [t Ht]. by rewrite str_app_cons in Ht.
    + destruct (ascii_dec c d) as [->|Hne].
      * rewrite IH. split; intros [t Ht]; exists t.
        -- by rewrite str_app_cons, Ht.
        -- rewrite str_app_cons in Ht. by simplify_eq.
      * split; [done|]. intros [t Ht]. rewrite str_app_cons in Ht. by simplify_eq.
Qed.

Lemma prefix_app p s : String.prefix p (p +:+ s) = true.
Proof. apply prefix_spec. eauto. Qed.

Lemma str_forall_app P s t : str_forall P (s +:+ t) = str_forall P s && str_forall P t.
Proof.
  induction s as [|c s IH]; [done|]. rewrite str_app_cons. simpl.
  by rewrite IH, andb_assoc.
Qed.

Lemma str_mem_app c s t : str_mem c (s +:+ t) = str_mem c s || str_mem c t.
Proof.
  induction s as [|d s IH]; [done|]. rewrite str_app_cons. simpl.
  by rewrite IH, orb_assoc.
Qed.

Lemma str_forall_impl (P Q : ascii → bool) s :
  (∀ c, P c = true → Q c = true) → str_forall P s = true → str_forall Q s = true.
Proof.
  intros HPQ. induction s as [|c s IH]; [done|]. simpl.
  rewrite !andb_true_iff. intros [??]; auto.
Qed.

Lemma str_forall_not_mem (P : ascii → bool) c s :
  P c = false → str_forall P s = true → str_mem c s = false.
Proof.
  intros Hc. induction s as [|d s IH]; [done|]. simpl.
  rewrite andb_true_iff, orb_false_iff. intros [Hd Hs]. split; [|auto].
  apply bool_decide_eq_false. intros ->. congruence.
Qed.

(** ** Lemmas: strip *)

Definition no_space (s : string) : bool := str_forall (λ c, negb (is_space c)) s.

Lemma rstrip_no_space s : no_space s = true → rstrip s = s.
Proof.
  induction s as [|c s IH]; [done|]. cbn. rewrite andb_true_iff, negb_true_iff.
  intros [Hc Hs]. rewrite (IH Hs). destruct s; by rewrite ?Hc.
Qed.

Lemma strip_no_space s : no_space s = true → strip s = s.
Proof.
  intros H. unfold strip. rewrite rstrip_no_space by done.
  destruct s as [|c s]; [done|]. cbn in H |- *.
  apply andb_true_iff in H as [Hc%negb_true_iff _]. by rewrite Hc.
Qed.

(** [strip] keeps a string whose first and last characters are not blanks. *)
Definition trimmed (s : string) : bool :=
  match s with
  | "" => true
  | String c _ => negb (is_space c) && bool_decide (rstrip s = s)
  end.

Lemma strip_trimmed s : trimmed s = true → strip s = s.
Proof.
  destruct s as [|c s]; [done|]. cbn [trimmed]. intros [Hc H]%andb_true_iff.
  unfold strip. apply bool_decide_eq_true in H. rewrite H. cbn.
  apply negb_true_iff in Hc. by rewrite Hc.
Qed.

Lemma rstrip_app_nonempty s t : rstrip t ≠ "" → rstrip (s +:+ t) = s +:+ rstrip t.
Proof.
  intros Ht. induction s as [|c s IH]; [done|].
  rewrite !str_app_cons. cbn. rewrite IH.
  destruct (s +:+ rstrip t) eqn:E; [|done].
  destruct s; [|by rewrite str_app_cons in E]. by rewrite str_app_nil_l in E.
Qed.

Lemma rstrip_nl s : rstrip (s +:+ nl) = rstrip s.
Proof.
  induction s as [|c s IH]; [done|]. rewrite str_app_cons. cbn. by rewrite IH.
Qed.

Lemma strip_nl s : strip (s +:+ nl) = strip s.
Proof. unfold strip. by rewrite rstrip_nl. Qed.

(** ** Lemmas: integers *)

Lemma digit_char_spec d : (0 ≤ d < 10)%Z →
  is_digit (digit_char d) = true ∧ digit_val (digit_char d) = d.
Proof.
  intros Hd.
  assert (d = 0 ∨ d = 1 ∨ d = 2 ∨ d = 3 ∨ d = 4 ∨ d = 5 ∨ d = 6 ∨ d = 7 ∨ d = 8 ∨ d = 9)%Z
    as Hc by lia.
  by repeat destruct Hc as [->|Hc]; try subst.
Qed.

Lemma digits_go_parse fuel n acc : (0 ≤ n)%Z → (n < 10 ^ Z.of_nat fuel)%Z → fuel ≠ O →
  ∃ k, (0 ≤ k)%Z ∧ ∀ prev a,
    parse_digits prev a (digits_go fuel n acc) = parse_digits true (a * 10 ^ k + n) acc.
Proof.
  revert n acc. induction fuel as [|fuel IH]; intros n acc Hn Hlt Hf; [done|].
  cbn [digits_go].
  assert (0 ≤ n mod 10 < 10)%Z as Hmod by (apply Z.mod_pos_bound; lia).
  destruct (digit_char_spec _ Hmod) as [Hd Hv].
  pose proof (Z.div_mod n 10 ltac:(lia)) as Hdm.
  destruct (n <? 10)%Z eqn:E.
  - apply Z.ltb_lt in E. exists 1%Z. split; [lia|]. intros prev a. cbn.
    rewrite Hd, Hv. f_equal. rewrite Z.mod_small by lia. lia.
  - apply Z.ltb_ge in E.
    assert (1 ≤ n / 10)%Z by (apply Z.div_le_lower_bound; lia).
    destruct fuel as [|fuel']; [cbn in Hlt; lia|].
    destruct (IH (n / 10)%Z (String (digit_char (n mod 10)) acc)) as (k & Hk & Hp);
      [lia| |lia|].
    { apply Z.div_lt_upper_bound; [lia|]. rewrite (Nat2Z.inj_succ (S fuel')) in Hlt.
      rewrite Z.pow_succ_r in Hlt; lia. }
    exists (k + 1)%Z. split; [lia|]. intros prev a. rewrite Hp. cbn. rewrite Hd, Hv.
    f_equal. rewrite Z.pow_add_r by lia. lia.
Qed.

Lemma log2_pow10 n : (0 ≤ n)%Z → (n < 10 ^ Z.of_nat (S (Z.to_nat (Z.log2 n))))%Z.
Proof.
  intros Hn. rewrite Nat2Z.inj_succ, Z2Nat.id by apply Z.log2_nonneg.
  destruct (decide (n = 0)%Z) as [->|]; [done|].
  pose proof (Z.log2_spec n ltac:(lia)) as [_ Hlt].
  eapply Z.lt_le_trans; [exact Hlt|].
  apply Z.pow_le_mono_l. pose proof (Z.log2_nonneg n). lia.
Qed.

Lemma digits_go_forall P fuel n acc : (∀ d, (0 ≤ d < 10)%Z → P (digit_char d) = true) →
  str_forall P acc = true → str_forall P (digits_go fuel n acc) = true.
Proof.
  intros HP. revert n acc. induction fuel as [|fuel IH]; intros n acc Hacc; [done|].
  cbn [digits_go].
  assert (P (digit_char (n mod 10)) = true) as Hd
    by (apply HP, Z.mod_pos_bound; lia).
  destruct (n <? 10)%Z; [|apply IH]; cbn; by rewrite Hd.
Qed.

Lemma nat_digits_forall P n : (∀ d, (0 ≤ d < 10)%Z → P (digit_char d) = true) →
  str_forall P (nat_digits n) = true.
Proof. intros. by apply digits_go_forall. Qed.

Lemma nat_digits_parse n : (0 ≤ n)%Z → parse_digits false 0 (nat_digits n) = Some n.
Proof.
  intros Hn. destruct (digits_go_parse (S (Z.to_nat (Z.log2 n))) n "" Hn)
    as (k & _ & Hp); [by apply log2_pow10|done|].
  unfold nat_digits. by rewrite Hp.
Qed.

Lemma digit_cases (P : ascii → Prop) :
  P "0"%char → P "1"%char → P "2"%char → P "3"%char → P "4"%char → P "5"%char →
  P "6"%char → P "7"%char → P "8"%char → P "9"%char →
  ∀ d, (0 ≤ d < 10)%Z → P (digit_char d).
Proof.
  intros ?????????? d Hd.
  assert (d = 0 ∨ d = 1 ∨ d = 2 ∨ d = 3 ∨ d = 4 ∨ d = 5 ∨ d = 6 ∨ d = 7 ∨ d = 8 ∨ d = 9)%Z
    as Hc by lia.
  by repeat destruct Hc as [->|Hc]; try subst.
Qed.

Lemma str_of_Z_no_space n : no_space (str_of_Z n) = true.
Proof.
  assert (∀ m, no_space (nat_digits m) = true) as H.
  { intros m. apply nat_digits_forall. by apply (digit_cases (λ c, negb (is_space c) = true)). }
  unfold str_of_Z. destruct (n <? 0)%Z; [|apply H]. rewrite str_app_cons. apply H.
Qed.

(** A literal short enough for CPython's limit on digits. *)
Definition printable (n : Z) : bool := (count_digits (str_of_Z n) <=? max_str_digits)%nat.

Lemma nat_digits_head n c s : nat_digits n = String c s → is_digit c = true.
Proof.
  intros H. assert (str_forall is_digit (nat_digits n) = true) as Hd.
  { apply nat_digits_forall. intros d Hd. by apply digit_char_spec. }
  rewrite H in Hd. cbn in Hd. by apply andb_true_iff in Hd as [? _].
Qed.

(** Printing an integer and reading it back. *)
Lemma py_int_str n : printable n = true → py_int (str_of_Z n) = Some n.
Proof.
  unfold printable. intros Hd%Nat.leb_le. unfold py_int.
  rewrite strip_no_space by apply str_of_Z_no_space.
  unfold str_of_Z in *. destruct (n <? 0)%Z eqn:E.
  - apply Z.ltb_lt in E. rewrite str_app_cons, str_app_nil_l in *.
    change (count_digits (nat_digits (- n)) ≤ max_str_digits) in Hd.
    unfold parse_unsigned. rewrite (proj2 (Nat.ltb_ge _ _)) by done.
    rewrite nat_digits_parse by lia. cbn. f_equal. lia.
  - apply Z.ltb_ge in E.
    pose proof (nat_digits_parse n E) as Hp.
    destruct (nat_digits n) as [|c s] eqn:Hs; [done|].
    pose proof (nat_digits_head _ _ _ Hs) as Hc.
    assert (parse_unsigned (String c s) = Some n) as Hu.
    { unfold parse_unsigned. rewrite (proj2 (Nat.ltb_ge _ _)); [done|]. lia. }
    destruct c as [[] [] [] [] [] [] [] []]; first [exact Hu | discriminate Hc].
Qed.

Lemma py_int_r_str n : printable n = true → py_int_r (str_of_Z n) = Ok n.
Proof. intros. unfold py_int_r. by rewrite py_int_str. Qed.

(** ** Lemmas: split, join, replace *)

Lemma split_on_no_sep c s : str_mem c s = false → split_on c s = [s].
Proof.
  induction s as [|d s IH]; [done|]. cbn. rewrite orb_false_iff.
  intros [Hd%bool_decide_eq_false Hs]. rewrite bool_decide_eq_false_2 by congruence.
  by rewrite (IH Hs).
Qed.

Lemma split_on_app c s t : str_mem c s = false →
  split_on c (s +:+ String c t) = s :: split_on c t.
Proof.
  induction s as [|d s IH]; intros Hs.
  - rewrite str_app_nil_l. cbn. by rewrite bool_decide_eq_true_2.
  - rewrite str_app_cons. cbn in Hs |- *. apply orb_false_iff in Hs as [Hd Hs].
    apply bool_decide_eq_false in Hd. rewrite bool_decide_eq_false_2 by congruence.
    by rewrite (IH Hs).
Qed.

(** [sep.join(l).split(sep)] for a one-character separator. *)
Lemma split_on_join c l : l ≠ [] → Forall (λ s, str_mem c s = false) l →
  split_on c (join (String c "") l) = l.
Proof.
  intros Hl H. induction H as [|s l Hs Hrest IH]; [done|].
  destruct l as [|s' l]; [by apply split_on_no_sep|].
  change (join _ (s :: s' :: l)) with (s +:+ String c "" +:+ join (String c "") (s' :: l)).
  rewrite str_app_cons, str_app_nil_l, split_on_app by done. by rewrite IH.
Qed.

Lemma split_on_parts c s : Forall (λ x, str_mem c x = false) (split_on c s).
Proof.
  induction s as [|d s IH]; cbn; [by repeat constructor|]. case_bool_decide as Hd; [by constructor|].
  destruct (split_on c s) as [|h t]; [constructor; [|constructor]|apply Forall_cons in IH as [Hh Ht]; constructor; [|done]];
    cbn; rewrite bool_decide_eq_false_2 by congruence; done.
Qed.

Lemma split_on_ne c s : split_on c s ≠ [].
Proof. destruct s as [|d s]; cbn; [done|]. case_bool_decide; [done|]. by destruct (split_on c s). Qed.

Lemma join_split_on c s : join (String c "") (split_on c s) = s.
Proof.
  induction s as [|d s IH]; [done|]. cbn [split_on]. pose proof (split_on_ne c s) as Hne.
  destruct (split_on c s) as [|h t]; [done|]. case_bool_decide as Hd.
  - subst d. change (join (String c "") ("" :: h :: t)) with ("" +:+ String c "" +:+ join (String c "") (h :: t)).
    by rewrite IH, str_app_nil_l, str_app_cons, str_app_nil_l.
  - rewrite <- IH. by destruct t.
Qed.

Lemma join_snoc sep l x : l ≠ [] → join sep (l ++ [x]) = join sep l +:+ sep +:+ x.
Proof.
  induction l as [|y l IH]; intros Hl; [done|]. destruct l as [|z l]; [done|].
  change ((y :: z :: l) ++ [x]) with (y :: (z :: l) ++ [x]).
  change (join sep (y :: z :: l)) with (y +:+ sep +:+ join sep (z :: l)).
  change (join sep (y :: (z :: l) ++ [x])) with (y +:+ sep +:+ join sep ((z :: l) ++ [x])).
  rewrite IH by done. by rewrite !str_app_assoc.
Qed.

Lemma split1_app c s t : str_mem c s = false → split1 c (s +:+ String c t) = (s, t).
Proof.
  induction s as [|d s IH]; intros Hs.
  - rewrite str_app_nil_l. cbn. by rewrite bool_decide_eq_true_2.
  - rewrite str_app_cons. cbn in Hs |- *. apply orb_false_iff in Hs as [Hd Hs].
    apply bool_decide_eq_false in Hd. rewrite bool_decide_eq_false_2 by congruence.
    by rewrite (IH Hs).
Qed.

(** No occurrence of [old]: nothing is replaced. *)
Lemma replace_go_absent old new s : old ≠ "" →
  str_contains s old = false → replace_go old new 0 s = s.
Proof.
  intros Ho. induction s as [|c s IH]; [done|]. cbn [str_contains].
  rewrite orb_false_iff. intros [Hp Hs]. cbn [replace_go]. rewrite Hp. by rewrite IH.
Qed.

Lemma replace_go_skip old new p s :
  replace_go old new (String.length p) (p +:+ s) = replace_go old new 0 s.
Proof. induction p as [|c p IH]; [done|]. rewrite str_app_cons. cbn. apply IH. Qed.

(** A tag at the head of a line, absent from the rest, is what [replace]
    removes. *)
Lemma replace_head old s : old ≠ "" → str_contains s old = false →
  replace (old +:+ s) old "" = s.
Proof.
  intros Ho Hs. unfold replace. destruct old as [|c old]; [done|].
  rewrite str_app_cons. cbn [replace_go].
  rewrite <- str_app_cons, prefix_app, str_app_nil_l. cbn [String.length].
  rewrite Nat.sub_succ, Nat.sub_0_r, replace_go_skip. by apply replace_go_absent.
Qed.

Lemma str_contains_head_absent c sub s : str_mem c s = false →
  str_contains s (String c sub) = false.
Proof.
  induction s as [|d s IH]; [done|]. cbn [str_mem str_contains]. rewrite orb_false_iff.
  intros [Hd%bool_decide_eq_false Hs]. rewrite (IH Hs), orb_false_r. cbn.
  by destruct (ascii_dec c d).
Qed.

Lemma str_drop_length n s : String.length (str_drop n s) = String.length s - n.
Proof. revert s. induction n; intros [|c s]; cbn; auto. Qed.

Lemma str_drop_suffix n s : ∃ p, s = p +:+ str_drop n s.
Proof.
  revert s. induction n as [|n IH]; intros s; [by exists ""|].
  destruct s as [|c s]; [by exists ""|]. destruct (IH s) as [p Hp].
  exists (String c p). cbn. by rewrite str_app_cons, <- Hp.
Qed.

Lemma str_repeat_length c n : String.length (str_repeat (String c "") n) = n.
Proof. induction n as [|n IH]; [done|]. cbn. rewrite str_length_app. cbn. by rewrite IH. Qed.

(** The characters of a printed integer. *)
Definition num_char (c : ascii) : bool := is_digit c || bool_decide (c = "-"%char).

Lemma str_of_Z_chars n : str_forall num_char (str_of_Z n) = true.
Proof.
  assert (∀ m, str_forall num_char (nat_digits m) = true) as H.
  { intros m. apply nat_digits_forall. by apply (digit_cases (λ c, num_char c = true)). }
  unfold str_of_Z. destruct (n <? 0)%Z; [|apply H]. rewrite str_app_cons. apply H.
Qed.

Lemma str_of_Z_not_mem c n : num_char c = false → str_mem c (str_of_Z n) = false.
Proof. intros. by eapply str_forall_not_mem, str_of_Z_chars. Qed.

Lemma str_of_Z_not_dash n : str_of_Z n ≠ "-".
Proof.
  unfold str_of_Z. destruct (n <? 0)%Z eqn:E; intros H.
  - rewrite str_app_cons, str_app_nil_l in H. injection H as H.
    pose proof (nat_digits_parse (- n)) as Hp. rewrite H in Hp. cbn in Hp. apply Z.ltb_lt in E.
    by discriminate Hp; lia.
  - by apply nat_digits_head in H.
Qed.

Lemma num_char_plain c : num_char c = true → is_space c = false ∧ ((code c =? 10)%N || (code c =? 13)%N) = false.
Proof. destruct c as [[] [] [] [] [] [] [] []]; try done; vm_compute; done. Qed.

Lemma str_of_Z_ascii n : str_forall (λ c, (0 <=? code c)%N && (code c <=? 127)%N) (str_of_Z n) = true.
Proof.
  eapply str_forall_impl; [|apply str_of_Z_chars]. intros c. by destruct c as [[] [] [] [] [] [] [] []].
Qed.
