(* ===== verification/PyFloat.v ===== *)
(** * Python floats

    IEEE 754 binary64 as [spec_float]: arithmetic and comparison are the
    correctly rounded operations of [SpecFloat] at precision 53 and exponent
    bound 1024, so every definition here computes.  Division of two [int]s,
    [float(str)] and the [%] presentation of [format] are built on the same
    rounding. *)

From stdpp Require Import base list strings.
From Stdlib Require Import Ascii ZArith Lia SpecFloat.
From S2P Require Import Prelude PyStr.

Abbreviation float := spec_float.

#[export] Instance float_eq_dec : EqDecision float.
Proof. solve_decision. Defined.

Definition prec : Z := 53.
Definition emax : Z := 1024.

Definition fmul : float → float → float := SFmul prec emax.
Definition fadd : float → float → float := SFadd prec emax.
Definition fdiv : float → float → float := SFdiv prec emax.
Definition flt : float → float → bool := SFltb.
Definition fle : float → float → bool := SFleb.

(** [n / d] rounded to nearest, ties to even; [d] is positive. *)
Definition round_ratio (n : Z) (d : positive) : float :=
  match n with
  | Z0 => S754_zero false
  | Zpos m =>
      let '(q, e, l) := SFdiv_core_binary prec emax (Zpos m) 0 (Zpos d) 0 in
      binary_round_aux prec emax false q e l
  | Zneg m =>
      let '(q, e, l) := SFdiv_core_binary prec emax (Zpos m) 0 (Zpos d) 0 in
      binary_round_aux prec emax true q e l
  end.

Definition is_inf (x : float) : bool := match x with S754_infinity _ => true | _ => false end.

(** [float(n)] and [n / d] on [int]s: too large a result is an
    [OverflowError]. *)
Definition float_of_Z (n : Z) : result float :=
  let x := round_ratio n 1 in if is_inf x then Raise OverflowError else Ok x.

Definition int_div (n d : Z) : result float :=
  match d with
  | Z0 => Raise ZeroDivisionError
  | Zpos p => let x := round_ratio n p in if is_inf x then Raise OverflowError else Ok x
  | Zneg p => let x := round_ratio (- n) p in if is_inf x then Raise OverflowError else Ok x
  end.

(** The float literals of the sources. *)
Definition f0 : float := S754_zero false.
Definition f1 : float := Eval vm_compute in round_ratio 1 1.
Definition f100 : float := Eval vm_compute in round_ratio 100 1.

(** ** [float(str)] *)

Definition pow10 (k : Z) : positive := Z.to_pos (10 ^ k).

(** [sig * 10 ^ e] *)
Definition dec_float (neg : bool) (sig e : Z) : float :=
  let x := if (e <? 0)%Z then round_ratio sig (pow10 (- e))
           else round_ratio (sig * 10 ^ e) 1 in
  if neg then SFopp x else x.

Fixpoint span_digits (s : string) : string * string :=
  match s with
  | "" => ("", "")
  | String c s' =>
      if is_digit c then let '(a, b) := span_digits s' in (String c a, b) else ("", s)
  end.

Fixpoint digits_val (acc : Z) (s : string) : Z :=
  match s with "" => acc | String c s => digits_val (10 * acc + digit_val c) s end.

Definition parse_sign (s : string) : bool * string :=
  match s with
  | String "-" s => (true, s)
  | String "+" s => (false, s)
  | s => (false, s)
  end.

(** The exponent part, up to the end of the text. *)
Definition parse_exponent (s : string) : option Z :=
  match s with
  | "" => Some 0%Z
  | String c s =>
      if bool_decide (c = "e"%char) || bool_decide (c = "E"%char) then
        let '(neg, s) := parse_sign s in
        match span_digits s with
        | ("", _) => None
        | (ds, "") => Some (if neg then - digits_val 0 ds else digits_val 0 ds)%Z
        | _ => None
        end
      else None
  end.

Definition to_lower (c : ascii) : ascii :=
  let n := code c in
  if (65 <=? n)%N && (n <=? 90)%N then ascii_of_N (n + 32) else c.
Fixpoint str_lower (s : string) : string :=
  match s with "" => "" | String c s => String (to_lower c) (str_lower s) end.

(** Single underscores between two digits are dropped, any other is refused. *)
Fixpoint drop_underscores (prev : bool) (s : string) : option string :=
  match s with
  | "" => Some ""
  | String c s' =>
      if bool_decide (c = "_"%char) then
        match s' with
        | String d _ => if prev && is_digit d then drop_underscores false s' else None
        | "" => None
        end
      else String c <$> drop_underscores (is_digit c) s'
  end.

(** [float(s)]; [None] is a [ValueError]. *)
Definition parse_float (s : string) : option float :=
  s ← drop_underscores false (strip s);
  let '(neg, s) := parse_sign s in
  let low := str_lower s in
  if bool_decide (low ∈ ["inf"; "infinity"]) then Some (S754_infinity neg)
  else if bool_decide (low = "nan") then Some S754_nan
  else
    let '(ip, rest) := span_digits s in
    let '(fp, rest) := match rest with
                       | String "." rest => span_digits rest
                       | rest => ("", rest)
                       end in
    if bool_decide (ip +:+ fp = "") then None
    else
      e ← parse_exponent rest;
      Some (dec_float neg (digits_val 0 (ip +:+ fp)) (e - Z.of_nat (String.length fp))).

(** ** [format(x, '.2%')] *)

(** [x * 10^2] rounded half to even to an integer, for a finite [x]. *)
Definition round_half_even (n : Z) (d : Z) : Z :=
  let q := (n / d)%Z in
  let r := (n mod d)%Z in
  match (2 * r ?= d)%Z with
  | Lt => q
  | Gt => q + 1
  | Eq => if Z.even q then q else q + 1
  end%Z.

Definition scaled (m : positive) (e : Z) : Z :=
  if (0 <=? e)%Z then (Zpos m * 2 ^ e * 100)%Z
  else round_half_even (Zpos m * 100) (2 ^ (- e)).

Definition two_decimals (n : Z) : string :=
  let c := (n mod 100)%Z in
  str_of_Z (n / 100) +:+ "." +:+ String (digit_char (c / 10)) (String (digit_char (c mod 10)) "").

Definition format_percent (x : float) : string :=
  match fmul x f100 with
  | S754_zero s => (if s then "-" else "") +:+ "0.00%"
  | S754_infinity s => (if s then "-" else "") +:+ "inf%"
  | S754_nan => "nan%"
  | S754_finite s m e => (if s then "-" else "") +:+ two_decimals (scaled m e) +:+ "%"
  end.

(** ** [repr(x)]: the shortest decimal that reads back as [x] *)

(** [num/den * 10^k] rounded half to even. *)
Definition scale10 (num den k : Z) : Z :=
  if (0 <=? k)%Z then round_half_even (num * 10 ^ k) den
  else round_half_even num (den * 10 ^ (- k)).

(** [num/den < 10^k] *)
Definition below10 (num den k : Z) : bool :=
  if (0 <=? k)%Z then (num <? den * 10 ^ k)%Z else (num * 10 ^ (- k) <? den)%Z.

(** The decimal exponent [k], [10^(k-1) <= num/den < 10^k], from an estimate. *)
Fixpoint adjust10 (fuel : nat) (num den k : Z) : Z :=
  match fuel with
  | O => k
  | S fuel =>
      if below10 num den k then
        if below10 num den (k - 1) then adjust10 fuel num den (k - 1) else k
      else adjust10 fuel num den (k + 1)
  end.

Fixpoint shortest (fuel : nat) (n : Z) (x : float) (num den k : Z) : Z * Z :=
  let sig := scale10 num den (n - k) in
  match fuel with
  | O => (sig, (k - n)%Z)
  | S fuel =>
      if bool_decide (dec_float false sig (k - n) = x) then (sig, (k - n)%Z)
      else shortest fuel (n + 1) x num den k
  end.

Definition repr_digits (ds : string) (decpt : Z) : string :=
  let n := Z.of_nat (String.length ds) in
  if (-4 <? decpt)%Z && (decpt <=? 16)%Z then
    if (decpt <=? 0)%Z then "0." +:+ str_repeat "0" (Z.to_nat (- decpt)) +:+ ds
    else if (n <=? decpt)%Z then ds +:+ str_repeat "0" (Z.to_nat (decpt - n)) +:+ ".0"
    else str_take (Z.to_nat decpt) ds +:+ "." +:+ str_drop (Z.to_nat decpt) ds
  else
    let e := (decpt - 1)%Z in
    let es := nat_digits (Z.abs e) in
    str_take 1 ds +:+ (if (n =? 1)%Z then "" else "." +:+ str_drop 1 ds) +:+ "e"
      +:+ (if (e <? 0)%Z then "-" else "+")
      +:+ (if (String.length es =? 1)%nat then "0" else "") +:+ es.

Definition float_repr (x : float) : string :=
  match x with
  | S754_nan => "nan"
  | S754_infinity s => if s then "-inf" else "inf"
  | S754_zero s => if s then "-0.0" else "0.0"
  | S754_finite s m e =>
      let num := if (0 <=? e)%Z then (Zpos m * 2 ^ e)%Z else Zpos m in
      let den := if (0 <=? e)%Z then 1%Z else (2 ^ (- e))%Z in
      let est := ((Z.log2 num - Z.log2 den) * 30103 / 100000)%Z in
      let k := adjust10 8 num den est in
      let '(sig, ex) := shortest 17 1 (S754_finite false m e) num den k in
      let ds := nat_digits sig in
      (if s then "-" else "") +:+ repr_digits ds (ex + Z.of_nat (String.length ds))
  end.

(** [format(s, '>n')], [format(s, '<n')] *)
Definition align_right (n : nat) (s : string) : string :=
  str_repeat " " (n - String.length s) +:+ s.
Definition align_left (n : nat) (s : string) : string :=
  s +:+ str_repeat " " (n - String.length s).

(** ** Lemmas *)

Lemma pos_compare_cont_antisym m1 m2 :
  Pos.compare_cont Eq m2 m1 = CompOpp (Pos.compare_cont Eq m1 m2).
Proof. apply (Pos.compare_antisym m1 m2). Qed.

Lemma SFcompare_antisym x y : SFcompare y x = CompOpp <$> SFcompare x y.
Proof.
  destruct x as [[]|[]| |[] mx ex], y as [[]|[]| |[] my ey]; try done; cbn;
    do 2 f_equal; rewrite (Z.compare_antisym ex ey), (pos_compare_cont_antisym mx my);
    by destruct (ex ?= ey)%Z, (Pos.compare_cont Eq mx my).
Qed.

Lemma flt_fle_neg x y : fle y x = true → flt x y = false.
Proof.
  unfold fle, flt, SFleb, SFltb. rewrite (SFcompare_antisym x y).
  by destruct (SFcompare x y) as [[]|].
Qed.

Lemma align_right_length n s : String.length s ≤ n → String.length (align_right n s) = n.
Proof. intros. unfold align_right. rewrite str_length_app, str_repeat_length. lia. Qed.

Lemma align_left_length n s : String.length s ≤ n → String.length (align_left n s) = n.
Proof. intros. unfold align_left. rewrite str_length_app, str_repeat_length. lia. Qed.
