(* ===== verification/PyTime.v ===== *)
(** * UTC timestamps ([datetime.fromtimestamp(x, timezone.utc)])

    The conversion CPython does on a 64-bit Linux: the seconds must fit
    [time_t], [gmtime] must be able to represent the year, and [datetime] only
    holds the years up to 9999; each limit has its own exception. *)

From stdpp Require Import base list strings.
From Stdlib Require Import Ascii ZArith Lia SpecFloat.
From S2P Require Import Prelude PyStr PyFloat.

Local Open Scope Z_scope.

Record datetime := mkDatetime {
  dt_year : Z; dt_month : Z; dt_day : Z;
  dt_hour : Z; dt_minute : Z; dt_second : Z; dt_microsecond : Z
}.

(** The date of a day counted from 1 January 1970, by 400-year eras that start
    in March. *)
Definition civil_from_days (days : Z) : Z * Z * Z :=
  let z := days + 719468 in
  let era := z / 146097 in
  let doe := z mod 146097 in
  let yoe := (doe - doe / 1460 + doe / 36524 - doe / 146096) / 365 in
  let doy := doe - (365 * yoe + yoe / 4 - yoe / 100) in
  let mp := (5 * doy + 2) / 153 in
  let d := doy - (153 * mp + 2) / 5 + 1 in
  let m := if mp <? 10 then mp + 3 else mp - 9 in
  (yoe + era * 400 + (if m <=? 2 then 1 else 0), m, d).

(** The day number of a date: the inverse. *)
Definition days_from_civil (y m d : Z) : Z :=
  let y' := if m <=? 2 then y - 1 else y in
  let era := y' / 400 in
  let yoe := y' mod 400 in
  let doy := (153 * (if 2 <? m then m - 3 else m + 9) + 2) / 5 + d - 1 in
  era * 146097 + (yoe * 365 + yoe / 4 - yoe / 100 + doy) - 719468.

(** The whole seconds of a non-negative finite float and the microseconds, the
    product by a million rounded as a float and then to the nearest integer, ties
    to even. *)
Definition million : float := Eval vm_compute in round_ratio 1000000 1.

Definition round_to_int (x : float) : Z :=
  match x with
  | S754_finite s m e =>
      let n := if 0 <=? e then Zpos m * 2 ^ e else round_half_even (Zpos m) (2 ^ (- e)) in
      if s then - n else n
  | _ => 0
  end.

Definition seconds_us (x : float) : Z * Z :=
  match x with
  | S754_finite false m e =>
      if 0 <=? e then (Zpos m * 2 ^ e, 0)
      else
        let d := 2 ^ (- e) in
        let int_part := Zpos m / d in
        let us := round_to_int (fmul (round_ratio (Zpos m mod d) (Z.to_pos d)) million) in
        if 1000000 <=? us then (int_part + 1, us - 1000000) else (int_part, us)
  | _ => (0, 0)
  end.

(** The last year [struct tm] can hold. *)
Definition max_tm_year : Z := 2147483647 + 1900.

Definition datetime_of (secs us : Z) : datetime :=
  let '(y, m, d) := civil_from_days (secs / 86400) in
  let s := secs mod 86400 in
  mkDatetime y m d (s / 3600) (s mod 3600 / 60) (s mod 60) us.

Definition fromtimestamp (x : float) : result datetime :=
  let '(secs, us) := seconds_us x in
  if 2 ^ 63 <=? secs then Raise OverflowError
  else
    let dt := datetime_of secs us in
    if max_tm_year <? dt_year dt
    then Raise (OSError "[Errno 75] Value too large for defined data type")
    else if 9999 <? dt_year dt
    then Raise (ValueError ("year " +:+ str_of_Z (dt_year dt) +:+ " is out of range"))
    else Ok dt.

(** ** [isoformat()] of a UTC time *)

Definition zero_pad (n : nat) (k : Z) : string :=
  let s := str_of_Z k in str_repeat "0" (n - String.length s) +:+ s.

Definition isoformat (t : datetime) : string :=
  zero_pad 4 (dt_year t) +:+ "-" +:+ zero_pad 2 (dt_month t) +:+ "-" +:+ zero_pad 2 (dt_day t) +:+ "T"
  +:+ zero_pad 2 (dt_hour t) +:+ ":" +:+ zero_pad 2 (dt_minute t) +:+ ":" +:+ zero_pad 2 (dt_second t)
  +:+ (if dt_microsecond t =? 0 then "" else "." +:+ zero_pad 6 (dt_microsecond t))
  +:+ "+00:00".

(** ** Lemmas *)

Lemma fromtimestamp_raise x e : fromtimestamp x = Raise e →
  e = OverflowError ∨ (∃ m, e = OSError m) ∨ (∃ m, e = ValueError m).
Proof. unfold fromtimestamp. intros. repeat case_match; simplify_eq; eauto. Qed.

Example epoch_iso : isoformat (datetime_of 0 0) = "1970-01-01T00:00:00+00:00".
Proof. reflexivity. Qed.

Example iso_sample :
  match int_div 1767225600123 1000 with Ok x => isoformat <$> Some (datetime_of (seconds_us x).1 (seconds_us x).2) | Raise _ => None end
  = Some "2026-01-01T00:00:00.123000+00:00".
Proof. vm_compute. reflexivity. Qed.

Ltac div_lia := Z.to_euclidean_division_equations; lia.

Lemma year_of_era doe : 0 ≤ doe < 146097 →
  let yoe := (doe - doe / 1460 + doe / 36524 - doe / 146096) / 365 in
  0 ≤ yoe ≤ 399 ∧ 0 ≤ doe - (365 * yoe + yoe / 4 - yoe / 100) ≤ 365.
Proof. intros H. cbn zeta. div_lia. Qed.

Lemma month_of_year doy : 0 ≤ doy ≤ 365 →
  let mp := (5 * doy + 2) / 153 in 0 ≤ mp ≤ 11 ∧ 1 ≤ doy - (153 * mp + 2) / 5 + 1 ≤ 31.
Proof. intros H. cbn zeta. div_lia. Qed.

(** The day number comes back from the date, and the month and the day are in
    range. *)
Lemma civil_round_trip n :
  let '(y, m, d) := civil_from_days n in days_from_civil y m d = n ∧ 1 ≤ m ≤ 12 ∧ 1 ≤ d ≤ 31.
Proof.
  unfold civil_from_days, days_from_civil. cbn zeta. set (z := n + 719468).
  pose proof (Z.mod_pos_bound z 146097 ltac:(lia)) as Hdoe.
  pose proof (Z.div_mod z 146097 ltac:(lia)) as Hz.
  set (doe := z mod 146097) in *. set (era := z / 146097) in *.
  pose proof (year_of_era doe Hdoe) as [Hy Hdoy]. cbn zeta in Hy, Hdoy.
  set (yoe := (doe - doe / 1460 + doe / 36524 - doe / 146096) / 365) in *.
  set (doy := doe - (365 * yoe + yoe / 4 - yoe / 100)) in *.
  pose proof (month_of_year doy Hdoy) as [Hm Hd]. cbn zeta in Hm, Hd.
  set (mp := (5 * doy + 2) / 153) in *. split; [|split; [destruct (Z.ltb_spec mp 10); lia|done]].
  assert (∀ b : Z, (yoe + era * 400 + b - b) / 400 = era ∧ (yoe + era * 400 + b - b) mod 400 = yoe) as Hera.
  { intros b. split; [symmetry; apply (Z.div_unique _ _ _ yoe); lia|symmetry; apply (Z.mod_unique _ _ era); lia]. }
  destruct (Hera 0) as [E0 F0], (Hera 1) as [E1 F1]. rewrite !Z.add_0_r, !Z.sub_0_r in E0, F0.
  destruct (Z.ltb_spec mp 10).
  - rewrite (proj2 (Z.leb_gt (mp + 3) 2)), (proj2 (Z.ltb_lt 2 (mp + 3))), Z.add_0_r, E0, F0 by lia.
    replace (mp + 3 - 3) with mp by lia. unfold doy, z in *. lia.
  - rewrite (proj2 (Z.leb_le (mp - 9) 2)), (proj2 (Z.ltb_ge 2 (mp - 9))), E1, F1 by lia.
    replace (mp - 9 + 9) with mp by lia. unfold doy, z in *. lia.
Qed.
