(* ===== verification/Fs.v ===== *)
(** * Paths and the file system

    [pathlib.Path], [os.path] and the part of the POSIX file system the scripts
    look at.  A [Path] is kept the way pathlib keeps it: whether it is rooted
    and its components, empty ones and [.] dropped.  A file system maps
    absolute component lists to nodes; following a path is the kernel's walk,
    with its limit on symbolic links. *)

From stdpp Require Import base gmap sets list strings.
From Stdlib Require Import Ascii ZArith Lia.
From S2P Require Import Prelude PyStr.

(** ** pathlib *)

Record Path := mkPath { p_root : bool; p_parts : list string }.

#[export] Instance Path_eq_dec : EqDecision Path.
Proof. solve_decision. Defined.

#[export] Program Instance Path_countable : Countable Path :=
  inj_countable' (λ p, (p_root p, p_parts p)) (λ '(r, l), mkPath r l) _.
Next Obligation. by intros []. Qed.

Definition proper_part (x : string) : Prop := x ≠ "" ∧ x ≠ ".".

#[export] Instance proper_part_dec x : Decision (proper_part x).
Proof. unfold proper_part. apply _. Defined.

(** [Path(s)] *)
Definition Path_of (s : string) : Path :=
  mkPath (startswith s "/") (filter proper_part (split_on "/" s)).

(** [str(p)] *)
Definition str_path (p : Path) : string :=
  if p_root p then "/" +:+ join "/" (p_parts p)
  else match p_parts p with [] => "." | l => join "/" l end.

(** [p / q] *)
Definition joinpath (p q : Path) : Path :=
  if p_root q then q else mkPath (p_root p) (p_parts p ++ p_parts q).

Definition join_name (p : Path) (s : string) : Path := joinpath p (Path_of s).

(** [p.parent] *)
Definition parent (p : Path) : Path :=
  mkPath (p_root p) (take (length (p_parts p) - 1) (p_parts p)).

(** [p.parents]: the parent, its parent, ... up to the root (or [.]). *)
Fixpoint parents_go (root : bool) (n : nat) (l : list string) : list Path :=
  match n with
  | O => []
  | S n => mkPath root (take n l) :: parents_go root n l
  end.
Definition parents (p : Path) : list Path :=
  parents_go (p_root p) (length (p_parts p)) (p_parts p).

Fixpoint strip_parts (pre l : list string) : option (list string) :=
  match pre, l with
  | [], _ => Some l
  | x :: pre, y :: l => if bool_decide (x = y) then strip_parts pre l else None
  | _ :: _, [] => None
  end.

(** [p.is_relative_to(q)] *)
Definition is_relative_to (p q : Path) : bool :=
  bool_decide (p_root p = p_root q) &&
  match strip_parts (p_parts q) (p_parts p) with Some _ => true | None => false end.

(** [p.relative_to(q)]; [None] is a [ValueError]. *)
Definition relative_to (p q : Path) : option Path :=
  if bool_decide (p_root p = p_root q)
  then mkPath false <$> strip_parts (p_parts q) (p_parts p)
  else None.

(** [os.path.normpath] on the components. *)
Fixpoint norm_go (root : bool) (acc : list string) (l : list string) : list string :=
  match l with
  | [] => reverse acc
  | x :: l =>
      if bool_decide (x = "..") then
        match acc with
        | y :: acc' =>
            if bool_decide (y = "..") then norm_go root (x :: acc) l
            else norm_go root acc' l
        | [] => if root then norm_go root [] l else norm_go root [x] l
        end
      else norm_go root (x :: acc) l
  end.
Definition normpath (p : Path) : Path :=
  mkPath (p_root p) (norm_go (p_root p) [] (p_parts p)).

Fixpoint common_parts (l1 l2 : list string) : list string :=
  match l1, l2 with
  | x :: l1, y :: l2 => if bool_decide (x = y) then x :: common_parts l1 l2 else []
  | _, _ => []
  end.

(** [os.path.commonpath([p, q])] *)
Definition commonpath (p q : Path) : result Path :=
  if bool_decide (p_root p = p_root q)
  then Ok (mkPath (p_root p) (common_parts (p_parts p) (p_parts q)))
  else Raise (ValueError "Can't mix absolute and relative paths").

(** ** The file system *)

Inductive node :=
| NFile (content : string)
| NDir
| NLink (target : string).

#[export] Instance node_eq_dec : EqDecision node.
Proof. solve_decision. Defined.

Abbreviation fs := (gmap (list string) node).

(** Linux gives up after 40 symbolic links. *)
Definition max_symlinks : nat := 40.

(** Why a walk fails. *)
Inductive walk_error := ENOENT | ENOTDIR | ELOOP.

(** The kernel's walk from the directory [cur] along [todo]; [links] bounds the
    symbolic links still to be followed, [follow] tells whether a final one is
    followed. *)
Fixpoint walk_e (f : fs) (follow : bool) (links : nat) : list string → list string → list string + walk_error :=
  fix go (cur todo : list string) {struct todo} : list string + walk_error :=
    match todo with
    | [] => inl cur
    | x :: todo =>
        if bool_decide (x = "..") then go (take (length cur - 1) cur) todo
        else
          let p := cur ++ [x] in
          match f !! p with
          | None => inr ENOENT
          | Some NDir => go p todo
          | Some (NFile _) => match todo with [] => inl p | _ => inr ENOTDIR end
          | Some (NLink tgt) =>
              match todo, follow with
              | [], false => inl p
              | _, _ =>
                  match links with
                  | O => inr ELOOP
                  | S links =>
                      let t := Path_of tgt in
                      walk_e f follow links (if p_root t then [] else cur) (p_parts t ++ todo)
                  end
              end
          end
    end.

(** The place found, if any. *)
Definition walk (f : fs) (follow : bool) (links : nat) (cur todo : list string) : option (list string) :=
  match walk_e f follow links cur todo with inl loc => Some loc | inr _ => None end.

Definition abs_parts (cwd : list string) (p : Path) : list string * list string :=
  (if p_root p then [] else cwd, p_parts p).

(** [os.stat]/[os.lstat]: the canonical place of what the path names. *)
Definition stat (f : fs) (cwd : list string) (p : Path) : option (list string) :=
  walk f true max_symlinks (abs_parts cwd p).1 (abs_parts cwd p).2.

(** The error of [os.stat]. *)
Definition stat_error (f : fs) (cwd : list string) (p : Path) : option walk_error :=
  match walk_e f true max_symlinks (abs_parts cwd p).1 (abs_parts cwd p).2 with inl _ => None | inr e => Some e end.

Definition lstat (f : fs) (cwd : list string) (p : Path) : option (list string) :=
  walk f false max_symlinks (abs_parts cwd p).1 (abs_parts cwd p).2.

Definition node_at (f : fs) (loc : list string) : option node :=
  match loc with [] => Some NDir | _ => f !! loc end.

(** [p.exists()] *)
Definition path_exists (f : fs) (cwd : list string) (p : Path) : bool :=
  bool_decide (is_Some (stat f cwd p)).

(** [p.is_dir()] *)
Definition path_is_dir (f : fs) (cwd : list string) (p : Path) : bool :=
  bool_decide (stat f cwd p ≫= node_at f = Some NDir).

(** [p.is_symlink()] *)
Definition path_is_symlink (f : fs) (cwd : list string) (p : Path) : bool :=
  match lstat f cwd p ≫= node_at f with Some (NLink _) => true | _ => false end.

(** [p.readlink()]; [None] when there is no link to read. *)
Definition path_readlink (f : fs) (cwd : list string) (p : Path) : option Path :=
  match lstat f cwd p ≫= node_at f with
  | Some (NLink t) => Some (Path_of t)
  | _ => None
  end.

(** [open(p).read()] *)
Definition read_file (f : fs) (cwd : list string) (p : Path) : result string :=
  match stat f cwd p with
  | None => Raise (FileNotFoundError ("[Errno 2] No such file or directory: '" +:+ str_path p +:+ "'"))
  | Some loc =>
      match node_at f loc with
      | Some (NFile c) => Ok c
      | _ => Raise (OSError ("[Errno 21] Is a directory: '" +:+ str_path p +:+ "'"))
      end
  end.

Definition is_link (n : node) : bool := match n with NLink _ => true | _ => false end.

Definition count_links (f : fs) : nat :=
  length (filter (λ kn, is_link kn.2 = true) (map_to_list f)).

(** How [os.path.realpath] ends: with a path without links, with what is left when
    a link is met that is being resolved, or, when it is [strict], with the error
    of the first component that is not there. *)
Inductive resolved := Resolved (l : list string) | Looped (l : list string) | Missing (e : walk_error).

(** Without [strict], missing components are kept as they are.  A link's target is
    resolved by a nested call; [seen] are the links being resolved.  They are
    distinct, so [depth], the number of links, is enough. *)
Fixpoint realpath_go (f : fs) (strict : bool) (depth : nat) : list (list string) → list string → list string → resolved :=
  fix go (seen : list (list string)) (cur todo : list string) {struct todo} : resolved :=
    match todo with
    | [] => Resolved cur
    | x :: todo =>
        if bool_decide (x = "..") then go seen (take (length cur - 1) cur) todo
        else
          let p := cur ++ [x] in
          match f !! p with
          | Some (NLink tgt) =>
              let loops := if strict then Missing ELOOP else Looped (p ++ todo) in
              if bool_decide (p ∈ seen) then loops
              else
                match depth with
                | O => loops
                | S depth =>
                    let t := Path_of tgt in
                    match realpath_go f strict depth (p :: seen) (if p_root t then [] else cur) (p_parts t) with
                    | Resolved cur' => go seen cur' todo
                    | Looped l => Looped (l ++ todo)
                    | Missing e => Missing e
                    end
                end
          | None =>
              if strict then Missing (match node_at f cur with Some (NFile _) => ENOTDIR | _ => ENOENT end)
              else go seen p todo
          | Some _ => go seen p todo
          end
    end.

Definition realpath_of (f : fs) (strict : bool) (cwd : list string) (p : Path) : resolved :=
  realpath_go f strict (count_links f) [] (abs_parts cwd p).1 (abs_parts cwd p).2.

(** [os.path.realpath(p)]; what a loop leaves is only normalised. *)
Definition realpath (f : fs) (cwd : list string) (p : Path) : Path :=
  match realpath_of f false cwd p with
  | Resolved l => mkPath true l
  | Looped l => mkPath true (norm_go true [] l)
  | Missing _ => mkPath true []
  end.

Definition symlink_loop (p : Path) : exn := RuntimeError ("Symlink loop from '" +:+ str_path p +:+ "'").

(** [p.resolve()]: a path the kernel finds too many links in is an error. *)
Definition resolve (f : fs) (cwd : list string) (p : Path) : result Path :=
  let q := realpath f cwd p in
  match stat_error f cwd q with
  | Some ELOOP => Raise (symlink_loop q)
  | _ => Ok q
  end.

(** [p.resolve(strict=True)] *)
Definition resolve_strict (f : fs) (cwd : list string) (p : Path) : result Path :=
  match realpath_of f true cwd p with
  | Resolved l => Ok (mkPath true l)
  | Missing ENOENT => Raise (FileNotFoundError ("[Errno 2] No such file or directory: '" +:+ str_path p +:+ "'"))
  | Missing ENOTDIR => Raise (OSError ("[Errno 20] Not a directory: '" +:+ str_path p +:+ "'"))
  | Missing ELOOP | Looped _ => Raise (symlink_loop p)
  end.

(** [os.path.dirname] of an absolute path. *)
Definition dirname (p : Path) : Path := parent p.

(** ** Lemmas *)

Lemma strip_parts_spec pre l r : strip_parts pre l = Some r ↔ l = pre ++ r.
Proof.
  revert l. induction pre as [|x pre IH]; intros l; cbn.
  - split; congruence.
  - destruct l as [|y l]; [done|]. case_bool_decide as E; subst.
    + rewrite IH. split; [by intros ->|by intros [=]].
    + split; [done|]. by intros [=].
Qed.

Lemma is_relative_to_spec p q :
  is_relative_to p q = true ↔ p_root p = p_root q ∧ p_parts q `prefix_of` p_parts p.
Proof.
  unfold is_relative_to. rewrite andb_true_iff, bool_decide_eq_true.
  apply and_iff_compat_l. destruct (strip_parts _ _) as [r|] eqn:E.
  - apply strip_parts_spec in E. split; [by exists r|done].
  - split; [done|]. intros [r Hr]. apply strip_parts_spec in Hr. congruence.
Qed.

Lemma is_relative_to_refl p : is_relative_to p p = true.
Proof. by apply is_relative_to_spec. Qed.

Lemma is_relative_to_trans p q r :
  is_relative_to p q = true → is_relative_to q r = true → is_relative_to p r = true.
Proof.
  rewrite !is_relative_to_spec. intros [-> ?] [-> ?]. split; [done|]. by etrans.
Qed.

Lemma is_relative_to_antisym p q :
  is_relative_to p q = true → is_relative_to q p = true → p = q.
Proof.
  rewrite !is_relative_to_spec. destruct p as [rp lp], q as [rq lq]; cbn.
  intros [-> [k1 H1]] [_ [k2 H2]]. f_equal. subst lp.
  rewrite <- app_assoc in H2. rewrite <- (app_nil_r lq) in H2 at 1.
  apply app_inv_head in H2. symmetry in H2. apply app_nil in H2 as [-> ->].
  by rewrite app_nil_r.
Qed.

#[export] Hint Resolve is_relative_to_refl is_relative_to_trans : devkit.

(** [read_file] never raises anything but an [OSError]. *)
Lemma read_file_raise f cwd p e : read_file f cwd p = Raise e → is_OSError e = true.
Proof. unfold read_file. intros. repeat case_match; simplify_eq; done. Qed.

Lemma read_file_exists f cwd p c : read_file f cwd p = Ok c → path_exists f cwd p = true.
Proof.
  unfold read_file, path_exists. intros. apply bool_decide_eq_true.
  destruct (stat f cwd p); [by eexists|done].
Qed.

(** [resolve] gives the real path or fails with the loop. *)
Lemma resolve_ok f cwd p q : resolve f cwd p = Ok q → q = realpath f cwd p.
Proof. unfold resolve. repeat case_match; congruence. Qed.

Lemma resolve_raise f cwd p e : resolve f cwd p = Raise e → e = symlink_loop (realpath f cwd p).
Proof. unfold resolve. repeat case_match; congruence. Qed.

Lemma realpath_root f cwd p : p_root (realpath f cwd p) = true.
Proof. unfold realpath. by destruct (realpath_of f false cwd p). Qed.

Lemma parents_go_spec root n l q : n ≤ length l →
  q ∈ parents_go root n l → ∃ m, m < n ∧ q = mkPath root (take m l).
Proof.
  induction n as [|n IH]; cbn; [by intros ? ?%elem_of_nil|].
  intros Hn [->|Hq]%elem_of_cons; [by exists n; auto|].
  destruct IH as (m & ? & ->); [lia|done|]. exists m. split; [lia|done].
Qed.

(** Proofs never unfold a path walk; [vm_compute] still runs it. *)
#[global] Opaque max_symlinks walk_e walk realpath_go.
