(* ===== verification/World.v ===== *)
(** * The world a script runs in

    What the scripts read and change outside their own variables: the
    environment, the file system, the standard streams, the log and the
    programs they start.  The programs are not part of the repository: they are
    a parameter, the class [Exec], a function from a command line to an outcome
    and a next state. *)

From stdpp Require Import base gmap list strings.
From Stdlib Require Import ZArith.
From S2P Require Import Prelude PyStr Fs.

Inductive level := INFO | WARNING | ERROR.

(** What the main thread does with a background thread. *)
Inductive thread_act := ThreadStart | ThreadCancel | ThreadJoin.

(** [CopyMode] is the [chmod] of [shutil.copymode]: permissions are not part of the
    file system here, so giving a file the mode of another is an event. *)
Inductive event :=
| Stdout (text : string)
| Stderr (text : string)
| Log (l : level) (text : string)
| Ran (cmd : list string)
| Thread (name : string) (act : thread_act)
| CopyMode (src dest : Path).

#[export] Instance level_eq_dec : EqDecision level.
Proof. solve_decision. Defined.
#[export] Instance thread_act_eq_dec : EqDecision thread_act.
Proof. solve_decision. Defined.
#[export] Instance event_eq_dec : EqDecision event.
Proof. solve_decision. Defined.

(** How a started program ends. *)
Inductive proc_result :=
| Finished (returncode : Z) (out err : string)
| NoSuchProgram
| Interrupted.

(** [exec cmd ps]: run [cmd] when the state of the outside programs and the
    file system are [ps]. *)
Class Exec (PS : Type) := exec : list string → PS * fs → proc_result * (PS * fs).

Record World (PS : Type) := mkWorld {
  w_env : list (string * string);
  w_fs : fs;
  w_cwd : list string;
  w_trace : list event;
  w_procs : PS
}.
Arguments mkWorld {PS}.
Arguments w_env {PS}.
Arguments w_fs {PS}.
Arguments w_cwd {PS}.
Arguments w_trace {PS}.
Arguments w_procs {PS}.

Fixpoint assoc {A} (k : string) (l : list (string * A)) : option A :=
  match l with
  | [] => None
  | (k', a) :: l => if bool_decide (k = k') then Some a else assoc k l
  end.

(** [d[k] = a] on an insertion-ordered dict: an old key keeps its place. *)
Fixpoint assoc_set {A} (k : string) (a : A) (l : list (string * A)) : list (string * A) :=
  match l with
  | [] => [(k, a)]
  | (k', a') :: l =>
      if bool_decide (k = k') then (k', a) :: l else (k', a') :: assoc_set k a l
  end.

(** [d.update(l)] *)
Definition assoc_update {A} (d l : list (string * A)) : list (string * A) :=
  foldl (λ d '(k, a), assoc_set k a d) d l.

Definition keys {A} (l : list (string * A)) : list string := l.*1.

Section world.
Context {PS : Type} `{!Exec PS}.
Local Abbreviation W := (World PS).

Definition set_env (env : list (string * string)) (w : W) : W :=
  mkWorld env (w_fs w) (w_cwd w) (w_trace w) (w_procs w).
Definition set_fs (f : fs) (w : W) : W :=
  mkWorld (w_env w) f (w_cwd w) (w_trace w) (w_procs w).
Definition emit_event (e : event) (w : W) : W :=
  mkWorld (w_env w) (w_fs w) (w_cwd w) (w_trace w ++ [e]) (w_procs w).

Definition emit (e : event) : M W () := modify (emit_event e).

Definition print (s : string) : M W () := emit (Stdout s).
Definition eprint (s : string) : M W () := emit (Stderr s).
Definition println (s : string) : M W () := print (s +:+ nl).
Definition eprintln (s : string) : M W () := eprint (s +:+ nl).
Definition log_info (s : string) : M W () := emit (Log INFO s).
Definition log_warning (s : string) : M W () := emit (Log WARNING s).
Definition log_error (s : string) : M W () := emit (Log ERROR s).

(** [subprocess.run(cmd)]: the command is logged in the trace, then run. *)
Definition start (cmd : list string) : M W proc_result := λ w,
  let '(r, (ps, f)) := exec cmd (w_procs w, w_fs w) in
  (Ok r, mkWorld (w_env w) f (w_cwd w) (w_trace w ++ [Ran cmd]) ps).

(** [subprocess.run(cmd, check=False, capture_output=True, text=True)] *)
Definition run_unchecked (cmd : list string) : M W (Z * string * string) :=
  r ← start cmd;
  match r with
  | Finished rc out err => mret (rc, out, err)
  | NoSuchProgram =>
      raise (FileNotFoundError ("[Errno 2] No such file or directory: '" +:+ default "" (head cmd) +:+ "'"))
  | Interrupted => raise KeyboardInterrupt
  end.

(** [subprocess.run(cmd, check=True, ...)] *)
Definition run_checked (cmd : list string) : M W (string * string) :=
  '(rc, out, err) ← run_unchecked cmd;
  if bool_decide (rc = 0%Z) then mret (out, err)
  else raise (CalledProcessError cmd rc out err).

(** [os.environ.get(k)] *)
Definition getenv (k : string) : M W (option string) := gets (λ w, assoc k (w_env w)).
Definition putenv (k v : string) : M W () := modify (λ w, set_env (assoc_set k v (w_env w)) w).

Definition exists_p (p : Path) : M W bool := gets (λ w, path_exists (w_fs w) (w_cwd w) p).
Definition read_text (p : Path) : M W string := λ w, (read_file (w_fs w) (w_cwd w) p, w).

(** The command lines started so far. *)
Definition commands (t : list event) : list (list string) :=
  omap (λ e, match e with Ran c => Some c | _ => None end) t.

Definition ran (w : W) : list (list string) := commands (w_trace w).

(** ** Frames *)

(** Only the trace may differ. *)
Definition keeps (w w' : W) : Prop :=
  w_env w' = w_env w ∧ w_fs w' = w_fs w ∧ w_cwd w' = w_cwd w ∧ w_procs w' = w_procs w.

#[global] Instance keeps_preorder : PreOrder keeps.
Proof.
  split; [intros w; repeat split; reflexivity|].
  intros x y z (?&?&?&?) (?&?&?&?). split_and!; congruence.
Qed.

(** The environment and the working directory never change, and the trace only
    grows. *)
Definition extends (w w' : W) : Prop :=
  w_env w' = w_env w ∧ w_cwd w' = w_cwd w ∧ w_trace w `prefix_of` w_trace w'.

#[global] Instance extends_preorder : PreOrder extends.
Proof.
  split; [intros w; repeat split; reflexivity|].
  intros x y z (?&?&?) (?&?&?). split_and!; [congruence..|]. by etrans.
Qed.

Lemma keeps_emit e : always keeps (emit e).
Proof. intros w r w' H. unfold emit in H. minv. repeat split. Qed.

Lemma keeps_read_text p : always keeps (read_text p).
Proof. intros w r w' H. unfold read_text in H. simplify_eq. repeat split. Qed.

(** Nothing but messages. *)
Definition quiet (w w' : W) : Prop := keeps w w' ∧ ran w' = ran w.

#[global] Instance quiet_preorder : PreOrder quiet.
Proof.
  split; [intros w; repeat split; reflexivity|].
  intros x y z [? ?] [? ?]. split; [by etrans|congruence].
Qed.

Lemma commands_app t1 t2 : commands (t1 ++ t2) = commands t1 ++ commands t2.
Proof. apply omap_app. Qed.

Lemma ran_emit e (w : W) : (∀ c, e ≠ Ran c) → ran (emit_event e w) = ran w.
Proof.
  intros He. unfold ran, emit_event. cbn. rewrite commands_app. destruct e; try by rewrite app_nil_r.
  by destruct (He cmd).
Qed.

Lemma quiet_emit e : (∀ c, e ≠ Ran c) → always quiet (emit e).
Proof. intros He w r w' H. unfold emit in H. minv. split; [repeat split|by apply ran_emit]. Qed.

Lemma quiet_print s : always quiet (print s).
Proof. by apply quiet_emit. Qed.
Lemma quiet_eprint s : always quiet (eprint s).
Proof. by apply quiet_emit. Qed.
Lemma quiet_println s : always quiet (println s).
Proof. by apply quiet_emit. Qed.
Lemma quiet_eprintln s : always quiet (eprintln s).
Proof. by apply quiet_emit. Qed.
Lemma quiet_log_info s : always quiet (log_info s).
Proof. by apply quiet_emit. Qed.
Lemma quiet_log_warning s : always quiet (log_warning s).
Proof. by apply quiet_emit. Qed.
Lemma quiet_log_error s : always quiet (log_error s).
Proof. by apply quiet_emit. Qed.

Lemma quiet_read_text p : always quiet (read_text p).
Proof. intros w r w' H. unfold read_text in H. simplify_eq. repeat split. Qed.

Lemma read_text_inv p (w : W) r w' : read_text p w = (r, w') →
  read_file (w_fs w) (w_cwd w) p = r ∧ w' = w.
Proof. unfold read_text. generalize (read_file (w_fs w) (w_cwd w) p). intros x E. by injection E as -> ->. Qed.

Lemma exists_p_inv p (w : W) r w' : exists_p p w = (r, w') →
  r = Ok (path_exists (w_fs w) (w_cwd w) p) ∧ w' = w.
Proof.
  unfold exists_p, gets. generalize (path_exists (w_fs w) (w_cwd w) p). intros x E. by injection E as <- ->.
Qed.

Lemma raises_emit P e : raises P (emit e).
Proof. apply raises_modify. Qed.
Lemma raises_print P s : raises P (print s).
Proof. apply raises_modify. Qed.
Lemma raises_eprint P s : raises P (eprint s).
Proof. apply raises_modify. Qed.
Lemma raises_println P s : raises P (println s).
Proof. apply raises_modify. Qed.
Lemma raises_eprintln P s : raises P (eprintln s).
Proof. apply raises_modify. Qed.
Lemma raises_log_info P s : raises P (log_info s).
Proof. apply raises_modify. Qed.
Lemma raises_log_warning P s : raises P (log_warning s).
Proof. apply raises_modify. Qed.
Lemma raises_log_error P s : raises P (log_error s).
Proof. apply raises_modify. Qed.

(** What starting a program can raise. *)
Definition start_exn (e : exn) : Prop := is_FileNotFoundError e = true ∨ e = KeyboardInterrupt.

Lemma raises_run_unchecked (P : exn → Prop) cmd : (∀ e, start_exn e → P e) → raises P (run_unchecked cmd).
Proof.
  intros HP w e w' H. unfold run_unchecked, start in H. munfold.
  destruct (exec cmd _) as [[rc out err| |] [ps f]]; simplify_eq; apply HP; [by left|by right].
Qed.

Lemma raises_run_checked (P : exn → Prop) cmd :
  (∀ e, start_exn e → P e) → (∀ rc out err, rc ≠ 0%Z → P (CalledProcessError cmd rc out err)) →
  raises P (run_checked cmd).
Proof.
  intros HP HC. unfold run_checked. apply raises_bind; [by apply raises_run_unchecked|].
  intros [[rc out] err]. case_bool_decide; [apply raises_ret|]. apply raises_raise. auto.
Qed.

Lemma always_emit (R : relation W) e :
  (∀ w, R w (emit_event e w)) → always R (emit e).
Proof. intros HR w r w' H. unfold emit in H. minv. apply HR. Qed.

Lemma always_start (R : relation W) cmd :
  (∀ w r ps f, exec cmd (w_procs w, w_fs w) = (r, (ps, f)) →
     R w (mkWorld (w_env w) f (w_cwd w) (w_trace w ++ [Ran cmd]) ps)) →
  always R (start cmd).
Proof.
  intros HR w r w' H. unfold start in H.
  destruct (exec cmd _) as [r0 [ps f]] eqn:E. simplify_eq. by eapply HR.
Qed.

(** ** What goes to standard output *)

Definition stdout_of (w : W) : list string :=
  omap (λ e, match e with Stdout s => Some s | _ => None end) (w_trace w).

Definition same_stdout (w w' : W) : Prop := stdout_of w' = stdout_of w.

#[global] Instance same_stdout_preorder : PreOrder same_stdout.
Proof. split; [done|]. unfold same_stdout. intros x y z ??. congruence. Qed.

Lemma same_stdout_emit e : (∀ s, e ≠ Stdout s) → always same_stdout (emit e).
Proof.
  intros He. apply always_emit. intros w. unfold same_stdout, stdout_of. cbn. rewrite omap_app.
  destruct e; try by rewrite app_nil_r. by destruct (He text).
Qed.

Lemma same_stdout_eprint s : always same_stdout (eprint s).
Proof. by apply same_stdout_emit. Qed.
Lemma same_stdout_eprintln s : always same_stdout (eprintln s).
Proof. by apply same_stdout_emit. Qed.
Lemma same_stdout_log_info s : always same_stdout (log_info s).
Proof. by apply same_stdout_emit. Qed.
Lemma same_stdout_log_warning s : always same_stdout (log_warning s).
Proof. by apply same_stdout_emit. Qed.
Lemma same_stdout_log_error s : always same_stdout (log_error s).
Proof. by apply same_stdout_emit. Qed.

Lemma same_stdout_start cmd : always same_stdout (start cmd).
Proof.
  apply always_start. intros w r ps f _. unfold same_stdout, stdout_of. cbn.
  by rewrite omap_app, app_nil_r.
Qed.

Lemma same_stdout_run_unchecked cmd : always same_stdout (run_unchecked cmd).
Proof. unfold run_unchecked. pose proof (same_stdout_start cmd). frame. Qed.

Lemma same_stdout_run_checked cmd : always same_stdout (run_checked cmd).
Proof. unfold run_checked. pose proof (same_stdout_run_unchecked cmd). frame. Qed.
End world.

#[export] Hint Resolve same_stdout_eprint same_stdout_eprintln same_stdout_log_info
  same_stdout_log_warning same_stdout_log_error same_stdout_run_unchecked
  same_stdout_run_checked : frame.
#[export] Hint Resolve keeps_emit keeps_read_text quiet_print quiet_eprint quiet_println
  quiet_eprintln quiet_log_info quiet_log_warning quiet_log_error quiet_read_text : frame.
#[export] Hint Resolve raises_emit raises_print raises_eprint raises_println raises_eprintln
  raises_log_info raises_log_warning raises_log_error : exc.

(** ** Lemmas on insertion-ordered dicts *)

Lemma assoc_elem {A} k (a : A) l : assoc k l = Some a → (k, a) ∈ l.
Proof.
  induction l as [|[k' a'] l IH]; cbn; [done|]. case_bool_decide; intros; simplify_eq.
  - left.
  - right. auto.
Qed.

Lemma assoc_is_Some {A} k (l : list (string * A)) : is_Some (assoc k l) ↔ k ∈ keys l.
Proof.
  induction l as [|[k' a'] l IH]; cbn.
  - split; [by intros [? ?]|by intros ?%elem_of_nil].
  - rewrite elem_of_cons. case_bool_decide; subst.
    + split; [by left|by eexists].
    + rewrite IH. naive_solver.
Qed.

Lemma assoc_None {A} k (l : list (string * A)) : assoc k l = None ↔ k ∉ keys l.
Proof. rewrite <- assoc_is_Some. destruct (assoc k l); naive_solver. Qed.

Lemma assoc_NoDup {A} k (a : A) l : NoDup (keys l) → (k, a) ∈ l → assoc k l = Some a.
Proof.
  induction l as [|[k' a'] l IH]; cbn; [by intros _ ?%elem_of_nil|].
  intros [Hk Hl]%NoDup_cons [E|H]%elem_of_cons; simplify_eq.
  - by rewrite bool_decide_eq_true_2.
  - case_bool_decide; subst; [|by apply IH].
    destruct Hk. apply list_elem_of_fmap. by exists (k', a).
Qed.

Lemma assoc_set_eq {A} k (a : A) l : assoc k (assoc_set k a l) = Some a.
Proof.
  induction l as [|[k' a'] l IH]; cbn.
  - by rewrite bool_decide_eq_true_2.
  - case_bool_decide; cbn; subst.
    + by rewrite bool_decide_eq_true_2.
    + by rewrite bool_decide_eq_false_2.
Qed.

Lemma assoc_set_ne {A} k k' (a : A) l : k ≠ k' → assoc k (assoc_set k' a l) = assoc k l.
Proof.
  intros. induction l as [|[k'' a''] l IH]; cbn.
  - by rewrite bool_decide_eq_false_2.
  - destruct (decide (k' = k'')) as [->|].
    + rewrite bool_decide_eq_true_2 by done. cbn. by rewrite !bool_decide_eq_false_2.
    + rewrite (bool_decide_eq_false_2 (k' = k'')) by done. cbn. by rewrite IH.
Qed.

Lemma keys_assoc_set {A} k (a : A) l x : x ∈ keys (assoc_set k a l) ↔ x = k ∨ x ∈ keys l.
Proof.
  rewrite <- !assoc_is_Some. destruct (decide (x = k)) as [->|].
  - rewrite assoc_set_eq. naive_solver.
  - rewrite assoc_set_ne by done. naive_solver.
Qed.

Lemma NoDup_assoc_set {A} k (a : A) l : NoDup (keys l) → NoDup (keys (assoc_set k a l)).
Proof.
  induction l as [|[k' a'] l IH]; cbn; intros H.
  - apply NoDup_singleton.
  - apply NoDup_cons in H as [Hk Hl]. case_bool_decide; subst; cbn.
    + by apply NoDup_cons.
    + apply NoDup_cons. split; [|auto].
      change ((assoc_set k a l).*1) with (keys (assoc_set k a l)).
      rewrite keys_assoc_set. naive_solver.
Qed.

Lemma assoc_update_spec {A} k (d l : list (string * A)) :
  assoc k (assoc_update d l) = match assoc k (reverse l) with Some a => Some a | None => assoc k d end.
Proof.
  unfold assoc_update. induction l as [|[k' a'] l IH] using rev_ind; [done|].
  rewrite foldl_snoc, reverse_snoc. cbn. case_bool_decide; subst.
  - by rewrite assoc_set_eq.
  - by rewrite assoc_set_ne.
Qed.

Lemma NoDup_assoc_update {A} (d l : list (string * A)) :
  NoDup (keys d) → NoDup (keys (assoc_update d l)).
Proof.
  unfold assoc_update. revert d. induction l as [|[k a] l IH]; intros d Hd; [done|].
  cbn. apply IH. by apply NoDup_assoc_set.
Qed.

#[export] Hint Resolve NoDup_assoc_set NoDup_assoc_update assoc_elem : devkit.
