(* ===== verification/FsOps.v ===== *)
(** * Changing the file system

    Directories and files the scripts make, write and remove.  Permissions are not
    modelled. *)

From stdpp Require Import base gmap sets list strings.
From Stdlib Require Import Ascii ZArith Lia.
From S2P Require Import Prelude PyStr Fs World.

Definition errno (n : Z) (text : string) (p : Path) : string :=
  "[Errno " +:+ str_of_Z n +:+ "] " +:+ text +:+ ": '" +:+ str_path p +:+ "'".

(** [os.mkdir(p)] *)
Definition os_mkdir (f : fs) (cwd : list string) (p : Path) : result fs :=
  match last (p_parts p) with
  | None => Raise (OSError (errno 17 "File exists" p))
  | Some x =>
      match stat f cwd (parent p) with
      | None => Raise (FileNotFoundError (errno 2 "No such file or directory" p))
      | Some loc =>
          match node_at f loc with
          | Some NDir =>
              if bool_decide (x = "..") || bool_decide (is_Some (f !! (loc ++ [x])))
              then Raise (OSError (errno 17 "File exists" p))
              else Ok (<[loc ++ [x] := NDir]> f)
          | _ => Raise (OSError (errno 20 "Not a directory" p))
          end
      end
  end.

(** [p.mkdir(parents=True, exist_ok=True)]: a missing parent is made first; a path
    of [n] components has at most [n] of them. *)
Fixpoint mkdir_go (n : nat) (f : fs) (cwd : list string) (p : Path) : result fs :=
  match os_mkdir f cwd p with
  | Ok f' => Ok f'
  | Raise (FileNotFoundError m) =>
      match n with
      | O => Raise (FileNotFoundError m)
      | S n =>
          f1 ← mkdir_go n f cwd (parent p);
          match os_mkdir f1 cwd p with
          | Ok f2 => Ok f2
          | Raise e => if path_is_dir f1 cwd p then Ok f1 else Raise e
          end
      end
  | Raise e => if path_is_dir f cwd p then Ok f else Raise e
  end.

Definition mkdir_parents (f : fs) (cwd : list string) (p : Path) : result fs :=
  mkdir_go (length (p_parts p)) f cwd p.

(** Where [open(p, "w")] writes: what the path resolves to, which need not exist. *)
Definition write_loc (f : fs) (cwd : list string) (p : Path) : result (list string) :=
  let loc := p_parts (realpath f cwd p) in
  match node_at f loc with
  | Some (NFile _) => Ok loc
  | Some NDir => Raise (OSError (errno 21 "Is a directory" p))
  | Some (NLink _) => Raise (OSError (errno 40 "Too many levels of symbolic links" p))
  | None =>
      match node_at f (take (length loc - 1) loc) with
      | Some NDir => Ok loc
      | _ => Raise (FileNotFoundError (errno 2 "No such file or directory" p))
      end
  end.

Definition write_file (f : fs) (cwd : list string) (p : Path) (content : string) : result fs :=
  loc ← write_loc f cwd p; Ok (<[loc := NFile content]> f).

(** [p.touch(exist_ok=True)] *)
Definition touch_file (f : fs) (cwd : list string) (p : Path) : result fs :=
  if path_exists f cwd p then Ok f else write_file f cwd p "".

(** [shutil.rmtree]: everything at or below a place. *)
Definition remove_tree (f : fs) (loc : list string) : fs := filter (λ kn, ¬ loc `prefix_of` kn.1) f.

Lemma remove_tree_gone f loc l : loc `prefix_of` l → remove_tree f loc !! l = None.
Proof. intros H. apply map_lookup_filter_None. right. intros nd _ Hn. by apply Hn. Qed.

Lemma remove_tree_keeps f loc l : ¬ loc `prefix_of` l → remove_tree f loc !! l = f !! l.
Proof.
  intros H. unfold remove_tree. destruct (f !! l) as [nd|] eqn:E.
  - by apply map_lookup_filter_Some.
  - apply map_lookup_filter_None. by left.
Qed.

(** ** Writing a file moves no link *)

Definition link_of (n : option node) : option string := match n with Some (NLink t) => Some t | _ => None end.

Lemma count_links_file f loc c : link_of (f !! loc) = None → count_links (<[loc := NFile c]> f) = count_links f.
Proof.
  intros H. unfold count_links.
  assert (∀ (g : fs) (nd : node), g !! loc = None → is_link nd = false →
    length (filter (λ kn, is_link kn.2 = true) (map_to_list (<[loc:=nd]> g)))
    = length (filter (λ kn, is_link kn.2 = true) (map_to_list g))) as Hins.
  { intros g nd Hg Hl. rewrite (map_to_list_insert g loc nd Hg). rewrite filter_cons_False; [done|]. cbn. by rewrite Hl. }
  rewrite <- insert_delete_eq. rewrite Hins; [|apply lookup_delete_eq|done].
  destruct (f !! loc) as [nd|] eqn:E.
  - rewrite <- (insert_id f loc nd E) at 2. rewrite <- insert_delete_eq. rewrite Hins; [done|apply lookup_delete_eq|].
    by destruct nd.
  - by rewrite delete_id.
Qed.

Section realpath.
#[local] Transparent realpath_go.

Lemma realpath_go_links f g : (∀ l, link_of (f !! l) = link_of (g !! l)) →
  ∀ depth seen cur todo, realpath_go f false depth seen cur todo = realpath_go g false depth seen cur todo.
Proof.
  intros Hl. induction depth as [|depth IHd]; intros seen cur todo; revert cur; induction todo as [|x todo IH]; intros cur;
    [done| |done|]; cbn; (case_bool_decide; [apply IH|]); specialize (Hl (cur ++ [x]));
    destruct (f !! (cur ++ [x])) as [[| |t]|], (g !! (cur ++ [x])) as [[| |t']|]; cbn in Hl; simplify_eq;
    try apply IH; try done.
  case_bool_decide; [done|]. rewrite IHd. by destruct (realpath_go g false depth _ _ _); [apply IH|..].
Qed.
End realpath.

Lemma realpath_file f loc c cwd p : link_of (f !! loc) = None →
  realpath (<[loc := NFile c]> f) cwd p = realpath f cwd p.
Proof.
  intros H. unfold realpath, realpath_of. rewrite count_links_file by done.
  rewrite (realpath_go_links _ f); [done|]. intros l. destruct (decide (l = loc)) as [->|].
  - by rewrite lookup_insert_eq, H.
  - by rewrite lookup_insert_ne.
Qed.

Lemma write_loc_inv f cwd p loc : write_loc f cwd p = Ok loc →
  loc = p_parts (realpath f cwd p) ∧ loc ≠ [] ∧ link_of (f !! loc) = None.
Proof.
  unfold write_loc. set (l := p_parts (realpath f cwd p)). clearbody l. unfold node_at at 1.
  destruct l as [|x l]; [done|]. intros H. split_and!; [by repeat case_match; simplify_eq|by repeat case_match; simplify_eq|].
  by destruct (f !! (x :: l)) as [[| |]|] eqn:E; repeat case_match; simplify_eq; rewrite E.
Qed.

(** Writing twice writes at the same place. *)
Lemma write_loc_again f cwd p loc c : write_loc f cwd p = Ok loc → write_loc (<[loc := NFile c]> f) cwd p = Ok loc.
Proof.
  intros H. destruct (write_loc_inv _ _ _ _ H) as (E & Hne & Hl). unfold write_loc. rewrite realpath_file by done.
  rewrite <- E. unfold node_at. destruct loc as [|x l]; [done|]. by rewrite lookup_insert_eq.
Qed.

(** The length of the longest path of a file system. *)
Definition max_len (f : fs) : nat := max_list (length <$> (map_to_list f).*1).

Lemma key_len f l nd : f !! l = Some nd → length l ≤ max_len f.
Proof.
  intros H. apply max_list_elem_of_le. apply list_elem_of_fmap. exists l. split; [done|].
  apply list_elem_of_fmap. exists (l, nd). split; [done|]. by apply elem_of_map_to_list.
Qed.

Section ops.
Context {PS : Type}.
Local Abbreviation W := (World PS).

(** A change of the file system that may raise. *)
Definition change_fs (op : fs → list string → result fs) : M W () := λ w,
  match op (w_fs w) (w_cwd w) with
  | Ok f => (Ok tt, set_fs f w)
  | Raise e => (Raise e, w)
  end.

Definition mkdir_p (p : Path) : M W () := change_fs (λ f cwd, mkdir_parents f cwd p).
Definition write_text (p : Path) (content : string) : M W () := change_fs (λ f cwd, write_file f cwd p content).
Definition touch (p : Path) : M W () := change_fs (λ f cwd, touch_file f cwd p).

Lemma change_fs_inv op (w : W) r w' : change_fs op w = (r, w') →
  w_env w' = w_env w ∧ w_cwd w' = w_cwd w ∧ w_trace w' = w_trace w ∧ w_procs w' = w_procs w ∧
  match r with Ok _ => op (w_fs w) (w_cwd w) = Ok (w_fs w') | Raise e => op (w_fs w) (w_cwd w) = Raise e ∧ w' = w end.
Proof. unfold change_fs. destruct (op _ _) eqn:E; intros [= <- <-]; done. Qed.

(** What these operations raise. *)
Lemma os_mkdir_raise f cwd p e : os_mkdir f cwd p = Raise e → is_OSError e = true.
Proof. unfold os_mkdir. repeat case_match; intros; by simplify_eq. Qed.

Lemma mkdir_go_raise n f cwd p e : mkdir_go n f cwd p = Raise e → is_OSError e = true.
Proof.
  revert f p e. induction n as [|n IH]; intros f p e; cbn [mkdir_go];
    destruct (os_mkdir f cwd p) as [f'|e'] eqn:E; try done; apply os_mkdir_raise in E.
  - destruct e'; try done; destruct (path_is_dir f cwd p); intros H; by simplify_eq.
  - destruct e'; try done; try (destruct (path_is_dir f cwd p); intros H; by simplify_eq).
    destruct (mkdir_go n f cwd (parent p)) as [f1|e1] eqn:E1; [|cbn; intros [= <-]; by eapply IH]. cbn.
    destruct (os_mkdir f1 cwd p) as [f2|e2] eqn:E2; [done|]. apply os_mkdir_raise in E2.
    destruct (path_is_dir f1 cwd p); [done|]. by intros [= <-].
Qed.

Lemma write_file_raise f cwd p c e : write_file f cwd p c = Raise e → is_OSError e = true.
Proof. unfold write_file, write_loc. cbn zeta. repeat case_match; cbn; intros; by simplify_eq. Qed.

Lemma OSError_Exception e : is_OSError e = true → is_Exception e = true.
Proof. by destruct e. Qed.

(** ** Temporary directories

    [tempfile] makes a directory nobody has, under the directory for such files;
    [tempdir_loc] is the place it chooses. *)
Class TempDir := {
  tempdir_loc : fs → list string;
  tempdir_fresh : ∀ f l, tempdir_loc f `prefix_of` l → f !! l = None
}.

(** A choice: a path longer than all others. *)
#[global] Program Instance long_tempdir : TempDir := {| tempdir_loc f := replicate (S (max_len f)) "t" |}.
Next Obligation.
  intros f l [k ->]. destruct (f !! _) as [nd|] eqn:E; [|done]. apply key_len in E.
  rewrite length_app, length_replicate in E. lia.
Qed.

Context {TD : TempDir}.

(** [with tempfile.TemporaryDirectory() as name: body(name)] *)
Definition with_tempdir {A} (body : string → M W A) : M W A := λ w,
  let loc := tempdir_loc (w_fs w) in
  let w1 := set_fs (<[loc := NDir]> (w_fs w)) w in
  finally (body (str_path (mkPath true loc))) (modify (λ w, set_fs (remove_tree (w_fs w) loc) w)) w1.

Lemma with_tempdir_inv {A} (body : string → M W A) (w : W) r w' : with_tempdir body w = (r, w') →
  ∃ w1, body (str_path (mkPath true (tempdir_loc (w_fs w)))) (set_fs (<[tempdir_loc (w_fs w) := NDir]> (w_fs w)) w) = (r, w1)
    ∧ w' = set_fs (remove_tree (w_fs w1) (tempdir_loc (w_fs w))) w1.
Proof.
  unfold with_tempdir, finally. destruct (body _ _) as [r1 w1]. cbn. intros [= <- <-]. eauto.
Qed.
End ops.
