(* ===== verification/Json.v ===== *)
(** * JSON values and [json.loads]

    The values [json.load] builds: a JSON object is an insertion-ordered dict
    whose keys are distinct (a repeated key keeps its first place and its last
    value).  [json_loads] is the decoder of the standard library on ASCII text:
    its grammar, including [NaN] and [Infinity]; a [\u] escape above ASCII is
    outside the modelled text and refused. *)

From stdpp Require Import base list strings.
From Stdlib Require Import Ascii ZArith SpecFloat.
From S2P Require Import Prelude PyStr PyFloat Fs World.

Inductive json :=
| JNull
| JBool (b : bool)
| JInt (n : Z)
| JFloat (x : float)
| JStr (s : string)
| JArr (l : list json)
| JObj (l : list (string * json)).

(** Induction that reaches the elements of arrays and objects. *)
Section json_ind.
Variable P : json → Prop.
Hypothesis HNull : P JNull.
Hypothesis HBool : ∀ b, P (JBool b).
Hypothesis HInt : ∀ n, P (JInt n).
Hypothesis HFloat : ∀ x, P (JFloat x).
Hypothesis HStr : ∀ s, P (JStr s).
Hypothesis HArr : ∀ l, Forall P l → P (JArr l).
Hypothesis HObj : ∀ l, Forall (λ kv, P kv.2) l → P (JObj l).

Fixpoint json_ind' (j : json) : P j :=
  match j with
  | JNull => HNull
  | JBool b => HBool b
  | JInt n => HInt n
  | JFloat x => HFloat x
  | JStr s => HStr s
  | JArr l => HArr l
      ((fix go l : Forall P l :=
          match l with
          | [] => ltac:(constructor)
          | j :: l => ltac:(constructor; [apply (json_ind' j)|apply (go l)])
          end) l)
  | JObj l => HObj l
      ((fix go l : Forall (λ kv, P kv.2) l :=
          match l with
          | [] => ltac:(constructor)
          | (k, j) :: l => ltac:(constructor; [apply (json_ind' j)|apply (go l)])
          end) l)
  end.
End json_ind.

(** Python truth value. *)
Definition truthy (j : json) : bool :=
  match j with
  | JNull => false
  | JBool b => b
  | JInt n => negb (n =? 0)%Z
  | JFloat x => match x with S754_zero _ => false | _ => true end
  | JStr s => negb (bool_decide (s = ""))
  | JArr l => match l with [] => false | _ => true end
  | JObj l => match l with [] => false | _ => true end
  end.

Definition json_type_name (j : json) : string :=
  match j with
  | JNull => "NoneType" | JBool _ => "bool" | JInt _ => "int" | JFloat _ => "float"
  | JStr _ => "str" | JArr _ => "list" | JObj _ => "dict"
  end.

(** ** [repr] and [str] *)

Definition hex_digit (n : N) : ascii :=
  if (n <? 10)%N then ascii_of_N (48 + n) else ascii_of_N (87 + n).

Definition squote : ascii := "039".
Definition dquote : ascii := "034".
Definition backslash : ascii := "092".

Definition repr_char (q : ascii) (c : ascii) : string :=
  let n := code c in
  if bool_decide (c = q) || bool_decide (c = backslash) then String backslash (String c "")
  else if (n =? 10)%N then String backslash "n"
  else if (n =? 13)%N then String backslash "r"
  else if (n =? 9)%N then String backslash "t"
  else if (n <? 32)%N || (n =? 127)%N
       then String backslash (String "x" (String (hex_digit (n / 16)) (String (hex_digit (n mod 16)) "")))
  else String c "".

Fixpoint repr_chars (q : ascii) (s : string) : string :=
  match s with "" => "" | String c s => repr_char q c +:+ repr_chars q s end.

Definition repr_str (s : string) : string :=
  let q := if str_mem squote s && negb (str_mem dquote s) then dquote else squote in
  String q (repr_chars q s) +:+ String q "".

Fixpoint py_repr (j : json) : string :=
  match j with
  | JNull => "None"
  | JBool b => if b then "True" else "False"
  | JInt n => str_of_Z n
  | JFloat x => float_repr x
  | JStr s => repr_str s
  | JArr l => "[" +:+ join ", " (map py_repr l) +:+ "]"
  | JObj l => "{" +:+ join ", " (map (λ '(k, v), repr_str k +:+ ": " +:+ py_repr v) l) +:+ "}"
  end.

(** [str(v)], as in an f-string. *)
Definition py_str (j : json) : string :=
  match j with JStr s => s | _ => py_repr j end.

(** ** Subscripts *)

(** [k in v] for a string [k]. *)
Definition py_in (k : string) (v : json) : result bool :=
  match v with
  | JObj l => Ok (bool_decide (k ∈ keys l))
  | JArr l => Ok (existsb (λ x, match x with JStr s => bool_decide (s = k) | _ => false end) l)
  | JStr s => Ok (str_contains s k)
  | _ => Raise TypeError
  end.

(** [v[k]] for a string [k]. *)
Definition py_getitem (v : json) (k : string) : result json :=
  match v with
  | JObj l => match assoc k l with Some x => Ok x | None => Raise (KeyError k) end
  | _ => Raise TypeError
  end.

(** [v.items()] *)
Definition py_items (v : json) : result (list (string * json)) :=
  match v with JObj l => Ok l | _ => Raise AttributeError end.

(** [v.get(k)] *)
Definition py_get (v : json) (k : string) : result (option json) :=
  match v with JObj l => Ok (assoc k l) | _ => Raise AttributeError end.

(** ** The decoder *)

Fixpoint skip_ws (s : string) : string :=
  match s with
  | "" => ""
  | String c s' =>
      if bool_decide (code c ∈ [9; 10; 13; 32]%N) then skip_ws s' else s
  end.

Definition hex_val (c : ascii) : option N :=
  let n := code c in
  if ((48 <=? n) && (n <=? 57))%N then Some (n - 48)%N
  else if ((97 <=? n) && (n <=? 102))%N then Some (n - 87)%N
  else if ((65 <=? n) && (n <=? 70))%N then Some (n - 55)%N
  else None.

Definition simple_escape (c : ascii) : option ascii :=
  if bool_decide (c = dquote) then Some dquote
  else if bool_decide (c = backslash) then Some backslash
  else if bool_decide (c = "/"%char) then Some "/"%char
  else if bool_decide (c = "b"%char) then Some "008"%char
  else if bool_decide (c = "f"%char) then Some "012"%char
  else if bool_decide (c = "n"%char) then Some "010"%char
  else if bool_decide (c = "r"%char) then Some "013"%char
  else if bool_decide (c = "t"%char) then Some "009"%char
  else None.

(** The rest of a string literal after its opening quote. *)
Fixpoint parse_string (fuel : nat) (s : string) : option (string * string) :=
  match fuel with
  | O => None
  | S fuel =>
      match s with
      | "" => None
      | String c s =>
          if bool_decide (c = dquote) then Some ("", s)
          else if bool_decide (c = backslash) then
            match s with
            | String "u" (String a (String b (String c (String d s)))) =>
                a ← hex_val a; b ← hex_val b; c ← hex_val c; d ← hex_val d;
                let n := (a * 4096 + b * 256 + c * 16 + d)%N in
                if (n <? 128)%N then
                  '(r, s) ← parse_string fuel s; Some (String (ascii_of_N n) r, s)
                else None
            | String e s =>
                e ← simple_escape e;
                '(r, s) ← parse_string fuel s; Some (String e r, s)
            | "" => None
            end
          else if (code c <? 32)%N then None
          else '(r, s) ← parse_string fuel s; Some (String c r, s)
      end
  end.

(** The integer part: [0] or digits without a leading [0]. *)
Definition int_part (s : string) : option (string * string) :=
  match s with
  | String "0" s => Some ("0", s)
  | _ => match span_digits s with
         | ("", _) => None
         | (ds, s) => Some (ds, s)
         end
  end.

Definition frac_part (s : string) : string * string :=
  match s with
  | String "." s' =>
      match span_digits s' with
      | ("", _) => ("", s)
      | (ds, r) => (ds, r)
      end
  | _ => ("", s)
  end.

Definition exp_part (s : string) : option Z * string :=
  match s with
  | String c s' =>
      if bool_decide (c = "e"%char) || bool_decide (c = "E"%char) then
        let '(neg, s'') := parse_sign s' in
        match span_digits s'' with
        | ("", _) => (None, s)
        | (ds, r) => (Some (if neg then - digits_val 0 ds else digits_val 0 ds)%Z, r)
        end
      else (None, s)
  | "" => (None, s)
  end.

Definition parse_number (s : string) : option (json * string) :=
  let '(neg, s) := match s with String "-" s => (true, s) | s => (false, s) end in
  '(ip, s) ← int_part s;
  let '(fp, s) := frac_part s in
  let '(e, s) := exp_part s in
  match fp, e with
  | "", None => Some (JInt (if neg then - digits_val 0 ip else digits_val 0 ip)%Z, s)
  | _, _ => Some (JFloat (dec_float neg (digits_val 0 (ip +:+ fp))
                            (default 0 e - Z.of_nat (String.length fp))%Z), s)
  end.

Definition keyword (kw : string) (v : json) (s : string) : option (json * string) :=
  if String.prefix kw s then Some (v, str_drop (String.length kw) s) else None.

Fixpoint parse_value (fuel : nat) (s : string) : option (json * string) :=
  match fuel with
  | O => None
  | S fuel =>
      match s with
      | "" => None
      | String c s' =>
          if bool_decide (c = dquote) then
            '(r, s) ← parse_string (S (String.length s')) s'; Some (JStr r, s)
          else if bool_decide (c = "{"%char) then
            match skip_ws s' with
            | String "}" s => Some (JObj [], s)
            | s => parse_members fuel [] s
            end
          else if bool_decide (c = "["%char) then
            match skip_ws s' with
            | String "]" s => Some (JArr [], s)
            | s => parse_elems fuel [] s
            end
          else
            match keyword "null" JNull s with Some r => Some r | None =>
            match keyword "true" (JBool true) s with Some r => Some r | None =>
            match keyword "false" (JBool false) s with Some r => Some r | None =>
            match parse_number s with Some r => Some r | None =>
            match keyword "NaN" (JFloat S754_nan) s with Some r => Some r | None =>
            match keyword "Infinity" (JFloat (S754_infinity false)) s with Some r => Some r | None =>
              keyword "-Infinity" (JFloat (S754_infinity true)) s
            end end end end end end
      end
  end
with parse_elems (fuel : nat) (acc : list json) (s : string) : option (json * string) :=
  match fuel with
  | O => None
  | S fuel =>
      '(v, s) ← parse_value fuel s;
      match skip_ws s with
      | String "]" s => Some (JArr (acc ++ [v]), s)
      | String "," s => parse_elems fuel (acc ++ [v]) (skip_ws s)
      | _ => None
      end
  end
with parse_members (fuel : nat) (acc : list (string * json)) (s : string) : option (json * string) :=
  match fuel with
  | O => None
  | S fuel =>
      match s with
      | String c s' =>
          if bool_decide (c = dquote) then
            '(k, s) ← parse_string (S (String.length s')) s';
            match skip_ws s with
            | String ":" s =>
                '(v, s) ← parse_value fuel (skip_ws s);
                let acc := assoc_set k v acc in
                match skip_ws s with
                | String "}" s => Some (JObj acc, s)
                | String "," s => parse_members fuel acc (skip_ws s)
                | _ => None
                end
            | _ => None
            end
          else None
      | "" => None
      end
  end.

Definition json_decode_error : exn := JSONDecodeError "Expecting value".

(** [json.loads(s)]: one value, blanks around it, nothing else.  Every call
    consumes a character or closes a bracket, so the fuel is enough. *)
Definition json_loads (s : string) : result json :=
  match parse_value (2 * String.length s + 2) (skip_ws s) with
  | Some (v, rest) => match skip_ws rest with "" => Ok v | _ => Raise json_decode_error end
  | None => Raise json_decode_error
  end.

Lemma json_loads_raise s e : json_loads s = Raise e → e = json_decode_error.
Proof. unfold json_loads. intros. repeat case_match; by simplify_eq. Qed.


Lemma parse_members_NoDup fuel acc s m rest :
  NoDup (keys acc) → parse_members fuel acc s = Some (JObj m, rest) → NoDup (keys m).
Proof.
  revert acc s. induction fuel as [|fuel IH]; intros acc s Hacc H; [done|]. cbn [parse_members] in H.
  destruct s as [|c s']; [done|]. case_bool_decide; [|done].
  apply bind_Some in H as ([k s1] & _ & H). destruct (skip_ws s1) as [|c1 s2]; [done|].
  assert (∃ p : option (json * string), (('(v, s0) ← p; let acc0 := assoc_set k v acc in
     match skip_ws s0 with
     | String "}" s3 => Some (JObj acc0, s3)
     | String "," s3 => parse_members fuel acc0 (skip_ws s3)
     | _ => None
     end) = Some (JObj m, rest))) as [p Hp].
  { exists (parse_value fuel (skip_ws s2)). destruct c1 as [[] [] [] [] [] [] [] []]; try done; exact H. }
  clear H. apply bind_Some in Hp as ([v s3] & _ & H). cbn zeta in H.
  pose proof (NoDup_assoc_set k v acc Hacc).
  destruct (skip_ws s3) as [|c4 s4]; [done|].
  destruct c4 as [[] [] [] [] [] [] [] []]; try done; [by simplify_eq|by eapply IH].
Qed.

Lemma parse_elems_arr fuel acc s m rest : parse_elems fuel acc s ≠ Some (JObj m, rest).
Proof.
  revert acc s. induction fuel as [|fuel IH]; intros acc s H; [done|]. cbn [parse_elems] in H.
  apply bind_Some in H as ([v s1] & _ & H). destruct (skip_ws s1) as [|c s2]; [done|].
  destruct c as [[] [] [] [] [] [] [] []]; try done. by eapply IH.
Qed.

Lemma first_choice {A} (a b : option A) x :
  match a with Some r => Some r | None => b end = Some x → a = Some x ∨ b = Some x.
Proof. destruct a; auto. Qed.

Lemma keyword_value kw v s r : keyword kw v s = Some r → r.1 = v.
Proof. unfold keyword. case_match; [|done]. by intros [= <-]. Qed.

Lemma parse_number_atom s m rest : parse_number s ≠ Some (JObj m, rest).
Proof.
  unfold parse_number. intros H. destruct (match s with "" => _ | _ => _ end) as [neg s0].
  apply bind_Some in H as ([ip s1] & _ & H). destruct (frac_part s1) as [fp s2], (exp_part s2) as [e s3].
  by destruct fp, e.
Qed.

(** A JSON object has no repeated key. *)
Lemma json_loads_NoDup text m : json_loads text = Ok (JObj m) → NoDup (keys m).
Proof.
  unfold json_loads. destruct (parse_value _ _) as [[v rest]|] eqn:E; [|done]. 
  destruct (skip_ws rest); [|done]. intros [= ->]. revert E. generalize (skip_ws text) as s.
  generalize (2 * String.length text + 2). intros [|fuel] s E; [done|]. cbn [parse_value] in E.
  destruct s as [|c s']; [done|]. case_bool_decide. { by apply bind_Some in E as ([? ?] & _ & ?). }
  case_bool_decide.
  { destruct (skip_ws s') as [|c1 s2] eqn:Es; [by eapply parse_members_NoDup in E; [|apply NoDup_nil_2]|].
    assert (m = [] ∨ parse_members fuel [] (String c1 s2) = Some (JObj m, rest)) as [->|E'].
    { destruct c1 as [[] [] [] [] [] [] [] []]; try (by right); left; by simplify_eq. }
    - apply NoDup_nil_2. - by eapply parse_members_NoDup in E'; [|apply NoDup_nil_2]. }
  case_bool_decide.
  { destruct (skip_ws s') as [|c1 s2] eqn:Es; [by apply parse_elems_arr in E|].
    destruct c1 as [[] [] [] [] [] [] [] []]; try (by apply parse_elems_arr in E); by simplify_eq. }
  repeat (apply first_choice in E as [E|E]; [by (apply keyword_value in E || apply parse_number_atom in E)|]).
  by apply keyword_value in E.
Qed.
