(* ===== verification/Config.v ===== *)
(** * The devkit.json configuration (docker/build.py)

    The schema language, [CONFIG_SCHEMA], its validator and the registry part
    of the configuration.  [conforms] says declaratively what a schema demands;
    the validator decides it, and a configuration it accepts can be read
    without a [TypeError] or [KeyError]. *)

From stdpp Require Import base gmap list strings sorting.
From Stdlib Require Import Ascii ZArith.
From S2P Require Import Prelude PyStr PyFloat Fs World Json.

(** ** Schemas *)

Inductive pytype := TDict | TStr | TList.

Inductive schema := mkSchema (ty : option pytype) (props : list (string * schema)) (add : additional)
with additional := AddTrue | AddFalse | AddSchema (s : schema).

Definition type_name (t : pytype) : string :=
  match t with TDict => "dict" | TStr => "str" | TList => "list" end.

Definition isinstance (data : json) (t : pytype) : bool :=
  match t, data with
  | TDict, JObj _ | TStr, JStr _ | TList, JArr _ => true
  | _, _ => false
  end.

Definition str_schema : schema := mkSchema (Some TStr) [] AddTrue.
Definition str_dict_schema : schema := mkSchema (Some TDict) [] (AddSchema str_schema).

Definition REGISTRY_SCHEMA : schema :=
  mkSchema (Some TDict)
    [("host", str_schema); ("project", str_schema);
     ("repository", str_schema); ("namespace", str_schema)] AddFalse.

Definition IMAGE_SCHEMA : schema :=
  mkSchema (Some TDict)
    [("packages", str_dict_schema); ("keys", str_dict_schema);
     ("repositories", str_dict_schema)] AddFalse.

Definition DOCKER_SCHEMA : schema :=
  mkSchema (Some TDict)
    [("registry", REGISTRY_SCHEMA);
     ("run", mkSchema (Some TList) [] AddTrue);
     ("images", mkSchema (Some TDict) [] (AddSchema IMAGE_SCHEMA))] AddFalse.

Definition CONFIG_SCHEMA : schema :=
  mkSchema (Some TDict) [("docker", DOCKER_SCHEMA)] AddFalse.

Definition sub_path (path key : string) : string :=
  match path with "" => key | _ => path +:+ "." +:+ key end.

(** [set(data.keys()) - set(properties.keys())], sorted *)
Definition extra_keys {A B} (data : list (string * A)) (props : list (string * B)) : list string :=
  merge_sort String.le (filter (λ k, k ∉ keys props) (keys data)).

(** The loop over [properties.items()] and the loop over [data.items()],
    for the recursive call [v]. *)
Definition validate_props (v : json → schema → string → result ())
    (fields : list (string * json)) (path : string) : list (string * schema) → result () :=
  fix go props :=
    match props with
    | [] => Ok tt
    | (key, sch) :: props =>
        match assoc key fields with
        | Some x => v x sch (sub_path path key) ;; go props
        | None => go props
        end
    end.

Definition validate_additional (v : json → string → result ()) (prop_keys : list string)
    (path : string) : list (string * json) → result () :=
  fix go fields :=
    match fields with
    | [] => Ok tt
    | (key, x) :: fields =>
        (if bool_decide (key ∈ prop_keys) then Ok tt else v x (sub_path path key)) ;; go fields
    end.

Fixpoint validate_config (data : json) (sch : schema) (path : string) {struct sch} : result () :=
  match sch with
  | mkSchema ty props add =>
      match ty with
      | Some t =>
          if isinstance data t then Ok tt
          else Raise (ValueError ("Invalid type at '" +:+ path +:+ "'. Expected " +:+ type_name t
                        +:+ ", got " +:+ json_type_name data +:+ "."))
      | None => Ok tt
      end ;;
      match data with
      | JObj fields =>
          match add with
          | AddFalse =>
              match extra_keys fields props with
              | [] => Ok tt
              | extra => Raise (ValueError ("Unexpected fields at '" +:+ path +:+ "': " +:+ join ", " extra))
              end
          | _ => Ok tt
          end ;;
          validate_props (λ x s p, validate_config x s p) fields path props ;;
          match add with
          | AddSchema s =>
              validate_additional (λ x p, validate_config x s p) (keys props) path fields
          | _ => Ok tt
          end
      | _ => Ok tt
      end
  end.

(** ** The registry part *)

(** [a and b and c] on subscript tests, left to right. *)
Fixpoint all_in (ks : list string) (v : json) : result bool :=
  match ks with
  | [] => Ok true
  | k :: ks => b ← py_in k v; if (b : bool) then all_in ks v else Ok false
  end.

Definition registry_repo (registry : json) : result string :=
  b ← all_in ["host"; "project"; "repository"] registry;
  if (b : bool) then
    host ← py_getitem registry "host";
    project ← py_getitem registry "project";
    repository ← py_getitem registry "repository";
    if truthy host && truthy project && truthy repository
    then Ok (py_str host +:+ "/" +:+ py_str project +:+ "/" +:+ py_str repository)
    else Ok ""
  else Ok "".

Definition registry_namespace (registry : json) : result string :=
  b ← py_in "namespace" registry;
  if (b : bool) then
    ns ← py_getitem registry "namespace";
    if truthy ns then Ok ("devkit/" +:+ py_str ns) else Ok "devkit"
  else Ok "devkit".

Definition parse_registry_config (config : json) : result (string * string) :=
  has_docker ← py_in "docker" config;
  if (has_docker : bool) then
    docker_config ← py_getitem config "docker";
    has_registry ← py_in "registry" docker_config;
    if (has_registry : bool) then
      registry ← py_getitem docker_config "registry";
      repo ← registry_repo registry;
      namespace ← registry_namespace registry;
      Ok (repo, namespace)
    else Ok ("", "devkit")
  else Ok ("", "devkit").

Section prefix.
Context {PS : Type}.

Definition get_image_prefix (config_path : Path) : M (World PS) string :=
  ex ← exists_p config_path;
  if (ex : bool) then
    try_with
      (text ← read_text config_path;
       config ← lift_result (json_loads text);
       '(repo, namespace) ← lift_result (parse_registry_config config);
       if bool_decide (repo = "") then mret namespace
       else mret (repo +:+ "/" +:+ namespace))
      (λ e, if is_JSONDecodeError e || is_KeyError e || is_ValueError e
            then Some (mret "devkit") else None)
  else mret "devkit".
End prefix.

(** ** What a schema demands *)

Definition type_ok (data : json) (ty : option pytype) : Prop :=
  match ty with Some t => isinstance data t = true | None => True end.

Inductive conforms : json → schema → Prop :=
| conforms_intro data ty props add :
    type_ok data ty →
    (∀ fields, data = JObj fields →
       (add = AddFalse → keys fields ⊆ keys props) ∧
       (∀ k s x, (k, s) ∈ props → assoc k fields = Some x → conforms x s) ∧
       (∀ s k x, add = AddSchema s → (k, x) ∈ fields → k ∉ keys props → conforms x s)) →
    conforms data (mkSchema ty props add).

Lemma extra_keys_nil {A B} (data : list (string * A)) (props : list (string * B)) :
  extra_keys data props = [] ↔ keys data ⊆ keys props.
Proof.
  unfold extra_keys.
  assert (∀ l : list string, merge_sort String.le l = [] ↔ l = []) as Hms.
  { intros l. split; [|by intros ->]. intros H. apply Permutation_nil.
    rewrite <- H. apply merge_sort_Permutation. }
  rewrite Hms. split.
  - intros H k Hk. destruct (decide (k ∈ keys props)); [done|].
    assert (k ∈ filter (λ k, k ∉ keys props) (keys data)) as Hin
      by (by apply list_elem_of_filter).
    rewrite H in Hin. by apply elem_of_nil in Hin.
  - intros Hsub. destruct (filter _ _) as [|k l] eqn:E; [done|].
    assert (k ∈ filter (λ k, k ∉ keys props) (keys data)) as Hin by (rewrite E; left).
    apply list_elem_of_filter in Hin as [? Hk]. by apply Hsub in Hk.
Qed.

Lemma result_seq_ok {A} (m : result ()) (k : result A) a :
  (m ;; k) = Ok a ↔ m = Ok tt ∧ k = Ok a.
Proof. destruct m as [[]|e]; cbn; naive_solver. Qed.

Lemma validate_props_cons v fields path k s props :
  validate_props v fields path ((k, s) :: props) =
  match assoc k fields with
  | Some x => v x s (sub_path path k) ;; validate_props v fields path props
  | None => validate_props v fields path props
  end.
Proof. done. Qed.

Lemma validate_additional_cons v ks path k x fields :
  validate_additional v ks path ((k, x) :: fields) =
  ((if bool_decide (k ∈ ks) then Ok tt else v x (sub_path path k)) ;;
   validate_additional v ks path fields).
Proof. done. Qed.

Lemma validate_additional_ok v prop_keys path fields :
  validate_additional v prop_keys path fields = Ok tt ↔
  ∀ k x, (k, x) ∈ fields → k ∉ prop_keys → v x (sub_path path k) = Ok tt.
Proof.
  induction fields as [|[k x] fields IH].
  - split; [by intros _ ? ? ?%elem_of_nil|done].
  - rewrite validate_additional_cons, result_seq_ok, IH. split.
    + intros [H1 H2] k' x' [E|Hin]%elem_of_cons Hk; simplify_eq; [|by eauto].
      by rewrite bool_decide_eq_false_2 in H1.
    + intros H. split; [|intros; apply H; [by right|done]].
      case_bool_decide; [done|]. apply H; [by left|done].
Qed.

Section schema_ind.
Variable P : schema → Prop.
Hypothesis Hsch : ∀ ty props add,
  Forall (λ ks, P ks.2) props → (∀ s, add = AddSchema s → P s) → P (mkSchema ty props add).

Fixpoint schema_ind' (s : schema) : P s :=
  match s with
  | mkSchema ty props add =>
      Hsch ty props add
        ((fix go l : Forall (λ ks, P ks.2) l :=
            match l with
            | [] => ltac:(constructor)
            | (k, s) :: l => ltac:(constructor; [apply (schema_ind' s)|apply (go l)])
            end) props)
        (match add with
         | AddSchema s => λ s' E, ltac:(injection E as <-; apply (schema_ind' s))
         | AddTrue => λ s' E, ltac:(discriminate E)
         | AddFalse => λ s' E, ltac:(discriminate E)
         end)
  end.
End schema_ind.

(** The properties loop, given that the recursive calls decide conformance. *)
Lemma validate_props_ok fields path props :
  Forall (λ ks, ∀ x p, validate_config x ks.2 p = Ok tt ↔ conforms x ks.2) props →
  validate_props (λ x s p, validate_config x s p) fields path props = Ok tt ↔
  ∀ k s x, (k, s) ∈ props → assoc k fields = Some x → conforms x s.
Proof.
  induction 1 as [|[k s] props Hs _ IH].
  - split; [by intros _ ? ? ? ?%elem_of_nil|done].
  - cbn in Hs. rewrite validate_props_cons. destruct (assoc k fields) as [x|] eqn:E.
    + rewrite result_seq_ok, IH, Hs. split.
      * intros [H1 H2] k' s' x' [?|?]%elem_of_cons ?; simplify_eq; eauto.
      * intros H. split; [eapply H; [by left|done]|]. intros. eapply H; [by right|done].
    + rewrite IH. split.
      * intros H k' s' x' [?|?]%elem_of_cons ?; simplify_eq; eauto.
      * intros H k' s' x' ??. eapply H; [by right|done].
Qed.

(** The validator decides conformance, whatever the path of the messages. *)
Lemma validate_config_conforms sch : ∀ data path,
  validate_config data sch path = Ok tt ↔ conforms data sch.
Proof.
  induction sch as [ty props add Hprops Hadd] using schema_ind'; intros data path.
  cbn [validate_config]. rewrite result_seq_ok.
  assert ((match ty with
           | Some t => if isinstance data t then Ok tt else Raise _
           | None => Ok tt
           end = Ok tt) ↔ type_ok data ty) as ->.
  { destruct ty as [t|]; cbn; [|done]. by destruct (isinstance data t). }
  destruct data as [| | | | | |fields];
    try (split; [intros [? _]; by constructor|by inversion 1]).
  rewrite !result_seq_ok, (validate_props_ok fields path props).
  2: { eapply Forall_impl; [exact Hprops|]. intros [k s] IH; cbn in *. intros. apply IH. }
  assert ((match add with
           | AddFalse => match extra_keys fields props with [] => Ok tt | _ => Raise _ end
           | _ => Ok tt
           end = Ok tt) ↔ (add = AddFalse → keys fields ⊆ keys props)) as ->.
  { destruct add; [naive_solver| |naive_solver]. rewrite <- extra_keys_nil.
    destruct (extra_keys fields props); naive_solver. }
  assert ((match add with
           | AddSchema s => validate_additional (λ x p, validate_config x s p) (keys props) path fields
           | _ => Ok tt
           end = Ok tt) ↔
          (∀ s k x, add = AddSchema s → (k, x) ∈ fields → k ∉ keys props → conforms x s)) as ->.
  { destruct add as [| |s]; [naive_solver..|]. rewrite validate_additional_ok.
    split; [intros H s' k x [=<-] ? ?; by eapply (Hadd s eq_refl), H|].
    intros H k x ? ?. apply (Hadd s eq_refl). by eapply H. }
  split.
  - intros (? & ? & ? & ?). constructor; [done|]. by intros ? [=<-].
  - inversion 1 as [? ? ? ? Hty Hf]; subst. by destruct (Hf fields eq_refl).
Qed.

(** Whatever it refuses, the validator raises a [ValueError]. *)
Lemma validate_props_error v fields path props e :
  Forall (λ ks, ∀ x p e, v x ks.2 p = Raise e → is_ValueError e = true) props →
  validate_props v fields path props = Raise e → is_ValueError e = true.
Proof.
  induction 1 as [|[k s] props Hs _ IH]; [done|]. rewrite validate_props_cons.
  destruct (assoc k fields); [|done].
  destruct (v _ _ _) as [[]|e1] eqn:E; cbn; [done|]. intros [= ->]. eauto.
Qed.

Lemma validate_additional_error v ks path fields e :
  (∀ x p e, v x p = Raise e → is_ValueError e = true) →
  validate_additional v ks path fields = Raise e → is_ValueError e = true.
Proof.
  intros Hv. induction fields as [|[k x] fields IH]; [done|].
  rewrite validate_additional_cons. case_bool_decide; cbn; [done|].
  destruct (v _ _) as [[]|e1] eqn:E; cbn; [done|]. intros [= ->]. eauto.
Qed.

Lemma result_seq_raise {A} (m : result ()) (k : result A) e :
  (m ;; k) = Raise e → m = Raise e ∨ (m = Ok tt ∧ k = Raise e).
Proof. destruct m as [[]|e']; cbn; naive_solver. Qed.

Lemma validate_config_error sch : ∀ data path e,
  validate_config data sch path = Raise e → is_ValueError e = true.
Proof.
  induction sch as [ty props add Hprops Hadd] using schema_ind'; intros data path e.
  cbn [validate_config]. intros [H|[_ H]]%result_seq_raise.
  { repeat case_match; by simplify_eq. }
  destruct data as [| | | | | |fields]; try done.
  apply result_seq_raise in H as [H|[_ H]].
  { repeat case_match; by simplify_eq. }
  apply result_seq_raise in H as [H|[_ H]].
  - eapply validate_props_error; [|exact H]. by eapply Forall_impl; [exact Hprops|]; cbn.
  - destruct add as [| |s]; [done..|].
    eapply validate_additional_error; [|exact H]. cbn. intros. by eapply (Hadd s).
Qed.

(** ** Reading an accepted configuration *)

Lemma conforms_dict data props add : conforms data (mkSchema (Some TDict) props add) →
  ∃ fields, data = JObj fields ∧
    (∀ k s x, (k, s) ∈ props → assoc k fields = Some x → conforms x s) ∧
    (∀ s k x, add = AddSchema s → (k, x) ∈ fields → k ∉ keys props → conforms x s).
Proof.
  inversion 1 as [? ? ? ? Hty Hf]; subst. destruct data as [| | | | | |fields]; try done.
  exists fields. destruct (Hf fields eq_refl) as (_ & ? & ?). eauto.
Qed.

Lemma conforms_str data : conforms data str_schema → ∃ s, data = JStr s.
Proof. inversion 1 as [? ? ? ? Hty _]; subst. destruct data; try done. eauto. Qed.

(** The fields a reader of devkit.json has in mind. *)
Definition str_field (k : string) (fields : list (string * json)) : string :=
  match assoc k fields with Some (JStr s) => s | _ => "" end.

Definition dict_field (k : string) (v : json) : option (list (string * json)) :=
  match v with
  | JObj l => match assoc k l with Some (JObj l') => Some l' | _ => None end
  | _ => None
  end.

Definition docker_fields (config : json) : option (list (string * json)) := dict_field "docker" config.

Definition registry_fields (config : json) : list (string * json) :=
  match docker_fields config with
  | Some d => default [] (dict_field "registry" (JObj d))
  | None => []
  end.

Definition spec_repo (config : json) : string :=
  let r := registry_fields config in
  let h := str_field "host" r in
  let p := str_field "project" r in
  let x := str_field "repository" r in
  if bool_decide (h ≠ "" ∧ p ≠ "" ∧ x ≠ "") then h +:+ "/" +:+ p +:+ "/" +:+ x else "".

Definition spec_namespace (config : json) : string :=
  match str_field "namespace" (registry_fields config) with
  | "" => "devkit"
  | ns => "devkit/" +:+ ns
  end.

Lemma py_in_obj k l : py_in k (JObj l) = Ok (bool_decide (is_Some (assoc k l))).
Proof. cbn. f_equal. apply bool_decide_ext. by rewrite assoc_is_Some. Qed.

Definition str_valued (ks : list string) (l : list (string * json)) : Prop :=
  ∀ k x, k ∈ ks → assoc k l = Some x → ∃ s, x = JStr s.

Lemma str_valued_field ks l k : str_valued ks l → k ∈ ks →
  assoc k l = None ∨ ∃ s, assoc k l = Some (JStr s).
Proof.
  intros H Hk. destruct (assoc k l) as [x|] eqn:E; [right|by left].
  destruct (H k x Hk E) as [s ->]. eauto.
Qed.

Lemma registry_repo_ok l : str_valued ["host"; "project"; "repository"; "namespace"] l →
  registry_repo (JObj l) =
  Ok (let h := str_field "host" l in let p := str_field "project" l in
      let x := str_field "repository" l in
      if bool_decide (h ≠ "" ∧ p ≠ "" ∧ x ≠ "") then h +:+ "/" +:+ p +:+ "/" +:+ x else "").
Proof.
  intros H. unfold registry_repo. cbn [all_in]. rewrite !py_in_obj. cbn. unfold str_field.
  destruct (str_valued_field _ _ "host" H) as [->|[h ->]]; [set_solver|done|].
  destruct (str_valued_field _ _ "project" H) as [->|[p ->]]; [set_solver|cbn; by case_bool_decide; naive_solver|].
  destruct (str_valued_field _ _ "repository" H) as [->|[x ->]]; [set_solver|cbn; by case_bool_decide; naive_solver|].
  cbn. repeat case_bool_decide; cbn; naive_solver.
Qed.

Lemma registry_namespace_ok l : str_valued ["host"; "project"; "repository"; "namespace"] l →
  registry_namespace (JObj l) =
  Ok (match str_field "namespace" l with "" => "devkit" | ns => "devkit/" +:+ ns end).
Proof.
  intros H. unfold registry_namespace. rewrite py_in_obj. cbn. unfold str_field.
  destruct (str_valued_field _ _ "namespace" H) as [->|[s ->]]; [set_solver|done|].
  cbn. destruct s; [done|]. by rewrite bool_decide_eq_false_2.
Qed.

(** The docker part of an accepted configuration, if there is one, is a dict of
    the declared shape. *)
Lemma config_docker config : conforms config CONFIG_SCHEMA →
  ∃ l, config = JObj l ∧
    (assoc "docker" l = None ∨ ∃ d, assoc "docker" l = Some (JObj d) ∧ conforms (JObj d) DOCKER_SCHEMA).
Proof.
  intros (l & -> & Hp & _)%conforms_dict. exists l. split; [done|].
  destruct (assoc "docker" l) as [x|] eqn:E; [right|by left].
  assert (conforms x DOCKER_SCHEMA) as Hx by (eapply Hp; [left|done]).
  pose proof Hx as (d & -> & _)%conforms_dict. eauto.
Qed.

Lemma docker_registry d : conforms (JObj d) DOCKER_SCHEMA →
  assoc "registry" d = None ∨
  ∃ r, assoc "registry" d = Some (JObj r) ∧
       str_valued ["host"; "project"; "repository"; "namespace"] r.
Proof.
  intros (? & [= <-] & Hp & _)%conforms_dict.
  destruct (assoc "registry" d) as [x|] eqn:E; [right|by left].
  assert (conforms x REGISTRY_SCHEMA) as (r & -> & Hr & _)%conforms_dict
    by (eapply Hp; [left|done]).
  exists r. split; [done|]. intros k x Hk Hx. apply conforms_str, (Hr k str_schema x); [|done].
  rewrite !elem_of_cons in Hk. set_solver.
Qed.

(** Reading the registry of an accepted configuration never raises. *)
Lemma parse_registry_config_ok config : conforms config CONFIG_SCHEMA →
  parse_registry_config config = Ok (spec_repo config, spec_namespace config).
Proof.
  intros (l & -> & Hd)%config_docker.
  unfold parse_registry_config, spec_repo, spec_namespace, registry_fields, docker_fields, dict_field.
  rewrite py_in_obj. cbn -[registry_repo registry_namespace].
  destruct Hd as [->|(d & -> & Hd)]; [done|].
  rewrite bool_decide_eq_true_2 by eauto. cbn [mbind result_bind]. rewrite py_in_obj.
  cbn -[registry_repo registry_namespace].
  destruct (docker_registry d Hd) as [->|(r & -> & Hr)]; [done|].
  rewrite bool_decide_eq_true_2 by eauto. cbn [mbind result_bind].
  by rewrite registry_repo_ok, registry_namespace_ok.
Qed.
