(* ===== verification/Graph.v ===== *)
(** * Dependency graphs: closure and topological order

    The worklist of [get_dependency_subgraph] and the
    [graphlib.TopologicalSorter] it hands its result to.  A graph is the dict
    the code builds: a node and the set of what it depends on, in insertion
    order.  The order in which Python walks a set is not specified: it is the
    class [SetOrder], and the theorems hold for every instance. *)

From stdpp Require Import base gmap sets list strings sorting relations.
From Stdlib Require Import ZArith Lia.
From S2P Require Import Prelude World.

Abbreviation graph := (list (string * gset string)).

(** How a Python set is walked: some enumeration of its elements. *)
Class SetOrder := {
  set_iter : gset string → list string;
  set_iter_perm s : set_iter s ≡ₚ elements s
}.

Definition deps_of (g : graph) (x : string) : gset string := default ∅ (assoc x g).

(** [edge g x y]: [x] depends on [y]. *)
Definition edge (g : graph) (x y : string) : Prop := y ∈ deps_of g x.

Definition acyclic (g : graph) : Prop := ∀ x, ¬ tc (edge g) x x.

Definition reachable (g : graph) (targets : gset string) (x : string) : Prop :=
  ∃ t, t ∈ targets ∧ rtc (edge g) t x.

Section graph.
Context {SO : SetOrder}.

(** ** The worklist *)

(** [while nodes_to_visit: current_node = nodes_to_visit.pop() ...] *)
Fixpoint visit (fuel : nat) (g : graph) (todo visited : gset string) : option (gset string) :=
  match fuel with
  | O => None
  | S fuel =>
      match set_iter todo with
      | [] => Some visited
      | x :: _ =>
          let todo' := todo ∖ {[x]} in
          if bool_decide (x ∈ visited) then visit fuel g todo' visited
          else visit fuel g (todo' ∪ deps_of g x) ({[x]} ∪ visited)
      end
  end.

Definition universe (g : graph) (targets : gset string) : gset string :=
  targets ∪ list_to_set (keys g) ∪ ⋃ g.*2.

Definition visit_fuel (g : graph) (targets : gset string) : nat :=
  let n := S (size (universe g targets)) in n * n.

(** [{node: full_graph[node] for node in visited_nodes if node in full_graph}] *)
Definition entry (g : graph) (x : string) : option (string * gset string) :=
  (λ s, (x, s)) <$> assoc x g.

Definition restrict (g : graph) (visited : gset string) : graph :=
  omap (entry g) (set_iter visited).

(** ** graphlib.TopologicalSorter *)

Definition add_node (l : list string) (x : string) : list string :=
  if bool_decide (x ∈ l) then l else l ++ [x].

(** The nodes in the order [TopologicalSorter.add] meets them. *)
Definition nodes (g : graph) : list string :=
  foldl (λ acc '(k, ps), foldl add_node (add_node acc k) (set_iter ps)) [] g.

Definition succs (g : graph) (p : string) : list string :=
  keys (filter (λ kps, p ∈ kps.2) g).

(** The second half of [done]: one predecessor fewer for each successor. *)
Fixpoint release (ss : list string) (counts : gmap string nat) : gmap string nat * list string :=
  match ss with
  | [] => (counts, [])
  | s :: ss =>
      let c := default 0 (counts !! s) - 1 in
      let '(counts', new) := release ss (<[s:=c]> counts) in
      (counts', (if bool_decide (c = 0) then [s] else []) ++ new)
  end.

(** [get_ready] and [done] in turn: the ready nodes are handed out in order and
    their successors released in the same order. *)
Fixpoint drain (fuel : nat) (g : graph) (counts : gmap string nat) (ready out : list string) : list string :=
  match fuel, ready with
  | S fuel, x :: ready =>
      let '(counts', new) := release (succs g x) counts in
      drain fuel g counts' (ready ++ new) (out ++ [x])
  | _, _ => out
  end.

Definition init_counts (g : graph) : gmap string nat :=
  list_to_map ((λ x, (x, size (deps_of g x))) <$> nodes g).

Definition init_ready (g : graph) : list string :=
  filter (λ x, deps_of g x = ∅) (nodes g).

(** [list(TopologicalSorter(g).static_order())]: [prepare] raises [CycleError]
    when some nodes can never be handed out. *)
Definition static_order (g : graph) : result (list string) :=
  let out := drain (length (nodes g)) g (init_counts g) (init_ready g) [] in
  if bool_decide (length out = length (nodes g)) then Ok out else Raise CycleError.

(** ** Correctness of the worklist *)

Lemma elem_of_set_iter s x : x ∈ set_iter s ↔ x ∈ s.
Proof. rewrite set_iter_perm. apply elem_of_elements. Qed.

Lemma set_iter_nil s : set_iter s = [] → s = ∅.
Proof.
  intros H. apply leibniz_equiv, elem_of_equiv_empty. intros x Hx.
  apply elem_of_set_iter in Hx. rewrite H in Hx. by apply elem_of_nil in Hx.
Qed.

Lemma NoDup_set_iter s : NoDup (set_iter s).
Proof. rewrite set_iter_perm. apply NoDup_elements. Qed.

Lemma deps_in_universe g targets x : deps_of g x ⊆ universe g targets.
Proof.
  unfold deps_of, universe. destruct (assoc x g) as [s|] eqn:E; cbn; [|set_solver].
  apply assoc_elem in E. intros y Hy. apply elem_of_union_r, elem_of_union_list.
  exists s. split; [|done]. apply list_elem_of_fmap. by exists (x, s).
Qed.

(** Every step lowers [(unvisited nodes) * (N + 1) + |todo|]. *)
Lemma visit_total g targets fuel todo visited :
  let U := universe g targets in
  todo ⊆ U → visited ⊆ U →
  (size U - size visited) * S (size U) + size todo < fuel →
  ∃ r, visit fuel g todo visited = Some r.
Proof.
  cbn. set (U := universe g targets). revert todo visited.
  induction fuel as [|fuel IH]; intros todo visited Ht Hv Hm; [by apply Nat.nlt_0_r in Hm|]. cbn [visit].
  destruct (set_iter todo) as [|x l] eqn:E; [eauto|].
  assert (x ∈ todo) as Hx by (apply elem_of_set_iter; rewrite E; left).
  assert (size (todo ∖ {[x]}) < size todo) as Hs.
  { apply subset_size. split; [set_solver|]. intros Hc. set_solver. }
  case_bool_decide as Hxv.
  - apply IH; [set_solver|done|]. lia.
  - pose proof (deps_in_universe g targets x) as Hd. fold U in Hd.
    assert (size (todo ∖ {[x]} ∪ deps_of g x) ≤ size U) as Hs1
      by (apply subseteq_size; set_solver).
    assert (size ({[x]} ∪ visited) = S (size visited)) as Hs2
      by (rewrite size_union, size_singleton; [done|set_solver]).
    assert (S (size visited) ≤ size U) as Hs3
      by (rewrite <- Hs2; apply subseteq_size; set_solver).
    apply IH; [set_solver..|]. rewrite Hs2.
    replace (size U - size visited) with (S (size U - S (size visited))) in Hm by lia.
    nia.
Qed.

(** What the loop returns is the closure, whatever [pop] picks. *)
Lemma visit_sound g fuel todo visited r :
  visit fuel g todo visited = Some r →
  (∀ x, x ∈ r → x ∈ visited ∨ reachable g todo x) ∧ visited ⊆ r ∧ todo ⊆ r ∧
  ((∀ x y, x ∈ visited → edge g x y → y ∈ visited ∨ y ∈ todo) →
   ∀ x y, x ∈ r → edge g x y → y ∈ r).
Proof.
  revert todo visited. induction fuel as [|fuel IH]; intros todo visited H; [done|].
  cbn [visit] in H. destruct (set_iter todo) as [|x l] eqn:E.
  - simplify_eq. apply set_iter_nil in E as ->. split; [by left|]. split; [done|].
    split; [set_solver|]. intros Hc x y Hx He. destruct (Hc x y Hx He); set_solver.
  - assert (x ∈ todo) as Hx by (apply elem_of_set_iter; rewrite E; left).
    case_bool_decide as Hxv.
    + destruct (IH _ _ H) as (H1 & H2 & H3 & H4). split; [|split; [done|split]].
      * intros y [?|(t & Ht & ?)]%H1; [by left|]. right. exists t. set_solver.
      * intros y Hy. destruct (decide (y = x)); set_solver.
      * intros Hc. apply H4. intros a b Ha Hb. destruct (Hc a b Ha Hb); [by left|].
        destruct (decide (b = x)); set_solver.
    + destruct (IH _ _ H) as (H1 & H2 & H3 & H4). split; [|split; [set_solver|split]].
      * intros y [[->%elem_of_singleton|?]%elem_of_union|(t & Ht & Hr)]%H1.
        -- right. exists x. split; [done|]. constructor.
        -- by left.
        -- right. apply elem_of_union in Ht as [Ht|Ht]; [exists t; set_solver|].
           exists x. split; [done|]. by eapply rtc_l.
      * intros y Hy. destruct (decide (y = x)); set_solver.
      * intros Hc. apply H4. intros a b [->%elem_of_singleton|Ha]%elem_of_union Hb.
        -- right. apply elem_of_union. by right.
        -- destruct (Hc a b Ha Hb) as [?|?]; [set_solver|].
           destruct (decide (b = x)); set_solver.
Qed.

Lemma visit_closure g targets :
  ∃ r, visit (visit_fuel g targets) g targets ∅ = Some r ∧
       ∀ x, x ∈ r ↔ reachable g targets x.
Proof.
  destruct (visit_total g targets (visit_fuel g targets) targets ∅) as [r Hr].
  - unfold universe. set_solver.
  - set_solver.
  - rewrite size_empty. unfold visit_fuel.
    assert (size targets ≤ size (universe g targets))
      by (apply subseteq_size; unfold universe; set_solver).
    lia.
  - exists r. split; [done|]. destruct (visit_sound _ _ _ _ _ Hr) as (H1 & _ & H3 & H4).
    intros x. split; [intros [?|?]%H1; [set_solver|done]|].
    intros (t & Ht & Hrt). apply H3 in Ht. induction Hrt as [|t y z He _ IHr]; [done|].
    apply IHr. eapply H4; [set_solver|exact Ht|done].
Qed.
(** ** Correctness of the topological order *)

Lemma elem_of_add_node l x y : y ∈ add_node l x ↔ y ∈ l ∨ y = x.
Proof. unfold add_node. case_bool_decide; set_solver. Qed.

Lemma NoDup_add_node l x : NoDup l → NoDup (add_node l x).
Proof.
  intros Hl. unfold add_node. case_bool_decide; [done|].
  apply NoDup_app. split; [done|]. split; [set_solver|apply NoDup_singleton].
Qed.

Lemma foldl_add_node xs l : NoDup l →
  NoDup (foldl add_node l xs) ∧ ∀ y, y ∈ foldl add_node l xs ↔ y ∈ l ∨ y ∈ xs.
Proof.
  revert l. induction xs as [|x xs IH]; intros l Hl; cbn; [set_solver|].
  destruct (IH (add_node l x)) as [H1 H2]; [by apply NoDup_add_node|].
  split; [done|]. intros y. rewrite H2, elem_of_add_node. set_solver.
Qed.

Lemma nodes_spec g :
  NoDup (nodes g) ∧ ∀ x, x ∈ nodes g ↔ x ∈ keys g ∨ ∃ k ps, (k, ps) ∈ g ∧ x ∈ ps.
Proof.
  unfold nodes.
  enough (∀ acc, NoDup acc →
    NoDup (foldl (λ acc '(k, ps), foldl add_node (add_node acc k) (set_iter ps)) acc g) ∧
    ∀ x, x ∈ foldl (λ acc '(k, ps), foldl add_node (add_node acc k) (set_iter ps)) acc g ↔
      x ∈ acc ∨ x ∈ keys g ∨ ∃ k ps, (k, ps) ∈ g ∧ x ∈ ps) as Hgen.
  { destruct (Hgen [] ltac:(constructor)) as [? H2]. split; [done|].
    intros x. rewrite H2. set_solver. }
  induction g as [|[k ps] g IH]; intros acc Hacc; [set_solver|]. cbn [foldl].
  destruct (foldl_add_node (set_iter ps) (add_node acc k)) as [H1 H2];
    [by apply NoDup_add_node|].
  destruct (IH _ H1) as [H3 H4]. split; [done|]. intros x.
  rewrite H4, H2, elem_of_add_node, elem_of_set_iter. cbn [keys fmap list_fmap fst].
  set_solver.
Qed.

Lemma deps_of_elem g k ps : NoDup (keys g) → (k, ps) ∈ g → deps_of g k = ps.
Proof. intros. unfold deps_of. by rewrite (assoc_NoDup k ps). Qed.

Lemma edge_elem g x y : edge g x y → ∃ ps, (x, ps) ∈ g ∧ y ∈ ps.
Proof.
  unfold edge, deps_of. destruct (assoc x g) as [ps|] eqn:E; cbn; [|set_solver].
  intros. exists ps. split; [by apply assoc_elem|done].
Qed.

Lemma edge_nodes g x y : edge g x y → x ∈ nodes g ∧ y ∈ nodes g.
Proof.
  intros (ps & Hx & Hy)%edge_elem. rewrite !(proj2 (nodes_spec g)). split.
  - left. apply list_elem_of_fmap. by exists (x, ps).
  - right. eauto.
Qed.

Lemma elem_of_succs g p x : NoDup (keys g) → x ∈ succs g p ↔ edge g x p.
Proof.
  intros Hg. unfold succs, keys. rewrite list_elem_of_fmap. split.
  - intros ([k ps] & -> & [Hp Hin]%list_elem_of_filter). cbn in *.
    unfold edge. by rewrite (deps_of_elem g k ps).
  - intros (ps & Hx & Hp)%edge_elem. exists (x, ps). split; [done|].
    by apply list_elem_of_filter.
Qed.

Lemma NoDup_succs g p : NoDup (keys g) → NoDup (succs g p).
Proof.
  unfold succs, keys. induction g as [|[k ps] g IH]; [constructor|].
  rewrite filter_cons. cbn. intros [Hk Hg]%NoDup_cons. case_decide; [|auto].
  cbn. apply NoDup_cons. split; [|auto]. intros Hin. apply Hk.
  apply list_elem_of_fmap in Hin as (? & -> & [_ ?]%list_elem_of_filter).
  apply list_elem_of_fmap. eauto.
Qed.

Lemma release_spec ss counts counts' new : NoDup ss →
  release ss counts = (counts', new) →
  (∀ y, y ∉ ss → counts' !! y = counts !! y) ∧
  (∀ y, y ∈ ss → counts' !! y = Some (default 0 (counts !! y) - 1)) ∧
  new = filter (λ y, default 0 (counts !! y) - 1 = 0) ss.
Proof.
  revert counts counts' new. induction ss as [|s ss IH]; intros counts counts' new Hnd H; cbn in H.
  - simplify_eq. set_solver.
  - apply NoDup_cons in Hnd as [Hs Hnd].
    destruct (release ss _) as [c1 n1] eqn:E. simplify_eq.
    destruct (IH _ _ _ Hnd E) as (H1 & H2 & ->). split; [|split].
    + intros y [Hy1 Hy2]%not_elem_of_cons. rewrite H1 by done. by apply lookup_insert_ne.
    + intros y [->|Hy]%elem_of_cons.
      * rewrite H1 by done. apply lookup_insert_eq.
      * rewrite H2 by done. rewrite lookup_insert_ne by (intros ->; done). done.
    + rewrite filter_cons. replace (filter (λ y, default 0 (<[s:=default 0 (counts !! s) - 1]> counts !! y) - 1 = 0) ss)
        with (filter (λ y, default 0 (counts !! y) - 1 = 0) ss).
      { case_bool_decide; by case_decide. }
      apply filter_ext_in. intros y Hy.
      by rewrite lookup_insert_ne by (intros ->; done).
Qed.

Lemma size_difference_0 (A B : gset string) : size (A ∖ B) = 0 ↔ A ⊆ B.
Proof.
  split.
  - intros Hz%size_empty_inv. set_solver.
  - intros Hs. assert (A ∖ B = ∅) as -> by set_solver. apply size_empty.
Qed.

Lemma size_difference_step (A : gset string) l x : x ∈ A → x ∉ l →
  size (A ∖ list_to_set l) = S (size (A ∖ list_to_set (l ++ [x]))).
Proof.
  intros HA Hl.
  assert (A ∖ list_to_set l = {[x]} ∪ A ∖ list_to_set (l ++ [x])) as ->.
  { apply set_eq. intros z. rewrite list_to_set_app. destruct (decide (z = x)); set_solver. }
  rewrite size_union, size_singleton; [done|]. set_solver.
Qed.

(** [topo g out]: what a node depends on comes before it. *)
Definition topo (g : graph) (out : list string) : Prop :=
  ∀ pre x post, out = pre ++ x :: post → deps_of g x ⊆ list_to_set pre.

Record drain_inv (g : graph) (counts : gmap string nat) (ready out : list string) : Prop := {
  di_nodup : NoDup (out ++ ready);
  di_counts : ∀ x, x ∈ nodes g → counts !! x = Some (size (deps_of g x ∖ list_to_set out));
  di_elem : ∀ x, x ∈ out ++ ready ↔ x ∈ nodes g ∧ deps_of g x ⊆ list_to_set out;
  di_topo : topo g out
}.

Lemma topo_snoc g out x : topo g out → deps_of g x ⊆ list_to_set out → topo g (out ++ [x]).
Proof.
  intros Ho Hx pre y post E. destruct post as [|z post _] using rev_ind.
  - apply app_inj_tail in E as [-> ->]. done.
  - rewrite app_comm_cons, app_assoc in E. apply app_inj_tail in E as [-> _]. by eapply Ho.
Qed.

Lemma init_inv g : drain_inv g (init_counts g) (init_ready g) [].
Proof.
  destruct (nodes_spec g) as [Hnd _]. split.
  - cbn. by apply NoDup_filter.
  - intros x Hx. unfold init_counts.
    rewrite (elem_of_list_to_map_1 _ x (size (deps_of g x))).
    + f_equal. f_equal. set_solver.
    + rewrite <- list_fmap_compose. cbn. by rewrite list_fmap_id.
    + apply list_elem_of_fmap. eauto.
  - intros x. cbn [app]. unfold init_ready. rewrite list_elem_of_filter. set_solver.
  - intros pre x post E. by destruct pre.
Qed.

Lemma drain_step g counts x ready out counts' new : NoDup (keys g) →
  drain_inv g counts (x :: ready) out →
  release (succs g x) counts = (counts', new) →
  drain_inv g counts' (ready ++ new) (out ++ [x]).
Proof.
  intros Hg [Hnd Hc He Ht] Hr.
  destruct (release_spec _ _ _ _ (NoDup_succs g x Hg) Hr) as (H1 & H2 & ->).
  assert (x ∉ out) as Hxo.
  { apply NoDup_app in Hnd as (_ & Hd & _). intros Hx. by apply (Hd x Hx); left. }
  destruct (proj1 (He x)) as [Hxn Hxd]; [apply elem_of_app; right; left|].
  assert (∀ y, y ∈ succs g x → y ∈ nodes g ∧ x ∈ deps_of g y ∧
    size (deps_of g y ∖ list_to_set out) = S (size (deps_of g y ∖ list_to_set (out ++ [x])))) as Hsz.
  { intros y Hy. apply elem_of_succs in Hy; [|done]. pose proof (edge_nodes _ _ _ Hy) as [Hyn _].
    split; [done|]. split; [done|]. by apply size_difference_step. }
  assert (∀ y, y ∈ filter (λ y, default 0 (counts !! y) - 1 = 0) (succs g x) ↔
    x ∈ deps_of g y ∧ y ∈ nodes g ∧ deps_of g y ⊆ list_to_set (out ++ [x])) as Hnew.
  { intros y. rewrite list_elem_of_filter, elem_of_succs by done. split.
    - intros [Hz Hy]. destruct (Hsz y) as (Hyn & Hxy & Hs); [by apply elem_of_succs|].
      rewrite (Hc y Hyn), Hs in Hz. cbn in Hz. split; [done|]. split; [done|].
      apply size_difference_0. lia.
    - intros (Hy & Hyn & Hsub). split; [|done].
      destruct (Hsz y) as (_ & _ & Hs); [by apply elem_of_succs|].
      rewrite (Hc y Hyn), Hs. apply size_difference_0 in Hsub. cbn. lia. }
  split.
  - rewrite <- app_assoc. cbn. rewrite app_comm_cons, app_assoc.
    apply NoDup_app. split; [done|]. split; [|by apply NoDup_filter, NoDup_succs].
    intros y Hy (Hxy & _ & _)%Hnew. apply He in Hy as [_ Hy]. apply Hxo. clear -Hxy Hy. set_solver.
  - intros y Hy. destruct (decide (y ∈ succs g x)) as [Hin|Hnin].
    + rewrite H2 by done. rewrite (Hc y Hy). destruct (Hsz y Hin) as (_ & _ & ->). cbn. f_equal. lia.
    + rewrite H1 by done. rewrite (Hc y Hy). do 2 f_equal.
      rewrite elem_of_succs in Hnin by done. unfold edge in Hnin.
      rewrite list_to_set_app_L. clear -Hnin. set_solver.
  - intros y. rewrite <- app_assoc. cbn. rewrite app_comm_cons, app_assoc, elem_of_app, Hnew, He.
    split.
    + intros [[? Hs]|(_ & ? & ?)]; [|done]. split; [done|]. rewrite list_to_set_app.
      clear -Hs. set_solver.
    + intros [Hyn Hsub]. destruct (decide (x ∈ deps_of g y)) as [|Hxy]; [by right|].
      left. split; [done|]. rewrite list_to_set_app in Hsub. clear -Hsub Hxy. set_solver.
  - by apply topo_snoc.
Qed.

Lemma drain_correct g fuel counts ready out : NoDup (keys g) →
  drain_inv g counts ready out → length (nodes g) ≤ fuel + length out →
  ∃ counts', drain_inv g counts' [] (drain fuel g counts ready out).
Proof.
  intros Hg. revert counts ready out. induction fuel as [|fuel IH]; intros counts ready out HI Hf.
  - assert (length (out ++ ready) ≤ length (nodes g)) as Hlen.
    { apply submseteq_length, NoDup_submseteq; [apply HI|]. intros x Hx. by apply HI in Hx as [? _]. }
    rewrite length_app in Hlen. destruct ready; [|cbn in *; lia]. eauto.
  - cbn [drain]. destruct ready as [|x ready]; [eauto|].
    destruct (release _ _) as [counts' new] eqn:E. apply IH; [by eapply drain_step|].
    rewrite length_app. cbn. lia.
Qed.

Lemma topo_tc g out x y pre post : topo g out → out = pre ++ x :: post →
  tc (edge g) x y → y ∈ pre.
Proof.
  intros Ht E Hxy. revert pre post E. induction Hxy as [x y He|x z y He _ IH]; intros pre post E.
  - apply Ht in E. unfold edge in He. set_solver.
  - assert (z ∈ pre) as Hz by (apply Ht in E; unfold edge in He; set_solver).
    apply list_elem_of_split in Hz as (p1 & p2 & ->).
    assert (y ∈ p1) by (eapply IH; rewrite E, <- app_assoc; done). set_solver.
Qed.

Lemma topo_acyclic g out : topo g out → NoDup out → (∀ x, x ∈ nodes g → x ∈ out) → acyclic g.
Proof.
  intros Ht Hnd Hall x Hx.
  assert (x ∈ out) as Hin.
  { apply Hall. by inversion Hx as [? ? [? _]%edge_nodes|? ? ? [? _]%edge_nodes _]. }
  apply list_elem_of_split in Hin as (pre & post & ->).
  pose proof (topo_tc g _ x x pre post Ht eq_refl Hx) as Hp.
  apply NoDup_app in Hnd as (_ & Hd & _). apply (Hd x Hp). by left.
Qed.

(** A finite set in which everything has a successor contains a cycle. *)
Lemma chain_in {A} (R : relation A) (P : A → Prop) n x : P x →
  (∀ x, P x → ∃ y, P y ∧ R x y) →
  ∃ l, length l = n ∧ Forall P l ∧ Forall (tc R x) l ∧ StronglySorted (tc R) l.
Proof.
  intros Hx Hs. revert x Hx. induction n as [|n IH]; intros x Hx.
  - exists []. repeat constructor.
  - destruct (Hs x Hx) as (y & Hy & Hxy). destruct (IH y Hy) as (l & Hl & HP & Ht & HS).
    exists (y :: l). split; [cbn; by rewrite Hl|]. split; [by constructor|].
    split; [|by constructor]. constructor; [by constructor|].
    eapply Forall_impl; [exact Ht|]. intros z Hz. by eapply tc_l.
Qed.

Lemma no_sink_cycle (R : relation string) (S : list string) x : x ∈ S →
  (∀ x, x ∈ S → ∃ y, y ∈ S ∧ R x y) → (∀ x, ¬ tc R x x) → False.
Proof.
  intros Hx Hs Hac.
  destruct (chain_in R (.∈ S) (Datatypes.S (length S)) x Hx Hs) as (l & Hl & HP & _ & HS).
  assert (NoDup l) as Hnd.
  { clear -HS Hac. induction HS as [|y l HS IH Hy]; constructor; [|done].
    intros Hin. rewrite Forall_forall in Hy. by apply (Hac y), Hy. }
  rewrite Forall_forall in HP. apply NoDup_submseteq, submseteq_length in HP; [lia|done].
Qed.

(** The sorter: a topological order of exactly the nodes, or a cycle. *)
Lemma static_order_spec g : NoDup (keys g) →
  match static_order g with
  | Ok out => acyclic g ∧ NoDup out ∧ (∀ x, x ∈ out ↔ x ∈ nodes g) ∧ topo g out
  | Raise e => e = CycleError ∧ ¬ acyclic g
  end.
Proof.
  intros Hg. unfold static_order.
  destruct (drain_correct g (length (nodes g)) (init_counts g) (init_ready g) [] Hg) as [c [Hnd _ He Ht]];
    [apply init_inv|cbn; lia|].
  set (out := drain _ _ _ _ _) in *. rewrite app_nil_r in Hnd, He.
  assert (∀ x, x ∈ out → x ∈ nodes g) as Hsub by (intros x Hx; by apply He in Hx as [? _]).
  case_bool_decide as Hlen.
  - assert (∀ x, x ∈ nodes g → x ∈ out) as Hall.
    { apply NoDup_submseteq in Hsub; [|done]. apply submseteq_length_Permutation in Hsub; [|lia].
      intros x Hx. by rewrite Hsub. }
    split; [by eapply topo_acyclic|]. split; [done|]. split; [|done]. naive_solver.
  - split; [done|]. intros Hac.
    assert (∃ x, x ∈ filter (.∉ out) (nodes g)) as [x Hx].
    { destruct (filter (.∉ out) (nodes g)) as [|x l] eqn:E; [|exists x; left].
      destruct Hlen. apply Nat.le_antisymm.
      - by apply submseteq_length, NoDup_submseteq.
      - apply submseteq_length, NoDup_submseteq; [apply nodes_spec|]. intros x Hx.
        destruct (decide (x ∈ out)); [done|].
        assert (x ∈ filter (.∉ out) (nodes g)) as Hc by (by apply list_elem_of_filter).
        rewrite E in Hc. by apply elem_of_nil in Hc. }
    eapply (no_sink_cycle (edge g) (filter (.∉ out) (nodes g)) x Hx); [|exact Hac].
    intros y [Hyo Hyn]%list_elem_of_filter.
    destruct (decide (deps_of g y ⊆ list_to_set out)) as [Hd|Hd]; [destruct Hyo; by apply He|].
    assert (∃ z, z ∈ deps_of g y ∖ list_to_set out) as [z Hz].
    { apply set_choose. intros Hem. apply Hd. set_solver. }
    exists z. apply elem_of_difference in Hz as [Hz1 Hz2]. split; [|done].
    apply list_elem_of_filter. split; [set_solver|]. by eapply edge_nodes.
Qed.

(** ** The subgraph of what is reachable *)

Lemma assoc_restrict g l x : NoDup l →
  assoc x (omap (entry g) l) = if bool_decide (x ∈ l) then assoc x g else None.
Proof.
  induction l as [|y l IH]; [done|]. intros [Hy Hl]%NoDup_cons. cbn. unfold entry at 1.
  destruct (assoc y g) as [s|] eqn:E; cbn; rewrite IH by done.
  - destruct (decide (x = y)) as [->|].
    + by rewrite !bool_decide_eq_true_2 by set_solver.
    + rewrite (bool_decide_eq_false_2 (x = y)) by done. do 2 case_bool_decide; set_solver.
  - destruct (decide (x = y)) as [->|]; do 2 case_bool_decide; set_solver.
Qed.

Lemma keys_restrict g l : NoDup l → NoDup (keys (omap (entry g) l)) ∧
  ∀ x, x ∈ keys (omap (entry g) l) ↔ x ∈ l ∧ x ∈ keys g.
Proof.
  intros Hl. split.
  - induction l as [|y l IH]; [constructor|]. apply NoDup_cons in Hl as [Hy Hl]. cbn. unfold entry at 1.
    destruct (assoc y g); cbn; [|by apply IH]. apply NoDup_cons. split; [|by apply IH].
    intros Hin. apply Hy. clear -Hin. induction l as [|z l IH]; cbn in Hin; [done|].
    unfold entry at 1 in Hin. destruct (assoc z g); cbn in Hin; [|set_solver].
    apply elem_of_cons in Hin as [->|]; set_solver.
  - intros x. rewrite <- assoc_is_Some, assoc_restrict by done.
    case_bool_decide; rewrite <- ?assoc_is_Some; naive_solver.
Qed.

Lemma deps_of_restrict g v x : deps_of (restrict g v) x = if bool_decide (x ∈ v) then deps_of g x else ∅.
Proof.
  unfold deps_of, restrict. rewrite assoc_restrict by apply NoDup_set_iter.
  rewrite (bool_decide_ext (x ∈ set_iter v) (x ∈ v)) by apply elem_of_set_iter.
  by case_bool_decide.
Qed.

Lemma NoDup_keys_restrict g v : NoDup (keys (restrict g v)).
Proof. apply keys_restrict, NoDup_set_iter. Qed.

Lemma nodes_restrict g v x : x ∈ nodes (restrict g v) ↔
  (x ∈ v ∧ x ∈ keys g) ∨ ∃ k, k ∈ v ∧ edge g k x.
Proof.
  rewrite (proj2 (nodes_spec _)). unfold restrict at 1.
  rewrite (proj2 (keys_restrict _ _ (NoDup_set_iter v))), elem_of_set_iter.
  apply or_iff_compat_l. split.
  - intros (k & ps & Hk & Hx). exists k.
    assert (edge (restrict g v) k x) as He
      by (unfold edge; by rewrite (deps_of_elem _ k ps (NoDup_keys_restrict g v))).
    unfold edge in *. rewrite deps_of_restrict in He. case_bool_decide; set_solver.
  - intros (k & Hk & He). unfold edge in He.
    assert (edge (restrict g v) k x) as (ps & ? & ?)%edge_elem
      by (unfold edge; by rewrite deps_of_restrict, bool_decide_eq_true_2).
    eauto.
Qed.

(** The order [get_dependency_subgraph] computes from the full graph. *)
Definition subgraph_order (g : graph) (targets : gset string) : option (result (list string)) :=
  (λ visited, static_order (restrict g visited)) <$> visit (visit_fuel g targets) g targets ∅.

Lemma reachable_restrict g targets v : (∀ x, x ∈ v ↔ reachable g targets x) →
  ∀ x y, edge (restrict g v) x y ↔ reachable g targets x ∧ edge g x y.
Proof.
  intros Hv x y. unfold edge. rewrite deps_of_restrict, <- Hv. case_bool_decide; set_solver.
Qed.

Lemma tc_restrict g targets v : (∀ x, x ∈ v ↔ reachable g targets x) →
  ∀ x y, tc (edge (restrict g v)) x y ↔ reachable g targets x ∧ tc (edge g) x y.
Proof.
  intros Hv x y. split.
  - induction 1 as [x y H%(reachable_restrict g targets v Hv)|x y z H%(reachable_restrict g targets v Hv) _ IH].
    + destruct H. split; [done|]. by constructor.
    + destruct H, IH. split; [done|]. by eapply tc_l.
  - intros [Hx Ht]. induction Ht as [x y He|x y z He _ IH].
    + apply tc_once. by apply (reachable_restrict g targets v Hv).
    + eapply tc_l; [by apply (reachable_restrict g targets v Hv)|]. apply IH.
      destruct Hx as (t & ? & ?). exists t. split; [done|]. by eapply rtc_r.
Qed.

(** The whole computation, for every graph and every set of targets: it ends;
    it fails exactly when a cycle is reachable from a target; and otherwise it
    lists, without repetition and each after what it depends on, the targets
    the graph knows and everything reachable from them. *)
Lemma subgraph_order_spec g targets :
  ∃ r, subgraph_order g targets = Some r ∧
  match r with
  | Ok out =>
      (∀ x, reachable g targets x → ¬ tc (edge g) x x) ∧ NoDup out ∧ topo g out ∧
      (∀ x, x ∈ out ↔ reachable g targets x ∧ (x ∈ keys g ∨ ∃ k, reachable g targets k ∧ edge g k x))
  | Raise e => e = CycleError ∧ ¬ (∀ x, reachable g targets x → ¬ tc (edge g) x x)
  end.
Proof.
  destruct (visit_closure g targets) as (v & Hv & Hreach). unfold subgraph_order. rewrite Hv. cbn.
  eexists; split; [done|]. pose proof (static_order_spec (restrict g v) (NoDup_keys_restrict g v)) as Hs.
  assert (acyclic (restrict g v) ↔ ∀ x, reachable g targets x → ¬ tc (edge g) x x) as Hac.
  { unfold acyclic. split; intros H x; specialize (H x); rewrite (tc_restrict g targets v Hreach) in *; naive_solver. }
  destruct (static_order (restrict g v)) as [out|e]; rewrite Hac in Hs; [|done].
  destruct Hs as (Hc & Hnd & Hel & Ht). split; [done|]. split; [done|].
  assert (∀ x, x ∈ out ↔ reachable g targets x ∧ (x ∈ keys g ∨ ∃ k, reachable g targets k ∧ edge g k x)) as Hout.
  { intros x. rewrite Hel, nodes_restrict, Hreach. split.
    - intros [[? ?]|(k & Hk & He)]; [by auto|]. rewrite Hreach in Hk. split; [|eauto].
      destruct Hk as (t & ? & ?). exists t. split; [done|]. by eapply rtc_r.
    - intros [? [?|(k & ? & ?)]]; [by left|]. right. exists k. by rewrite Hreach. }
  split; [|done]. intros pre x post E. pose proof (Ht pre x post E) as Hd.
  rewrite deps_of_restrict, bool_decide_eq_true_2 in Hd; [done|].
  apply Hreach, Hout. rewrite E. set_solver.
Qed.
End graph.
