(* ===== verification/Sha256.v ===== *)
(** * [hashlib.sha256]

    SHA-256 (FIPS 180-4) on byte strings, executable, with 32-bit words as [Z]
    reduced modulo [2^32]. *)

From stdpp Require Import base list strings.
From Stdlib Require Import Ascii ZArith Lia.
From S2P Require Import Prelude PyStr.

Local Open Scope Z_scope.

Definition w32 (x : Z) : Z := x mod 2 ^ 32.
Definition rotr (n x : Z) : Z := Z.lor (Z.shiftr x n) (w32 (Z.shiftl x (32 - n))).
Definition Ch (x y z : Z) : Z := Z.lxor (Z.land x y) (Z.land (Z.lxor x (2 ^ 32 - 1)) z).
Definition Maj (x y z : Z) : Z := Z.lxor (Z.lxor (Z.land x y) (Z.land x z)) (Z.land y z).
Definition Sigma0 (x : Z) : Z := Z.lxor (Z.lxor (rotr 2 x) (rotr 13 x)) (rotr 22 x).
Definition Sigma1 (x : Z) : Z := Z.lxor (Z.lxor (rotr 6 x) (rotr 11 x)) (rotr 25 x).
Definition sigma0 (x : Z) : Z := Z.lxor (Z.lxor (rotr 7 x) (rotr 18 x)) (Z.shiftr x 3).
Definition sigma1 (x : Z) : Z := Z.lxor (Z.lxor (rotr 17 x) (rotr 19 x)) (Z.shiftr x 10).

(** The constants: the first 32 bits of the fractional parts of the square
    roots (initial state) and cube roots (rounds) of the first primes. *)
Definition is_prime (n : Z) : bool :=
  forallb (λ d, negb (n mod Z.of_nat d =? 0)) (seq 2 (Z.to_nat (Z.sqrt n) - 1)).

Definition primes : list Z := filter (λ n, is_prime n = true) (Z.of_nat <$> seq 2 310).

(** The integer cube root, bit by bit. *)
Fixpoint cbrt_bits (n : nat) (acc x : Z) : Z :=
  match n with
  | O => acc
  | S n =>
      let acc' := acc + 2 ^ Z.of_nat n in
      cbrt_bits n (if acc' * acc' * acc' <=? x then acc' else acc) x
  end.

Definition K : list Z := Eval vm_compute in (λ p, cbrt_bits 36 0 (p * 2 ^ 96) mod 2 ^ 32) <$> take 64 primes.

Definition H0 : list Z := Eval vm_compute in (λ p, Z.sqrt (p * 2 ^ 64) mod 2 ^ 32) <$> take 8 primes.

(** The message schedule, newest word first. *)
Fixpoint expand (n : nat) (ws : list Z) : list Z :=
  match n with
  | O => ws
  | S n =>
      let at_ i := nth i ws 0 in
      expand n (w32 (sigma1 (at_ 1%nat) + at_ 6%nat + sigma0 (at_ 14%nat) + at_ 15%nat) :: ws)
  end.

Definition sha_round (st : list Z) (kw : Z * Z) : list Z :=
  match st with
  | [a; b; c; d; e; f; g; h] =>
      let t1 := h + Sigma1 e + Ch e f g + kw.1 + kw.2 in
      let t2 := Sigma0 a + Maj a b c in
      [w32 (t1 + t2); a; b; c; w32 (d + t1); e; f; g]
  | _ => st
  end.

Definition compress (h : list Z) (block : list Z) : list Z :=
  let ws := rev (expand 48 (rev block)) in
  zip_with (λ x y, w32 (x + y)) h (foldl sha_round h (zip K ws)).

Definition byte_Z (c : ascii) : Z := Z.of_N (code c).

Fixpoint bytes_of (s : string) : list Z :=
  match s with "" => [] | String c s => byte_Z c :: bytes_of s end.

Fixpoint be_bytes (n : nat) (x : Z) : list Z :=
  match n with O => [] | S n => be_bytes n (x / 256) ++ [x mod 256] end.

Definition pad (bs : list Z) : list Z :=
  let n := Z.of_nat (length bs) in
  bs ++ [128] ++ replicate (Z.to_nat ((55 - n) mod 64)) 0 ++ be_bytes 8 (8 * n).

Fixpoint words_of (bs : list Z) : list Z :=
  match bs with
  | a :: b :: c :: d :: bs => (((a * 256 + b) * 256 + c) * 256 + d) :: words_of bs
  | _ => []
  end.

Fixpoint compress_all (fuel : nat) (h ws : list Z) : list Z :=
  match fuel, ws with
  | S fuel, _ :: _ => compress_all fuel (compress h (take 16 ws)) (drop 16 ws)
  | _, _ => h
  end.

Definition digest_words (s : string) : list Z :=
  let ws := words_of (pad (bytes_of s)) in
  compress_all (length ws) H0 ws.

Definition hex_char (d : Z) : ascii :=
  if d <? 10 then ascii_of_N (Z.to_N (48 + d)) else ascii_of_N (Z.to_N (87 + d)).

Fixpoint hex_digits (n : nat) (x : Z) : string :=
  match n with
  | O => ""
  | S n => hex_digits n (x / 16) +:+ String (hex_char (x mod 16)) ""
  end.

Fixpoint hex_words (ws : list Z) : string :=
  match ws with [] => "" | w :: ws => hex_digits 8 w +:+ hex_words ws end.

(** [hashlib.sha256(s).hexdigest()] *)
Definition hexdigest (s : string) : string := hex_words (digest_words s).

Example sha256_empty :
  hexdigest "" = "e3b0c44298fc1c149afbf4c8996fb92427ae41e4649b934ca495991b7852b855".
Proof. vm_compute. reflexivity. Qed.

Example sha256_abc :
  hexdigest "abc" = "ba7816bf8f01cfea414140de5dae2223b00361a396177a9cb410ff61f20015ad".
Proof. vm_compute. reflexivity. Qed.

Example sha256_two_blocks :
  hexdigest "abcdbcdecdefdefgefghfghighijhijkijkljklmklmnlmnomnopnopq" =
  "248d6a61d20638b8e5c026930c3e6039a33ce45964ff2167f6ecedd419db06c1".
Proof. vm_compute. reflexivity. Qed.

(** ** A digest is 64 lower-case hexadecimal digits *)

Definition is_hex (c : ascii) : bool :=
  let n := code c in
  ((48 <=? n)%N && (n <=? 57)%N) || ((97 <=? n)%N && (n <=? 102)%N).

Lemma hex_char_is_hex d : 0 ≤ d < 16 → is_hex (hex_char d) = true.
Proof.
  intros Hd. assert (d = 0 ∨ d = 1 ∨ d = 2 ∨ d = 3 ∨ d = 4 ∨ d = 5 ∨ d = 6 ∨ d = 7 ∨ d = 8 ∨ d = 9
    ∨ d = 10 ∨ d = 11 ∨ d = 12 ∨ d = 13 ∨ d = 14 ∨ d = 15) as Hc by lia.
  by repeat destruct Hc as [->|Hc]; try subst.
Qed.

Lemma hex_digits_spec n x :
  String.length (hex_digits n x) = n ∧ str_forall is_hex (hex_digits n x) = true.
Proof.
  revert x. induction n as [|n IH]; intros x; [done|]. cbn [hex_digits].
  destruct (IH (x / 16)) as [Hl Hf]. rewrite str_length_app, str_forall_app, Hl, Hf. cbn.
  split; [lia|]. rewrite hex_char_is_hex; [done|]. apply Z.mod_pos_bound. lia.
Qed.

Lemma hex_words_spec ws : String.length (hex_words ws) = (8 * length ws)%nat ∧
  str_forall is_hex (hex_words ws) = true.
Proof.
  induction ws as [|w ws [IHl IHf]]; [done|]. cbn [hex_words length].
  destruct (hex_digits_spec 8 w) as [Hl Hf].
  rewrite str_length_app, str_forall_app, Hl, Hf, IHl, IHf. split; [lia|done].
Qed.

Lemma sha_round_length st kw : length st = 8%nat → length (sha_round st kw) = 8%nat.
Proof. intros. by do 9 (destruct st as [|? st]; [done|]). Qed.

Lemma compress_length h b : length h = 8%nat → length (compress h b) = 8%nat.
Proof.
  intros Hh. unfold compress. rewrite length_zip_with.
  assert (∀ l st, length st = 8%nat → length (foldl sha_round st l) = 8%nat) as Hf.
  { induction l as [|kw l IH]; intros st Hst; [done|]. cbn. apply IH. by apply sha_round_length. }
  rewrite Hf by done. lia.
Qed.

Lemma compress_all_length fuel h ws : length h = 8%nat → length (compress_all fuel h ws) = 8%nat.
Proof.
  revert h ws. induction fuel as [|fuel IH]; intros h ws Hh; [done|].
  destruct ws; [done|]. cbn [compress_all]. apply IH. by apply compress_length.
Qed.

Lemma hexdigest_length s : String.length (hexdigest s) = 64%nat.
Proof.
  unfold hexdigest, digest_words. rewrite (proj1 (hex_words_spec _)), compress_all_length; done.
Qed.

Lemma hexdigest_is_hex s : str_forall is_hex (hexdigest s) = true.
Proof. apply hex_words_spec. Qed.

#[export] Hint Resolve hexdigest_length hexdigest_is_hex : devkit.
