(* ===== verification/DockerOps.v ===== *)
(** * Docker operations (docker/build.py)

    The functions that talk to the docker command line: the installation
    checks, the queries, [build_image], pull, push and the decision procedure
    [manage_docker_image].  Docker itself is the parameter [Exec] of the world;
    the class [DockerSpec] states what the scripts rely on of it. *)

From stdpp Require Import base gmap sets list strings.
From Stdlib Require Import ZArith Lia.
From S2P Require Import Prelude PyStr Fs World.

Section docker_ops.
Context {PS : Type} {EX : Exec PS}.
Local Abbreviation W := (World PS).

Definition ensure_cloudsdk_python_is_set : M W () :=
  v ← getenv "CLOUDSDK_PYTHON";
  match v with
  | Some _ => mret tt
  | None =>
      (fix go (candidates : list string) : M W () :=
         match candidates with
         | [] => mret tt
         | candidate :: candidates =>
             ex ← exists_p (Path_of candidate);
             if (ex : bool) then putenv "CLOUDSDK_PYTHON" candidate else go candidates
         end) ["/usr/bin/python3"; "/usr/bin/python"]
  end.

(** The common shape of the two installation checks. *)
Definition check_installed (cmd : list string) (ok_msg error_msg : string) (log_file : option Path) : M W () :=
  try_with
    (run_checked cmd ;; log_info ok_msg)
    (λ e, if is_CalledProcessError e || is_FileNotFoundError e then
            Some (log_error error_msg ;;
                  when (bool_decide (is_Some log_file)) (eprintln ("ERROR: " +:+ error_msg)) ;;
                  sys_exit 1)
          else None).

Definition check_docker_installed : option Path → M W () :=
  check_installed ["docker"; "--version"] "Docker is installed."
    "Docker is not installed or not in PATH. Please install Docker.".

Definition check_docker_buildx_installed : option Path → M W () :=
  check_installed ["docker"; "buildx"; "version"] "Docker Buildx is installed."
    "Docker Buildx is not installed or not enabled. Please install/enable Docker Buildx.".

Definition inspect_cmd (tag : string) : list string := ["docker"; "image"; "inspect"; tag].
Definition manifest_inspect_cmd (tag : string) : list string := ["docker"; "manifest"; "inspect"; tag].
Definition pull_cmd (tag : string) : list string := ["docker"; "pull"; tag].
Definition push_cmd (tag : string) : list string := ["docker"; "push"; tag].

Definition check_if_image_exists_locally (tag : string) : M W bool :=
  log_info ("Checking for local image: " +:+ tag) ;;
  '(rc, _, _) ← run_unchecked (inspect_cmd tag);
  if bool_decide (rc = 0%Z) then
    log_info ("Image " +:+ tag +:+ " already exists locally.") ;; mret true
  else log_info ("Image " +:+ tag +:+ " not found locally.") ;; mret false.

Definition check_if_image_exists_in_remote_registry (tag : string) : M W bool :=
  log_info ("Checking for remote image manifest: " +:+ tag) ;;
  '(rc, _, _) ← run_unchecked (manifest_inspect_cmd tag);
  if bool_decide (rc = 0%Z) then
    log_info ("Image " +:+ tag +:+ " found in remote registry.") ;; mret true
  else log_info ("Image " +:+ tag +:+ " not found in remote registry.") ;; mret false.

(** [while idx < len(l): name, value = l[idx], l[idx + 1]; idx += 2]: reading
    past an odd end is an [IndexError]. *)
Fixpoint build_arg_flags (l : list string) : result (list string) :=
  match l with
  | [] => Ok []
  | [_] => Raise IndexError
  | name :: value :: l =>
      rest ← build_arg_flags l;
      Ok ("--build-arg" :: (name +:+ "=" +:+ value) :: rest)
  end.

Definition build_cmd (tag dockerfile_path : string) (flags : list string) (context_path : string)
    (no_cache : bool) : list string :=
  ["docker"; "buildx"; "build"; "--tag"; tag; "--file"; dockerfile_path]
  ++ (if no_cache then ["--no-cache"] else []) ++ flags ++ [context_path].

(** [if out: logging.info(out.strip())], [if err: logging.warning(err.strip())] *)
Definition log_output (out err : string) : M W () :=
  when (negb (bool_decide (out = ""))) (log_info (strip out)) ;;
  when (negb (bool_decide (err = ""))) (log_warning (strip err)).

Definition build_image (tag dockerfile_path : string) (build_args_list : list string)
    (context_path : string) (no_cache : bool) : M W () :=
  eprint ("Building image: " +:+ tag +:+ "...") ;;
  flags ← lift_result (build_arg_flags build_args_list);
  let cmd := build_cmd tag dockerfile_path flags context_path no_cache in
  log_info ("Executing build: " +:+ join " " cmd) ;;
  '(out, err) ← run_checked cmd;
  eprintln " [OK]" ;;
  log_output out err ;;
  log_info ("Image " +:+ tag +:+ " built successfully.").

Definition pull_image_from_registry (tag : string) : M W () :=
  eprint ("Pulling image: " +:+ tag +:+ "...") ;;
  '(out, err) ← run_checked (pull_cmd tag);
  eprintln " [OK]" ;;
  log_output out err ;;
  log_info ("Image " +:+ tag +:+ " pulled successfully.").

Definition push_image_to_registry (tag : string) : M W () :=
  log_info ("Pushing image " +:+ tag +:+ "...") ;;
  eprint ("Pushing image: " +:+ tag +:+ "...") ;;
  '(rc, out, err) ← run_unchecked (push_cmd tag);
  if bool_decide (rc = 0%Z) then
    eprintln " [OK]" ;;
    log_output out err ;;
    log_info ("Image " +:+ tag +:+ " pushed successfully.")
  else
    eprintln " [FAILED]" ;;
    log_warning ("Failed to push image " +:+ tag +:+ ". Continuing with local image.") ;;
    when (negb (bool_decide (err = ""))) (log_warning ("Details: " +:+ strip err)).

(** The body of the [try] of [manage_docker_image]. *)
Definition manage_body (tag dockerfile_path : string) (build_args_list : list string)
    (context_path : string) (local_image_mode no_cache : bool) (repo : string) : M W () :=
  here ← (if no_cache then mret false else check_if_image_exists_locally tag);
  if (here : bool) then mret tt
  else if bool_decide (repo = "") || local_image_mode then
    when (bool_decide (repo = "")) (log_warning "Docker registry is not defined.") ;;
    build_image tag dockerfile_path build_args_list context_path no_cache
  else
    there ← (if no_cache then mret false else check_if_image_exists_in_remote_registry tag);
    if (there : bool) then pull_image_from_registry tag
    else
      build_image tag dockerfile_path build_args_list context_path no_cache ;;
      push_image_to_registry tag.

Definition manage_docker_image (tag dockerfile_path : string) (build_args_list : list string)
    (context_path : string) (local_image_mode no_cache : bool) (repo : string) : M W () :=
  try_with
    (manage_body tag dockerfile_path build_args_list context_path local_image_mode no_cache repo)
    (λ e,
       match e with
       | CalledProcessError cmd rc out err =>
           Some (eprintln " [FAILED]" ;;
                 log_error ("Error during Docker operation for " +:+ tag +:+ ":") ;;
                 log_error ("Command: " +:+ join " " cmd) ;;
                 when (negb (bool_decide (out = ""))) (log_error ("Stdout: " +:+ strip out)) ;;
                 when (negb (bool_decide (err = ""))) (log_error ("Stderr: " +:+ strip err)) ;;
                 sys_exit (if bool_decide (rc = 0%Z) then 1 else rc))
       | FileNotFoundError _ =>
           Some (log_error "Docker command not found. Please ensure Docker is installed and in PATH." ;;
                 sys_exit 1)
       | _ => None
       end).
End docker_ops.

(** ** What the scripts rely on of docker *)

(** [local_images ps] and [remote_images ps] are the tags docker has locally
    and the registry has.  The laws are docker's documented behaviour; the file
    system is not changed by these commands. *)
Class DockerSpec (PS : Type) `{!Exec PS} := {
  local_images : PS → gset string;
  remote_images : PS → gset string;
  docker_inspect tag ps f r ps' f' :
    exec (inspect_cmd tag) (ps, f) = (r, (ps', f')) →
    ps' = ps ∧ f' = f ∧ (∀ rc out err, r = Finished rc out err → rc = 0%Z ↔ tag ∈ local_images ps);
  docker_manifest tag ps f r ps' f' :
    exec (manifest_inspect_cmd tag) (ps, f) = (r, (ps', f')) →
    ps' = ps ∧ f' = f ∧ (∀ rc out err, r = Finished rc out err → rc = 0%Z ↔ tag ∈ remote_images ps);
  docker_build tag file flags ctx no_cache ps f r ps' f' :
    exec (build_cmd tag file flags ctx no_cache) (ps, f) = (r, (ps', f')) →
    f' = f ∧ remote_images ps' = remote_images ps ∧ local_images ps ⊆ local_images ps' ∧
    local_images ps' ⊆ {[tag]} ∪ local_images ps ∧
    (∀ out err, r = Finished 0 out err → tag ∈ local_images ps');
  docker_pull tag ps f r ps' f' :
    exec (pull_cmd tag) (ps, f) = (r, (ps', f')) →
    f' = f ∧ remote_images ps' = remote_images ps ∧ local_images ps ⊆ local_images ps' ∧
    local_images ps' ⊆ {[tag]} ∪ local_images ps ∧
    (∀ out err, r = Finished 0 out err → tag ∈ local_images ps');
  docker_push tag ps f r ps' f' :
    exec (push_cmd tag) (ps, f) = (r, (ps', f')) →
    f' = f ∧ local_images ps' = local_images ps
}.

(** ** Frames and outcomes *)

Section docker_proofs.
Context {PS : Type} {EX : Exec PS} {DS : DockerSpec PS}.
Local Abbreviation W := (World PS).

Definition locals (w : W) : gset string := local_images (w_procs w).
Definition remotes (w : W) : gset string := remote_images (w_procs w).

(** [grows tag]: images are only added, and at most [tag]; the rest of the
    world is kept. *)
Definition grows (tag : string) (w w' : W) : Prop :=
  w_env w' = w_env w ∧ w_fs w' = w_fs w ∧ w_cwd w' = w_cwd w ∧
  locals w ⊆ locals w' ∧ locals w' ⊆ {[tag]} ∪ locals w.

#[global] Instance grows_preorder tag : PreOrder (grows tag).
Proof.
  split; [intros w; repeat split; set_solver|].
  intros x y z (?&?&?&?&?) (?&?&?&?&?). split_and!; [congruence..|set_solver|set_solver].
Qed.

Lemma quiet_grows tag w w' : quiet w w' → grows tag w w'.
Proof.
  intros [(?&?&?&Hp) _]. unfold grows, locals. rewrite Hp. split_and!; [done..|set_solver].
Qed.

Lemma always_quiet_grows {A} tag (m : M W A) : always quiet m → always (grows tag) m.
Proof. intros Hm w r w' H. by eapply quiet_grows, Hm. Qed.

(** One started command. *)
Lemma run_unchecked_spec cmd (w : W) r w' : run_unchecked cmd w = (r, w') →
  ∃ res ps f, exec cmd (w_procs w, w_fs w) = (res, (ps, f)) ∧
    w' = mkWorld (w_env w) f (w_cwd w) (w_trace w ++ [Ran cmd]) ps ∧
    match r with
    | Ok (rc, out, err) => res = Finished rc out err
    | Raise e => (res = NoSuchProgram ∧ is_FileNotFoundError e = true) ∨
                 (res = Interrupted ∧ e = KeyboardInterrupt)
    end.
Proof.
  unfold run_unchecked, start. munfold.
  destruct (exec cmd _) as [res [ps f]] eqn:E. intros H.
  exists res, ps, f. split; [done|]. destruct res; simplify_eq; naive_solver.
Qed.

Lemma ran_snoc (w : W) f cmd (ps : PS) :
  ran (mkWorld (w_env w) f (w_cwd w) (w_trace w ++ [Ran cmd]) ps) = ran w ++ [cmd].
Proof. unfold ran. cbn. by rewrite commands_app. Qed.

Lemma grows_inspect tag' tag : always (grows tag') (run_unchecked (inspect_cmd tag)).
Proof.
  intros w r w' (res & ps & f & H & -> & _)%run_unchecked_spec.
  apply docker_inspect in H as (-> & -> & _). unfold grows, locals. cbn. set_solver.
Qed.

Lemma grows_manifest tag' tag : always (grows tag') (run_unchecked (manifest_inspect_cmd tag)).
Proof.
  intros w r w' (res & ps & f & H & -> & _)%run_unchecked_spec.
  apply docker_manifest in H as (-> & -> & _). unfold grows, locals. cbn. set_solver.
Qed.

Lemma grows_push tag' tag : always (grows tag') (run_unchecked (push_cmd tag)).
Proof.
  intros w r w' (res & ps & f & H & -> & _)%run_unchecked_spec.
  apply docker_push in H as (-> & Hl). unfold grows, locals. cbn. rewrite Hl. set_solver.
Qed.

Lemma grows_pull tag : always (grows tag) (run_unchecked (pull_cmd tag)).
Proof.
  intros w r w' (res & ps & f & H & -> & _)%run_unchecked_spec.
  apply docker_pull in H as (-> & _ & ? & ? & _). unfold grows, locals. cbn. set_solver.
Qed.

Lemma grows_build tag file flags ctx nc :
  always (grows tag) (run_unchecked (build_cmd tag file flags ctx nc)).
Proof.
  intros w r w' (res & ps & f & H & -> & _)%run_unchecked_spec.
  apply docker_build in H as (-> & _ & ? & ? & _). unfold grows, locals. cbn. set_solver.
Qed.

Lemma always_run_checked (R : relation W) `{!PreOrder R} cmd :
  always R (run_unchecked cmd) → always R (run_checked cmd).
Proof. intros. unfold run_checked. frame. Qed.

Lemma grows_run_checked tag cmd :
  always (grows tag) (run_unchecked cmd) → always (grows tag) (run_checked cmd).
Proof. apply (always_run_checked (grows tag)). Qed.
End docker_proofs.

#[export] Hint Resolve grows_inspect grows_manifest grows_push grows_pull grows_build
  always_quiet_grows grows_run_checked : frame.

Section manage_proofs.
Context {PS : Type} {EX : Exec PS} {DS : DockerSpec PS}.
Local Abbreviation W := (World PS).

Lemma quiet_log_output out err : always quiet (log_output (PS:=PS) out err).
Proof. unfold log_output. frame. Qed.

#[local] Hint Resolve quiet_log_output : frame.

Lemma grows_manage tag file args ctx local_mode nc repo :
  always (grows (PS:=PS) tag) (manage_docker_image tag file args ctx local_mode nc repo).
Proof.
  unfold manage_docker_image, manage_body, check_if_image_exists_locally,
    check_if_image_exists_in_remote_registry, build_image, pull_image_from_registry,
    push_image_to_registry. apply always_try; [apply _|..].
  - frame.
  - intros e k Hk. destruct e; simplify_eq; frame.
Qed.

(** Nothing is printed on standard output. *)
Lemma same_stdout_manage tag file args ctx local_mode nc repo :
  always (same_stdout (PS:=PS)) (manage_docker_image tag file args ctx local_mode nc repo).
Proof.
  unfold manage_docker_image, manage_body, check_if_image_exists_locally,
    check_if_image_exists_in_remote_registry, build_image, pull_image_from_registry,
    push_image_to_registry, log_output. apply always_try; [apply _|..].
  - frame.
  - intros e k Hk. destruct e; simplify_eq; frame.
Qed.

(** ** What a normal return means *)

Lemma quiet_ok {A} (m : M W A) w r w' : always quiet m → m w = (r, w') →
  w_procs w' = w_procs w ∧ ran w' = ran w.
Proof. intros Hm [(_&_&_&?) ?]%Hm. done. Qed.

(** Skip a quiet prefix of a program that returned. *)
Lemma quiet_then {A B} (m : M W A) (k : A → M W B) w b w' :
  always quiet m → (m ≫= k) w = (Ok b, w') →
  ∃ a w1, k a w1 = (Ok b, w') ∧ w_procs w1 = w_procs w ∧ ran w1 = ran w.
Proof.
  intros Hm (a & w1 & H1 & H2)%M_bind_inv. exists a, w1.
  apply quiet_ok in H1 as [? ?]; [done|done].
Qed.

Ltac skip H :=
  let w := fresh "w" in let Hp := fresh "Hp" in let Hr := fresh "Hr" in
  apply quiet_then in H as (? & w & H & Hp & Hr); [|by frame].

Lemma check_local_ok tag w b w' : check_if_image_exists_locally (PS:=PS) tag w = (Ok b, w') →
  w_procs w' = w_procs w ∧ ran w' = ran w ++ [inspect_cmd tag] ∧ (b = true ↔ tag ∈ locals w).
Proof.
  unfold check_if_image_exists_locally. intros H. skip H.
  apply M_bind_inv in H as ([[rc out] err] & w2 & (res & ps & f & He & -> & ->)%run_unchecked_spec & H).
  apply docker_inspect in He as (-> & -> & Hrc). specialize (Hrc rc out err eq_refl).
  unfold locals. rewrite <- Hp.
  case_bool_decide; skip H; rewrite ran_snoc in *; minv;
    (split_and!; [cbn in *; congruence..|naive_solver]).
Qed.

Lemma check_remote_ok tag w b w' :
  check_if_image_exists_in_remote_registry (PS:=PS) tag w = (Ok b, w') →
  w_procs w' = w_procs w ∧ ran w' = ran w ++ [manifest_inspect_cmd tag] ∧ (b = true ↔ tag ∈ remotes w).
Proof.
  unfold check_if_image_exists_in_remote_registry. intros H. skip H.
  apply M_bind_inv in H as ([[rc out] err] & w2 & (res & ps & f & He & -> & ->)%run_unchecked_spec & H).
  apply docker_manifest in He as (-> & -> & Hrc). specialize (Hrc rc out err eq_refl).
  unfold remotes. rewrite <- Hp.
  case_bool_decide; skip H; rewrite ran_snoc in *; minv;
    (split_and!; [cbn in *; congruence..|naive_solver]).
Qed.

Lemma run_checked_ok cmd (w : W) out err w' : run_checked cmd w = (Ok (out, err), w') →
  ∃ ps f, exec cmd (w_procs w, w_fs w) = (Finished 0 out err, (ps, f)) ∧
    w' = mkWorld (w_env w) f (w_cwd w) (w_trace w ++ [Ran cmd]) ps.
Proof.
  unfold run_checked. intros ([[rc o] e] & w2 & (res & ps & f & He & -> & ->)%run_unchecked_spec & H)%M_bind_inv.
  case_bool_decide; minv. eauto.
Qed.

Definition flags_of (args : list string) : list string :=
  match build_arg_flags args with Ok flags => flags | Raise _ => [] end.

Lemma build_image_ok tag file args ctx nc w w' :
  build_image (PS:=PS) tag file args ctx nc w = (Ok tt, w') →
  tag ∈ locals w' ∧ ran w' = ran w ++ [build_cmd tag file (flags_of args) ctx nc].
Proof.
  unfold build_image. intros H. skip H.
  apply M_bind_inv in H as (flags & w2 & Hf & H). unfold lift_result in Hf. simplify_eq.
  skip H. apply M_bind_inv in H as ([out err] & w3 & (ps & f & He & ->)%run_checked_ok & H).
  apply docker_build in He as (-> & _ & _ & _ & Hin). specialize (Hin out err eq_refl).
  skip H. skip H. apply quiet_ok in H as [Hq1 Hq2]; [|by frame].
  unfold flags_of. rewrite H0.
  rewrite ran_snoc in *. unfold locals. cbn in *. split; congruence.
Qed.

Lemma pull_ok tag w w' : pull_image_from_registry (PS:=PS) tag w = (Ok tt, w') →
  tag ∈ locals w' ∧ ran w' = ran w ++ [pull_cmd tag].
Proof.
  unfold pull_image_from_registry. intros H. skip H.
  apply M_bind_inv in H as ([out err] & w3 & (ps & f & He & ->)%run_checked_ok & H).
  apply docker_pull in He as (-> & _ & _ & _ & Hin). specialize (Hin out err eq_refl).
  skip H. skip H. apply quiet_ok in H as [Hq1 Hq2]; [|by frame].
  rewrite ran_snoc in *. unfold locals. cbn in *. split; congruence.
Qed.

(** A failed push is reported and tolerated. *)
Lemma push_ok tag w w' : push_image_to_registry (PS:=PS) tag w = (Ok tt, w') →
  locals w' = locals w ∧ ran w' = ran w ++ [push_cmd tag].
Proof.
  unfold push_image_to_registry. intros H. skip H. skip H.
  apply M_bind_inv in H as ([[rc out] err] & w3 & (res & ps & f & He & -> & _)%run_unchecked_spec & H).
  apply docker_push in He as (-> & Hl). unfold locals.
  match type of H with ?m _ = _ => assert (always quiet m) as Hq by frame end.
  apply (quiet_ok _ _ _ _ Hq) in H as [Hq1 Hq2]. rewrite ran_snoc in Hq2. cbn in Hq1.
  split; congruence.
Qed.

(** The commands [manage_docker_image] runs, as a table. *)
Definition docker_plan (tag : string) (build : list string) (no_cache here local_only there : bool) : list (list string) :=
  if negb no_cache && here then [inspect_cmd tag]
  else (if no_cache then [] else [inspect_cmd tag]) ++
       (if local_only then [build]
        else if no_cache then [build; push_cmd tag]
        else if there then [manifest_inspect_cmd tag; pull_cmd tag]
        else [manifest_inspect_cmd tag; build; push_cmd tag]).

Lemma manage_body_ok tag file args ctx local_mode nc repo w w' :
  manage_body (PS:=PS) tag file args ctx local_mode nc repo w = (Ok tt, w') →
  tag ∈ locals w' ∧
  ran w' = ran w ++ docker_plan tag (build_cmd tag file (flags_of args) ctx nc) nc
                      (bool_decide (tag ∈ locals w)) (bool_decide (repo = "") || local_mode)
                      (bool_decide (tag ∈ remotes w)).
Proof.
  unfold manage_body. intros H.
  apply M_bind_inv in H as (here & w1 & Hh & H).
  assert (w_procs w1 = w_procs w ∧ ran w1 = ran w ++ (if nc then [] else [inspect_cmd tag]) ∧
    here = negb nc && bool_decide (tag ∈ locals w)) as (Hp1 & Hr1 & ->).
  { destruct nc; [minv; by rewrite app_nil_r|]. apply check_local_ok in Hh as (? & ? & Hb).
    split_and!; [done..|]. cbn. apply eq_bool_prop_intro.
    rewrite bool_decide_spec. destruct here; naive_solver. }
  clear Hh. unfold docker_plan. destruct (negb nc && bool_decide (tag ∈ locals w)) eqn:E.
  { apply andb_true_iff in E as [E1 E2]. apply bool_decide_eq_true in E2.
    destruct nc; [done|]. unfold mret, M_ret in H. simplify_eq.
    split; [unfold locals in *; congruence|done]. }
  destruct (bool_decide (repo = "") || local_mode).
  { skip H. apply build_image_ok in H as [? Hr2]. split; [done|].
    rewrite Hr2, Hr, Hr1. by rewrite <- app_assoc. }
  apply M_bind_inv in H as (there & w2 & Ht & H).
  assert (w_procs w2 = w_procs w1 ∧ ran w2 = ran w1 ++ (if nc then [] else [manifest_inspect_cmd tag]) ∧
    there = negb nc && bool_decide (tag ∈ remotes w)) as (Hp2 & Hr2 & ->).
  { destruct nc; [minv; by rewrite app_nil_r|]. apply check_remote_ok in Ht as (? & ? & Hb).
    unfold remotes in *. rewrite Hp1 in Hb. split_and!; [done..|]. cbn. apply eq_bool_prop_intro.
    rewrite bool_decide_spec. destruct there; naive_solver. }
  clear Ht. destruct nc; cbn [negb andb] in *.
  - apply M_bind_inv in H as ([] & w3 & [Hin Hr3]%build_image_ok & [Hl Hr4]%push_ok).
    rewrite Hl. split; [done|]. rewrite Hr4, Hr3, Hr2, Hr1. by rewrite !app_nil_r, <- app_assoc.
  - case_bool_decide.
    + apply pull_ok in H as [Hin Hr3]. split; [done|].
      rewrite Hr3, Hr2, Hr1. by rewrite <- !app_assoc.
    + apply M_bind_inv in H as ([] & w3 & [Hin Hr3]%build_image_ok & [Hl Hr4]%push_ok).
      rewrite Hl. split; [done|]. rewrite Hr4, Hr3, Hr2, Hr1. by rewrite <- !app_assoc.
Qed.

(** Every clause of the [except] ends the process. *)
Lemma manage_docker_image_ok tag file args ctx local_mode nc repo w w' :
  manage_docker_image (PS:=PS) tag file args ctx local_mode nc repo w = (Ok tt, w') →
  manage_body tag file args ctx local_mode nc repo w = (Ok tt, w').
Proof.
  unfold manage_docker_image, try_with. destruct (manage_body _ _ _ _ _ _ _ w) as [[[]|e] w1]; [done|].
  destruct e; try done; intros H; exfalso; repeat (apply M_bind_inv in H as (? & ? & _ & H)); done.
Qed.

(** What the body of the [try] can raise. *)
Definition docker_exn (args : list string) (e : exn) : Prop :=
  start_exn e ∨ (∃ cmd rc out err, rc ≠ 0%Z ∧ e = CalledProcessError cmd rc out err) ∨
  build_arg_flags args = Raise e.

Lemma raises_build_image args tag file ctx nc :
  raises (docker_exn args) (build_image (PS:=PS) tag file args ctx nc).
Proof.
  unfold build_image, log_output. exc.
  - apply raises_lift. intros e He. by right; right.
  - apply raises_run_checked; [by left|]. intros. right; left. eauto 10.
Qed.

Lemma raises_manage_body tag file args ctx local_mode nc repo :
  raises (docker_exn args) (manage_body (PS:=PS) tag file args ctx local_mode nc repo).
Proof.
  unfold manage_body, check_if_image_exists_locally, check_if_image_exists_in_remote_registry,
    pull_image_from_registry, push_image_to_registry, log_output.
  exc; try apply raises_build_image; try (apply raises_run_unchecked; by left).
  apply raises_run_checked; [by left|]. intros. right; left. eauto 10.
Qed.

Lemma build_arg_flags_raise args e : build_arg_flags args = Raise e → e = IndexError.
Proof.
  induction args as [| |a b args IH] using list_pair_ind; cbn; intros H; simplify_eq; [done|].
  destruct (build_arg_flags args); cbn in H; simplify_eq. by apply IH.
Qed.

Lemma build_arg_flags_even args : (∃ k, length args = 2 * k) → is_Ok (build_arg_flags args).
Proof.
  induction args as [| |a b args IH] using list_pair_ind; intros [k Hk]; cbn in *; [by eexists|lia|].
  destruct IH as [fl ->]; [exists (k - 1); lia|]. by eexists.
Qed.

(** Whatever goes wrong in docker ends the process with a non-zero code. *)
Lemma raises_manage tag file args ctx local_mode nc repo :
  raises (λ e, (∃ c, e = SystemExit c ∧ c ≠ 0%Z) ∨ e = KeyboardInterrupt ∨
               (e = IndexError ∧ build_arg_flags args = Raise IndexError))
    (manage_docker_image (PS:=PS) tag file args ctx local_mode nc repo).
Proof.
  apply (raises_try _ (docker_exn args)); [apply raises_manage_body|..].
  - intros e [[He| ->]|[(cmd & rc & out & err & _ & ->)|He]] Hn; [by destruct e|by auto|done|].
    pose proof (build_arg_flags_raise _ _ He) as ->. by auto.
  - intros e k [[He| ->]|[(cmd & rc & out & err & Hrc & ->)|He]] Hk; [|done|..].
    + destruct e; try done. injection Hk as <-. exc. apply raises_raise. left. eauto.
    + injection Hk as <-. exc. apply raises_raise. left.
      case_bool_decide; [done|]. eauto.
    + pose proof (build_arg_flags_raise _ _ He) as ->. done.
Qed.
End manage_proofs.
