(* ===== verification/Builder.v ===== *)
(** * The image builder (docker/build.py, class DockerBuilder)

    Loading devkit.json and the deps.json files, the build order, the
    content-addressed tags and the build loop.  The object is the record
    [DockerBuilder]; its methods run over the pair of the world and the
    object. *)

From stdpp Require Import base gmap sets list strings sorting.
From Stdlib Require Import ZArith Lia.
From S2P Require Import Prelude PyStr Fs World Json Config Graph Sha256 DockerOps.

(** [d[k]] on a dict of the program. *)
Definition dict_getitem {A} (d : list (string * A)) (k : string) : result A :=
  match assoc k d with Some a => Ok a | None => Raise (KeyError k) end.

(** The text [%s] makes of a caught exception; not kept for a program that died of
    a signal and for errors whose text is the interpreter's. *)
Definition exn_str (e : exn) : string :=
  match e with
  | ValueError m | JSONDecodeError m | FileNotFoundError m | OSError m => m
  | KeyError k => repr_str k
  | CycleError => "nodes are in a cycle"
  | CalledProcessError cmd rc _ _ =>
      if (0 <=? rc)%Z
      then "Command '" +:+ py_repr (JArr (map JStr cmd)) +:+ "' returned non-zero exit status " +:+ str_of_Z rc +:+ "."
      else ""
  | _ => ""
  end.

(** [conf["deps"]] is annotated [dict[str, str]]: any other value among the
    dependencies is a [TypeError] here. *)
Fixpoint str_values (l : list (string * json)) : result (list (string * string)) :=
  match l with
  | [] => Ok []
  | (k, JStr s) :: l => rest ← str_values l; Ok ((k, s) :: rest)
  | _ => Raise TypeError
  end.

Definition dep_items (deps : json) : result (list (string * string)) :=
  items ← py_items deps; str_values items.

Definition conf_deps (conf : json) : result (list (string * string)) :=
  deps ← py_getitem conf "deps"; dep_items deps.

Abbreviation ImageConfigsMap := (list (string * json)).

(** [{name: set(conf["deps"].values()) for name, conf in configs.items()}] *)
Fixpoint full_graph (configs : ImageConfigsMap) : result graph :=
  match configs with
  | [] => Ok []
  | (name, conf) :: configs =>
      deps ← conf_deps conf;
      g ← full_graph configs;
      Ok ((name, list_to_set deps.*2) :: g)
  end.

Record DockerBuilder := mkBuilder {
  config_path : Path;
  search_paths : list Path;
  repo : string;
  namespace : string;
  arch : string;
  extra_packages_map : gmap string (list string);
  extra_keys_map : gmap string (list string);
  extra_repositories_map : gmap string (list string);
  image_configs_map : ImageConfigsMap;
  generated_tags : gmap string string
}.

Definition set_registry (rn : string * string) (b : DockerBuilder) : DockerBuilder :=
  mkBuilder (config_path b) (search_paths b) rn.1 rn.2 (arch b) (extra_packages_map b)
    (extra_keys_map b) (extra_repositories_map b) (image_configs_map b) (generated_tags b).
Definition set_packages (img : string) (v : list string) (b : DockerBuilder) : DockerBuilder :=
  mkBuilder (config_path b) (search_paths b) (repo b) (namespace b) (arch b)
    (<[img:=v]> (extra_packages_map b)) (extra_keys_map b) (extra_repositories_map b)
    (image_configs_map b) (generated_tags b).
Definition set_keys (img : string) (v : list string) (b : DockerBuilder) : DockerBuilder :=
  mkBuilder (config_path b) (search_paths b) (repo b) (namespace b) (arch b)
    (extra_packages_map b) (<[img:=v]> (extra_keys_map b)) (extra_repositories_map b)
    (image_configs_map b) (generated_tags b).
Definition set_repositories (img : string) (v : list string) (b : DockerBuilder) : DockerBuilder :=
  mkBuilder (config_path b) (search_paths b) (repo b) (namespace b) (arch b)
    (extra_packages_map b) (extra_keys_map b) (<[img:=v]> (extra_repositories_map b))
    (image_configs_map b) (generated_tags b).
Definition set_image_configs (c : ImageConfigsMap) (b : DockerBuilder) : DockerBuilder :=
  mkBuilder (config_path b) (search_paths b) (repo b) (namespace b) (arch b)
    (extra_packages_map b) (extra_keys_map b) (extra_repositories_map b) c (generated_tags b).
Definition set_tag (image tag : string) (b : DockerBuilder) : DockerBuilder :=
  mkBuilder (config_path b) (search_paths b) (repo b) (namespace b) (arch b)
    (extra_packages_map b) (extra_keys_map b) (extra_repositories_map b)
    (image_configs_map b) (<[image:=tag]> (generated_tags b)).

Definition get_image_tag (self : DockerBuilder) (image_name sha : string) : string :=
  let image_path := namespace self +:+ "/" +:+ image_name in
  let tag_suffix := arch self +:+ "-" +:+ sha in
  if bool_decide (repo self = "") then image_path +:+ ":" +:+ tag_suffix
  else repo self +:+ "/" +:+ image_path +:+ ":" +:+ tag_suffix.

(** One pass of the loop over [extra_packages_map], [extra_keys_map] and
    [extra_repositories_map]: an absent or empty list gives no argument. *)
Definition extra_arg (m : gmap string (list string)) (arg_name image : string) : list (string * string) :=
  match default [] (m !! image) with
  | [] => []
  | val => [(arg_name, join " " val)]
  end.

Definition extra_args (self : DockerBuilder) (image : string) : list (string * string) :=
  extra_arg (extra_packages_map self) "EXTRA_PACKAGES" image ++
  extra_arg (extra_keys_map self) "EXTRA_KEYS" image ++
  extra_arg (extra_repositories_map self) "EXTRA_REPOSITORIES" image.

(** [f"{name}={value}"] *)
Definition arg_str (a : string * string) : string := a.1 +:+ "=" +:+ a.2.

Fixpoint concat_str (l : list string) : string :=
  match l with [] => "" | s :: l => s +:+ concat_str l end.

(** The image digest: the Dockerfile's bytes followed by those of the sorted
    arguments. *)
Definition sha_of (content : string) (sorted_build_args : list string) : string :=
  hexdigest (content +:+ concat_str sorted_build_args).

Section builder.
Context {PS : Type} {EX : Exec PS} {SO : SetOrder}.
Local Abbreviation W := (World PS).

Definition load_deps_file (deps_file : Path) (all_configs : ImageConfigsMap) : M W ImageConfigsMap :=
  log_info ("Loading image configs from " +:+ str_path deps_file) ;;
  text ← read_text deps_file;
  try_with
    (configs ← lift_result (json_loads text);
     match configs with
     | JObj l => mret (assoc_update all_configs l)
     | _ => log_warning (str_path deps_file +:+ " does not contain a dict of configs.") ;;
            mret all_configs
     end)
    (λ e, if is_JSONDecodeError e
          then Some (log_error ("Could not decode " +:+ str_path deps_file +:+ ": " +:+ exn_str e) ;;
                     sys_exit 1)
          else None).

Definition load_image_configs (paths : list Path) : M W ImageConfigsMap :=
  for_acc (λ all_configs path,
    let deps_file := join_name path "deps.json" in
    ex ← exists_p deps_file;
    if (ex : bool) then load_deps_file deps_file all_configs else mret all_configs) [] paths.

Definition calculate_sha256 (dockerfile_path : Path) (sorted_build_args : list string) : M W string :=
  content ← read_text dockerfile_path;
  mret (sha_of content sorted_build_args).

(** [None] of the worklist (out of fuel) does not occur: [visit_closure]. *)
Definition get_dependency_subgraph (target_image_names : list string)
    (image_configs_map : ImageConfigsMap) : M W (list string) :=
  g ← lift_result (full_graph image_configs_map);
  match subgraph_order g (list_to_set target_image_names) with
  | Some (Ok order) => mret order
  | Some (Raise e) =>
      log_error ("Cycle detected in dependencies: " +:+ exn_str e) ;; sys_exit 1
  | None => raise RecursionError
  end.

(** The Dockerfile of an image: the first search path that has it. *)
Fixpoint find_dockerfile (paths : list Path) (dockerfile_name : string) : M W (option Path) :=
  match paths with
  | [] => mret None
  | path :: paths =>
      let potential_path := join_name path dockerfile_name in
      ex ← exists_p potential_path;
      if (ex : bool) then mret (Some potential_path) else find_dockerfile paths dockerfile_name
  end.

Definition realpath_m (p : Path) : M W Path := gets (λ w, realpath (w_fs w) (w_cwd w) p).

(** ** The object *)

Local Abbreviation B := (World PS * DockerBuilder)%type.

Definition inW {A} (m : M W A) : M B A := λ s,
  let '(r, w) := m s.1 in (r, (w, s.2)).

Definition self : M B DockerBuilder := gets snd.
Definition update_self (f : DockerBuilder → DockerBuilder) : M B () := modify (λ s, (s.1, f s.2)).

(** [_load_registry_config] *)
Definition load_registry_config (config : json) : M B () :=
  rn ← lift_result (parse_registry_config config);
  update_self (set_registry rn).

(** [[f"{k}={v}" for k, v in d.items()]], with the check on versions. *)
Fixpoint load_packages (img : string) (l : list (string * json)) : M B (list string) :=
  match l with
  | [] => mret []
  | (k, v) :: l =>
      if truthy v then
        rest ← load_packages img l; mret ((k +:+ "=" +:+ py_str v) :: rest)
      else
        inW (log_error ("Package " +:+ k +:+ " in image " +:+ img +:+ " has an empty version. "
                        +:+ "Please specify a version or use '*'.")) ;;
        sys_exit 1
  end.

Definition kv_strings (l : list (string * json)) : list string :=
  map (λ '(k, v), k +:+ "=" +:+ py_str v) l.

(** [if key in settings: ... settings[key].items() ...] *)
Definition with_items (settings : json) (key : string) (k : list (string * json) → M B ()) : M B () :=
  b ← lift_result (py_in key settings);
  when b (v ← lift_result (py_getitem settings key);
          items ← lift_result (py_items v);
          k items).

Definition load_image_settings (img : string) (settings : json) : M B () :=
  with_items settings "packages" (λ items,
    packages ← load_packages img items; update_self (set_packages img packages)) ;;
  with_items settings "keys" (λ items, update_self (set_keys img (kv_strings items))) ;;
  with_items settings "repositories" (λ items, update_self (set_repositories img (kv_strings items))).

(** [_load_images_config] *)
Definition load_images_config (config : json) : M B () :=
  docker ← lift_result (py_getitem config "docker");
  with_items docker "images" (for_each (λ '(img, settings), load_image_settings img settings)).

(** The [try] of [_load_config]: [json.load], the validation and the loading. *)
Definition load_config_text (text : string) : M B () :=
  config ← lift_result (json_loads text);
  lift_result (validate_config config CONFIG_SCHEMA "") ;;
  has_docker ← lift_result (py_in "docker" config);
  when has_docker (load_registry_config config ;; load_images_config config).

(** [_load_config] *)
Definition load_config : M B () :=
  b ← self;
  ex ← inW (exists_p (config_path b));
  if (ex : bool) then
    text ← inW (read_text (config_path b));
    try_with
      (load_config_text text)
      (λ e, if is_JSONDecodeError e || is_ValueError e
            then Some (inW (log_error ("Could not load " +:+ str_path (config_path b) +:+ ": " +:+ exn_str e)) ;;
                       sys_exit 1)
            else None)
  else inW (log_info ("devkit.json config file not found: " +:+ str_path (config_path b))).

Definition initial_builder (config_path : Path) (search_paths : list Path) : DockerBuilder :=
  mkBuilder config_path search_paths "" "devkit" "amd64" ∅ ∅ ∅ [] ∅.

(** [__init__], on the object with its initial attributes *)
Definition init_body : M B () :=
  load_config ;;
  b ← self;
  configs ← inW (load_image_configs (search_paths b));
  update_self (set_image_configs configs).

(** [DockerBuilder(config_path, search_paths)] *)
Definition new_builder (config_path : Path) (search_paths : list Path) : M W DockerBuilder := λ w,
  match init_body (w, initial_builder config_path search_paths) with
  | (Ok _, (w', b)) => (Ok b, w')
  | (Raise e, (w', _)) => (Raise e, w')
  end.

Definition get_build_order (target_images : list string) : M B (list string) :=
  b ← self;
  match target_images with
  | [] =>
      g ← lift_result (full_graph (image_configs_map b));
      match static_order g with
      | Ok images_to_process =>
          inW (log_info "Processing all Docker images...") ;; mret images_to_process
      | Raise e =>
          inW (log_error ("Cycle detected in image dependencies: " +:+ exn_str e)) ;; sys_exit 1
      end
  | _ =>
      images_to_process ← inW (get_dependency_subgraph target_images (image_configs_map b));
      inW (log_info ("Processing Docker images " +:+ join ", " target_images
                     +:+ " and their dependencies: " +:+ join ", " images_to_process +:+ "...")) ;;
      mret images_to_process
  end.

Definition paths_repr (paths : list Path) : string :=
  "[" +:+ join ", " (map (λ p, "PosixPath(" +:+ repr_str (str_path p) +:+ ")") paths) +:+ "]".

(** [frames]: the stack frames left; the call that finds none raises. *)
Fixpoint calculate_tag_for_image (frames : nat) (image_name : string) : M B string :=
  match frames with
  | O => raise RecursionError
  | S frames =>
      b ← self;
      match generated_tags b !! image_name with
      | Some tag => mret tag
      | None =>
          inW (log_info ("=== Calculating tag for: " +:+ image_name +:+ " ===")) ;;
          image_conf ← lift_result (dict_getitem (image_configs_map b) image_name);
          dependencies ← lift_result (py_getitem image_conf "deps");
          let dockerfile_name := image_name +:+ ".Dockerfile" in
          found ← inW (find_dockerfile (search_paths b) dockerfile_name);
          match found with
          | None =>
              inW (log_error ("Dockerfile " +:+ dockerfile_name +:+ " not found for image '" +:+ image_name
                     +:+ "' in any of the search paths: " +:+ paths_repr (search_paths b) +:+ ".")) ;;
              sys_exit 1
          | Some dockerfile_path =>
              dockerfile_path ← inW (realpath_m dockerfile_path);
              items ← lift_result (dep_items dependencies);
              dep_args ← for_acc (λ acc '(arg_name, dep_image_name),
                dep_tag ← calculate_tag_for_image frames dep_image_name;
                mret (acc ++ [arg_str (arg_name, dep_tag)])) [] items;
              let build_args := merge_sort String.le (dep_args ++ map arg_str (extra_args b image_name)) in
              sha ← inW (calculate_sha256 dockerfile_path build_args);
              let tag := get_image_tag b image_name sha in
              update_self (set_tag image_name tag) ;;
              inW (log_info ("Tag for " +:+ image_name +:+ ": " +:+ tag)) ;;
              mret tag
          end
      end
  end.

Variable frames : nat.

(** [self.generated_tags[name]] *)
Definition generated_tag (name : string) : M B string :=
  b ← self;
  match generated_tags b !! name with
  | Some tag => mret tag
  | None => raise (KeyError name)
  end.

Fixpoint map_m {A C} (f : A → M B C) (l : list A) : M B (list C) :=
  match l with
  | [] => mret []
  | x :: l => y ← f x; ys ← map_m f l; mret (y :: ys)
  end.

Definition calculate_tags (target_images : list string) : M B (list string) :=
  images_to_process ← get_build_order target_images;
  for_each (λ image_name, calculate_tag_for_image frames image_name ;; mret tt) images_to_process ;;
  map_m generated_tag images_to_process.

(** A method call on an object that is not used afterwards. *)
Definition call_on {A} (b : DockerBuilder) (m : M B A) : M W A := λ w,
  let '(r, (w', _)) := m (w, b) in (r, w').

Definition get_all_docker_image_tags (config_path : Path) (search_paths : list Path)
    (target_images : list string) : M W (list string) :=
  builder ← new_builder config_path search_paths;
  call_on builder (calculate_tags target_images).

(** One pass of the loop of [build_images], up to the printing of the tag. *)
Definition build_one (no_cache local_flag : bool) (image_name : string) : M B string :=
  tag ← calculate_tag_for_image frames image_name;
  b ← self;
  image_conf ← lift_result (dict_getitem (image_configs_map b) image_name);
  local_conf ← (if local_flag then mret (Some (JBool true)) else lift_result (py_get image_conf "local"));
  let local_image_mode := truthy (default (JBool false) local_conf) in
  let dockerfile_name := image_name +:+ ".Dockerfile" in
  found ← inW (find_dockerfile (search_paths b) dockerfile_name);
  match found with
  | None => inW (log_error ("Dockerfile " +:+ dockerfile_name +:+ " not found.")) ;; sys_exit 1
  | Some dockerfile_path =>
      dockerfile_path ← inW (realpath_m dockerfile_path);
      let context_path := dirname dockerfile_path in
      deps ← lift_result (conf_deps image_conf);
      dep_args ← map_m (λ '(arg_name, dep), t ← generated_tag dep; mret [arg_name; t]) deps;
      let build_args := concat dep_args ++ concat (map (λ a, [a.1; a.2]) (extra_args b image_name)) in
      inW (manage_docker_image tag (str_path dockerfile_path) build_args (str_path context_path)
             local_image_mode no_cache (repo b)) ;;
      mret tag
  end.

(** The whole pass. *)
Definition build_step (print_tag_mode : bool) (target_image_for_tag_print : option string)
    (no_cache local_flag : bool) (image_name : string) : M B () :=
  tag ← build_one no_cache local_flag image_name;
  when (print_tag_mode && bool_decide (Some image_name = target_image_for_tag_print))
    (inW (println tag) ;; sys_exit 0).

Definition build_images (target_images : list string) (print_tag_mode no_cache local_flag : bool) : M B () :=
  images_to_process ← get_build_order target_images;
  target_image_for_tag_print ←
    (if print_tag_mode
     then lift_result (match target_images with [] => Raise IndexError | t :: _ => Ok (Some t) end)
     else mret None);
  for_each (build_step print_tag_mode target_image_for_tag_print no_cache local_flag) images_to_process ;;
  when (negb print_tag_mode)
    (match target_images with
     | [] => inW (log_info "All Docker images processed successfully.")
     | _ => inW (log_info ("Targeted Docker images " +:+ join ", " target_images
                           +:+ " and dependencies processed successfully."))
     end).

(** The parsed command line. *)
Record build_namespace := mkBuildArgs {
  ba_target_images : list string;
  ba_print_tag : bool;
  ba_config : Path;
  ba_search_path : list Path;
  ba_local : bool;
  ba_no_cache : bool;
  ba_log_file : option Path
}.

(** The checks of [main] on the targets. *)
Definition check_targets (args : build_namespace) (all_image_names : list string) : M W () :=
  if ba_print_tag args then
    match ba_target_images args with
    | [t] =>
        when (negb (bool_decide (t ∈ all_image_names)))
          (log_error ("Target image '" +:+ t +:+ "' for --print-tag is not a valid image name.") ;;
           sys_exit 1)
    | _ =>
        log_error "--print-tag requires exactly one target_image to be specified." ;;
        sys_exit 1
    end
  else
    for_each (λ ti,
      when (negb (bool_decide (ti ∈ all_image_names)))
        (log_error ("Specified target image '" +:+ ti +:+ "' is not a valid image name.") ;;
         log_error ("Choose from: " +:+ join ", " all_image_names) ;;
         sys_exit 1)) (ba_target_images args).

(** [main] after [parse_args] and the set-up of the log *)
Definition main (args : build_namespace) : M W () :=
  check_docker_installed (ba_log_file args) ;;
  check_docker_buildx_installed (ba_log_file args) ;;
  builder ← new_builder (ba_config args) (ba_search_path args);
  check_targets args (keys (image_configs_map builder)) ;;
  call_on builder
    (build_images (ba_target_images args) (ba_print_tag args) (ba_no_cache args) (ba_local args)).
End builder.
