(* ===== verification/BuilderTags.v ===== *)
(** * Content-addressed tags: what [calculate_tag_for_image] computes

    [TagOf] says, without memo table, recursion depth or evaluation order, which
    tag an image has: the digest of its Dockerfile and of the tags of what it
    depends on.  The memoising method refines it: whatever it returns is that
    tag, and it returns whenever there is one. *)

From stdpp Require Import base gmap sets list strings sorting relations.
From Stdlib Require Import ZArith Lia.
From S2P Require Import Prelude PyStr Fs World Json Config Graph Sha256 DockerOps Builder.

(** The object without its memo table. *)
Definition strip_tags (b : DockerBuilder) : DockerBuilder :=
  mkBuilder (config_path b) (search_paths b) (repo b) (namespace b) (arch b)
    (extra_packages_map b) (extra_keys_map b) (extra_repositories_map b) (image_configs_map b) ∅.

Definition dockerfile_of (f : fs) (cwd : list string) (paths : list Path) (image : string) : option Path :=
  head (filter (λ p, path_exists f cwd p = true)
          ((λ p, join_name p (image +:+ ".Dockerfile")) <$> paths)).

(** What the tag of one image is made of, besides the tags of its
    dependencies: the Dockerfile's content and the build arguments to fill. *)
Definition image_source (f : fs) (cwd : list string) (b : DockerBuilder) (image : string) :
    option (string * list (string * string)) :=
  match assoc image (image_configs_map b) with
  | Some conf =>
      match conf_deps conf, dockerfile_of f cwd (search_paths b) image with
      | Ok deps, Some p =>
          match read_file f cwd (realpath f cwd p) with
          | Ok content => Some (content, deps)
          | Raise _ => None
          end
      | _, _ => None
      end
  | None => None
  end.

Definition tag_from (b : DockerBuilder) (image content : string) (deps : list (string * string))
    (dep_tags : list string) : string :=
  get_image_tag b image
    (sha_of content
       (merge_sort String.le
          (zip_with (λ d t, arg_str (d.1, t)) deps dep_tags ++ map arg_str (extra_args b image)))).

Section tag_of.
Variables (f : fs) (cwd : list string) (b : DockerBuilder).

Inductive TagOf : string → string → Prop :=
| TagOf_intro image content deps dep_tags :
    image_source f cwd b image = Some (content, deps) →
    Forall2 (λ d t, TagOf d.2 t) deps dep_tags →
    TagOf image (tag_from b image content deps dep_tags).

Lemma TagOf_ind' (P : string → string → Prop) :
  (∀ image content deps dep_tags,
     image_source f cwd b image = Some (content, deps) →
     Forall2 (λ d t, TagOf d.2 t ∧ P d.2 t) deps dep_tags →
     P image (tag_from b image content deps dep_tags)) →
  ∀ image tag, TagOf image tag → P image tag.
Proof.
  intros HP. fix IH 3. intros image tag [image' content deps dep_tags Hs Hd].
  apply HP; [done|]. clear Hs.
  induction Hd as [|d t deps' tags' Hdt Hd' IHd]; [constructor|].
  constructor; [|exact IHd].
  split; [done|]. by apply IH.
Qed.

(** An image has one tag. *)
Lemma TagOf_functional image t1 t2 : TagOf image t1 → TagOf image t2 → t1 = t2.
Proof.
  intros H1. revert t2. induction H1 as [image content deps tags1 Hs Hd] using TagOf_ind'.
  intros t2 H2. inversion H2 as [? content' deps' tags2 Hs' Hd']; subst. simplify_eq.
  f_equal. clear -Hd Hd'. revert tags2 Hd'.
  induction Hd as [|d t deps tags [_ Hdt] _ IH]; intros tags2 Hd'; inversion Hd'; subst; [done|].
  f_equal; auto.
Qed.

(** What an image depends on has a tag too. *)
Lemma TagOf_dep image tag content deps : TagOf image tag →
  image_source f cwd b image = Some (content, deps) →
  ∃ dep_tags, Forall2 (λ d t, TagOf d.2 t) deps dep_tags ∧ tag = tag_from b image content deps dep_tags.
Proof. inversion 1; subst. intros ?. simplify_eq. eauto. Qed.
End tag_of.

Lemma TagOf_strip f cwd b b' image tag :
  strip_tags b' = strip_tags b → TagOf f cwd b image tag → TagOf f cwd b' image tag.
Proof.
  intros Hb. induction 1 as [image content deps tags Hs Hd] using TagOf_ind'.
  change (tag_from b) with (tag_from (strip_tags b)). rewrite <- Hb. change (tag_from (strip_tags b')) with (tag_from b').
  apply TagOf_intro.
  - change (image_source f cwd b') with (image_source f cwd (strip_tags b')). by rewrite Hb.
  - eapply Forall2_impl; [exact Hd|]. cbn. tauto.
Qed.

(** ** The memo table *)

Section refine.
Context {PS : Type} {EX : Exec PS}.
Local Abbreviation W := (World PS).
Local Abbreviation B := (World PS * DockerBuilder)%type.

Definition tag_of (w : W) (b : DockerBuilder) : string → string → Prop := TagOf (w_fs w) (w_cwd w) b.

(** Every recorded tag is the image's tag. *)
Definition memo_ok (s : B) : Prop :=
  ∀ image tag, generated_tags s.2 !! image = Some tag → tag_of s.1 s.2 image tag.

(** Messages apart, only the memo table changes, and it only grows. *)
Definition stable (s s' : B) : Prop :=
  quiet s.1 s'.1 ∧ strip_tags s'.2 = strip_tags s.2 ∧
  dom (generated_tags s.2) ⊆ dom (generated_tags s'.2).

#[global] Instance stable_preorder : PreOrder stable.
Proof.
  split; [intros s; split_and!; reflexivity|].
  intros x y z (?&?&?) (?&?&?). split_and!; [by etrans|congruence|by etrans].
Qed.

Lemma stable_inW {A} (m : M W A) : always quiet m → always stable (inW m).
Proof.
  intros Hm [w b] r s' H. unfold inW in H. cbn in H. destruct (m w) as [r' w'] eqn:E.
  simplify_eq. apply Hm in E. by split_and!.
Qed.

Lemma stable_self : always stable (@self PS).
Proof. apply always_gets. apply _. Qed.

Lemma stable_tag_of s s' image tag : stable s s' →
  tag_of s.1 s.2 image tag → tag_of s'.1 s'.2 image tag.
Proof.
  intros (Hq & Hb & _). unfold tag_of. destruct Hq as [(_ & -> & -> & _) _]. by apply TagOf_strip.
Qed.

Lemma stable_tag_of_inv s s' image tag : stable s s' →
  tag_of s'.1 s'.2 image tag → tag_of s.1 s.2 image tag.
Proof.
  intros (Hq & Hb & _). unfold tag_of. destruct Hq as [(_ & -> & -> & _) _]. by apply TagOf_strip.
Qed.

Lemma quiet_find_dockerfile paths name : always quiet (find_dockerfile (PS:=PS) paths name).
Proof. induction paths as [|p paths IH]; cbn; unfold exists_p; frame. Qed.

Lemma quiet_exists_p p : always quiet (exists_p (PS:=PS) p).
Proof. apply always_gets. apply _. Qed.

Lemma quiet_realpath_m p : always quiet (realpath_m (PS:=PS) p).
Proof. apply always_gets. apply _. Qed.

Lemma quiet_calculate_sha256 p args : always quiet (calculate_sha256 (PS:=PS) p args).
Proof. unfold calculate_sha256. frame. Qed.

Lemma find_dockerfile_eq paths image (w : W) :
  find_dockerfile paths (image +:+ ".Dockerfile") w =
  (Ok (dockerfile_of (w_fs w) (w_cwd w) paths image), w).
Proof.
  unfold dockerfile_of. induction paths as [|p paths IH]; [done|].
  rewrite fmap_cons, filter_cons. cbn [find_dockerfile]. unfold exists_p, gets. munfold. case_decide as Hp; [by rewrite Hp|].
  apply not_true_is_false in Hp. rewrite Hp. apply IH.
Qed.
End refine.

#[export] Hint Resolve stable_inW stable_self quiet_find_dockerfile quiet_exists_p
  quiet_realpath_m quiet_calculate_sha256 : frame.

Section refine_proofs.
Context {PS : Type} {EX : Exec PS}.
Local Abbreviation W := (World PS).
Local Abbreviation B := (World PS * DockerBuilder)%type.

Lemma stable_set_tag image tag : always stable (update_self (PS:=PS) (set_tag image tag)).
Proof.
  intros [w b] r s' H. unfold update_self in H. minv. split_and!; [reflexivity|done|].
  cbn. rewrite dom_insert. set_solver.
Qed.

#[local] Hint Resolve stable_set_tag : frame.

Lemma stable_calculate_tag frames image : always stable (calculate_tag_for_image (PS:=PS) frames image).
Proof.
  revert image. induction frames as [|frames IH]; intros image; cbn; [frame|].
  frame.
Qed.

(** The loop over the dependencies, for a recursive call [calc]. *)
Definition dep_loop (calc : string → M B string) (acc : list string) (items : list (string * string)) :
    M B (list string) :=
  for_acc (λ acc '(arg_name, dep_image_name),
    dep_tag ← calc dep_image_name;
    mret (acc ++ [arg_str (arg_name, dep_tag)])) acc items.

(** What a call that returned guarantees. *)
Definition sound_call (calc : string → M B string) : Prop :=
  ∀ image s tag s', memo_ok s → calc image s = (Ok tag, s') →
    stable s s' ∧ memo_ok s' ∧ tag_of s.1 s.2 image tag ∧ generated_tags s'.2 !! image = Some tag.

Lemma dep_loop_sound calc : sound_call calc → ∀ items acc s out s',
  memo_ok s → dep_loop calc acc items s = (Ok out, s') →
  stable s s' ∧ memo_ok s' ∧
  ∃ tags, Forall2 (λ d t, tag_of s.1 s.2 d.2 t) items tags ∧
          out = acc ++ zip_with (λ d t, arg_str (d.1, t)) items tags.
Proof.
  intros Hcalc items. induction items as [|[arg dep] items IH]; intros acc s out s' Hm H; cbn in H.
  { minv. split; [reflexivity|]. split; [done|]. exists []. by rewrite app_nil_r. }
  apply M_bind_inv in H as (acc' & s1 & (t & s2 & Ht & Hr)%M_bind_inv & H).
  unfold mret, M_ret in Hr. simplify_eq.
  apply (Hcalc dep s t) in Ht as (Hst & Hm1 & Htag & _); [|done].
  apply IH in H as (Hst2 & Hm2 & tags & Hf & ->); [|done].
  split; [by etrans|]. split; [done|]. exists (t :: tags). split; [|by rewrite <- app_assoc].
  constructor; [done|]. eapply Forall2_impl; [exact Hf|]. intros d t' Hd.
  by apply (stable_tag_of_inv s s1).
Qed.

Lemma inW_inv {A} (m : M W A) s (r : result A) s' : inW m s = (r, s') → m s.1 = (r, s'.1) ∧ s'.2 = s.2.
Proof. unfold inW. destruct (m s.1) as [r' w']. intros. by simplify_eq. Qed.

Lemma inW_ok {A} (m : M W A) w b r w' : m w = (r, w') → inW m (w, b) = (r, (w', b)).
Proof. unfold inW. cbn. by intros ->. Qed.

Lemma calculate_sha256_inv p args (w : W) sha w' : calculate_sha256 p args w = (Ok sha, w') →
  ∃ content, read_file (w_fs w) (w_cwd w) p = Ok content.
Proof.
  unfold calculate_sha256. intros (content & w1 & [Hr _]%read_text_inv & _)%M_bind_inv.
  by exists content.
Qed.

Lemma stable_image_source (s s' : B) image : stable s s' →
  image_source (w_fs s'.1) (w_cwd s'.1) s'.2 image = image_source (w_fs s.1) (w_cwd s.1) s.2 image.
Proof.
  intros ([(_ & -> & -> & _) _] & Hb & _).
  change (image_source (w_fs s.1) (w_cwd s.1) s'.2)
    with (image_source (w_fs s.1) (w_cwd s.1) (strip_tags s'.2)). by rewrite Hb.
Qed.

Lemma memo_ok_set_tag w b image tag : memo_ok (w, b) → tag_of (PS:=PS) w b image tag →
  memo_ok (w, set_tag image tag b).
Proof.
  intros Hm Ht image' tag'. cbn. rewrite lookup_insert_Some.
  intros [[<- <-]|[? ?]]; apply (TagOf_strip _ _ b); try done. by apply Hm.
Qed.

Lemma memo_ok_fs (w w' : W) b : w_fs w' = w_fs w → w_cwd w' = w_cwd w → memo_ok (w, b) → memo_ok (w', b).
Proof. unfold memo_ok, tag_of. cbn. by intros -> ->. Qed.

Lemma image_source_inv f cwd b image content deps : image_source f cwd b image = Some (content, deps) →
  ∃ conf d p, assoc image (image_configs_map b) = Some conf ∧ py_getitem conf "deps" = Ok d ∧
    dep_items d = Ok deps ∧ dockerfile_of f cwd (search_paths b) image = Some p ∧
    read_file f cwd (realpath f cwd p) = Ok content.
Proof.
  unfold image_source. intros H. destruct (assoc _ _) as [conf|]; [|done].
  destruct (conf_deps conf) as [deps'|] eqn:Ed; [|done].
  apply result_bind_inv in Ed as (d & ? & ?).
  destruct (dockerfile_of _ _ _ _) as [p|]; [|done].
  destruct (read_file _ _ _) as [c|] eqn:Er; [|done]. injection H as <- <-. eauto 10.
Qed.

Definition calc_msg (image : string) (w : W) : W :=
  emit_event (Log INFO ("=== Calculating tag for: " +:+ image +:+ " ===")) w.
Definition tag_msg (image tag : string) (w : W) : W :=
  emit_event (Log INFO ("Tag for " +:+ image +:+ ": " +:+ tag)) w.

Lemma quiet_log_event l t (w : W) : quiet w (emit_event (Log l t) w).
Proof. split; [done|]. unfold ran. cbn. by rewrite commands_app, app_nil_r. Qed.

(** A call that finds no recorded tag, for an image that has all it needs. *)
Lemma calculate_tag_step n image w b content deps :
  generated_tags b !! image = None →
  image_source (w_fs w) (w_cwd w) b image = Some (content, deps) →
  calculate_tag_for_image (S n) image (w, b) =
  match dep_loop (calculate_tag_for_image n) [] deps (calc_msg image w, b) with
  | (Ok args, (w', b')) =>
      let tag := get_image_tag b image
        (sha_of content (merge_sort String.le (args ++ map arg_str (extra_args b image)))) in
      (Ok tag, (tag_msg image tag w', set_tag image tag b'))
  | (Raise e, s) => (Raise e, s)
  end.
Proof.
  intros Hg (conf & d & p & Hconf & Hd & Hi & Hp & Hr)%image_source_inv.
  cbn [calculate_tag_for_image]. set (w1 := calc_msg image w).
  rewrite (M_bind_ok _ _ _ b (w, b)) by done. rewrite Hg.
  rewrite (M_bind_ok _ _ _ tt (w1, b)) by done.
  rewrite (M_bind_ok _ _ _ conf (w1, b)) by (unfold lift_result, dict_getitem; by rewrite Hconf).
  rewrite (M_bind_ok _ _ _ d (w1, b)) by (unfold lift_result; by rewrite Hd).
  rewrite (M_bind_ok _ _ _ (Some p) (w1, b)) by (apply inW_ok; by rewrite find_dockerfile_eq, <- Hp).
  rewrite (M_bind_ok _ _ _ (realpath (w_fs w) (w_cwd w) p) (w1, b)) by done.
  rewrite (M_bind_ok _ _ _ deps (w1, b)) by (unfold lift_result; by rewrite Hi).
  fold (dep_loop (calculate_tag_for_image n) [] deps).
  destruct (dep_loop _ _ _ _) as [[args|e] [w' b']] eqn:El; [|by erewrite M_bind_raise].
  rewrite (M_bind_ok _ _ _ _ _ El).
  assert (stable (w1, b) (w', b')) as ([(_ & Hfs & Hcwd & _) _] & _ & _).
  { eapply (always_for_acc stable); [|exact El]. intros acc [a dep]. frame. apply stable_calculate_tag. }
  erewrite (M_bind_ok (inW (calculate_sha256 _ _)) _ _ _ (w', b')); [done|].
  apply inW_ok. unfold calculate_sha256. erewrite M_bind_ok; [done|].
  unfold read_text. cbn in Hfs, Hcwd. by rewrite Hfs, Hcwd, Hr.
Qed.

(** An image that lacks something never gets a tag. *)
Lemma calculate_tag_source n image (w : W) b s' tag :
  generated_tags b !! image = None → calculate_tag_for_image n image (w, b) = (Ok tag, s') →
  is_Some (image_source (w_fs w) (w_cwd w) b image).
Proof.
  intros Hg H. destruct n as [|n]; [done|]. cbn [calculate_tag_for_image] in H.
  rewrite (M_bind_ok _ _ _ b (w, b)) in H by done. rewrite Hg in H.
  rewrite (M_bind_ok _ _ _ tt (calc_msg image w, b)) in H by done.
  unfold image_source. apply M_bind_inv in H as (conf & s1 & Hc & H).
  unfold lift_result, dict_getitem in Hc. destruct (assoc _ _) as [conf'|]; simplify_eq.
  apply M_bind_inv in H as (d & s1 & Hd & H). unfold lift_result in Hd.
  destruct (py_getitem conf "deps") as [d'|] eqn:Ed; simplify_eq.
  apply M_bind_inv in H as (found & [w2 b2] & [Hf Hb]%inW_inv & H).
  rewrite find_dockerfile_eq in Hf. cbn [fst snd] in Hf, Hb. injection Hf as <- <-. subst b2.
  change (dockerfile_of (w_fs (calc_msg image w)) (w_cwd (calc_msg image w)) (search_paths b) image)
    with (dockerfile_of (w_fs w) (w_cwd w) (search_paths b) image) in H.
  destruct (dockerfile_of _ _ _ image) as [p|] eqn:Ep; [|by apply M_bind_inv in H as (? & ? & _ & H)].
  rewrite (M_bind_ok _ _ _ (realpath (w_fs w) (w_cwd w) p) (calc_msg image w, b)) in H by done.
  apply M_bind_inv in H as (items & s1 & Hi & H). unfold lift_result in Hi.
  destruct (dep_items d) as [items'|] eqn:Ei; simplify_eq.
  assert (conf_deps conf = Ok items) as -> by (unfold conf_deps; by rewrite Ed).
  apply M_bind_inv in H as (args & [w' b'] & El & H).
  assert (stable (calc_msg image w, b) (w', b')) as ([(_ & Hfs & Hcwd & _) _] & _ & _).
  { eapply (always_for_acc stable); [|exact El]. intros acc [a dep]. frame. apply stable_calculate_tag. }
  apply M_bind_inv in H as (sha & s2 & [[content Hr]%calculate_sha256_inv _]%inW_inv & _).
  cbn [fst] in Hr, Hfs, Hcwd. rewrite Hfs, Hcwd in Hr.
  change (read_file (w_fs w) (w_cwd w) (realpath (w_fs w) (w_cwd w) p) = Ok content) in Hr.
  rewrite Hr. eauto.
Qed.

(** The method returns the image's tag and leaves a correct memo table. *)
Lemma calculate_tag_sound frames : sound_call (calculate_tag_for_image frames).
Proof.
  induction frames as [|frames IH]; intros image [w b] tag s' Hm H; [done|].
  split; [by eapply stable_calculate_tag|].
  destruct (generated_tags b !! image) as [tag0|] eqn:Eg.
  { cbn [calculate_tag_for_image] in H. rewrite (M_bind_ok _ _ _ b (w, b)) in H by done.
    rewrite Eg in H. unfold mret, M_ret in H. simplify_eq. split_and!; [done|by apply Hm|done]. }
  destruct (calculate_tag_source _ _ _ _ _ _ Eg H) as [[content deps] Hs].
  rewrite (calculate_tag_step _ _ _ _ _ _ Eg Hs) in H.
  destruct (dep_loop _ _ _ _) as [[args|e] [w' b']] eqn:El; [|done].
  apply (dep_loop_sound _ IH) in El as (Hst & Hm1 & tags & Htags & ->); [|by eapply memo_ok_fs].
  injection H as <- <-. cbn [app fst snd] in *.
  assert (tag_of w b image (tag_from b image content deps tags)) as Ht by by apply TagOf_intro.
  split_and!; [|exact Ht|by cbn; rewrite lookup_insert_eq].
  eapply memo_ok_fs; [..|apply memo_ok_set_tag; [exact Hm1|]]; [done..|].
  by apply (stable_tag_of (calc_msg image w, b) (w', b')).
Qed.

(** ** It returns *)

(** [ready n s image]: a call with [n] frames returns. *)
Definition returns (n : nat) (s : B) (image : string) : Prop :=
  ∃ tag s', calculate_tag_for_image n image s = (Ok tag, s').

Lemma dep_loop_total n items : ∀ acc s, memo_ok s →
  Forall (λ d, ∀ s', stable s s' → memo_ok s' → returns n s' d.2) items →
  ∃ out s', dep_loop (calculate_tag_for_image n) acc items s = (Ok out, s').
Proof.
  induction items as [|[a dep] items IH]; intros acc s Hm Hf; [by eexists _, _|].
  apply Forall_cons in Hf as [Hd Hf].
  destruct (Hd s) as (t & s1 & Ht); [reflexivity|done|]. cbn in Ht.
  pose proof (calculate_tag_sound n dep s t s1 Hm Ht) as (Hst & Hm1 & _).
  destruct (IH (acc ++ [arg_str (a, t)]) s1 Hm1) as (out & s' & Hout).
  { eapply Forall_impl; [exact Hf|]. intros d Hd' s' Hs'. apply Hd'. by etrans. }
  exists out, s'. unfold dep_loop. cbn [for_acc].
  rewrite (M_bind_ok _ _ _ (acc ++ [arg_str (a, t)]) s1); [done|].
  by rewrite (M_bind_ok _ _ _ _ _ Ht).
Qed.

Lemma returns_step n s image content deps : memo_ok s →
  image_source (w_fs s.1) (w_cwd s.1) s.2 image = Some (content, deps) →
  Forall (λ d, ∀ s', stable s s' → memo_ok s' → returns n s' d.2) deps →
  returns (S n) s image.
Proof.
  destruct s as [w b]. intros Hm Hs Hd. cbn [fst snd] in Hs. unfold returns.
  destruct (generated_tags b !! image) as [tag0|] eqn:Eg.
  { cbn [calculate_tag_for_image]. rewrite (M_bind_ok _ _ _ b (w, b)) by done. rewrite Eg. by eexists _, _. }
  rewrite (calculate_tag_step _ _ _ _ _ _ Eg Hs).
  destruct (dep_loop_total n deps [] (calc_msg image w, b)) as (out & [w' b'] & ->); [by eapply memo_ok_fs| |by eexists _, _].
  eapply Forall_impl; [exact Hd|]. intros d Hd' s' Hs'. apply Hd'. etrans; [|exact Hs'].
  split_and!; [apply quiet_log_event|done|done].
Qed.

Lemma returns_memo n s image : image ∈ dom (generated_tags s.2) → returns (S n) s image.
Proof.
  intros [tag Ht]%elem_of_dom. exists tag, s. cbn [calculate_tag_for_image].
  destruct s as [w b]. rewrite (M_bind_ok _ _ _ b (w, b)) by done. cbn in Ht. by rewrite Ht.
Qed.

(** With the dependencies' tags recorded, two frames are enough. *)
Lemma calculate_tag_two_frames n s image content deps : memo_ok s →
  image_source (w_fs s.1) (w_cwd s.1) s.2 image = Some (content, deps) →
  list_to_set deps.*2 ⊆ dom (generated_tags s.2) → returns (S (S n)) s image.
Proof.
  intros Hm Hs Hsub. eapply returns_step; [done..|]. apply Forall_forall. intros d Hd s' (_ & _ & Hdom) _.
  apply returns_memo, Hdom, Hsub, elem_of_list_to_set, list_elem_of_fmap. eauto.
Qed.

(** An image with a tag gets it, from any state, given frames enough. *)
Lemma calculate_tag_complete image tag s : tag_of s.1 s.2 image tag →
  ∃ n, ∀ m, n ≤ m → ∀ s', stable s s' → memo_ok s' → returns m s' image.
Proof.
  unfold tag_of. induction 1 as [image content deps tags Hs Hd] using TagOf_ind'.
  assert (∃ n, ∀ m, n ≤ m → ∀ s', stable s s' → memo_ok s' →
    Forall (λ d, returns m s' d.2) deps) as [n Hn].
  { clear Hs. induction Hd as [|d t deps tags [_ [n1 H1]] _ [n2 H2]]; [by exists 0|].
    exists (n1 `max` n2). intros m Hm s' ??. constructor; [apply H1|apply H2]; auto; lia. }
  exists (S n). intros [|m] Hm s' Hst Hmo; [lia|].
  eapply returns_step; [done|by rewrite (stable_image_source s s')|].
  apply Forall_forall. intros d Hin s2 Hst2 Hm2.
  assert (stable s s2) as Hst3 by (by etrans).
  assert (Forall (λ d, returns m s2 d.2) deps) as Hall by (apply Hn; [lia|done..]).
  by rewrite Forall_forall in Hall; apply Hall.
Qed.
End refine_proofs.
