(* ===== verification/BuilderRun.v ===== *)
(** * Build order, tag lists and the build loop (docker/build.py)

    The order handed to the loops is topological, so the dependencies of an
    image have tags, and are present in docker, before the image is looked
    at; two stack frames are enough for the recursion; what is hashed into a tag
    is what docker is told to build with. *)

From stdpp Require Import base gmap sets list strings sorting relations.
From Stdlib Require Import ZArith Lia.
From S2P Require Import Prelude PyStr Fs World Json Config Graph Sha256 DockerOps Builder BuilderTags.

(** ** The graph of a configuration *)

Lemma full_graph_spec configs g : full_graph configs = Ok g →
  keys g = keys configs ∧
  ∀ name conf, assoc name configs = Some conf →
    ∃ deps, conf_deps conf = Ok deps ∧ deps_of g name = list_to_set deps.*2.
Proof.
  revert g. induction configs as [|[name conf] configs IH]; intros g H.
  { injection H as <-. split; [done|]. by intros ? ? ?. }
  cbn in H. apply result_bind_inv in H as (deps & Hd & H).
  apply result_bind_inv in H as (g' & Hg & H). injection H as <-.
  destruct (IH g' Hg) as [Hk Hdeps]. split; [unfold keys in *; cbn; by rewrite Hk|].
  intros n c. unfold deps_of. cbn. case_bool_decide as E; [|apply Hdeps].
  intros [= <-]. eauto.
Qed.

Section order.
Context {PS : Type} {EX : Exec PS} {SO : SetOrder}.
Local Abbreviation W := (World PS).
Local Abbreviation B := (World PS * DockerBuilder)%type.

(** Only messages: the object is not touched. *)
Definition silent (s s' : B) : Prop := quiet s.1 s'.1 ∧ s'.2 = s.2.

#[global] Instance silent_preorder : PreOrder silent.
Proof.
  split; [intros s; split; reflexivity|].
  intros x y z (?&?) (?&?). split; [by etrans|congruence].
Qed.

Lemma silent_inW {A} (m : M W A) : always quiet m → always silent (inW m).
Proof. intros Hm s r s' [H ?]%inW_inv. apply Hm in H. by split. Qed.

Lemma silent_self : always silent (@self PS).
Proof. apply always_gets. apply _. Qed.

Lemma silent_stable s s' : silent s s' → stable s s'.
Proof. intros [? Hb]. split; [done|]. by rewrite Hb. Qed.

Lemma quiet_subgraph targets configs : always quiet (get_dependency_subgraph (PS:=PS) targets configs).
Proof. unfold get_dependency_subgraph. frame. Qed.

#[local] Hint Resolve silent_inW silent_self quiet_subgraph : frame.

Lemma silent_build_order targets : always silent (get_build_order (PS:=PS) targets).
Proof. unfold get_build_order. frame. Qed.

(** The images a run is about: all of them, or what the targets need. *)
Definition wanted (g : graph) (targets : list string) (x : string) : Prop :=
  match targets with
  | [] => x ∈ keys g ∨ ∃ k, edge g k x
  | _ => reachable g (list_to_set targets) x ∧
         (x ∈ keys g ∨ ∃ k, reachable g (list_to_set targets) k ∧ edge g k x)
  end.

Definition needs_cycle (g : graph) (targets : list string) : Prop :=
  ¬ ∀ x, wanted g targets x → ¬ tc (edge g) x x.

Record build_order_ok (g : graph) (targets order : list string) : Prop := {
  bo_nodup : NoDup order;
  bo_topo : topo g order;
  bo_elem : ∀ x, x ∈ order ↔ wanted g targets x
}.

Lemma elem_of_nodes (g : graph) x : NoDup (keys g) → x ∈ nodes g ↔ x ∈ keys g ∨ ∃ k, edge g k x.
Proof.
  intros Hg. rewrite (proj2 (nodes_spec g)). split.
  - intros [?|(k & ps & Hk & Hx)]; [by left|]. right. exists k. unfold edge. by rewrite (deps_of_elem g k ps).
  - intros [?|(k & (ps & ? & ?)%edge_elem)]; eauto.
Qed.

(** A node on a cycle is what something it can reach depends on. *)
Lemma tc_last {A} (R : relation A) x y : tc R x y → ∃ k, rtc R x k ∧ R k y.
Proof.
  induction 1 as [x y H|x y z H _ (k & ? & ?)].
  - exists x. split; [reflexivity|done].
  - exists k. split; [by eapply rtc_l|done].
Qed.

Lemma wanted_cycle (g : graph) targets : NoDup (keys g) →
  (∀ x, wanted g targets x → ¬ tc (edge g) x x) ↔
  match targets with
  | [] => acyclic g
  | _ => ∀ x, reachable g (list_to_set targets) x → ¬ tc (edge g) x x
  end.
Proof.
  intros Hg. destruct targets as [|t ts]; cbn [wanted].
  - split; [|by intros H x _]. intros H x Hx. apply (H x); [|done]. right.
    apply tc_last in Hx as (k & _ & ?). eauto.
  - split; [|intros H x [? _]; by apply H]. intros H x Hr Hx. apply (H x); [|done].
    split; [done|]. right. apply tc_last in Hx as (k & Hk & ?). exists k. split; [|done].
    destruct Hr as (t' & ? & ?). exists t'. split; [done|]. by etrans.
Qed.

(** The order of a run: topological and exactly the wanted images, or, when a
    wanted image lies on a cycle, the end of the process. *)
Lemma get_build_order_spec targets (s : B) r s' : NoDup (keys (image_configs_map s.2)) →
  get_build_order targets s = (r, s') →
  match full_graph (image_configs_map s.2) with
  | Raise e => r = Raise e
  | Ok g =>
      match r with
      | Ok order => build_order_ok g targets order ∧ ∀ x, wanted g targets x → ¬ tc (edge g) x x
      | Raise e => e = SystemExit 1 ∧ needs_cycle g targets
      end
  end.
Proof.
  destruct s as [w b]. cbn [snd]. intros Hnd H. unfold get_build_order in H.
  rewrite (M_bind_ok _ _ _ b (w, b)) in H by done.
  destruct (full_graph (image_configs_map b)) as [g|e] eqn:Eg.
  2: { destruct targets.
       - rewrite (M_bind_raise _ _ _ e (w, b)) in H by done. by simplify_eq.
       - erewrite (M_bind_raise _ _ _ e) in H; [by simplify_eq|]. apply inW_ok.
         unfold get_dependency_subgraph. apply M_bind_raise. unfold lift_result. by rewrite Eg. }
  pose proof (full_graph_spec _ _ Eg) as [Hk _]. rewrite <- Hk in Hnd.
  unfold needs_cycle. pose proof (wanted_cycle g targets Hnd) as Hwc. destruct targets as [|t ts].
  - rewrite (M_bind_ok _ _ _ g (w, b)) in H by done.
    pose proof (static_order_spec g Hnd) as Hs. destruct (static_order g) as [order|e].
    + destruct Hs as (Hac & ? & Hel & ?). unfold inW, log_info, emit in H. minv.
      split; [|by apply Hwc]. split; [done..|]. intros x. by rewrite Hel, elem_of_nodes.
    + destruct Hs as [_ Hs]. unfold inW, log_error, emit in H. minv. split; [done|]. intros Hn. pose proof (proj1 Hwc Hn). contradiction.
  - destruct (subgraph_order_spec g (list_to_set (t :: ts))) as (res & Hres & Hspec).
    unfold get_dependency_subgraph, inW in H. unfold mbind at 1 in H. unfold M_bind in H.
    cbn [fst snd] in H.
    unfold mbind, M_bind, lift_result in H. rewrite Eg, Hres in H. destruct res as [order|e].
    + destruct Hspec as (? & ? & ? & ?). unfold log_info, emit in H. munfold. cbn [fst snd] in H. simplify_eq. split; [|by apply Hwc]. by split.
    + destruct Hspec as (-> & ?). unfold log_error, emit in H. munfold. cbn [fst snd] in H. simplify_eq. split; [done|]. intros Hn. pose proof (proj1 Hwc Hn). contradiction.
Qed.
End order.

#[export] Hint Resolve silent_inW silent_self quiet_subgraph silent_build_order : frame.

Section tags.
Context {PS : Type} {EX : Exec PS} {SO : SetOrder}.
Local Abbreviation W := (World PS).
Local Abbreviation B := (World PS * DockerBuilder)%type.

Lemma stable_configs (s s' : B) : stable s s' → image_configs_map s'.2 = image_configs_map s.2.
Proof. intros (_ & Hb & _). exact (f_equal image_configs_map Hb). Qed.

(** What the graph says of an image with a source. *)
Lemma source_deps f cwd b g image content deps :
  full_graph (image_configs_map b) = Ok g → image_source f cwd b image = Some (content, deps) →
  deps_of g image = list_to_set deps.*2.
Proof.
  intros [_ Hg]%full_graph_spec (conf & d & p & Hconf & Hd & Hi & _)%image_source_inv.
  destruct (Hg image conf Hconf) as (deps' & Hdeps & ->). unfold conf_deps in Hdeps.
  rewrite Hd in Hdeps. unfold mbind, result_bind in Hdeps. rewrite Hi in Hdeps. by injection Hdeps as <-.
Qed.

(** One step of a loop over a topological order: two frames are enough. *)
Lemma order_step n g order pre x post (s : B) :
  full_graph (image_configs_map s.2) = Ok g → topo g order → order = pre ++ x :: post →
  memo_ok s → list_to_set pre ⊆ dom (generated_tags s.2) →
  is_Some (image_source (w_fs s.1) (w_cwd s.1) s.2 x) →
  ∃ tag s', calculate_tag_for_image (S (S n)) x s = (Ok tag, s') ∧ stable s s' ∧ memo_ok s' ∧
    tag_of s.1 s.2 x tag ∧ generated_tags s'.2 !! x = Some tag ∧
    list_to_set (pre ++ [x]) ⊆ dom (generated_tags s'.2).
Proof.
  intros Hg Ht Ho Hm Hpre [[content deps] Hs].
  destruct (calculate_tag_two_frames n s x content deps) as (tag & s' & H); [done..| |].
  { rewrite <- (source_deps _ _ _ _ _ _ _ Hg Hs). etrans; [by eapply Ht|done]. }
  pose proof (calculate_tag_sound _ _ _ _ _ Hm H) as (Hst & Hm' & Htag & Hgt).
  exists tag, s'. split_and!; [done..|]. rewrite list_to_set_app_L. destruct Hst as (_ & _ & Hd).
  intros y Hy. apply elem_of_union in Hy as [Hy|Hy].
  - by apply Hd, Hpre.
  - apply elem_of_list_to_set, list_elem_of_singleton in Hy as ->. apply elem_of_dom. eauto.
Qed.

Lemma order_loop n g order : ∀ post pre (s : B),
  full_graph (image_configs_map s.2) = Ok g → topo g order → order = pre ++ post →
  memo_ok s → list_to_set pre ⊆ dom (generated_tags s.2) →
  (∀ x, x ∈ post → is_Some (image_source (w_fs s.1) (w_cwd s.1) s.2 x)) →
  ∃ s', for_each (λ x, calculate_tag_for_image (S (S n)) x ;; mret tt) post s = (Ok tt, s') ∧
    stable s s' ∧ memo_ok s' ∧ list_to_set order ⊆ dom (generated_tags s'.2).
Proof.
  induction post as [|x post IH]; intros pre s Hg Ht Ho Hm Hpre Hs.
  { exists s. rewrite Ho, app_nil_r. split_and!; done. }
  destruct (order_step n g order pre x post s) as (tag & s1 & H1 & Hst1 & Hm1 & _ & _ & Hd1); [done..|apply Hs; left|].
  destruct (IH (pre ++ [x]) s1) as (s2 & H2 & Hst2 & Hm2 & Hd2); [| |by rewrite <- app_assoc|..]; try done.
  { by rewrite (stable_configs s s1). }
  { intros y Hy. rewrite (stable_image_source s s1) by done. apply Hs. by right. }
  exists s2. split_and!; [|by etrans|done..]. cbn [for_each].
  rewrite (M_bind_ok _ _ _ tt s1); [done|]. by rewrite (M_bind_ok _ _ _ _ _ H1).
Qed.

Lemma map_generated_tag order (s : B) : list_to_set order ⊆ dom (generated_tags s.2) →
  ∃ tags, map_m generated_tag order s = (Ok tags, s) ∧
    Forall2 (λ x t, generated_tags s.2 !! x = Some t) order tags.
Proof.
  induction order as [|x order IH]; intros Hd; [by exists []|].
  destruct IH as (tags & Hm & Hf); [set_solver|].
  assert (x ∈ dom (generated_tags s.2)) as [t Ht]%elem_of_dom by set_solver.
  exists (t :: tags). split; [|by constructor]. cbn [map_m]. destruct s as [w b].
  rewrite (M_bind_ok _ _ _ t (w, b)); [by rewrite (M_bind_ok _ _ _ _ _ Hm)|].
  unfold generated_tag. rewrite (M_bind_ok _ _ _ b (w, b)) by done. cbn in Ht. by rewrite Ht.
Qed.

(** The tag list of a run, when every image of the order has its files. *)
Lemma calculate_tags_total n targets (s : B) order s1 :
  NoDup (keys (image_configs_map s.2)) → memo_ok s →
  get_build_order targets s = (Ok order, s1) →
  (∀ x, x ∈ order → is_Some (image_source (w_fs s.1) (w_cwd s.1) s.2 x)) →
  ∃ tags s', calculate_tags (S (S n)) targets s = (Ok tags, s') ∧
    Forall2 (λ x t, tag_of s.1 s.2 x t) order tags ∧ stable s s'.
Proof.
  intros Hnd Hm Ho Hs. pose proof (silent_build_order _ _ _ _ Ho) as Hsil.
  pose proof (get_build_order_spec _ _ _ _ Hnd Ho) as Hspec.
  destruct (full_graph (image_configs_map s.2)) as [g|e] eqn:Eg; [|done]. destruct Hspec as [[_ Ht _] _].
  pose proof (silent_stable _ _ Hsil) as Hst1. destruct (Hsil) as [Hq Hb].
  destruct (order_loop n g order order [] s1) as (s2 & H2 & Hst2 & Hm2 & Hd2); [by rewrite Hb|done..| | | |].
  { intros x t Hx. apply (stable_tag_of s s1); [done|]. apply Hm. by rewrite <- Hb. }
  { set_solver. }
  { intros x Hx. rewrite (stable_image_source s s1) by done. by apply Hs. }
  destruct (map_generated_tag order s2 Hd2) as (tags & Htags & Hf).
  exists tags, s2. split_and!; [|..|by etrans].
  - unfold calculate_tags. rewrite (M_bind_ok _ _ _ _ _ Ho), (M_bind_ok _ _ _ _ _ H2). done.
  - eapply Forall2_impl; [exact Hf|]. intros x t Hx%Hm2.
    by apply (stable_tag_of_inv s s2); [etrans|].
Qed.
End tags.

(** ** The build loop *)

(** [--build-arg NAME=VALUE] *)
Definition build_flag (a : string * string) : list string := ["--build-arg"; arg_str a].

Lemma flags_of_pairs (l : list (string * string)) :
  flags_of (concat (map (λ a, [a.1; a.2]) l)) = concat (map build_flag l).
Proof.
  unfold flags_of.
  assert (build_arg_flags (concat (map (λ a, [a.1; a.2]) l)) = Ok (concat (map build_flag l))) as ->; [|done].
  induction l as [|[n v] l IH]; [done|]. cbn in *. by rewrite IH.
Qed.

Section build_loop.
Context {PS : Type} {EX : Exec PS} {SO : SetOrder} {DS : DockerSpec PS}.
Local Abbreviation W := (World PS).
Local Abbreviation B := (World PS * DockerBuilder)%type.

(** During a build: files, environment and configuration stay, images and
    tags are only added. *)
Definition builds (s s' : B) : Prop :=
  w_env s'.1 = w_env s.1 ∧ w_fs s'.1 = w_fs s.1 ∧ w_cwd s'.1 = w_cwd s.1 ∧
  locals s.1 ⊆ locals s'.1 ∧ strip_tags s'.2 = strip_tags s.2 ∧
  dom (generated_tags s.2) ⊆ dom (generated_tags s'.2).

#[global] Instance builds_preorder : PreOrder builds.
Proof.
  split; [intros s; split_and!; reflexivity|].
  intros x y z (?&?&?&?&?&?) (?&?&?&?&?&?). split_and!; [congruence..|by etrans|congruence|by etrans].
Qed.

Lemma stable_builds (s s' : B) : stable s s' → builds s s'.
Proof.
  intros ([(?&?&?&Hp) _] & ? & ?). split_and!; try done. unfold locals. by rewrite Hp.
Qed.

Lemma builds_stable {A} (m : M B A) : always stable m → always builds m.
Proof. intros Hm s r s' H. by eapply stable_builds, Hm. Qed.

Lemma builds_inW_grows {A} tag (m : M W A) : always (grows tag) m → always builds (inW m).
Proof.
  intros Hm s r s' [H Hb]%inW_inv. apply Hm in H as (?&?&?&?&_). unfold builds. by rewrite Hb.
Qed.

Lemma stable_generated_tag x : always stable (generated_tag (PS:=PS) x).
Proof. unfold generated_tag. frame. Qed.

Lemma always_map_m {A C} (R : relation B) `{!PreOrder R} (f : A → M B C) l :
  (∀ x, always R (f x)) → always R (map_m f l).
Proof. intros Hf. induction l as [|x l IH]; cbn; frame. Qed.

Lemma stable_map_m {A C} (f : A → M B C) l : (∀ x, always stable (f x)) → always stable (map_m f l).
Proof. apply (always_map_m stable). Qed.

#[local] Hint Resolve stable_generated_tag stable_calculate_tag : frame.

Lemma builds_build_one n nc lf x : always builds (build_one (PS:=PS) n nc lf x).
Proof.
  unfold build_one.
  repeat (apply (always_bind builds); [|intros ?]); try (apply builds_stable; by frame).
  destruct a3 as [p|]; [|apply builds_stable; by frame].
  apply (always_bind builds); [|intros ?]; [apply builds_stable; by frame|].
  apply (always_bind builds); [|intros ?]; [apply builds_stable; by frame|].
  apply (always_bind builds); [|intros ?].
  { apply builds_stable, stable_map_m. intros [a6 d]. frame. }
  apply (always_bind builds); [|intros ?]; [|apply builds_stable; by frame].
  eapply builds_inW_grows, grows_manage.
Qed.

Lemma builds_tag_of (s s' : B) x t : builds s s' → tag_of s.1 s.2 x t ↔ tag_of s'.1 s'.2 x t.
Proof.
  intros (_ & Hfs & Hcwd & _ & Hb & _). unfold tag_of. rewrite Hfs, Hcwd.
  split; by apply TagOf_strip.
Qed.

(** The dependencies' tags, read back from the memo table. *)
Lemma map_dep_args deps (s : B) out s' :
  map_m (λ '(arg_name, dep), t ← generated_tag dep; mret [arg_name; t]) deps s = (Ok out, s') →
  s' = s ∧ ∃ tags, Forall2 (λ d t, generated_tags s.2 !! d.2 = Some t) deps tags ∧
    out = map (λ a, [a.1; a.2]) (zip_with (λ d t, (d.1, t)) deps tags).
Proof.
  revert out. induction deps as [|[a d] deps IH]; intros out H; cbn [map_m] in H.
  { unfold mret, M_ret in H. simplify_eq. split; [done|]. by exists []. }
  apply M_bind_inv in H as (y & s1 & (t & s2 & Ht & Hy)%M_bind_inv & H).
  unfold mret, M_ret in Hy. simplify_eq.
  unfold generated_tag in Ht. destruct s as [w b].
  rewrite (M_bind_ok _ _ _ b (w, b)) in Ht by done.
  destruct (generated_tags b !! d) as [t'|] eqn:Et; [|done]. unfold mret, M_ret in Ht. simplify_eq.
  apply M_bind_inv in H as (ys & s1 & Hys & H). unfold mret, M_ret in H. simplify_eq.
  apply IH in Hys as (-> & tags & Hf & ->). split; [done|]. exists (t :: tags). split; [by constructor|done].
Qed.

(** The plan for one image: the docker commands its pass may run, the tag and
    the build command being made of the same arguments. *)
Definition image_plan (s : B) (no_cache local_flag : bool) (x tag : string) (plan : list (list string)) : Prop :=
  ∃ p content deps dep_tags here there local_mode,
    let pairs := zip_with (λ d t, (d.1, t)) deps dep_tags ++ extra_args s.2 x in
    let file := realpath (w_fs s.1) (w_cwd s.1) p in
    dockerfile_of (w_fs s.1) (w_cwd s.1) (search_paths s.2) x = Some p ∧
    image_source (w_fs s.1) (w_cwd s.1) s.2 x = Some (content, deps) ∧
    Forall2 (λ d t, tag_of s.1 s.2 d.2 t) deps dep_tags ∧
    tag = get_image_tag s.2 x (sha_of content (merge_sort String.le (map arg_str pairs))) ∧
    (local_flag = true → local_mode = true) ∧
    plan = docker_plan tag
             (build_cmd tag (str_path file) (concat (map build_flag pairs)) (str_path (dirname file)) no_cache)
             no_cache here (bool_decide (repo s.2 = "") || local_mode) there.

Lemma tag_from_pairs b x content deps tags :
  tag_from b x content deps tags =
  get_image_tag b x (sha_of content (merge_sort String.le
    (map arg_str (zip_with (λ d t, (d.1, t)) deps tags ++ extra_args b x)))).
Proof.
  unfold tag_from. rewrite map_app. do 4 f_equal. revert tags.
  induction deps as [|d deps IH]; intros [|t tags]; cbn; [done..|]. by rewrite IH.
Qed.

Lemma memo_tags (s : B) (deps : list (string * string)) tags1 tags2 : memo_ok s →
  Forall2 (λ d t, generated_tags s.2 !! d.2 = Some t) deps tags1 →
  Forall2 (λ d t, tag_of s.1 s.2 d.2 t) deps tags2 → tags1 = tags2.
Proof.
  intros Hm H1. revert tags2. induction H1 as [|d t deps tags1 Ht _ IH]; intros tags2 H2;
    inversion H2; subst; [done|]. f_equal; [|auto]. by eapply TagOf_functional; [apply Hm|].
Qed.

(** The shape of a pass that returned. *)
Lemma build_one_inv n nc lf x (s : B) tag s' : build_one n nc lf x s = (Ok tag, s') →
  ∃ w1 b1 conf p deps tags local_mode,
    calculate_tag_for_image n x s = (Ok tag, (w1, b1)) ∧
    assoc x (image_configs_map b1) = Some conf ∧ conf_deps conf = Ok deps ∧
    dockerfile_of (w_fs w1) (w_cwd w1) (search_paths b1) x = Some p ∧
    Forall2 (λ d t, generated_tags b1 !! d.2 = Some t) deps tags ∧
    (lf = true → local_mode = true) ∧ s'.2 = b1 ∧
    let file := realpath (w_fs w1) (w_cwd w1) p in
    manage_docker_image tag (str_path file)
      (concat (map (λ a, [a.1; a.2]) (zip_with (λ d t, (d.1, t)) deps tags ++ extra_args b1 x)))
      (str_path (dirname file)) local_mode nc (repo b1) w1 = (Ok tt, s'.1).
Proof.
  intros H. unfold build_one in H. apply M_bind_inv in H as (tag0 & [w1 b1] & Ht & H).
  rewrite (M_bind_ok _ _ _ b1 (w1, b1)) in H by done.
  apply M_bind_inv in H as (conf & s2 & Hc & H). unfold lift_result in Hc. injection Hc as Hc <-.
  unfold dict_getitem in Hc. destruct (assoc x _) as [conf'|] eqn:Econf; [|done]. injection Hc as ->.
  apply M_bind_inv in H as (lc & s2 & Hl & H).
  assert (s2 = (w1, b1) ∧ (lf = true → truthy (default (JBool false) lc) = true)) as [-> Hlm].
  { destruct lf; [unfold mret, M_ret in Hl; by simplify_eq|]. unfold lift_result in Hl. by injection Hl. }
  apply M_bind_inv in H as (found & [w2 b2] & [Hf Hb]%inW_inv & H).
  rewrite find_dockerfile_eq in Hf. cbn [fst snd] in Hf, Hb. injection Hf as <- <-. subst b2.
  destruct (dockerfile_of _ _ _ x) as [p|] eqn:Ep; [|by apply M_bind_inv in H as (? & ? & _ & H)].
  apply M_bind_inv in H as (file & [w2 b2] & [Hf Hb]%inW_inv & H).
  unfold realpath_m, gets in Hf. cbn [fst snd] in Hf, Hb. injection Hf as <- <-. subst b2.
  apply M_bind_inv in H as (deps & s2 & Hd & H). unfold lift_result in Hd. injection Hd as Hd <-.
  apply M_bind_inv in H as (dep_args & s2 & (-> & tags & Hmt & ->)%map_dep_args & H).
  rewrite <- concat_app, <- map_app in H.
  apply M_bind_inv in H as ([] & [w3 b3] & [Hman Hb]%inW_inv & H). cbn [fst snd] in Hman, Hb.
  unfold mret, M_ret in H. injection H as -> <-. subst b3.
  by exists w1, b1, conf, p, deps, tags, (truthy (default (JBool false) lc)).
Qed.

(** One pass that returned: the image's tag is in docker, and the commands were
    those of its plan. *)
Lemma build_one_ok n nc lf x (s : B) tag s' : memo_ok s → build_one n nc lf x s = (Ok tag, s') →
  builds s s' ∧ memo_ok s' ∧ tag_of s.1 s.2 x tag ∧ tag ∈ locals s'.1 ∧
  generated_tags s'.2 !! x = Some tag ∧
  ∃ plan, image_plan s nc lf x tag plan ∧ ran s'.1 = ran s.1 ++ plan.
Proof.
  intros Hm H. pose proof (builds_build_one _ _ _ _ _ _ _ H) as Hbs. split; [done|].
  apply build_one_inv in H as (w1 & b1 & conf & p & deps & tags & lm & Ht & Hconf & Hd & Hp & Hmt & Hlm & Hb & Hman).
  pose proof (calculate_tag_sound _ _ _ _ _ Hm Ht) as (Hst & Hm1 & Htag & Hgt).
  destruct s' as [w3 b3]. cbn [fst snd] in *. subst b3.
  pose proof (grows_manage _ _ _ _ _ _ _ _ _ _ Hman) as (_ & Hfs & Hcwd & _ & _).
  apply manage_docker_image_ok, manage_body_ok in Hman as [Hin Hran]. rewrite flags_of_pairs in Hran.
  split_and!; [by apply (memo_ok_fs w1)|done..|].
  destruct s as [w b]. destruct (Hst) as ([(_ & Hfs1 & Hcwd1 & _) Hran1] & Hstrip & _). cbn [fst snd] in *.
  eexists; split; [|by rewrite Hran, Hran1].
  assert (TagOf (w_fs w) (w_cwd w) b x tag) as HT by done.
  inversion HT as [? content deps' dep_tags Hs Hdt]; subst.
  pose proof (image_source_inv _ _ _ _ _ _ Hs) as (conf' & d & p' & Hconf' & Hd1 & Hd2 & Hp' & _).
  assert (conf' = conf) as -> by (pose proof (stable_configs _ _ Hst) as E; cbn in E; congruence).
  assert (deps' = deps) as ->.
  { unfold conf_deps in Hd. rewrite Hd1 in Hd. unfold mbind, result_bind in Hd. congruence. }
  assert (tags = dep_tags) as ->.
  { eapply (memo_tags (w1, b1)); [done..|]. eapply Forall2_impl; [exact Hdt|].
    intros d' t' Hd'. by apply (stable_tag_of _ _ _ _ Hst). }
  assert (search_paths b1 = search_paths b) as Esp by exact (f_equal search_paths Hstrip).
  assert (repo b1 = repo b) as -> by exact (f_equal repo Hstrip).
  assert (extra_args b1 x = extra_args b x) as ->
    by exact (f_equal (λ b, extra_args b x) Hstrip).
  rewrite Hfs1, Hcwd1 in *. rewrite Esp in Hp.
  exists p, content, deps, dep_tags, (bool_decide (tag_from b x content deps dep_tags ∈ locals w1)),
    (bool_decide (tag_from b x content deps dep_tags ∈ remotes w1)), lm.
  cbn. split_and!; [done..|by rewrite tag_from_pairs|done|done].
Qed.

Lemma image_plan_builds (s s' : B) nc lf x tag plan : builds s s' →
  image_plan s' nc lf x tag plan → image_plan s nc lf x tag plan.
Proof.
  destruct s as [w b], s' as [w' b']. intros Hbs (p & content & deps & tags & here & there & lm & H).
  exists p, content, deps, tags, here, there, lm.
  destruct (Hbs) as (_ & Hfs & Hcwd & _ & Hb & _). cbn [fst snd] in *. cbn zeta in *.
  assert (search_paths b' = search_paths b) as Esp by exact (f_equal search_paths Hb).
  assert (repo b' = repo b) as Er by exact (f_equal repo Hb).
  assert (extra_args b' x = extra_args b x) as Ee by exact (f_equal (λ b, extra_args b x) Hb).
  assert (∀ sha, get_image_tag b' x sha = get_image_tag b x sha) as Et
    by (intros sha; exact (f_equal (λ b, get_image_tag b x sha) Hb)).
  assert (image_source (w_fs w) (w_cwd w) b' x = image_source (w_fs w) (w_cwd w) b x) as Es
    by exact (f_equal (λ b, image_source (w_fs w) (w_cwd w) b x) Hb).
  rewrite Hfs, Hcwd, Esp, Er, Ee, Et, Es in H. destruct H as (?&?&Hd&?&?&?). split_and!; try done.
  eapply Forall2_impl; [exact Hd|]. intros d t. apply (builds_tag_of _ _ _ _ Hbs).
Qed.

(** A pass of the loop that did not exit. *)
Lemma build_step_ok n pt target nc lf x (s s' : B) :
  build_step n pt target nc lf x s = (Ok tt, s') → ∃ tag, build_one n nc lf x s = (Ok tag, s').
Proof.
  unfold build_step. intros (tag & s1 & H1 & H2)%M_bind_inv. exists tag. rewrite H1.
  destruct (pt && _); [|by unfold when, mret, M_ret in H2; simplify_eq].
  by apply M_bind_inv in H2 as (? & ? & _ & H2).
Qed.

(** What the passes over [images] leave, when all return. *)
Definition processed (s s' : B) (nc lf : bool) (images : list string) : Prop :=
  builds s s' ∧ memo_ok s' ∧
  ∃ plans : list (string * list (list string)),
    Forall2 (λ x tp, tag_of s.1 s.2 x tp.1 ∧ tp.1 ∈ locals s'.1 ∧ image_plan s nc lf x tp.1 tp.2)
      images plans ∧
    ran s'.1 = ran s.1 ++ concat plans.*2.

Lemma build_loop_ok n pt target nc lf images : ∀ s s' : B, memo_ok s →
  for_each (build_step n pt target nc lf) images s = (Ok tt, s') → processed s s' nc lf images.
Proof.
  induction images as [|x images IH]; intros s s' Hm H; cbn [for_each] in H.
  { unfold mret, M_ret in H. simplify_eq. split; [reflexivity|]. split; [done|].
    exists []. split; [done|]. by rewrite app_nil_r. }
  apply M_bind_inv in H as ([] & s1 & [tag Hx]%build_step_ok & H).
  apply build_one_ok in Hx as (Hb1 & Hm1 & Ht & Hin & _ & plan & Hplan & Hr); [|done].
  apply IH in H as (Hb2 & Hm2 & plans & Hf & Hr2); [|done].
  split; [by etrans|]. split; [done|]. exists ((tag, plan) :: plans). split.
  - constructor; [split_and!; [done| |done]; by apply Hb2|].
    eapply Forall2_impl; [exact Hf|]. intros y tp (Hy & ? & Hp). split_and!; [|done|].
    + by apply (builds_tag_of _ _ _ _ Hb1).
    + by eapply image_plan_builds.
  - rewrite Hr2, Hr. cbn. by rewrite <- app_assoc.
Qed.

Lemma processed_elem (s s' : B) nc lf images x : processed s s' nc lf images → x ∈ images →
  ∃ tag, tag_of s.1 s.2 x tag ∧ tag ∈ locals s'.1.
Proof.
  intros (_ & _ & plans & Hf & _) Hx. apply list_elem_of_lookup in Hx as [i Hi].
  eapply Forall2_lookup_l in Hf as ([tag plan] & _ & Ht & Hin & _); [|done]. eauto.
Qed.

(** The loop of [build_images] from the order it computed. *)
Lemma build_images_inv n targets nc lf (s s' : B) : 
  build_images n targets false nc lf s = (Ok tt, s') →
  ∃ order s1 s2, get_build_order targets s = (Ok order, s1) ∧
    for_each (build_step n false None nc lf) order s1 = (Ok tt, s2) ∧ silent s2 s'.
Proof.
  unfold build_images. intros (order & s1 & Ho & H)%M_bind_inv.
  rewrite (M_bind_ok _ _ _ None s1) in H by done.
  apply M_bind_inv in H as ([] & s2 & Hl & H). exists order, s1, s2. split_and!; [done..|].
  assert (always silent (when (negb false) (match targets with
     | [] => inW (PS:=PS) (log_info "All Docker images processed successfully.")
     | _ => inW (log_info ("Targeted Docker images " +:+ join ", " targets
                           +:+ " and dependencies processed successfully."))
     end))) as Hs by frame.
  by apply Hs in H.
Qed.
End build_loop.

(** ** [--print-tag] *)

(** Anything but the exit that reports success. *)
Definition not_success (e : exn) : Prop := e ≠ SystemExit 0.

Lemma py_getitem_exn v k e : py_getitem v k = Raise e → is_Exception e = true.
Proof. unfold py_getitem. intros H. by repeat (case_match; simplify_eq). Qed.

Lemma dict_getitem_exn {A} (d : list (string * A)) k e : dict_getitem d k = Raise e → is_Exception e = true.
Proof. unfold dict_getitem. intros H. by repeat (case_match; simplify_eq). Qed.

Lemma py_get_exn v k e : py_get v k = Raise e → is_Exception e = true.
Proof. unfold py_get. intros H. by repeat (case_match; simplify_eq). Qed.

Lemma str_values_exn l e : str_values l = Raise e → is_Exception e = true.
Proof.
  induction l as [|[k v] l IH]; [done|]. cbn. destruct v; try (by intros [= <-]).
  destruct (str_values l); cbn; [done|]. intros [= ->]. by apply IH.
Qed.

Lemma dep_items_exn v e : dep_items v = Raise e → is_Exception e = true.
Proof.
  unfold dep_items, py_items. destruct v; cbn; try (by intros [= <-]). apply str_values_exn.
Qed.

Lemma conf_deps_exn v e : conf_deps v = Raise e → is_Exception e = true.
Proof.
  unfold conf_deps. destruct (py_getitem v "deps") as [d|e'] eqn:E; unfold mbind, result_bind.
  - apply dep_items_exn.
  - intros [= ->]. by eapply py_getitem_exn.
Qed.

Lemma exception_not_success e : is_Exception e = true → not_success e.
Proof. by intros H ->. Qed.

Section print_tag.
Context {PS : Type} {EX : Exec PS} {SO : SetOrder} {DS : DockerSpec PS}.
Local Abbreviation W := (World PS).
Local Abbreviation B := (World PS * DockerBuilder)%type.

Lemma raises_inW {A} P (m : M W A) : raises P m → raises P (inW m).
Proof. intros Hm s e s' [H _]%inW_inv. by eapply Hm. Qed.

Lemma raises_lift_exception {A} (r : result A) :
  (∀ e, r = Raise e → is_Exception e = true) → raises not_success (S:=B) (lift_result r).
Proof. intros H. apply raises_lift. intros e He. by apply exception_not_success, H. Qed.

Lemma raises_find_dockerfile P paths name : raises P (find_dockerfile (PS:=PS) paths name).
Proof. induction paths; cbn; unfold exists_p; exc. Qed.

Lemma raises_calculate_sha256 p args : raises not_success (calculate_sha256 (PS:=PS) p args).
Proof.
  unfold calculate_sha256. exc. intros w e w' [H _]%read_text_inv.
  apply read_file_raise in H. by destruct e.
Qed.

#[local] Hint Resolve raises_inW raises_find_dockerfile raises_calculate_sha256 raises_lift_exception
  py_getitem_exn dict_getitem_exn py_get_exn dep_items_exn conf_deps_exn raises_log_info raises_log_error : exc.

Lemma raises_self P : raises P (@self PS).
Proof. apply raises_gets. Qed.
Lemma raises_update_self P f : raises P (update_self (PS:=PS) f).
Proof. apply raises_modify. Qed.
Lemma raises_realpath P p : raises P (realpath_m (PS:=PS) p).
Proof. apply raises_gets. Qed.

#[local] Hint Resolve raises_self raises_update_self raises_realpath : exc.

Lemma raises_calculate_tag n x : raises not_success (calculate_tag_for_image (PS:=PS) n x).
Proof.
  revert x. induction n as [|n IH]; intros x; cbn; [by apply raises_raise|]. exc.
  by apply raises_sys_exit.
Qed.

Lemma raises_generated_tag x : raises not_success (generated_tag (PS:=PS) x).
Proof. unfold generated_tag. exc. by apply raises_raise. Qed.

Lemma raises_map_m {A C} P (f : A → M B C) l : (∀ x, raises P (f x)) → raises P (map_m f l).
Proof. intros Hf. induction l as [|x l IH]; cbn; exc. Qed.

#[local] Hint Resolve raises_calculate_tag raises_generated_tag : exc.

Lemma raises_build_one n nc lf x : raises not_success (build_one (PS:=PS) n nc lf x).
Proof.
  unfold build_one. exc.
  - apply raises_map_m. intros [? d]. exc.
  - apply raises_inW. intros w e w' [(c & -> & Hc)|[->|[-> _]]]%raises_manage; [|done..].
    intros [= ->]. done.
  - by apply raises_sys_exit.
Qed.

(** *** Nothing else is printed *)

Definition same_out (s s' : B) : Prop := same_stdout s.1 s'.1.

#[local] Instance same_out_preorder : PreOrder same_out.
Proof. split; [intros s; unfold same_out; reflexivity|]. unfold same_out. intros x y z ??. by etrans. Qed.

Lemma same_out_inW {A} (m : M W A) : always same_stdout m → always same_out (inW m).
Proof. intros Hm s r s' [H _]%inW_inv. by apply Hm in H. Qed.

Lemma same_out_self : always same_out (@self PS).
Proof. apply always_gets. apply _. Qed.

Lemma same_out_update f : always same_out (update_self (PS:=PS) f).
Proof. intros s r s' H. unfold update_self in H. minv. unfold same_out. reflexivity. Qed.

Lemma same_stdout_find paths name : always same_stdout (find_dockerfile (PS:=PS) paths name).
Proof. induction paths; cbn; unfold exists_p; frame. Qed.

Lemma same_stdout_realpath p : always same_stdout (realpath_m (PS:=PS) p).
Proof. apply always_gets. apply _. Qed.

Lemma same_stdout_sha p args : always same_stdout (calculate_sha256 (PS:=PS) p args).
Proof.
  unfold calculate_sha256. frame. intros w r w' [_ ->]%read_text_inv. reflexivity.
Qed.

#[local] Hint Resolve same_out_inW same_out_self same_out_update same_stdout_find same_stdout_realpath
  same_stdout_sha same_stdout_manage : frame.

Lemma same_out_calculate_tag n x : always same_out (calculate_tag_for_image (PS:=PS) n x).
Proof. revert x. induction n as [|n IH]; intros x; cbn; [by apply (always_raise same_out)|]. frame. Qed.

Lemma same_out_generated_tag x : always same_out (generated_tag (PS:=PS) x).
Proof. unfold generated_tag. frame. Qed.

#[local] Hint Resolve same_out_calculate_tag same_out_generated_tag : frame.

Lemma same_out_build_one n nc lf x : always same_out (build_one (PS:=PS) n nc lf x).
Proof.
  unfold build_one. frame. apply (always_map_m same_out). intros [? d]. frame.
Qed.

Lemma same_out_build_order targets : always same_out (get_build_order (PS:=PS) targets).
Proof.
  unfold get_build_order.
  assert (∀ configs, always same_stdout (get_dependency_subgraph (PS:=PS) targets configs))
    by (intros; unfold get_dependency_subgraph; frame).
  frame.
Qed.

Lemma build_step_other n t nc lf x (s : B) r s1 : x ≠ t →
  build_one n nc lf x s = (r, s1) →
  build_step n true (Some t) nc lf x s = (match r with Ok _ => Ok tt | Raise e => Raise e end, s1).
Proof.
  intros Hne H. unfold build_step. destruct r as [tag|e]; [|by rewrite (M_bind_raise _ _ _ _ _ H)].
  rewrite (M_bind_ok _ _ _ _ _ H), bool_decide_eq_false_2 by congruence. done.
Qed.

Lemma build_step_target n t nc lf (s : B) r s1 : build_one n nc lf t s = (r, s1) →
  build_step n true (Some t) nc lf t s =
  match r with
  | Ok tag => (Raise (SystemExit 0), (emit_event (Stdout (tag +:+ nl)) s1.1, s1.2))
  | Raise e => (Raise e, s1)
  end.
Proof.
  intros H. unfold build_step. destruct r as [tag|e]; [|by rewrite (M_bind_raise _ _ _ _ _ H)].
  by rewrite (M_bind_ok _ _ _ _ _ H), bool_decide_eq_true_2.
Qed.

(** With the target in the order the loop never falls through, and when it
    reports success it has printed the target's tag and nothing else. *)
Lemma print_tag_loop n t nc lf order : t ∈ order → ∀ (s : B) r s', memo_ok s →
  for_each (build_step n true (Some t) nc lf) order s = (r, s') →
  match r with
  | Ok _ => False
  | Raise e => e = SystemExit 0 →
      ∃ tag, tag_of s.1 s.2 t tag ∧ tag ∈ locals s'.1 ∧ stdout_of s'.1 = stdout_of s.1 ++ [tag +:+ nl]
  end.
Proof.
  induction order as [|x order IH]; [by intros ?%elem_of_nil|].
  intros Hin s r s' Hm H. cbn [for_each] in H.
  destruct (build_one n nc lf x s) as [rx s1] eqn:Ex.
  pose proof (same_out_build_one _ _ _ _ _ _ _ Ex) as Hout. unfold same_out, same_stdout in Hout.
  destruct (decide (x = t)) as [->|Hne].
  - pose proof (build_step_target _ _ _ _ _ _ _ Ex) as Hstep. destruct rx as [tag|e].
    + rewrite (M_bind_raise _ _ _ _ _ Hstep) in H. injection H as <- <-. intros _.
      apply build_one_ok in Ex as (_ & _ & Ht & Hl & _); [|done]. exists tag.
      split_and!; [done|done|]. rewrite <- Hout. unfold stdout_of. cbn. by rewrite omap_app.
    + rewrite (M_bind_raise _ _ _ _ _ Hstep) in H. injection H as <- <-.
      intros ->. by apply raises_build_one in Ex.
  - pose proof (build_step_other _ _ _ _ _ _ _ _ Hne Ex) as Hstep. destruct rx as [tag|e].
    + rewrite (M_bind_ok _ _ _ _ _ Hstep) in H. apply build_one_ok in Ex as (Hb1 & Hm1 & _); [|done].
      apply IH in H; [|set_solver|done]. destruct r as [|e]; [done|]. intros He.
      destruct (H He) as (tag' & Ht' & Hl' & Ho'). exists tag'. rewrite <- Hout.
      split_and!; [by apply (builds_tag_of _ _ _ _ Hb1)|done..].
    + rewrite (M_bind_raise _ _ _ _ _ Hstep) in H. injection H as <- <-.
      intros ->. by apply raises_build_one in Ex.
Qed.
End print_tag.
