(* ===== verification/BuilderConfig.v ===== *)
(** * Loading devkit.json into the builder (docker/build.py)

    A configuration the validator accepts is read without any type error; what
    else can happen is an empty package version.  Either way a bad file ends
    the process with code 1. *)

From stdpp Require Import base gmap sets list strings sorting.
From Stdlib Require Import ZArith Lia.
From S2P Require Import Prelude PyStr Fs World Json Config Graph DockerOps Builder BuilderTags BuilderRun.

(** The images section of a configuration. *)
Definition spec_images (config : json) : list (string * json) :=
  match docker_fields config with
  | Some d => default [] (dict_field "images" (JObj d))
  | None => []
  end.

(** Every package of every image has a version. *)
Definition versions_ok (imgs : list (string * json)) : Prop :=
  Forall (λ i, Forall (λ kv, truthy kv.2 = true) (default [] (dict_field "packages" i.2))) imgs.

#[export] Instance versions_ok_dec imgs : Decision (versions_ok imgs).
Proof. unfold versions_ok. apply _. Defined.

Lemma versions_ok_nil : versions_ok [].
Proof. apply Forall_nil_2. Qed.

Definition set_opt (f : list string → DockerBuilder → DockerBuilder) (items : option (list (string * json)))
    (b : DockerBuilder) : DockerBuilder :=
  match items with Some l => f (kv_strings l) b | None => b end.

(** What the settings of one image add to the object. *)
Definition apply_settings (b : DockerBuilder) (i : string * json) : DockerBuilder :=
  set_opt (set_repositories i.1) (dict_field "repositories" i.2)
    (set_opt (set_keys i.1) (dict_field "keys" i.2)
       (set_opt (set_packages i.1) (dict_field "packages" i.2) b)).

Section load.
Context {PS : Type} {EX : Exec PS} {SO : SetOrder}.
Local Abbreviation W := (World PS).
Local Abbreviation B := (World PS * DockerBuilder)%type.

(** Reading [settings[key]] when it is a dict or absent. *)
Lemma with_items_ok settings l key k (s : B) :
  settings = JObj l → (∀ x, assoc key l = Some x → ∃ m, x = JObj m) →
  with_items settings key k s =
  match dict_field key settings with Some items => k items s | None => (Ok tt, s) end.
Proof.
  intros -> Hx. unfold with_items, dict_field.
  rewrite (M_bind_ok _ _ _ (bool_decide (is_Some (assoc key l))) s)
    by (unfold lift_result; by rewrite py_in_obj).
  destruct (assoc key l) as [x|] eqn:E; [|done]. destruct (Hx x eq_refl) as [m ->].
  rewrite bool_decide_eq_true_2 by eauto. unfold when.
  rewrite (M_bind_ok _ _ _ (JObj m) s) by (unfold lift_result; cbn; by rewrite E).
  by rewrite (M_bind_ok _ _ _ m s).
Qed.

Lemma load_packages_ok img l (s : B) :
  if bool_decide (Forall (λ kv, truthy kv.2 = true) l)
  then load_packages img l s = (Ok (kv_strings l), s)
  else ∃ s', load_packages img l s = (Raise (SystemExit 1), s') ∧ silent s s'.
Proof.
  revert s. induction l as [|[k v] l IH]; intros s; [by rewrite bool_decide_eq_true_2|].
  cbn [load_packages]. destruct (truthy v) eqn:Ev.
  - specialize (IH s). rewrite (bool_decide_ext _ (Forall (λ kv, truthy kv.2 = true) l))
      by (rewrite Forall_cons; naive_solver).
    case_bool_decide.
    + by rewrite (M_bind_ok _ _ _ _ _ IH).
    + destruct IH as (s' & Hs & ?). exists s'. by rewrite (M_bind_raise _ _ _ _ _ Hs).
  - rewrite bool_decide_eq_false_2 by (rewrite Forall_cons; cbn; intros [? _]; congruence).
    eexists. split; [unfold inW, log_error, emit; munfold; reflexivity|].
    split; [apply quiet_log_event|done].
Qed.

Lemma image_settings settings : conforms settings IMAGE_SCHEMA →
  ∃ l, settings = JObj l ∧
    ∀ key x, key ∈ ["packages"; "keys"; "repositories"] → assoc key l = Some x → ∃ m, x = JObj m.
Proof.
  intros (l & -> & Hp & _)%conforms_dict. exists l. split; [done|]. intros key x Hk Hx.
  assert (conforms x str_dict_schema) as (m & -> & _)%conforms_dict; [|by eauto].
  eapply (Hp key); [|done]. rewrite !elem_of_cons in Hk. set_solver.
Qed.

(** The settings of one image. *)
Lemma load_image_settings_ok img settings w b : conforms settings IMAGE_SCHEMA →
  if bool_decide (Forall (λ kv, truthy kv.2 = true) (default [] (dict_field "packages" settings)))
  then load_image_settings img settings (w, b) = (Ok tt, (w, apply_settings b (img, settings)))
  else ∃ s', load_image_settings img settings (w, b) = (Raise (SystemExit 1), s') ∧ silent (PS:=PS) (w, b) s'.
Proof.
  intros (l & -> & Hl)%image_settings. unfold load_image_settings.
  assert (∀ b', (with_items (PS:=PS) (JObj l) "keys" (λ items, update_self (set_keys img (kv_strings items))) ;;
    with_items (JObj l) "repositories" (λ items, update_self (set_repositories img (kv_strings items)))) (w, b')
    = (Ok tt, (w, set_opt (set_repositories img) (dict_field "repositories" (JObj l))
         (set_opt (set_keys img) (dict_field "keys" (JObj l)) b')))) as Hrest.
  { intros b'. rewrite (M_bind_ok _ _ _ tt (w, set_opt (set_keys img) (dict_field "keys" (JObj l)) b')).
    - rewrite (with_items_ok _ l); [|done|intros x; apply Hl; set_solver].
      by destruct (dict_field "repositories" (JObj l)).
    - rewrite (with_items_ok _ l); [|done|intros x; apply Hl; set_solver].
      by destruct (dict_field "keys" (JObj l)). }
  assert (∀ x, assoc "packages" l = Some x → ∃ m, x = JObj m) as Hx by (intros x; apply Hl; set_solver).
  pose proof (with_items_ok _ l "packages" (λ items, packages ← load_packages img items;
    update_self (set_packages img packages)) (w, b) eq_refl Hx) as Hpk.
  unfold apply_settings. cbn [fst snd]. destruct (dict_field "packages" (JObj l)) as [m|] eqn:Em.
  - change (default [] (Some m)) with m. pose proof (load_packages_ok img m (w, b)) as Hm. case_bool_decide.
    + rewrite (M_bind_ok _ _ _ _ _ Hm) in Hpk. rewrite (M_bind_ok _ _ _ _ _ Hpk). apply Hrest.
    + destruct Hm as (s' & Hm & ?). exists s'. split; [|done].
      rewrite (M_bind_raise _ _ _ _ _ Hm) in Hpk. by rewrite (M_bind_raise _ _ _ _ _ Hpk).
  - rewrite bool_decide_eq_true_2 by constructor. rewrite (M_bind_ok _ _ _ _ _ Hpk). apply Hrest.
Qed.

Lemma load_images_loop imgs w b : Forall (λ i, conforms i.2 IMAGE_SCHEMA) imgs →
  let loop := for_each (λ '(img, settings), load_image_settings (PS:=PS) img settings) imgs (w, b) in
  if bool_decide (versions_ok imgs) then loop = (Ok tt, (w, foldl apply_settings b imgs))
  else ∃ s', loop = (Raise (SystemExit 1), s') ∧ quiet w s'.1.
Proof.
  cbn zeta. intros Hc. revert b. induction Hc as [|[img settings] imgs Hi _ IH]; intros b.
  { by rewrite bool_decide_eq_true_2 by constructor. }
  cbn [for_each foldl]. pose proof (load_image_settings_ok img settings w b Hi) as Hs.
  case_bool_decide as Hv.
  - specialize (IH (apply_settings b (img, settings))). rewrite (M_bind_ok _ _ _ _ _ Hs).
    rewrite (bool_decide_ext _ (versions_ok imgs)); [done|].
    unfold versions_ok. rewrite Forall_cons. naive_solver.
  - rewrite bool_decide_eq_false_2 by (unfold versions_ok; rewrite Forall_cons; naive_solver).
    destruct Hs as (s' & Hs & [? _]). exists s'. split; [|done]. by rewrite (M_bind_raise _ _ _ _ _ Hs).
Qed.

Lemma docker_images d : conforms (JObj d) DOCKER_SCHEMA →
  (∀ x, assoc "images" d = Some x → ∃ m, x = JObj m) ∧
  Forall (λ i, conforms i.2 IMAGE_SCHEMA) (default [] (dict_field "images" (JObj d))).
Proof.
  intros (? & [= <-] & Hp & _)%conforms_dict. unfold dict_field.
  assert (∀ x, assoc "images" d = Some x → conforms x (mkSchema (Some TDict) [] (AddSchema IMAGE_SCHEMA))) as Hx
    by (intros x Hx; eapply Hp; [|done]; set_solver).
  split.
  - intros x (m & -> & _)%Hx%conforms_dict. eauto.
  - destruct (assoc "images" d) as [x|]; [|constructor].
    specialize (Hx x eq_refl). apply conforms_dict in Hx as (m & -> & _ & Hm). cbn. apply Forall_forall.
    intros [k v] Hin. cbn. eapply Hm; [done..|]. apply not_elem_of_nil.
Qed.

(** The object a valid configuration makes. *)
Definition configured (config : json) (b : DockerBuilder) : DockerBuilder :=
  match docker_fields config with
  | Some _ => foldl apply_settings (set_registry (spec_repo config, spec_namespace config) b) (spec_images config)
  | None => b
  end.

Lemma load_docker_ok config w b : conforms config CONFIG_SCHEMA →
  let m := has_docker ← lift_result (py_in "docker" config);
           when has_docker (load_registry_config config ;; load_images_config config) in
  if bool_decide (versions_ok (spec_images config)) then m (w, b) = (Ok tt, (w, configured config b))
  else ∃ s', m (w, b) = (Raise (SystemExit 1), s') ∧ quiet (PS:=PS) w s'.1.
Proof.
  cbn zeta. intros Hc. pose proof (parse_registry_config_ok config Hc) as Hparse.
  destruct (config_docker config Hc) as (l & -> & Hd).
  rewrite (M_bind_ok _ _ _ (bool_decide (is_Some (assoc "docker" l))) (w, b))
    by (unfold lift_result; by rewrite py_in_obj).
  unfold configured, spec_images.
  destruct Hd as [Ed|(d & Ed & Hd)].
  { assert (docker_fields (JObj l) = None) as -> by (unfold docker_fields, dict_field; by rewrite Ed).
    rewrite Ed, bool_decide_eq_true_2 by apply versions_ok_nil. done. }
  assert (docker_fields (JObj l) = Some d) as -> by (unfold docker_fields, dict_field; by rewrite Ed).
  rewrite Ed, (bool_decide_eq_true_2 (is_Some _)) by eauto. cbn [when].
  set (b1 := set_registry _ b). rewrite (M_bind_ok _ _ _ tt (w, b1)).
  2: { unfold load_registry_config. rewrite (M_bind_ok _ _ _ (spec_repo (JObj l), spec_namespace (JObj l)) (w, b)); [done|].
       unfold lift_result. by rewrite Hparse. }
  unfold load_images_config. rewrite (M_bind_ok _ _ _ (JObj d) (w, b1))
    by (unfold lift_result; cbn; by rewrite Ed).
  destruct (docker_images d Hd) as [Hi Himgs].
  rewrite (with_items_ok _ d) by done. pose proof (load_images_loop _ w b1 Himgs) as Hloop.
  destruct (dict_field "images" (JObj d)) as [imgs|]; [exact Hloop|].
  by rewrite bool_decide_eq_true_2 by apply versions_ok_nil.
Qed.

(** A configuration file the builder accepts. *)
Definition good_config (text : string) (config : json) : Prop :=
  json_loads text = Ok config ∧ conforms config CONFIG_SCHEMA ∧ versions_ok (spec_images config).

(** The image settings only fill the three maps. *)
Lemma foldl_settings imgs b :
  let b' := foldl apply_settings b imgs in
  config_path b' = config_path b ∧ search_paths b' = search_paths b ∧ generated_tags b' = generated_tags b ∧
  repo b' = repo b ∧ namespace b' = namespace b ∧ arch b' = arch b.
Proof.
  cbn zeta. revert b. induction imgs as [|[img st] imgs IH]; intros b; [done|]. cbn [foldl].
  destruct (IH (apply_settings b (img, st))) as (-> & -> & -> & -> & -> & ->).
  unfold apply_settings, set_opt. by repeat case_match.
Qed.

Lemma configured_paths config b : config_path (configured config b) = config_path b ∧
  search_paths (configured config b) = search_paths b ∧ generated_tags (configured config b) = generated_tags b.
Proof.
  unfold configured. destruct (docker_fields config); [|done].
  match goal with |- context [foldl apply_settings ?b0 ?imgs] =>
    destruct (foldl_settings imgs b0) as (-> & -> & -> & _) end. done.
Qed.

Lemma configured_registry config b : repo b = "" → namespace b = "devkit" →
  repo (configured config b) = spec_repo config ∧ namespace (configured config b) = spec_namespace config ∧
  arch (configured config b) = arch b.
Proof.
  intros Hr Hn. unfold configured. destruct (docker_fields config) as [d|] eqn:Ed.
  - match goal with |- context [foldl apply_settings ?b0 ?imgs] =>
      destruct (foldl_settings imgs b0) as (_ & _ & _ & -> & -> & ->) end. done.
  - unfold spec_repo, spec_namespace, registry_fields. by rewrite Ed.
Qed.

(** What the [try] does with a text. *)
Lemma load_config_text_spec text w b r s' : load_config_text text (w, b) = (r, s') →
  quiet (PS:=PS) w s'.1 ∧
  match r with
  | Ok _ => ∃ config, good_config text config ∧ s'.2 = configured config b
  | Raise e => (e = SystemExit 1 ∨ is_ValueError e = true) ∧ ∀ config, ¬ good_config text config
  end.
Proof.
  unfold load_config_text. intros H. destruct (json_loads text) as [config|e] eqn:Ej.
  2: { rewrite (M_bind_raise _ _ _ e (w, b)) in H by done. injection H as <- <-.
       pose proof (json_loads_raise _ _ Ej) as ->. split; [reflexivity|]. split; [by right|].
       intros config [? _]. congruence. }
  rewrite (M_bind_ok _ _ _ config (w, b)) in H by done.
  destruct (validate_config config CONFIG_SCHEMA "") as [[]|e] eqn:Ev.
  2: { rewrite (M_bind_raise _ _ _ e (w, b)) in H by done. injection H as <- <-.
       split; [reflexivity|]. split; [right; by eapply validate_config_error|].
       intros c (? & Hc & _). simplify_eq. apply (validate_config_conforms _ _ "") in Hc. congruence. }
  rewrite (M_bind_ok _ _ _ tt (w, b)) in H by done.
  apply validate_config_conforms in Ev. pose proof (load_docker_ok config w b Ev) as Hd.
  cbn zeta in Hd. case_bool_decide as Hv.
  - rewrite Hd in H. injection H as <- <-. split; [reflexivity|]. by exists config.
  - destruct Hd as (s1 & Hd & Hq). rewrite Hd in H. injection H as <- <-. split; [done|].
    split; [by left|]. intros c (? & _ & ?). assert (c = config) as -> by congruence. contradiction.
Qed.

(** Every outcome of [_load_config]. *)
Lemma load_config_spec w b r s' : load_config (w, b) = (r, s') →
  quiet (PS:=PS) w s'.1 ∧
  match path_exists (w_fs w) (w_cwd w) (config_path b), read_file (w_fs w) (w_cwd w) (config_path b) with
  | false, _ => r = Ok tt ∧ s'.2 = b
  | true, Raise e => r = Raise e
  | true, Ok text =>
      match r with
      | Ok _ => ∃ config, good_config text config ∧ s'.2 = configured config b
      | Raise e => e = SystemExit 1 ∧ ∀ config, ¬ good_config text config
      end
  end.
Proof.
  unfold load_config. intros H. rewrite (M_bind_ok _ _ _ b (w, b)) in H by done.
  rewrite (M_bind_ok _ _ _ (path_exists (w_fs w) (w_cwd w) (config_path b)) (w, b)) in H by done.
  destruct (path_exists _ _ _).
  2: { unfold inW, log_info, emit, modify in H. injection H as <- <-. by split; [apply quiet_log_event|]. }
  destruct (read_file (w_fs w) (w_cwd w) (config_path b)) as [text|e] eqn:Er.
  2: { rewrite (M_bind_raise _ _ _ e (w, b)) in H by (apply inW_ok; unfold read_text; by rewrite Er).
       injection H as <- <-. by split. }
  rewrite (M_bind_ok _ _ _ text (w, b)) in H by (apply inW_ok; unfold read_text; by rewrite Er).
  unfold try_with in H. destruct (load_config_text text (w, b)) as [[[]|e] s1] eqn:El;
    apply load_config_text_spec in El as [Hq Hres].
  { injection H as <- <-. done. }
  destruct Hres as [He Hbad]. destruct (is_JSONDecodeError e || is_ValueError e) eqn:Ee.
  - assert (r = Raise (SystemExit 1) ∧ quiet s1.1 s'.1) as [-> ?]; [|split; [by etrans|done]].
    unfold inW, log_error, emit in H. munfold. injection H as <- <-. split; [done|apply quiet_log_event].
  - injection H as <- <-. apply orb_false_iff in Ee as [_ Ee]. destruct He as [->|He]; [done|congruence].
Qed.

(** ** The deps.json files *)

Lemma quiet_load_deps_file p configs : always quiet (load_deps_file (PS:=PS) p configs).
Proof.
  unfold load_deps_file. frame. apply always_try; [apply _|frame|].
  intros e k Hk. destruct (is_JSONDecodeError e); simplify_eq. frame.
Qed.

Lemma load_deps_file_spec p configs (w : W) r w' : load_deps_file p configs w = (r, w') →
  match r with
  | Ok configs' => NoDup (keys configs) → NoDup (keys configs')
  | Raise e => e = SystemExit 1 ∨ is_OSError e = true
  end.
Proof.
  unfold load_deps_file. intros H.
  destruct (log_info ("Loading image configs from " +:+ str_path p) w) as [[[]|e] w1] eqn:E1;
    [|by apply (raises_log_info (λ _, False)) in E1].
  rewrite (M_bind_ok _ _ _ _ _ E1) in H. clear E1.
  destruct (read_text p w1) as [[text|e] w2] eqn:Er.
  2: { rewrite (M_bind_raise _ _ _ _ _ Er) in H. injection H as <- <-. right.
       apply read_text_inv in Er as [Er _]. by eapply read_file_raise. }
  rewrite (M_bind_ok _ _ _ _ _ Er) in H. unfold try_with in H.
  destruct (json_loads text) as [v|e] eqn:Ej.
  - rewrite (M_bind_ok _ _ _ v w2) in H by done.
    destruct v as [| | | | | |l]; unfold mbind, M_bind, log_warning, emit, modify, mret, M_ret in H;
      injection H as <- _; try done.
    intros. by apply NoDup_assoc_update.
  - apply json_loads_raise in Ej as ->. rewrite (M_bind_raise _ _ _ json_decode_error w2) in H by done.
    unfold is_JSONDecodeError, json_decode_error, mbind, M_bind, log_error, emit, modify, sys_exit, raise in H.
    injection H as <- _. by left.
Qed.

Lemma load_image_configs_spec paths : ∀ configs (w : W) r w',
  for_acc (λ all_configs path,
    let deps_file := join_name path "deps.json" in
    ex ← exists_p deps_file;
    if (ex : bool) then load_deps_file deps_file all_configs else mret all_configs) configs paths w = (r, w') →
  quiet w w' ∧
  match r with
  | Ok configs' => NoDup (keys configs) → NoDup (keys configs')
  | Raise e => e = SystemExit 1 ∨ is_OSError e = true
  end.
Proof.
  induction paths as [|p paths IH]; intros configs w r w' H; cbn [for_acc] in H.
  { injection H as <- <-. by split. }
  match type of H with (?m ≫= _) w = _ => destruct (m w) as [[c1|e] w1] eqn:E1 end.
  - rewrite (M_bind_ok _ _ _ _ _ E1) in H. apply IH in H as [Hq Hr].
    assert (quiet w w1 ∧ (NoDup (keys configs) → NoDup (keys c1))) as [? ?].
    { cbn beta zeta in E1. 
      apply M_bind_inv in E1 as ([] & w0 & [_ ->]%exists_p_inv & E1).
      - split; [by eapply quiet_load_deps_file|by apply load_deps_file_spec in E1].
      - injection E1 as <- <-. by split. }
    split; [by etrans|]. destruct r; auto.
  - rewrite (M_bind_raise _ _ _ _ _ E1) in H. injection H as <- <-. cbn beta zeta in E1. 
    destruct (exists_p (join_name p "deps.json") w) as [rx w0] eqn:Ex.
    pose proof (exists_p_inv _ _ _ _ Ex) as [-> ->]. rewrite (M_bind_ok _ _ _ _ _ Ex) in E1.
    clear Ex. destruct (path_exists _ _ _); [|done].
    split; [by eapply quiet_load_deps_file|by apply load_deps_file_spec in E1].
Qed.

(** ** The constructor *)

Lemma new_builder_spec cp sps (w : W) r w' : new_builder cp sps w = (r, w') →
  quiet w w' ∧
  match r with
  | Ok b =>
      NoDup (keys (image_configs_map b)) ∧ generated_tags b = ∅ ∧ search_paths b = sps ∧
      arch b = "amd64" ∧
      if path_exists (w_fs w) (w_cwd w) cp
      then ∃ text config, read_file (w_fs w) (w_cwd w) cp = Ok text ∧ good_config text config ∧
             repo b = spec_repo config ∧ namespace b = spec_namespace config
      else repo b = "" ∧ namespace b = "devkit"
  | Raise e => e = SystemExit 1 ∨ is_OSError e = true
  end.
Proof.
  unfold new_builder, init_body. set (b0 := initial_builder cp sps).
  destruct (load_config (w, b0)) as [[[]|e] [w1 b1]] eqn:E1.
  2: { rewrite (M_bind_raise _ _ _ _ _ E1). intros [= <- <-]. apply load_config_spec in E1 as [Hq Hr].
       split; [done|]. cbn [config_path b0 initial_builder] in Hr.
       destruct (path_exists _ _ cp); [|by destruct Hr].
       destruct (read_file _ _ cp) as [text|e'] eqn:Er; [left; by destruct Hr|].
       injection Hr as ->. right. by eapply read_file_raise. }
  rewrite (M_bind_ok _ _ _ _ _ E1), (M_bind_ok _ _ _ b1 (w1, b1)) by done.
  apply load_config_spec in E1 as [Hq Hr]. cbn [fst snd config_path b0 initial_builder] in Hr, Hq.
  assert (search_paths b1 = sps ∧ generated_tags b1 = ∅ ∧ arch b1 = "amd64" ∧
    if path_exists (w_fs w) (w_cwd w) cp
    then ∃ text config, read_file (w_fs w) (w_cwd w) cp = Ok text ∧ good_config text config ∧
           repo b1 = spec_repo config ∧ namespace b1 = spec_namespace config
    else repo b1 = "" ∧ namespace b1 = "devkit") as (Hsp & Hg & Ha & Hreg).
  { destruct (path_exists _ _ cp); [|by destruct Hr as [_ ->]].
    destruct (read_file _ _ cp) as [text|e]; [|done]. destruct Hr as (config & Hgood & ->).
    destruct (configured_paths config b0) as (_ & -> & ->).
    destruct (configured_registry config b0) as (-> & -> & ->); [done..|].
    split_and!; [done..|]. eauto 10. }
  rewrite Hsp. destruct (load_image_configs sps w1) as [[configs|e] w2] eqn:E2;
    pose proof E2 as [Hq2 Hr2]%load_image_configs_spec.
  - rewrite (M_bind_ok _ _ _ configs (w2, b1)) by (by apply inW_ok). intros [= <- <-].
    split; [by etrans|]. cbn. split_and!; try done. apply Hr2, NoDup_nil_2.
  - rewrite (M_bind_raise _ _ _ e (w2, b1)) by (by apply inW_ok). intros [= <- <-].
    split; [by etrans|done].
Qed.

(** ** The prefix other scripts compute *)

Definition tag_prefix (b : DockerBuilder) : string :=
  if bool_decide (repo b = "") then namespace b else repo b +:+ "/" +:+ namespace b.

Lemma get_image_tag_prefix b image sha :
  get_image_tag b image sha = tag_prefix b +:+ "/" +:+ image +:+ ":" +:+ arch b +:+ "-" +:+ sha.
Proof. unfold get_image_tag, tag_prefix. case_bool_decide; by rewrite !str_app_assoc. Qed.

Lemma get_image_prefix_ok cp sps (w : W) b w' : new_builder cp sps w = (Ok b, w') →
  get_image_prefix cp w = (Ok (tag_prefix b), w).
Proof.
  intros [_ (_ & _ & _ & _ & Hreg)]%new_builder_spec. unfold get_image_prefix, exists_p, tag_prefix.
  rewrite (M_bind_ok _ _ _ (path_exists (w_fs w) (w_cwd w) cp) w) by done.
  destruct (path_exists _ _ cp); [|by destruct Hreg as [-> ->]].
  destruct Hreg as (text & config & Hr & (Hj & Hc & _) & -> & ->).
  unfold try_with. rewrite (M_bind_ok _ _ _ text w) by (unfold read_text; by rewrite Hr).
  rewrite (M_bind_ok _ _ _ config w) by (unfold lift_result; by rewrite Hj).
  rewrite (M_bind_ok _ _ _ (spec_repo config, spec_namespace config) w)
    by (unfold lift_result; by rewrite parse_registry_config_ok).
  by case_bool_decide.
Qed.
End load.
