(* ===== verification/Sim.v ===== *)
(** * A docker to run the model against

    Concrete instances of the parameters: a docker that keeps two sets of tags
    and obeys [DockerSpec], a set order, and a small repository with a
    configuration, two images and their Dockerfiles. *)

From stdpp Require Import base gmap sets list strings.
From Stdlib Require Import ZArith.
From S2P Require Import Prelude PyStr Fs World Json Graph DockerOps Builder.

#[export] Program Instance elements_order : SetOrder := {| set_iter s := elements s |}.
Next Obligation. done. Qed.

Record sim := mkSim { sim_local : gset string; sim_remote : gset string }.

Definition done_ok : proc_result := Finished 0 "" "".
Definition exit_if (b : bool) : proc_result := Finished (if b then 0 else 1) "" "".

Definition sim_exec (cmd : list string) (s : sim) : proc_result * sim :=
  match cmd with
  | "docker" :: "image" :: "inspect" :: tag :: _ => (exit_if (bool_decide (tag ∈ sim_local s)), s)
  | "docker" :: "manifest" :: "inspect" :: tag :: _ => (exit_if (bool_decide (tag ∈ sim_remote s)), s)
  | "docker" :: "buildx" :: "build" :: "--tag" :: tag :: _ =>
      (done_ok, mkSim ({[tag]} ∪ sim_local s) (sim_remote s))
  | "docker" :: "pull" :: tag :: _ =>
      if bool_decide (tag ∈ sim_remote s)
      then (done_ok, mkSim ({[tag]} ∪ sim_local s) (sim_remote s))
      else (exit_if false, s)
  | "docker" :: "push" :: tag :: _ => (done_ok, mkSim (sim_local s) ({[tag]} ∪ sim_remote s))
  | "docker" :: "images" :: _ => (Finished 0 (join nl (elements (sim_local s))) "", s)
  | "docker" :: "rmi" :: tag :: _ => (done_ok, mkSim (sim_local s ∖ {[tag]}) (sim_remote s))
  | _ => (done_ok, s)
  end.

#[export] Instance sim_Exec : Exec sim := λ cmd s, let '(r, s') := sim_exec cmd s.1 in (r, (s', s.2)).

Lemma exit_if_spec (P : Prop) `{!Decision P} rc out err :
  exit_if (bool_decide P) = Finished rc out err → rc = 0%Z ↔ P.
Proof. unfold exit_if. intros [= <- _ _]. case_bool_decide; naive_solver. Qed.

#[export] Program Instance sim_DockerSpec : DockerSpec sim :=
  {| local_images := sim_local; remote_images := sim_remote |}.
Next Obligation.
  intros tag ps f r ps' f' H. cbn in H. injection H as <- <- <-. split_and!; [done..|].
  intros rc out err. apply exit_if_spec.
Qed.
Next Obligation.
  intros tag ps f r ps' f' H. cbn in H. injection H as <- <- <-. split_and!; [done..|].
  intros rc out err. apply exit_if_spec.
Qed.
Next Obligation.
  intros tag file flags ctx nc ps f r ps' f' H. unfold build_cmd in H. cbn in H.
  injection H as <- <- <-. cbn. split_and!; [done|done|set_solver..].
Qed.
Next Obligation.
  intros tag ps f r ps' f' H. unfold exec, sim_Exec in H. cbn in H. case_bool_decide; injection H as <- <- <-; cbn.
  - split_and!; [done|done|set_solver..].
  - split_and!; [done|done|set_solver..|by intros out err [=]].
Qed.
Next Obligation.
  intros tag ps f r ps' f' H. cbn in H. injection H as <- <- <-. done.
Qed.

(** Equations between closed terms, by the virtual machine. *)
Ltac vm_refl := match goal with |- @eq ?A _ ?y => vm_cast_no_check (@eq_refl A y) end.

(** ** A repository *)

Definition q (s : string) : string := String dquote (s +:+ String dquote "").

Definition demo_config : string :=
  "{" +:+ q "docker" +:+ ": {" +:+ q "registry" +:+ ": {" +:+ q "host" +:+ ":" +:+ q "gcr.io" +:+ ","
  +:+ q "project" +:+ ":" +:+ q "p" +:+ "," +:+ q "repository" +:+ ":" +:+ q "r" +:+ "},"
  +:+ q "images" +:+ ":{" +:+ q "dev-env" +:+ ":{" +:+ q "packages" +:+ ":{" +:+ q "vim" +:+ ":" +:+ q "*" +:+ "}}}}}".

Definition demo_deps : string :=
  "{" +:+ q "dev-env" +:+ ": {" +:+ q "deps" +:+ ": {" +:+ q "BASE" +:+ ":" +:+ q "build-env" +:+ "}},"
  +:+ q "build-env" +:+ ": {" +:+ q "deps" +:+ ": {}}}".

Definition demo_fs : fs :=
  <[["repo"] := NDir]>
  (<[["repo"; "devkit.json"] := NFile demo_config]>
  (<[["repo"; "images"] := NDir]>
  (<[["repo"; "images"; "deps.json"] := NFile demo_deps]>
  (<[["repo"; "images"; "build-env.Dockerfile"] := NFile ("FROM debian" +:+ nl)]>
  (<[["repo"; "images"; "dev-env.Dockerfile"] := NFile ("ARG BASE" +:+ nl +:+ "FROM $BASE" +:+ nl)]> ∅))))).

Definition demo_world : World sim := mkWorld [] demo_fs ["repo"] [] (mkSim ∅ ∅).

Definition demo_config_path : Path := Path_of "/repo/devkit.json".
Definition demo_search_paths : list Path := [Path_of "/repo/images"].

(** The object made for it, and the world in which it was made. *)
Definition demo_new : result DockerBuilder * World sim :=
  Eval vm_compute in new_builder demo_config_path demo_search_paths demo_world.

Definition demo_builder : DockerBuilder :=
  Eval vm_compute in
  match demo_new.1 with Ok b => b | Raise _ => initial_builder demo_config_path [] end.

Definition demo_start : World sim * DockerBuilder := Eval vm_compute in (demo_new.2, demo_builder).

Lemma demo_builder_tags x : generated_tags demo_builder !! x = None.
Proof. exact (lookup_empty x). Qed.
