(* ===== verification/BuildTheorems.v ===== *)
(** * What docker/build.py guarantees

    The theorems on configuration, build order, tags and the build loop, for
    every world, every docker that obeys [DockerSpec] and every order in which
    Python may walk a set; with runs on the repository of [Sim] as witnesses. *)

From stdpp Require Import base gmap sets list strings sorting relations.
From Stdlib Require Import ZArith Lia.
From S2P Require Import Prelude PyStr Fs World Json Config Graph Sha256 DockerOps.
From S2P Require Import Builder BuilderTags BuilderRun BuilderConfig Sim.

(** ** Configuration *)

(** C22: The validator decides, for every schema and every JSON value, exactly the
    declarative meaning of the schema, and whatever it refuses it refuses with a
    [ValueError]. *)
Theorem validator_decides sch data path :
  (validate_config data sch path = Ok tt ↔ conforms data sch) ∧
  (∀ e, validate_config data sch path = Raise e → is_ValueError e = true).
Proof. split; [apply validate_config_conforms|]. intros e. apply validate_config_error. Qed.

(** C23: Constructing a [DockerBuilder] starts no program and changes no file; it
    either ends the process with code 1 (or an I/O error), never with a type or
    key error, or yields an object whose registry fields are those of the file,
    whose image names are distinct and whose tag table is empty. *)
Theorem builder_construction {PS : Type} {EX : Exec PS} cp sps (w : World PS) :
  let '(r, w') := new_builder cp sps w in
  quiet w w' ∧
  match r with
  | Ok b =>
      NoDup (keys (image_configs_map b)) ∧ generated_tags b = ∅ ∧ search_paths b = sps ∧ arch b = "amd64" ∧
      if path_exists (w_fs w) (w_cwd w) cp
      then ∃ text config, read_file (w_fs w) (w_cwd w) cp = Ok text ∧
             json_loads text = Ok config ∧ conforms config CONFIG_SCHEMA ∧ versions_ok (spec_images config) ∧
             repo b = spec_repo config ∧ namespace b = spec_namespace config
      else repo b = "" ∧ namespace b = "devkit"
  | Raise e => e = SystemExit 1 ∨ is_OSError e = true
  end.
Proof.
  destruct (new_builder cp sps w) as [r w'] eqn:E. apply new_builder_spec in E as [Hq Hr].
  split; [done|]. destruct r as [b|e]; [|done]. destruct Hr as (?&?&?&?&Hreg). split_and!; [done..|].
  destruct (path_exists _ _ cp); [|done]. destruct Hreg as (text & config & ? & (?&?&?) & ?). eauto 10.
Qed.

(** The prefix other scripts compute with [get_image_prefix] is the prefix of
    every tag the builder makes from the same configuration file. *)
Theorem prefix_agrees {PS : Type} {EX : Exec PS} cp sps (w : World PS) b w' image sha :
  new_builder cp sps w = (Ok b, w') →
  ∃ prefix, get_image_prefix cp w = (Ok prefix, w) ∧
    get_image_tag b image sha = prefix +:+ "/" +:+ image +:+ ":amd64-" +:+ sha.
Proof.
  intros H. exists (tag_prefix b). split; [by eapply get_image_prefix_ok|].
  apply new_builder_spec in H as (_ & _ & _ & _ & Ha & _). by rewrite get_image_tag_prefix, Ha.
Qed.

Lemma prefix_agrees_witness :
  ∃ prefix, get_image_prefix demo_config_path demo_world = (Ok prefix, demo_world) ∧
    get_image_tag demo_builder "dev-env" "0" = prefix +:+ "/" +:+ "dev-env" +:+ ":amd64-" +:+ "0".
Proof.
  apply (prefix_agrees demo_config_path demo_search_paths demo_world demo_builder demo_new.2).
  vm_refl.
Defined.

(** ** Build order *)

(** C2: For every configuration, set order and list of targets, the build order
    is computed in finite time; it lists without repetition exactly the wanted
    images (all, or the targets and all they depend on), each after everything
    it depends on; and the process ends with code 1 exactly when a wanted image
    depends on itself. *)
Theorem build_order_correct {PS : Type} {EX : Exec PS} {SO : SetOrder} cp sps targets (w : World PS) :
  match new_builder cp sps w with
  | (Ok b, w1) =>
      match full_graph (image_configs_map b), get_build_order targets (w1, b) with
      | Ok g, (Ok order, _) =>
          NoDup order ∧ topo g order ∧ (∀ x, x ∈ order ↔ wanted g targets x) ∧
          (∀ x, wanted g targets x → ¬ tc (edge g) x x)
      | Ok g, (Raise e, _) => e = SystemExit 1 ∧ ¬ (∀ x, wanted g targets x → ¬ tc (edge g) x x)
      | Raise e, (r, _) => r = Raise e
      end
  | (Raise _, _) => True
  end.
Proof.
  destruct (new_builder cp sps w) as [[b|e] w1] eqn:E; [|done].
  apply new_builder_spec in E as (_ & Hnd & _).
  destruct (get_build_order targets (w1, b)) as [r s'] eqn:Eo.
  pose proof (get_build_order_spec targets (w1, b) r s' Hnd Eo) as Hs. cbn [snd] in Hs.
  destruct (full_graph (image_configs_map b)); [|done].
  destruct r; [|done]. by destruct Hs as [[? ? ?] ?].
Qed.

(** ** Tags *)

(** C1: The memoising, recursive tag computation refines the declarative [TagOf]:
    from a correct memo table, whatever it returns is the image's tag and the
    table stays correct, and every image that has a tag gets it once enough
    stack frames are available. *)
Theorem tag_refines_spec {PS : Type} {EX : Exec PS} (w : World PS) b image :
  (∀ x t, generated_tags b !! x = Some t → TagOf (w_fs w) (w_cwd w) b x t) →
  (∀ frames tag w' b', calculate_tag_for_image frames image (w, b) = (Ok tag, (w', b')) →
     TagOf (w_fs w) (w_cwd w) b image tag ∧
     (∀ x t, generated_tags b' !! x = Some t → TagOf (w_fs w) (w_cwd w) b x t)) ∧
  (∀ tag, TagOf (w_fs w) (w_cwd w) b image tag →
     ∃ n, ∀ frames, n ≤ frames → ∃ s', calculate_tag_for_image frames image (w, b) = (Ok tag, s')).
Proof.
  intros Hm. assert (memo_ok (w, b)) as Hmo by done. split.
  - intros frames tag w' b' H.
    pose proof (calculate_tag_sound _ _ _ _ _ Hmo H) as (Hst & Hm' & Ht & _). split; [done|].
    intros x t Hx. by apply (stable_tag_of_inv _ _ _ _ Hst), Hm'.
  - intros tag Ht. destruct (calculate_tag_complete image tag (w, b) Ht) as [n Hn].
    exists n. intros frames Hle. destruct (Hn frames Hle (w, b)) as (tag' & s' & H); [reflexivity|done|].
    exists s'. pose proof (calculate_tag_sound _ _ _ _ _ Hmo H) as (_ & _ & Ht' & _).
    by rewrite (TagOf_functional _ _ _ _ _ _ Ht Ht').
Qed.

(** The result of a first call: a tag, and a state with a warm table. *)
Definition demo_call : result string * (World sim * DockerBuilder) :=
  Eval vm_compute in calculate_tag_for_image 2 "dev-env" demo_start.
Definition demo_warm : World sim * DockerBuilder := Eval vm_compute in demo_call.2.
Definition demo_tag : string := Eval vm_compute in match demo_call.1 with Ok t => t | Raise _ => "" end.

Lemma demo_first_call : calculate_tag_for_image 2 "dev-env" demo_start = (Ok demo_tag, demo_warm).
Proof. vm_refl. Qed.

Lemma tag_refines_spec_witness :
  TagOf (w_fs demo_start.1) (w_cwd demo_start.1) demo_start.2 "dev-env" demo_tag.
Proof.
  refine (proj1 (proj1 (tag_refines_spec demo_start.1 demo_start.2 "dev-env" _) 2 demo_tag demo_warm.1 demo_warm.2 _)).
  - intros x t. by rewrite (demo_builder_tags x : generated_tags demo_start.2 !! x = None).
  - exact demo_first_call.
Defined.

(** C10: When the order exists and every image of it has its configuration, its
    Dockerfile and readable contents, the tag list is produced, with two stack
    frames whatever the depth of the dependencies; it is the list of the
    images' [TagOf] tags in build order, and nothing but messages happened. *)
Theorem tags_computed {PS : Type} {EX : Exec PS} {SO : SetOrder} n cp sps targets (w : World PS) b w1 order s1 :
  new_builder cp sps w = (Ok b, w1) →
  get_build_order targets (w1, b) = (Ok order, s1) →
  (∀ x, x ∈ order → is_Some (image_source (w_fs w) (w_cwd w) b x)) →
  ∃ tags w', get_all_docker_image_tags (2 + n) cp sps targets w = (Ok tags, w') ∧
    Forall2 (TagOf (w_fs w) (w_cwd w) b) order tags ∧ quiet w w'.
Proof.
  intros Hb Ho Hs. pose proof (new_builder_spec _ _ _ _ _ Hb) as [Hq (Hnd & Hg & _)].
  destruct (Hq) as [(_ & Hfs & Hcwd & _) _].
  destruct (calculate_tags_total n targets (w1, b) order s1) as (tags & [w2 b2] & Ht & Hf & Hst).
  - done.
  - intros x t. cbn. by rewrite Hg.
  - done.
  - cbn [fst snd]. by rewrite Hfs, Hcwd.
  - exists tags, w2. split_and!.
    + change (2 + n) with (S (S n)). unfold get_all_docker_image_tags. rewrite (M_bind_ok _ _ _ _ _ Hb). unfold call_on. by rewrite Ht.
    + unfold tag_of in Hf. cbn [fst snd] in Hf. by rewrite Hfs, Hcwd in Hf.
    + etrans; [exact Hq|]. apply Hst.
Qed.

Lemma tags_computed_witness :
  ∃ tags w', get_all_docker_image_tags 2 demo_config_path demo_search_paths ["dev-env"] demo_world = (Ok tags, w') ∧
    Forall2 (TagOf (w_fs demo_world) (w_cwd demo_world) demo_builder) ["build-env"; "dev-env"] tags ∧
    quiet demo_world w'.
Proof.
  apply (tags_computed 0 demo_config_path demo_search_paths ["dev-env"] demo_world demo_builder demo_new.2
           ["build-env"; "dev-env"] (get_build_order ["dev-env"] demo_start).2).
  - vm_refl.
  - vm_refl.
  - intros x Hx. apply elem_of_cons in Hx as [->|Hx]; [by vm_compute; eexists|].
    apply list_elem_of_singleton in Hx as ->. by vm_compute; eexists.
Defined.

(** Two runs on the same files and configuration give an image the same tag,
    whatever was asked for, in whatever order and from whatever correct memo
    tables. *)
Theorem tag_deterministic {PS : Type} {EX : Exec PS} (s1 s2 : World PS * DockerBuilder) n1 n2 image t1 t2 s1' s2' :
  w_fs s1.1 = w_fs s2.1 → w_cwd s1.1 = w_cwd s2.1 → strip_tags s1.2 = strip_tags s2.2 →
  memo_ok s1 → memo_ok s2 →
  calculate_tag_for_image n1 image s1 = (Ok t1, s1') →
  calculate_tag_for_image n2 image s2 = (Ok t2, s2') → t1 = t2.
Proof.
  intros Hfs Hcwd Hb Hm1 Hm2 H1 H2.
  apply calculate_tag_sound in H1 as (_ & _ & H1 & _); [|done].
  apply calculate_tag_sound in H2 as (_ & _ & H2 & _); [|done].
  unfold tag_of in *. rewrite Hfs, Hcwd in H1.
  eapply TagOf_functional; [|exact H2]. by eapply TagOf_strip.
Qed.

Lemma demo_start_memo : memo_ok demo_start.
Proof. intros x t. by rewrite (demo_builder_tags x : generated_tags demo_start.2 !! x = None). Qed.

Lemma tag_deterministic_witness : ∃ t, (calculate_tag_for_image 1 "dev-env" demo_warm).1 = Ok t ∧ t = demo_tag.
Proof.
  exists demo_tag. split; [vm_refl|].
  apply (tag_deterministic demo_warm demo_start 1 2 "dev-env" demo_tag demo_tag demo_warm demo_warm).
  - vm_refl.
  - vm_refl.
  - vm_refl.
  - by apply (calculate_tag_sound _ _ _ _ _ demo_start_memo demo_first_call).
  - apply demo_start_memo.
  - vm_refl.
  - apply demo_first_call.
Defined.

(** A tag names its image and its digest: for one builder, equal tags mean
    equal image names and equal SHA-256 digests of what was hashed. *)
Theorem tag_injective b x1 x2 content1 content2 args1 args2 :
  get_image_tag b x1 (sha_of content1 args1) = get_image_tag b x2 (sha_of content2 args2) →
  x1 = x2 ∧ hexdigest (content1 +:+ concat_str args1) = hexdigest (content2 +:+ concat_str args2).
Proof.
  rewrite !get_image_tag_prefix, <- !str_app_assoc. intros [H Hsha]%str_app_inj_length.
  - split; [|exact Hsha]. rewrite !str_app_assoc in H.
    do 2 apply str_app_inj_l in H. apply str_app_inj_length in H as [H _]; done.
  - unfold sha_of. by rewrite !hexdigest_length.
Qed.

Lemma sha_of_eq c1 c2 a1 a2 : c1 +:+ concat_str a1 = c2 +:+ concat_str a2 → sha_of c1 a1 = sha_of c2 a2.
Proof. unfold sha_of. by intros ->. Qed.

Lemma tag_injective_witness :
  "dev-env" = "dev-env" ∧ hexdigest ("FROM a" +:+ concat_str ["K=v"]) = hexdigest ("FROM aK" +:+ concat_str ["=v"]).
Proof.
  apply (tag_injective demo_builder "dev-env" "dev-env" "FROM a" "FROM aK" ["K=v"] ["=v"]).
  apply (f_equal (get_image_tag demo_builder "dev-env")), sha_of_eq. reflexivity.
Defined.

(** The digest does not separate the Dockerfile from the arguments: moving the
    first argument to the end of the Dockerfile leaves the tag unchanged, so two
    different builds can share a tag. *)
Theorem tag_concatenation_collides b image content arg args :
  get_image_tag b image (sha_of content (arg :: args)) = get_image_tag b image (sha_of (content +:+ arg) args).
Proof. unfold sha_of. cbn. by rewrite str_app_assoc. Qed.

(** ** The build loop *)

Section build.
Context {PS : Type} {EX : Exec PS} {SO : SetOrder} {DS : DockerSpec PS}.
Local Abbreviation W := (World PS).

(** C11: When [manage_docker_image] returns, the image is in docker, at most that
    image was added, the environment and the files are as before, and the
    commands run are those of the decision table: inspect first unless
    [--no-cache]; build without a registry or in local mode; otherwise pull what
    the registry has, and build and push what it has not. *)
Theorem manage_follows_table tag file args ctx local_mode nc repo (w w' : W) :
  manage_docker_image tag file args ctx local_mode nc repo w = (Ok tt, w') →
  tag ∈ locals w' ∧ locals w ⊆ locals w' ∧ locals w' ⊆ {[tag]} ∪ locals w ∧
  w_env w' = w_env w ∧ w_fs w' = w_fs w ∧
  ran w' = ran w ++
    let build := build_cmd tag file (flags_of args) ctx nc in
    match nc, bool_decide (tag ∈ locals w), bool_decide (repo = "") || local_mode, bool_decide (tag ∈ remotes w) with
    | false, true, _, _ => [inspect_cmd tag]
    | false, false, true, _ => [inspect_cmd tag; build]
    | false, false, false, true => [inspect_cmd tag; manifest_inspect_cmd tag; pull_cmd tag]
    | false, false, false, false => [inspect_cmd tag; manifest_inspect_cmd tag; build; push_cmd tag]
    | true, _, true, _ => [build]
    | true, _, false, _ => [build; push_cmd tag]
    end.
Proof.
  intros H. pose proof (grows_manage _ _ _ _ _ _ _ _ _ _ H) as (He & Hf & _ & Hl1 & Hl2).
  apply manage_docker_image_ok, manage_body_ok in H as [Hin Hran]. split_and!; [done..|].
  rewrite Hran. unfold docker_plan. f_equal.
  destruct nc, (bool_decide (tag ∈ locals w)), (bool_decide (repo = "") || local_mode),
    (bool_decide (tag ∈ remotes w)); done.
Qed.

(** When [manage_docker_image] does not return, the process ends with a
    non-zero code, unless the user interrupted it or the caller passed an odd
    list of build arguments; nothing but the image can have been added. *)
Theorem manage_failure_exits tag file args ctx local_mode nc repo (w w' : W) e :
  manage_docker_image tag file args ctx local_mode nc repo w = (Raise e, w') →
  ((∃ c, e = SystemExit c ∧ c ≠ 0%Z) ∨ e = KeyboardInterrupt ∨ (e = IndexError ∧ ¬ ∃ k, length args = 2 * k)) ∧
  locals w ⊆ locals w' ∧ locals w' ⊆ {[tag]} ∪ locals w ∧ w_fs w' = w_fs w.
Proof.
  intros H. pose proof (grows_manage _ _ _ _ _ _ _ _ _ _ H) as (_ & ? & _ & ? & ?).
  split; [|done]. apply raises_manage in H as [H|[H|[-> Hr]]]; [by left|by right; left|].
  right; right. split; [done|]. intros [fl Hfl]%build_arg_flags_even. congruence.
Qed.

(** C3: A completed build: every image of the (topological) order is in docker
    under its [TagOf] tag, and the commands run are, image by image in that
    order, those of the image's plan, whose tag digests the very arguments its
    build command passes. *)
Theorem build_images_complete n targets nc lf (w : W) b s' :
  NoDup (keys (image_configs_map b)) → generated_tags b = ∅ →
  build_images n targets false nc lf (w, b) = (Ok tt, s') →
  ∃ g order plans,
    full_graph (image_configs_map b) = Ok g ∧ build_order_ok g targets order ∧
    Forall2 (λ x tp, TagOf (w_fs w) (w_cwd w) b x tp.1 ∧ tp.1 ∈ locals s'.1 ∧
                     image_plan (w, b) nc lf x tp.1 tp.2) order plans ∧
    ran s'.1 = ran w ++ concat plans.*2.
Proof.
  intros Hnd Hg (order & s1 & s2 & Ho & Hl & [[Hk Hr] Hb])%build_images_inv.
  pose proof (silent_build_order _ _ _ _ Ho) as Hs1.
  pose proof (get_build_order_spec _ (w, b) _ _ Hnd Ho) as Hspec. cbn [snd] in Hspec.
  destruct (full_graph (image_configs_map b)) as [g|]; [|done]. destruct Hspec as [Hord _].
  destruct (Hs1) as [[Hk1 Hr1] Hb1]. cbn [fst snd] in *.
  apply build_loop_ok in Hl as (_ & _ & plans & Hf & Hran).
  2: { intros x t. by rewrite Hb1, Hg. }
  exists g, order, plans. split_and!; [done..| |congruence].
  destruct Hk as (_ & _ & _ & Hp).
  assert (builds (w, b) s1) as Hbs by (by apply stable_builds, silent_stable).
  eapply Forall2_impl; [exact Hf|]. intros x [tag plan] (Ht & Hin & Hplan). cbn [fst snd] in *. split_and!.
  - by apply (builds_tag_of _ _ _ _ Hbs).
  - unfold locals in *. by rewrite Hp.
  - by eapply image_plan_builds.
Qed.

(** C15: Dependencies first: in the state in which the loop of a build reaches an
    image, every image it depends on is already in docker under its tag. *)
Theorem dependencies_built_first n targets nc lf pt target (w : W) b g order s1 pre x post s2 :
  NoDup (keys (image_configs_map b)) → generated_tags b = ∅ →
  full_graph (image_configs_map b) = Ok g →
  get_build_order targets (w, b) = (Ok order, s1) → order = pre ++ x :: post →
  for_each (build_step n pt target nc lf) pre s1 = (Ok tt, s2) →
  ∀ y, edge g x y → ∃ tag, TagOf (w_fs w) (w_cwd w) b y tag ∧ tag ∈ locals s2.1.
Proof.
  intros Hnd Hg Hgr Ho Hsplit Hl y Hy.
  pose proof (silent_build_order _ _ _ _ Ho) as Hs1.
  pose proof (get_build_order_spec _ (w, b) _ _ Hnd Ho) as Hspec. cbn [snd] in Hspec. rewrite Hgr in Hspec.
  destruct Hspec as [[_ Ht _] _]. destruct (Hs1) as [_ Hb1]. cbn [snd] in Hb1.
  apply build_loop_ok in Hl; [|intros z t; by rewrite Hb1, Hg].
  apply (Ht pre x post Hsplit), elem_of_list_to_set in Hy.
  destruct (processed_elem _ _ _ _ _ _ Hl Hy) as (tag & Htag & Hin). exists tag. split; [|done].
  by apply (stable_tag_of_inv (w, b) s1); [apply silent_stable|].
Qed.

(** C24: [--print-tag] on a configured image never falls out of the loop; when it
    reports success (exit code 0) the image is in docker and standard output has
    received exactly one more line: the image's tag. *)
Theorem print_tag_output n t nc lf (w : W) b r s' g :
  NoDup (keys (image_configs_map b)) → generated_tags b = ∅ →
  full_graph (image_configs_map b) = Ok g → t ∈ keys (image_configs_map b) →
  build_images n [t] true nc lf (w, b) = (r, s') →
  r ≠ Ok tt ∧
  (r = Raise (SystemExit 0) →
   ∃ tag, TagOf (w_fs w) (w_cwd w) b t tag ∧ tag ∈ locals s'.1 ∧
     stdout_of s'.1 = stdout_of w ++ [tag +:+ nl]).
Proof.
  intros Hnd Hg Hgr Hin H. unfold build_images in H.
  destruct (get_build_order [t] (w, b)) as [ro s1] eqn:Ho.
  pose proof (get_build_order_spec _ (w, b) _ _ Hnd Ho) as Hspec. cbn [snd] in Hspec. rewrite Hgr in Hspec.
  destruct ro as [order|e].
  2: { rewrite (M_bind_raise _ _ _ _ _ Ho) in H. injection H as <- <-. destruct Hspec as [-> _]. done. }
  destruct Hspec as [[_ _ Hel] _]. pose proof (silent_build_order _ _ _ _ Ho) as Hs1.
  pose proof (silent_stable _ _ Hs1) as Hst. pose proof (same_out_build_order _ _ _ _ Ho) as Hout.
  rewrite (M_bind_ok _ _ _ _ _ Ho), (M_bind_ok _ _ _ (Some t) s1) in H by done.
  destruct (for_each (build_step n true (Some t) nc lf) order s1) as [rl s2] eqn:El.
  destruct Hs1 as [_ Hb1]. cbn [snd] in Hb1.
  pose proof El as Hloop. apply print_tag_loop in Hloop; [|apply Hel|intros z u; by rewrite Hb1, Hg].
  2: { destruct (full_graph_spec _ _ Hgr) as [Hk _]. rewrite <- Hk in Hin. cbn [wanted].
       split; [|by left]. exists t. split; [set_solver|reflexivity]. }
  destruct rl as [[]|e]; [done|]. rewrite (M_bind_raise _ _ _ _ _ El) in H. injection H as <- <-.
  split; [done|]. intros [= ->]. destruct (Hloop eq_refl) as (tag & Htag & Hl & Ho2).
  exists tag. split_and!; [by apply (stable_tag_of_inv (w, b) s1)|done|].
  rewrite Ho2. unfold same_out, same_stdout in Hout. by rewrite Hout.
Qed.
End build.

(** *** Runs on the repository of [Sim] *)

Lemma manage_follows_table_witness :
  let w' := (manage_docker_image "t" "F" ["A"; "b"] "." false false "r" demo_world).2 in
  ran w' = [] ++ [inspect_cmd "t"; manifest_inspect_cmd "t";
                  build_cmd "t" "F" ["--build-arg"; "A=b"] "." false; push_cmd "t"].
Proof.
  cbn zeta. etrans.
  - apply (manage_follows_table "t" "F" ["A"; "b"] "." false false "r" demo_world). vm_refl.
  - vm_refl.
Defined.

Lemma manage_failure_exits_witness :
  let w' := (manage_docker_image "t" "F" ["A"] "." true false "r" demo_world).2 in
  locals demo_world ⊆ locals w' ∧ locals w' ⊆ {[ "t" ]} ∪ locals demo_world ∧ w_fs w' = w_fs demo_world.
Proof. apply (manage_failure_exits "t" "F" ["A"] "." true false "r" demo_world _ IndexError). vm_refl. Defined.

Lemma demo_configs : NoDup (keys (image_configs_map demo_builder)).
Proof. apply (bool_decide_unpack _). vm_compute. exact I. Qed.

Definition demo_graph : graph := [("dev-env", {[ "build-env" ]}); ("build-env", ∅)].

Lemma demo_full_graph : full_graph (image_configs_map demo_builder) = Ok demo_graph.
Proof. vm_refl. Qed.

Lemma demo_no_tags : generated_tags demo_builder = ∅.
Proof. vm_refl. Qed.

(** The state after all images were built, the one after the first image, and
    the one [--print-tag dev-env] ends in. *)
Definition demo_built : World sim * DockerBuilder :=
  Eval vm_compute in (build_images 2 [] false false false demo_start).2.
Definition demo_ordered : World sim * DockerBuilder :=
  Eval vm_compute in (get_build_order ["dev-env"] demo_start).2.
Definition demo_first_built : World sim * DockerBuilder :=
  Eval vm_compute in (for_each (build_step 2 false None false false) ["build-env"] demo_ordered).2.
Definition demo_printed : World sim * DockerBuilder :=
  Eval vm_compute in (build_images 2 ["dev-env"] true false false demo_start).2.

Lemma build_images_complete_witness :
  ∃ g order plans,
    full_graph (image_configs_map demo_start.2) = Ok g ∧ build_order_ok g [] order ∧
    Forall2 (λ x tp, TagOf (w_fs demo_start.1) (w_cwd demo_start.1) demo_start.2 x tp.1 ∧
                     tp.1 ∈ locals demo_built.1 ∧
                     image_plan (demo_start.1, demo_start.2) false false x tp.1 tp.2) order plans ∧
    ran demo_built.1 = ran demo_start.1 ++ concat plans.*2.
Proof.
  apply (build_images_complete 2 [] false false demo_start.1 demo_start.2 demo_built).
  - apply demo_configs.
  - apply demo_no_tags.
  - vm_refl.
Defined.

Lemma dependencies_built_first_witness :
  ∃ tag, TagOf (w_fs demo_start.1) (w_cwd demo_start.1) demo_start.2 "build-env" tag ∧ tag ∈ locals demo_first_built.1.
Proof.
  apply (dependencies_built_first 2 ["dev-env"] false false false None demo_start.1 demo_start.2 demo_graph
           ["build-env"; "dev-env"] demo_ordered ["build-env"] "dev-env" [] demo_first_built).
  - apply demo_configs.
  - apply demo_no_tags.
  - apply demo_full_graph.
  - vm_refl.
  - reflexivity.
  - vm_refl.
  - unfold edge, deps_of. cbn. set_solver.
Defined.

Lemma print_tag_output_witness :
  ∃ tag, TagOf (w_fs demo_start.1) (w_cwd demo_start.1) demo_start.2 "dev-env" tag ∧ tag ∈ locals demo_printed.1 ∧
    stdout_of demo_printed.1 = stdout_of demo_start.1 ++ [tag +:+ nl].
Proof.
  refine (proj2 (print_tag_output 2 "dev-env" false false demo_start.1 demo_start.2 (Raise (SystemExit 0))
    demo_printed demo_graph _ _ _ _ _) eq_refl).
  - apply demo_configs.
  - apply demo_no_tags.
  - apply demo_full_graph.
  - cbn. set_solver.
  - vm_refl.
Defined.

(** ** The command line *)

(** The targets [main] accepts. *)
Definition targets_ok (args : build_namespace) (names : list string) : Prop :=
  if ba_print_tag args then ∃ t, ba_target_images args = [t] ∧ t ∈ names
  else ∀ t, t ∈ ba_target_images args → t ∈ names.

Section cli.
Context {PS : Type} {EX : Exec PS} {SO : SetOrder}.
Local Abbreviation W := (World PS).

Lemma check_targets_spec args names (w : W) r w' : check_targets args names w = (r, w') →
  quiet w w' ∧ (r = Ok tt ∧ targets_ok args names ∨ r = Raise (SystemExit 1)).
Proof.
  intros H. split.
  { assert (always quiet (check_targets (PS:=PS) args names)) as Hq; [|by apply Hq in H].
    unfold check_targets. frame. }
  assert (raises (λ e, e = SystemExit 1) (check_targets (PS:=PS) args names)) as Hr.
  { unfold check_targets. exc; by apply raises_sys_exit. }
  destruct r as [[]|e]; [left; split; [done|]|right; f_equal; by eapply Hr].
  unfold check_targets, targets_ok in *. destruct (ba_print_tag args).
  - destruct (ba_target_images args) as [|t [|]]; [done| |done]. exists t. split; [done|].
    case_bool_decide; [done|]. done.
  - intros t Ht. apply list_elem_of_split in Ht as (pre & post & Hsp). rewrite Hsp, for_each_app in H.
    apply M_bind_inv in H as ([] & w1 & _ & ([] & w2 & H & _)%M_bind_inv).
    case_bool_decide; [done|]. done.
Qed.

Lemma run_checked_ran cmd (w : W) r w' : run_checked cmd w = (r, w') →
  ran w' = ran w ++ [cmd] ∧ ∀ e, r = Raise e → not_success e.
Proof.
  intros H. split.
  - unfold run_checked in H. destruct (run_unchecked cmd w) as [ru w1] eqn:E.
    assert (w1 = w') as ->.
    { destruct ru as [[[rc out] err]|e].
      - rewrite (M_bind_ok _ _ _ _ _ E) in H. case_bool_decide; by injection H.
      - rewrite (M_bind_raise _ _ _ _ _ E) in H. by injection H. }
    apply run_unchecked_spec in E as (res & ps & f & _ & -> & _). apply ran_snoc.
  - intros e ->. assert (raises not_success (run_checked (PS:=PS) cmd)) as Hr; [|by apply Hr in H].
    apply raises_run_checked; [|done]. intros e' [He| ->]; [by destruct e'|done].
Qed.

Lemma check_installed_ran cmd m1 m2 log (w : W) r w' : check_installed cmd m1 m2 log w = (r, w') →
  ran w' = ran w ++ [cmd] ∧ ∀ e, r = Raise e → not_success e.
Proof.
  unfold check_installed, try_with. destruct (run_checked cmd w) as [[o|e] w1] eqn:E.
  - rewrite (M_bind_ok _ _ _ _ _ E). intros H. cbn in H. injection H as <- <-.
    apply run_checked_ran in E as [E _]. split; [|done]. rewrite <- E. apply quiet_log_event.
  - rewrite (M_bind_raise _ _ _ _ _ E). apply run_checked_ran in E as [E He].
    destruct (is_CalledProcessError e || is_FileNotFoundError e).
    2: { intros [= <- <-]. split; [done|]. intros e' [= ->]. by apply He. }
    set (m := _ ≫= _). assert (always quiet m ∧ raises not_success m) as [Hq Hr].
    { subst m. split; [frame|]. exc. by apply raises_sys_exit. }
    intros H. split; [|intros e' ->; by apply Hr in H].
    apply Hq in H as [_ H]. by rewrite H.
Qed.
End cli.

(** [main] builds only for targets it accepts: a run that does not end with a
    failure has read a configuration naming every target (and exactly one under
    [--print-tag]); a run stopped by the checks has started nothing but the two
    docker version checks. *)
Theorem main_checks_targets {PS : Type} {EX : Exec PS} {SO : SetOrder} n args (w : World PS) :
  let '(r, w') := main n args w in
  (∃ b (w1 w2 : World PS), new_builder (ba_config args) (ba_search_path args) w1 = (Ok b, w2) ∧
     targets_ok args (keys (image_configs_map b))) ∨
  ((∃ e, r = Raise e ∧ e ≠ SystemExit 0) ∧
   ran w' `prefix_of` ran w ++ [["docker"; "--version"]; ["docker"; "buildx"; "version"]]).
Proof.
  destruct (main n args w) as [r w'] eqn:H. unfold main in H.
  destruct (check_docker_installed (ba_log_file args) w) as [[[]|e] w1] eqn:E1;
    pose proof (check_installed_ran _ _ _ _ _ _ _ E1) as [Hr1 He1].
  2: { rewrite (M_bind_raise _ _ _ _ _ E1) in H. injection H as <- <-. right. split; [by eexists; split; [|apply He1]|].
       rewrite Hr1. exists [["docker"; "buildx"; "version"]]. by rewrite <- app_assoc. }
  rewrite (M_bind_ok _ _ _ _ _ E1) in H.
  destruct (check_docker_buildx_installed (ba_log_file args) w1) as [[[]|e] w2] eqn:E2;
    pose proof (check_installed_ran _ _ _ _ _ _ _ E2) as [Hr2 He2]; rewrite Hr1, <- app_assoc in Hr2.
  2: { rewrite (M_bind_raise _ _ _ _ _ E2) in H. injection H as <- <-. right. split; [by eexists; split; [|apply He2]|].
       by rewrite Hr2. }
  rewrite (M_bind_ok _ _ _ _ _ E2) in H.
  destruct (new_builder (ba_config args) (ba_search_path args) w2) as [[b|e] w3] eqn:E3;
    pose proof (new_builder_spec _ _ _ _ _ E3) as [[_ Hr3] Hspec].
  2: { rewrite (M_bind_raise _ _ _ _ _ E3) in H. injection H as <- <-. right.
       split; [|by rewrite Hr3, Hr2]. eexists; split; [done|]. destruct Hspec as [->|Hos]; [done|by destruct e]. }
  rewrite (M_bind_ok _ _ _ _ _ E3) in H.
  destruct (check_targets args (keys (image_configs_map b)) w3) as [rt w4] eqn:E4.
  pose proof (check_targets_spec _ _ _ _ _ E4) as [[_ Hr4] [[-> Hok]| ->]].
  - left. by exists b, w2, w3.
  - right. rewrite (M_bind_raise _ _ _ _ _ E4) in H. injection H as <- <-.
    split; [by eexists|]. by rewrite Hr4, Hr3, Hr2.
Qed.
