(* ===== verification/Cleanup.v ===== *)
(** * Background clean-up of old images (docker_cleanup.py)

    The name filter, the choice of what to remove and the interruptible removal
    loop.  The cancel event is set by another thread: [cancel] counts the
    observations ([is_set], [wait]) that still find it clear, [None] meaning
    that it is never set; once set it stays set. *)

From stdpp Require Import base gmap sets list strings.
From Stdlib Require Import Ascii ZArith Lia.
From S2P Require Import Prelude PyStr Fs World Json Config Graph Sha256 DockerOps Builder.

Definition CLEANUP_BATCH_SIZE : Z := 4.
Definition CLEANUP_THRESHOLD_DAYS : Z := 7.

Definition ALLOWED_IMAGE_NAMES : list string :=
  ["build-env"; "build-env-debian"; "build-env-rockylinux"; "clion-ide"; "dev-env"; "gcloud-env";
   "goland-ide"; "ide-env"; "intellij-ide"; "nitro-cli-linux6"; "pycharm-ide"; "tool-env";
   "vscode-ide"; "vscode-server"].

(** ** The image pattern *)

(** Split at the last occurrence of [c]. *)
Fixpoint rsplit1 (c : ascii) (s : string) : option (string * string) :=
  match s with
  | "" => None
  | String d s =>
      match rsplit1 c s with
      | Some (a, b) => Some (String d a, b)
      | None => if bool_decide (d = c) then Some ("", s) else None
      end
  end.

(** [[a-zA-Z0-9_]] *)
Definition is_word (c : ascii) : bool :=
  is_digit c || ((65 <=? code c)%N && (code c <=? 90)%N) || ((97 <=? code c)%N && (code c <=? 122)%N)
  || (code c =? 95)%N.

(** The part of the pattern before the last slash: a path with a component
    [devkit]; the dot does not match a newline. *)
Definition devkit_path (p : string) : bool :=
  negb (str_mem newline p) && bool_decide ("devkit" ∈ split_on "/" p).

(** [IMAGE_PATTERN.match(s).group(1)].  The dollar also matches before a final
    newline; the name is what lies between the last colon and the last slash
    before it. *)
Definition drop_final_newline (s : string) : string :=
  match rsplit1 newline s with Some (a, "") => a | _ => s end.

Definition match_image (s : string) : option string :=
  match rsplit1 ":" (drop_final_newline s) with
  | Some (before, tag) =>
      match rsplit1 "/" before with
      | Some (path, name) =>
          let '(arch, hash) := split1 "-" tag in
          if devkit_path path && negb (bool_decide (name = "")) && negb (str_mem ":" name)
             && negb (bool_decide (arch = "")) && str_forall is_word arch
             && (String.length hash =? 64) && str_forall is_hex hash && str_mem "-" tag
          then Some name else None
      | None => None
      end
  | None => None
  end.

(** What the regular expression says. *)
Definition image_pattern (s name : string) : Prop :=
  ∃ path arch hash tail,
    s = path +:+ "/" +:+ name +:+ ":" +:+ arch +:+ "-" +:+ hash +:+ tail ∧
    (tail = "" ∨ tail = nl) ∧
    (∃ pre post, path = pre +:+ "devkit" +:+ post ∧ str_mem newline path = false ∧
       (pre = "" ∨ ∃ q, pre = q +:+ "/") ∧ (post = "" ∨ ∃ q, post = "/" +:+ q)) ∧
    name ≠ "" ∧ str_mem "/" name = false ∧ str_mem ":" name = false ∧
    arch ≠ "" ∧ str_forall is_word arch = true ∧
    String.length hash = 64 ∧ str_forall is_hex hash = true.

(** ** What to remove *)

(** [docker rmi] run under [Popen]: how often [poll] finds it running, and what
    a [terminate] leaves behind. *)
Class Popen (PS : Type) := {
  popen_polls : list string → PS * fs → nat;
  popen_killed : list string → PS * fs → PS * fs
}.

Section cleanup.
Context {PS : Type} {EX : Exec PS} {SO : SetOrder} {PO : Popen PS}.
Local Abbreviation W := (World PS).
Variable frames : nat.

Definition get_ignored_images (config_path : Path) (search_paths : list Path) : M W (list string) :=
  try_with
    (ignored_images ← get_all_docker_image_tags frames config_path search_paths [];
     log_info ("Determined " +:+ str_of_Z (Z.of_nat (length ignored_images)) +:+ " images to ignore during cleanup.") ;;
     mret ignored_images)
    (λ e, if is_Exception e
          then Some (log_warning ("Failed to calculate ignored images for cleanup: " +:+ exn_str e) ;; mret [])
          else None).

Definition images_cmd (image_prefix : string) (threshold_days : Z) : list string :=
  ["docker"; "images"; "--filter"; "reference=" +:+ image_prefix +:+ "/*"; "--filter";
   "until=" +:+ str_of_Z (threshold_days * 24) +:+ "h"; "--format"; "{{.Repository}}:{{.Tag}}"].

Definition get_images (image_prefix : string) (threshold_days : Z) : M W (list string) :=
  try_with
    ('(out, _) ← run_checked (images_cmd image_prefix threshold_days);
     mret (splitlines (strip out)))
    (λ e, if is_CalledProcessError e || is_FileNotFoundError e
          then Some (log_warning ("Failed to list docker images: " +:+ exn_str e) ;; mret [])
          else None).

Definition filter_image (allowed_images : list string) (img : string) : M W (list string) :=
  match match_image img with
  | Some image_name =>
      if bool_decide (image_name ∈ ALLOWED_IMAGE_NAMES) then mret (allowed_images ++ [img])
      else log_info ("Skipping image " +:+ img +:+ " as it is not in the allowlist.") ;;
           mret allowed_images
  | None =>
      log_info ("Skipping image " +:+ img +:+ " as it does not match the expected format.") ;;
      mret allowed_images
  end.

Definition filter_allowed_images (images : list string) : M W (list string) :=
  for_acc filter_image [] images.

Definition get_images_to_cleanup (config_path : Path) (search_paths : list Path) (threshold_days : Z) :
    M W (list string) :=
  image_prefix ← get_image_prefix config_path;
  all_images ← get_images image_prefix threshold_days;
  match all_images with
  | [] => log_info "No images found for cleanup." ;; mret []
  | _ =>
      allowed_images ← filter_allowed_images all_images;
      match allowed_images with
      | [] => log_info "No allowed images found for cleanup." ;; mret []
      | _ =>
          ignored_images ← get_ignored_images config_path search_paths;
          match filter (λ img, img ∉ ignored_images) allowed_images with
          | [] =>
              log_info "All found images are in the ignore list. Nothing to clean up." ;; mret []
          | all_to_cleanup =>
              log_info ("Found " +:+ str_of_Z (Z.of_nat (length all_to_cleanup)) +:+ " images to clean up.") ;;
              mret all_to_cleanup
          end
      end
  end.

(** ** Removing *)

Local Abbreviation C := (World PS * option nat)%type.

Definition onW {A} (m : M W A) : M C A := λ s, let '(r, w) := m s.1 in (r, (w, s.2)).

(** [cancel_event.is_set()], [cancel_event.wait(t)] *)
Definition observe_cancel : M C bool := λ s,
  match s.2 with
  | None => (Ok false, s)
  | Some O => (Ok true, s)
  | Some (S n) => (Ok false, (s.1, Some n))
  end.

Definition rmi_cmd (tag : string) : list string := ["docker"; "rmi"; tag].

(** [while proc.poll() is None: if cancel_event.wait(0.1): ...; return] *)
Fixpoint poll_loop (polls : nat) : M C bool :=
  match polls with
  | O => mret false
  | S polls => cancelled ← observe_cancel; if (cancelled : bool) then mret true else poll_loop polls
  end.

Definition log_lines (log : string → M W ()) (prefix text : string) : M W () :=
  when (negb (bool_decide (text = "")))
    (for_each (λ line, log (prefix +:+ line)) (splitlines (strip text))).

(** [Popen(cmd)]: the program has started; its outcome comes when it ends. *)
Definition popen_start (cmd : list string) : M W nat := λ w,
  match (exec cmd (w_procs w, w_fs w)).1 with
  | NoSuchProgram =>
      (Raise (FileNotFoundError ("[Errno 2] No such file or directory: '" +:+ default "" (head cmd) +:+ "'")),
       emit_event (Ran cmd) w)
  | _ => (Ok (popen_polls cmd (w_procs w, w_fs w)), emit_event (Ran cmd) w)
  end.

Definition popen_finish (cmd : list string) : M W proc_result := λ w,
  let '(r, (ps, f)) := exec cmd (w_procs w, w_fs w) in
  (Ok r, mkWorld (w_env w) f (w_cwd w) (w_trace w) ps).

Definition popen_terminate (cmd : list string) : M W () := λ w,
  let '(ps, f) := popen_killed cmd (w_procs w, w_fs w) in
  (Ok tt, mkWorld (w_env w) f (w_cwd w) (w_trace w) ps).

(** The body of the [with]: poll until the end or the cancellation ([true]: the
    batch returns), then report. *)
Definition after_start (tag : string) (polls : nat) : M C bool :=
  cancelled ← poll_loop polls;
  if (cancelled : bool) then
    onW (log_info ("Cleanup cancelled; exiting removal loop for " +:+ tag)) ;;
    onW (popen_terminate (rmi_cmd tag)) ;;
    mret true
  else
    r ← onW (popen_finish (rmi_cmd tag));
    match r with
    | Finished rc out err =>
        onW (log_lines log_info "[docker rmi stdout]: " out) ;;
        onW (log_lines log_warning "[docker rmi stderr]: " err) ;;
        when (negb (bool_decide (rc = 0%Z)))
          (onW (log_warning ("Failed to remove image " +:+ tag +:+ " (exit code " +:+ str_of_Z rc +:+ ")"))) ;;
        mret false
    | NoSuchProgram => raise (FileNotFoundError "docker")
    | Interrupted => raise KeyboardInterrupt
    end.

Definition removal_handler (tag : string) (e : exn) : option (M C bool) :=
  if is_Exception e
  then Some (onW (log_warning ("Error during image removal of " +:+ tag +:+ ": " +:+ exn_str e)) ;; mret false)
  else None.

Definition remove_image (tag : string) : M C bool :=
  try_with (polls ← onW (popen_start (rmi_cmd tag)); after_start tag polls) (removal_handler tag).

Fixpoint removal_loop (tags : list string) : M C () :=
  match tags with
  | [] => mret tt
  | tag :: tags =>
      cancelled ← observe_cancel;
      if (cancelled : bool) then mret tt
      else
        onW (log_info ("Removing image: " +:+ tag)) ;;
        stop ← remove_image tag;
        if (stop : bool) then mret tt else removal_loop tags
  end.

Definition cleanup_images_batch (images_to_cleanup : list string) : M C () :=
  match images_to_cleanup with
  | [] => mret tt
  | _ =>
      onW (log_info ("Cleaning up " +:+ str_of_Z (Z.of_nat (length images_to_cleanup)) +:+ " images in this batch.")) ;;
      removal_loop images_to_cleanup
  end.

(** [l[i : i + n] for i in range(0, len(l), n)], for [n > 0] *)
Fixpoint batches (fuel n : nat) (l : list string) : list (list string) :=
  match fuel, l with
  | S fuel, _ :: _ => take n l :: batches fuel n (drop n l)
  | _, _ => []
  end.

Fixpoint batch_loop (l : list (list string)) : M C () :=
  match l with
  | [] => mret tt
  | batch :: l =>
      cleanup_images_batch batch ;;
      cancelled ← observe_cancel;
      if (cancelled : bool) then mret tt else batch_loop l
  end.

Definition cleanup_images (config_path : Path) (search_paths : list Path) (batch_size threshold_days : Z) : M C () :=
  cancelled ← observe_cancel;
  if (cancelled : bool) then mret tt
  else
    all_to_cleanup ← onW (get_images_to_cleanup config_path search_paths threshold_days);
    if bool_decide (batch_size = 0%Z) then raise (ValueError "range() arg 3 must not be zero")
    else if (batch_size <? 0)%Z then mret tt
    else batch_loop (batches (length all_to_cleanup) (Z.to_nat batch_size) all_to_cleanup).

(** [start_background_cleanup]: [cleanup_images] with the module's constants in a
    daemon thread.  In the sequential program of the runner only its start is recorded;
    the thread itself, one move at a time, is in CleanupThread, and beside the main
    thread in System. *)
Definition cleanup_thread : string := "DockerCleanupThread".

Definition start_background_cleanup (config_path : Path) (search_paths : list Path) : M W () :=
  emit (Thread cleanup_thread ThreadStart).

(** [main] after [parse_args]: nobody sets the event while the loop runs. *)
Definition main (config_path : Path) (search_path : list Path) (batch_size threshold_days : Z) : M W () := λ w,
  let '(r, (w', _)) :=
    try_with (cleanup_images config_path search_path batch_size threshold_days)
      (λ e, match e with
            | KeyboardInterrupt => Some (onW (log_info "Cleanup interrupted by user."))
            | _ => None
            end) (w, None) in
  (r, w').
End cleanup.
