(* ===== verification/CleanupProofs.v ===== *)
(** * The clean-up: what is chosen and what is removed

    The matcher of the image pattern agrees with the regular expression; what
    the loop removes is a prefix of the candidates, cut where the cancel event
    was observed. *)

From stdpp Require Import base gmap sets list strings.
From Stdlib Require Import Ascii ZArith Lia.
From S2P Require Import Prelude PyStr Fs World Json Config Graph Sha256 DockerOps Builder.
From S2P Require Import BuilderTags BuilderRun BuilderConfig Cleanup.

(** ** Strings *)

Lemma rsplit1_None c s : rsplit1 c s = None ↔ str_mem c s = false.
Proof.
  induction s as [|d s IH]; cbn; [done|]. destruct (rsplit1 c s) as [[a b]|].
  - split; [done|]. intros [_ H]%orb_false_iff. by apply IH in H.
  - rewrite orb_false_iff, <- IH. case_bool_decide; case_bool_decide; naive_solver.
Qed.

Lemma rsplit1_Some c s a b : rsplit1 c s = Some (a, b) ↔ s = a +:+ String c b ∧ str_mem c b = false.
Proof.
  revert a. induction s as [|d s IH]; intros a; cbn.
  - split; [done|]. intros [H _]. destruct a; [rewrite str_app_nil_l in H|rewrite str_app_cons in H]; done.
  - destruct (rsplit1 c s) as [[a' b']|] eqn:E.
    + split.
      * intros [= <- <-]. destruct (IH a') as [H _]. destruct (H eq_refl) as [-> ?]. by rewrite str_app_cons.
      * intros [H Hb]. destruct a as [|d' a]; rewrite ?str_app_nil_l, ?str_app_cons in H; injection H as -> ->.
        -- apply rsplit1_None in Hb. congruence.
        -- assert (Some (a', b') = Some (a, b)) as [= <- <-]; [|done]. by apply IH.
    + apply rsplit1_None in E. case_bool_decide as Hd.
      * split; [intros [= <- <-]; by rewrite str_app_nil_l, Hd|].
        intros [H Hb]. destruct a as [|d' a]; rewrite ?str_app_nil_l, ?str_app_cons in H; injection H as -> ->; [done|].
        rewrite str_mem_app in E. cbn in E. rewrite bool_decide_eq_true_2 in E by done.
        apply orb_false_iff in E as [_ E]. done.
      * split; [done|]. intros [H Hb].
        destruct a as [|d' a]; rewrite ?str_app_nil_l, ?str_app_cons in H; injection H as -> ->; [done|].
        rewrite str_mem_app in E. cbn in E. rewrite bool_decide_eq_true_2 in E by done.
        apply orb_false_iff in E as [_ E]. done.
Qed.

Lemma split_on_sep c s t : split_on c (s +:+ String c t) = split_on c s ++ split_on c t.
Proof.
  induction s as [|d s IH].
  - rewrite str_app_nil_l. cbn. by rewrite bool_decide_eq_true_2.
  - rewrite str_app_cons. cbn. rewrite IH. case_bool_decide; [done|].
    destruct (split_on c s) eqn:E; [|done]. by destruct s as [|d' s']; cbn in E; repeat (case_match; try done).
Qed.

Definition ends_sep (c : ascii) (p : string) : Prop := p = "" ∨ ∃ q, p = q +:+ String c "".
Definition starts_sep (c : ascii) (p : string) : Prop := p = "" ∨ ∃ q, p = String c q.

(** The first field, and the other fields. *)
Lemma split_on_cases c s : ∃ h t, split_on c s = h :: t ∧
  (∃ post, s = h +:+ post ∧ starts_sep c post) ∧
  (∀ x, x ∈ t → ∃ pre post, s = pre +:+ String c (x +:+ post) ∧ starts_sep c post) ∧ str_mem c h = false.
Proof.
  induction s as [|d s (h & t & E & (post & Hs & Hp) & Ht & Hm)]; cbn.
  - exists "", []. split; [done|]. split; [by exists ""; split; [|left]|]. split; [by intros x ?%elem_of_nil|done].
  - case_bool_decide as Hd; subst.
    + exists "", (split_on c (h +:+ post)). split; [done|]. split.
      { exists (String c (h +:+ post)). split; [done|]. right. eauto. }
      split; [|done]. rewrite E. intros x [->|Hx]%elem_of_cons.
      * exists "", post. by rewrite str_app_nil_l.
      * destruct (Ht x Hx) as (pre & post' & -> & ?). exists (String c pre), post'.
        by rewrite str_app_cons.
    + rewrite E. exists (String d h), t. split; [done|]. split; [exists post; by rewrite str_app_cons|].
      split.
      * intros x Hx. destruct (Ht x Hx) as (pre & post' & -> & ?). exists (String d pre), post'.
        by rewrite str_app_cons.
      * cbn. rewrite bool_decide_eq_false_2 by congruence. done.
Qed.

Lemma elem_of_split_on c s x : str_mem c x = false →
  x ∈ split_on c s ↔ ∃ pre post, s = pre +:+ x +:+ post ∧ ends_sep c pre ∧ starts_sep c post.
Proof.
  intros Hx. split.
  - destruct (split_on_cases c s) as (h & t & -> & (post & -> & Hp) & Ht & _).
    intros [->|Hin]%elem_of_cons.
    + exists "", post. split; [done|]. split; [by left|done].
    + destruct (Ht x Hin) as (pre & post' & -> & ?). exists (pre +:+ String c ""), post'.
      rewrite str_app_assoc, str_app_cons, str_app_nil_l. split; [done|]. split; [right; eauto|done].
  - intros (pre & post & -> & Hpre & Hpost).
    assert (x ∈ split_on c (x +:+ post)) as Hin.
    { destruct Hpost as [->|[q ->]]; [rewrite str_app_nil_r, split_on_no_sep by done; left|].
      rewrite split_on_app by done. left. }
    destruct Hpre as [->|[q ->]]; [done|]. rewrite str_app_assoc, str_app_cons, str_app_nil_l, split_on_sep.
    apply elem_of_app. by right.
Qed.

(** ** The image pattern *)

Lemma drop_final_newline_cases s : ∃ tail, s = drop_final_newline s +:+ tail ∧ (tail = "" ∨ tail = nl).
Proof.
  unfold drop_final_newline. destruct (rsplit1 newline s) as [[a b]|] eqn:E.
  - destruct b; [|exists ""; rewrite str_app_nil_r; auto].
    exists nl. apply rsplit1_Some in E as [-> _]. auto.
  - exists "". rewrite str_app_nil_r. auto.
Qed.

(** A text that ends in hexadecimal digits keeps all but an added newline. *)
Lemma drop_final_newline_hex y h tail : h ≠ "" → str_forall is_hex h = true → tail = "" ∨ tail = nl →
  drop_final_newline ((y +:+ h) +:+ tail) = y +:+ h.
Proof.
  intros Hh Hhex Ht. unfold drop_final_newline.
  assert (str_mem newline h = false) as Hm by (by apply (str_forall_not_mem is_hex)).
  destruct Ht as [->| ->].
  - rewrite str_app_nil_r. destruct (rsplit1 newline (y +:+ h)) as [[a b]|] eqn:E; [|done].
    destruct b; [|done]. exfalso. apply rsplit1_Some in E as [E _].
    destruct (rsplit1 newline y) as [[a' b']|] eqn:Ey.
    + apply rsplit1_Some in Ey as [-> Hb'].
      assert (rsplit1 newline ((a' +:+ String newline b') +:+ h) = Some (a', b' +:+ h)) as E1.
      { apply rsplit1_Some. rewrite str_app_assoc, str_app_cons, str_mem_app, Hb', Hm. done. }
      assert (rsplit1 newline ((a' +:+ String newline b') +:+ h) = Some (a, "")) as E2 by (by apply rsplit1_Some).
      rewrite E1 in E2. injection E2 as _ E2. by destruct b', h.
    + apply rsplit1_None in Ey. assert (str_mem newline (y +:+ h) = false) as Hn by (by rewrite str_mem_app, Ey, Hm).
      rewrite E, str_mem_app in Hn. cbn in Hn. by rewrite orb_true_r in Hn.
  - assert (rsplit1 newline ((y +:+ h) +:+ nl) = Some (y +:+ h, "")) as ->; [|done].
    by apply rsplit1_Some.
Qed.

Lemma devkit_path_spec p : devkit_path p = true ↔
  ∃ pre post, p = pre +:+ "devkit" +:+ post ∧ str_mem newline p = false ∧
    (pre = "" ∨ ∃ q, pre = q +:+ "/") ∧ (post = "" ∨ ∃ q, post = "/" +:+ q).
Proof.
  unfold devkit_path. rewrite andb_true_iff, negb_true_iff, bool_decide_eq_true.
  rewrite elem_of_split_on by done. unfold ends_sep, starts_sep.
  split.
  - intros (? & pre & post & ? & ? & Hp). exists pre, post. by split_and!.
  - intros (pre & post & ? & ? & ? & Hp). split; [done|]. exists pre, post. by split_and!.
Qed.

Lemma split1_cases c s : str_mem c s = true →
  s = (split1 c s).1 +:+ String c (split1 c s).2 ∧ str_mem c (split1 c s).1 = false.
Proof.
  induction s as [|d s IH]; cbn; [done|]. case_bool_decide as Hd; subst.
  - rewrite bool_decide_eq_true_2 by done. cbn. by rewrite str_app_nil_l.
  - rewrite bool_decide_eq_false_2 by done. cbn. intros Hs. destruct (IH Hs) as [E Hm].
    destruct (split1 c s) as [a b]. cbn in *. rewrite bool_decide_eq_false_2 by done. cbn. rewrite str_app_cons.
    split; [by rewrite <- E|done].
Qed.

(** The executable matcher decides the pattern and finds its only group. *)
Lemma match_image_spec s name : match_image s = Some name ↔ image_pattern s name.
Proof.
  split.
  - unfold match_image. destruct (drop_final_newline_cases s) as (tail & Hs & Ht).
    destruct (rsplit1 ":" _) as [[before tag]|] eqn:E1; [|done]. apply rsplit1_Some in E1 as [E1 Hc1].
    destruct (rsplit1 "/" before) as [[path nm]|] eqn:E2; [|done]. apply rsplit1_Some in E2 as [-> Hc2].
    destruct (split1 "-" tag) as [arch hash] eqn:E3.
    destruct (_ && _) eqn:Eb; [|done]. intros [= ->].
    rewrite !andb_true_iff, !negb_true_iff, !bool_decide_eq_false, Nat.eqb_eq, devkit_path_spec in Eb.
    destruct Eb as [[[[[[[Hp ?] ?] ?] ?] ?] ?] Hd].
    destruct (split1_cases "-" tag Hd) as [Htag _]. rewrite E3 in Htag. cbn in Htag.
    exists path, arch, hash, tail. split_and!; try done.
    rewrite Hs, E1, Htag. by str_norm.
  - intros (path & arch & hash & tail & -> & Ht & Hp & Hn & Hn1 & Hn2 & Ha & Haw & Hl & Hh).
    assert (hash ≠ "") as Hne by (by destruct hash).
    assert (str_mem ":" arch = false ∧ str_mem "-" arch = false ∧ str_mem ":" hash = false) as (Hc1 & Hc2 & Hc3)
      by (split_and!; [by apply (str_forall_not_mem is_word)..|by apply (str_forall_not_mem is_hex)]).
    set (before := path +:+ String "/" name). set (tag := arch +:+ String "-" hash).
    assert (path +:+ "/" +:+ name +:+ ":" +:+ arch +:+ "-" +:+ hash +:+ tail =
      ((before +:+ String ":" (arch +:+ "-")) +:+ hash) +:+ tail) as ->.
    { subst before tag. by str_norm. }
    unfold match_image. rewrite drop_final_newline_hex by done.
    assert (rsplit1 ":" ((before +:+ String ":" (arch +:+ "-")) +:+ hash) = Some (before, tag)) as ->.
    { apply rsplit1_Some. subst tag. split.
      - by str_norm.
      - rewrite str_mem_app. cbn. by rewrite Hc1, Hc3. }
    assert (rsplit1 "/" before = Some (path, name)) as -> by (by apply rsplit1_Some).
    subst tag. rewrite split1_app by done. apply devkit_path_spec in Hp.
    rewrite Hp, Hn2, Haw, Hh, Hl, str_mem_app, !bool_decide_eq_false_2 by done. cbn.
    by rewrite orb_true_r.
Qed.

(** ** The choice *)

(** An image the filter lets through. *)
Definition allowed (img : string) : bool :=
  match match_image img with
  | Some name => bool_decide (name ∈ ALLOWED_IMAGE_NAMES)
  | None => false
  end.

(** What the clean-up relies on of docker, besides [DockerSpec]: listing
    changes nothing; a removal, finished or killed, removes at most its image. *)
Class CleanSpec (PS : Type) {EX : Exec PS} {DS : DockerSpec PS} {PO : Popen PS} := {
  docker_images p d ps f r ps' f' :
    exec (images_cmd p d) (ps, f) = (r, (ps', f')) → ps' = ps ∧ f' = f;
  docker_rmi tag ps f r ps' f' :
    exec (rmi_cmd tag) (ps, f) = (r, (ps', f')) →
    f' = f ∧ local_images ps' ⊆ local_images ps ∧ local_images ps ∖ {[tag]} ⊆ local_images ps';
  docker_rmi_killed tag ps f ps' f' :
    popen_killed (rmi_cmd tag) (ps, f) = (ps', f') →
    f' = f ∧ local_images ps' ⊆ local_images ps ∧ local_images ps ∖ {[tag]} ⊆ local_images ps'
}.

Section choice.
Context {PS : Type} {EX : Exec PS} {SO : SetOrder} {PO : Popen PS}.
Local Abbreviation W := (World PS).
Variable frames : nat.

Lemma quiet_filter_allowed imgs : always quiet (filter_allowed_images (PS:=PS) imgs).
Proof. unfold filter_allowed_images, filter_image. frame. Qed.

Lemma filter_image_eq acc img (w : W) :
  ∃ w', filter_image acc img w = (Ok (acc ++ if allowed img then [img] else []), w').
Proof.
  unfold filter_image, allowed. destruct (match_image img) as [name|]; [case_bool_decide|]; rewrite ?app_nil_r; by eexists.
Qed.

Lemma filter_allowed_eq imgs (w : W) :
  ∃ w', filter_allowed_images imgs w = (Ok (filter (λ i, allowed i = true) imgs), w').
Proof.
  unfold filter_allowed_images.
  enough (∀ acc w, ∃ w', for_acc (filter_image (PS:=PS)) acc imgs w =
    (Ok (acc ++ filter (λ i, allowed i = true) imgs), w')) as H by apply (H []).
  induction imgs as [|img imgs IH]; intros acc w1; [by rewrite app_nil_r; eexists|]. cbn [for_acc].
  destruct (filter_image_eq acc img w1) as [w2 H2]. rewrite (M_bind_ok _ _ _ _ _ H2), filter_cons.
  destruct (IH (acc ++ if allowed img then [img] else []) w2) as [w' Hw]. exists w'. rewrite Hw.
  case_decide as Ha; [rewrite Ha, <- app_assoc; done|].
  apply not_true_is_false in Ha. by rewrite Ha, app_nil_r.
Qed.
End choice.

(** ** The removal loop *)

Section removal.
Context {PS : Type} {EX : Exec PS} {SO : SetOrder} {PO : Popen PS}.
Local Abbreviation W := (World PS).
Local Abbreviation C := (World PS * option nat)%type.

(** What the passage from one cancel counter to another allows: [k] more
    observations that found the event clear. *)
Definition spent (k : nat) (c c' : option nat) : Prop :=
  match c with None => c' = None | Some n => ∃ n', c' = Some n' ∧ n' + k ≤ n end.

Lemma spent_trans k1 k2 c1 c2 c3 : spent k1 c1 c2 → spent k2 c2 c3 → spent (k1 + k2) c1 c3.
Proof.
  unfold spent. destruct c1 as [n1|]; [|by intros ->]. intros (n2 & -> & ?) (n3 & -> & ?). exists n3. split; [done|lia].
Qed.

Lemma spent_weaken k c c' : spent k c c' → spent 0 c c'.
Proof. unfold spent. destruct c; [|done]. intros (n' & -> & ?). exists n'. split; [done|lia]. Qed.

Lemma spent_refl c : spent 0 c c.
Proof. unfold spent. destruct c; [|done]. eexists; split; [done|lia]. Qed.

Lemma observe_cancel_spec (s : C) r s' : observe_cancel s = (r, s') →
  s'.1 = s.1 ∧ ((r = Ok true ∧ s'.2 = Some 0 ∧ s.2 = Some 0) ∨ (r = Ok false ∧ spent 1 s.2 s'.2)).
Proof.
  destruct s as [w [[|n]|]]; cbn; intros [= <- <-]; cbn; [by eauto 10| |by eauto].
  split; [done|]. right. split; [done|]. exists n. split; [done|lia].
Qed.

Lemma poll_loop_spec n (s : C) r s' : poll_loop n s = (r, s') →
  s'.1 = s.1 ∧ spent 0 s.2 s'.2 ∧ ((r = Ok true ∧ s'.2 = Some 0) ∨ r = Ok false).
Proof.
  revert s. induction n as [|n IH]; intros s H; cbn in H.
  { injection H as <- <-. split_and!; [done|apply spent_refl|by right]. }
  destruct (observe_cancel s) as [rc s1] eqn:E. pose proof (observe_cancel_spec _ _ _ E) as [Hw [(-> & H0 & H00)|(-> & Hs)]].
  - rewrite (M_bind_ok _ _ _ _ _ E) in H. injection H as <- <-.
    split_and!; [done| |by left]. rewrite H0, H00. apply spent_refl.
  - rewrite (M_bind_ok _ _ _ _ _ E) in H. apply IH in H as (Hw2 & Hs2 & Hr). rewrite Hw in Hw2.
    split_and!; [done| |done]. eapply spent_weaken, spent_trans; done.
Qed.

Lemma onW_inv {A} (m : M W A) s (r : result A) s' : onW m s = (r, s') → m s.1 = (r, s'.1) ∧ s'.2 = s.2.
Proof. unfold onW. destruct (m s.1) as [r' w']. intros. by simplify_eq. Qed.

(** *** Nothing is started after the removal *)

Definition no_start (s s' : C) : Prop := ran s'.1 = ran s.1 ∧ spent 0 s.2 s'.2.

#[local] Instance no_start_preorder : PreOrder no_start.
Proof.
  split; [intros s; split; [done|apply spent_refl]|].
  intros x y z [? ?] [? ?]. split; [congruence|]. by eapply (spent_trans 0 0).
Qed.

Lemma no_start_onW {A} (m : M W A) : always quiet m → always no_start (onW m).
Proof. intros Hm s r s' [H Hc]%onW_inv. apply Hm in H as [_ ?]. split; [done|]. rewrite Hc. apply spent_refl. Qed.

Lemma no_start_finish cmd : always no_start (onW (popen_finish (PS:=PS) cmd)).
Proof.
  intros s r s' [H Hc]%onW_inv. unfold popen_finish in H. destruct (exec _ _) as [r0 [ps f]].
  injection H as _ H. unfold no_start. rewrite <- H, Hc. split; [done|apply spent_refl].
Qed.

Lemma no_start_terminate cmd : always no_start (onW (popen_terminate (PS:=PS) cmd)).
Proof.
  intros s r s' [H Hc]%onW_inv. unfold popen_terminate in H. destruct (popen_killed _ _) as [ps f].
  injection H as _ H. unfold no_start. rewrite <- H, Hc. split; [done|apply spent_refl].
Qed.

Lemma no_start_poll n : always no_start (poll_loop (PS:=PS) n).
Proof. intros s r s' (Hw & ? & _)%poll_loop_spec. unfold no_start. by rewrite Hw. Qed.

Lemma quiet_log_lines log pre text : (∀ l, always quiet (log l)) → always quiet (log_lines (PS:=PS) log pre text).
Proof. intros. unfold log_lines. frame. Qed.

#[local] Hint Resolve no_start_onW no_start_finish no_start_terminate no_start_poll quiet_log_lines : frame.

Lemma no_start_after tag polls : always no_start (after_start tag polls).
Proof. unfold after_start. frame. Qed.

Lemma raises_onW {A} P (m : M W A) : raises P m → raises P (onW m).
Proof. intros Hm s e s' [H _]%onW_inv. by eapply Hm. Qed.

Lemma raises_log_lines P log pre text : (∀ l, raises P (log l)) → raises P (log_lines (PS:=PS) log pre text).
Proof. intros. unfold log_lines. exc. Qed.

#[local] Hint Resolve raises_onW raises_log_lines : exc.

Definition removal_exn (e : exn) : Prop := is_Exception e = true ∨ e = KeyboardInterrupt.

Lemma raises_after_start tag polls : raises removal_exn (after_start tag polls).
Proof.
  unfold after_start. exc.
  - intros s e s' (_ & _ & [[? _]|?])%poll_loop_spec; done.
  - apply raises_onW. intros w e w' H. unfold popen_terminate in H. by destruct (popen_killed _ _).
  - apply raises_onW. intros w e w' H. unfold popen_finish in H. by destruct (exec _ _) as [? [? ?]].
  - apply raises_raise. by left.
  - apply raises_raise. by right.
Qed.

(** A removal that asks for the end of the batch has seen the event set. *)
Lemma after_start_stop tag polls (s : C) b s' : after_start tag polls s = (Ok b, s') → b = true → s'.2 = Some 0.
Proof.
  unfold after_start. intros H ->. apply M_bind_inv in H as (c & s1 & Hp & H).
  apply poll_loop_spec in Hp as (_ & _ & Hp). destruct c.
  - destruct Hp as [[_ Hp]|?]; [|done].
    apply M_bind_inv in H as (? & s2 & [_ H1]%onW_inv & H).
    apply M_bind_inv in H as (? & s3 & [_ H2]%onW_inv & H). injection H as <-. congruence.
  - apply M_bind_inv in H as (r & s2 & _ & H). destruct r; [|done..].
    repeat (apply M_bind_inv in H as (? & ? & _ & H)). done.
Qed.

Lemma popen_start_spec tag (s : C) r s' : onW (popen_start (rmi_cmd tag)) s = (r, s') →
  ran s'.1 = ran s.1 ++ [rmi_cmd tag] ∧ s'.2 = s.2 ∧ ∀ e, r = Raise e → is_Exception e = true.
Proof.
  intros [H ?]%onW_inv. unfold popen_start in H.
  destruct (exec _ _).1; injection H as <- <-; (split_and!; [unfold ran; cbn; by rewrite commands_app|done|]);
    intros e He; by simplify_eq.
Qed.

(** The [except] clause: any exception is reported and the loop goes on. *)
Lemma handle_removal tag e (s : C) r s' : removal_exn e →
  match removal_handler tag e with Some k => k s | None => (Raise e, s) end = (r, s') →
  no_start s s' ∧ (r = Ok false ∨ r = Raise KeyboardInterrupt).
Proof.
  unfold removal_handler. intros [->| ->] H; [|injection H as <- <-; split; [reflexivity|by auto]].
  split; [|unfold onW, log_warning, emit in H; munfold; injection H as <- _; by auto].
  match type of H with ?m s = _ => assert (always no_start m) as Hm by frame; by apply Hm in H end.
Qed.

(** One removal: one program started; it stops the batch only when cancelled,
    and only the user's interrupt escapes it. *)
Lemma remove_image_spec tag (s : C) r s' : remove_image tag s = (r, s') →
  ran s'.1 = ran s.1 ++ [rmi_cmd tag] ∧ spent 0 s.2 s'.2 ∧
  ((r = Ok true ∧ s'.2 = Some 0) ∨ r = Ok false ∨ r = Raise KeyboardInterrupt).
Proof.
  unfold remove_image, try_with.
  destruct (onW (popen_start (rmi_cmd tag)) s) as [r0 s1] eqn:E0. intros H.
  pose proof (popen_start_spec _ _ _ _ E0) as (Hr1 & Hc1 & He). destruct r0 as [polls|e0].
  - rewrite (M_bind_ok _ _ _ _ _ E0) in H.
    destruct (after_start tag polls s1) as [[b|e] s2] eqn:E1;
      pose proof (no_start_after _ _ _ _ _ E1) as [Hr2 Hs2]; rewrite Hr1 in Hr2; rewrite Hc1 in Hs2.
    + injection H as <- <-. split_and!; [done..|]. destruct b; [left|by auto].
      split; [done|]. by eapply after_start_stop.
    + apply handle_removal in H as ((? & ?) & Hr); [|by eapply raises_after_start].
      split_and!; [congruence|by eapply (spent_trans 0 0)|by auto].
  - rewrite (M_bind_raise _ _ _ _ _ E0) in H.
    apply handle_removal in H as ((? & ?) & Hr); [|left; by apply He].
    split_and!; [congruence|by rewrite <- Hc1|by auto].
Qed.

(** [removed tags s r s']: the programs started are the removals of a prefix of
    [tags], each after an observation that found the event clear; the prefix is
    everything unless the event was seen set or the user interrupted. *)
Definition removed (tags : list string) (s : C) (r : result ()) (s' : C) : Prop :=
  ∃ k, k ≤ length tags ∧ ran s'.1 = ran s.1 ++ map rmi_cmd (take k tags) ∧ spent k s.2 s'.2 ∧
    ((r = Ok tt ∧ (k = length tags ∨ s'.2 = Some 0)) ∨ r = Raise KeyboardInterrupt).

Lemma removed_nil tags s : s.2 = Some 0 ∨ tags = [] → removed tags s (Ok tt) s.
Proof.
  intros Hs. exists 0. rewrite take_0, app_nil_r. split_and!; [lia|done|apply spent_refl|left].
  split; [done|]. destruct Hs as [?| ->]; auto.
Qed.

(** A quiet prefix does not matter. *)
Lemma removed_no_start tags s s1 r s' : no_start s s1 → removed tags s1 r s' → removed tags s r s'.
Proof.
  intros [Hr Hs] (k & ? & Hran & Hsp & ?). exists k. split_and!; [done|congruence| |done].
  by eapply (spent_trans 0).
Qed.

Lemma removal_loop_spec tags : ∀ (s : C) r s', removal_loop tags s = (r, s') → removed tags s r s'.
Proof.
  induction tags as [|tag tags IH]; intros s r s' H; cbn [removal_loop] in H.
  { injection H as <- <-. apply removed_nil. by right. }
  destruct (observe_cancel s) as [rc s1] eqn:E.
  pose proof (observe_cancel_spec _ _ _ E) as [Hw [(-> & H0 & H00)|(-> & Hsp)]];
    rewrite (M_bind_ok _ _ _ _ _ E) in H.
  { injection H as <- <-. apply (removed_no_start _ _ s1); [|apply removed_nil; by left].
    split; [by rewrite Hw|]. rewrite H0, H00. apply spent_refl. }
  destruct (onW (log_info ("Removing image: " +:+ tag)) s1) as [rl s2] eqn:E1.
  pose proof (no_start_onW _ (quiet_log_info _) _ _ _ E1) as [Hr2 Hs2]. rewrite Hw in Hr2.
  assert (rl = Ok tt) as -> by (unfold onW, log_info, emit in E1; munfold; by injection E1).
  rewrite (M_bind_ok _ _ _ _ _ E1) in H.
  destruct (remove_image tag s2) as [rr s3] eqn:E2.
  pose proof (remove_image_spec _ _ _ _ E2) as (Hr3 & Hs3 & Hres). rewrite Hr2 in Hr3.
  assert (spent 1 s.2 s3.2) as Hs by (eapply (spent_trans 1 0); [done|by eapply (spent_trans 0 0)]).
  destruct Hres as [[-> H3]|[->| ->]].
  - rewrite (M_bind_ok _ _ _ _ _ E2) in H. injection H as <- <-. exists 1.
    split_and!; [cbn; lia|cbn; by rewrite take_0|done|by auto].
  - rewrite (M_bind_ok _ _ _ _ _ E2) in H. apply IH in H as (k & Hk & Hran & Hsk & Hr).
    exists (S k). cbn. split_and!; [lia|by rewrite Hran, Hr3, <- app_assoc|by eapply (spent_trans 1)|].
    destruct Hr as [[-> [->|?]]| ->]; auto.
  - rewrite (M_bind_raise _ _ _ _ _ E2) in H. injection H as <- <-. exists 1.
    split_and!; [cbn; lia|cbn; by rewrite take_0|done|by auto].
Qed.

Lemma batch_spec images (s : C) r s' : cleanup_images_batch images s = (r, s') → removed images s r s'.
Proof.
  unfold cleanup_images_batch. destruct images as [|i images].
  { intros [= <- <-]. apply removed_nil. by right. }
  set (m := onW (log_info _)). destruct (m s) as [rl s1] eqn:E. intros H.
  pose proof (no_start_onW _ (quiet_log_info _) _ _ _ E) as Hn.
  assert (rl = Ok tt) as -> by (unfold m, onW, log_info, emit in E; munfold; by injection E).
  rewrite (M_bind_ok _ _ _ _ _ E) in H. eapply removed_no_start; [done|]. by apply removal_loop_spec.
Qed.

Lemma batch_loop_spec bs : ∀ (s : C) r s', batch_loop bs s = (r, s') → removed (concat bs) s r s'.
Proof.
  induction bs as [|b bs IH]; intros s r s' H; cbn [batch_loop] in H.
  { injection H as <- <-. apply removed_nil. by right. }
  destruct (cleanup_images_batch b s) as [rb s1] eqn:E.
  pose proof (batch_spec _ _ _ _ E) as (k & Hk & Hran & Hsp & Hr). cbn [concat].
  destruct Hr as [[-> Hr]| ->].
  2: { rewrite (M_bind_raise _ _ _ _ _ E) in H. injection H as <- <-. exists k.
       split_and!; [rewrite length_app; lia|by rewrite take_app_le by lia|done|by auto]. }
  rewrite (M_bind_ok _ _ _ _ _ E) in H. destruct (observe_cancel s1) as [rc s2] eqn:E2.
  pose proof (observe_cancel_spec _ _ _ E2) as [Hw [(-> & H0 & H00)|(-> & Hs2)]];
    rewrite (M_bind_ok _ _ _ _ _ E2) in H.
  - injection H as <- <-. exists k. rewrite Hw. split_and!; [rewrite length_app; lia|by rewrite take_app_le by lia| |by auto].
    by rewrite H0, <- H00.
  - apply IH in H as (k2 & Hk2 & Hran2 & Hsp2 & Hr2). destruct Hr as [->|H0].
    + exists (length b + k2). rewrite Hran2, Hw, Hran, length_app, firstn_all, firstn_app_2.
      rewrite map_app, <- app_assoc. split_and!; [lia|done| |].
      * eapply spent_trans; [exact Hsp|]. by eapply (spent_trans 0), Hsp2; eapply spent_weaken.
      * destruct Hr2 as [[-> [->|?]]| ->]; auto.
    + rewrite H0 in Hs2. destruct Hs2 as (n' & _ & ?). lia.
Qed.

Lemma concat_batches n fuel l : n ≠ 0 → length l ≤ fuel → concat (batches fuel n l) = l.
Proof.
  intros Hn. revert l. induction fuel as [|fuel IH]; intros [|x l] Hl; cbn in Hl; [done|lia|done|].
  cbn [batches concat]. rewrite IH by (rewrite length_drop; cbn; lia). apply take_drop.
Qed.
End removal.

(** ** Tags depend on the files only *)

Section files_only.
Context {PS : Type} {EX : Exec PS} {SO : SetOrder}.
Local Abbreviation W := (World PS).
Local Abbreviation B := (World PS * DockerBuilder)%type.

(** Two worlds with the same files and working directory. *)
Definition same_files (w1 w2 : W) : Prop := w_fs w1 = w_fs w2 ∧ w_cwd w1 = w_cwd w2.

#[global] Instance same_files_equiv : Equivalence same_files.
Proof.
  split; [by intros x|by intros x y [? ?]|]. intros x y z [E1 E2] [E3 E4]. split; congruence.
Qed.

Definition same_filesB (s1 s2 : B) : Prop := same_files s1.1 s2.1 ∧ s1.2 = s2.2.

Lemma resp_emit e : respects same_files (emit (PS:=PS) e).
Proof. apply respects_modify. by intros w1 w2. Qed.
Lemma resp_log_info t : respects same_files (log_info (PS:=PS) t).
Proof. apply resp_emit. Qed.
Lemma resp_log_warning t : respects same_files (log_warning (PS:=PS) t).
Proof. apply resp_emit. Qed.
Lemma resp_log_error t : respects same_files (log_error (PS:=PS) t).
Proof. apply resp_emit. Qed.

Lemma resp_exists_p p : respects same_files (exists_p (PS:=PS) p).
Proof. apply respects_gets. by intros w1 w2 [-> ->]. Qed.

Lemma resp_read_text p : respects same_files (read_text (PS:=PS) p).
Proof. intros w1 w2 [E1 E2]. unfold read_text. cbn [fst snd]. by rewrite E1, E2. Qed.

Lemma resp_realpath p : respects same_files (realpath_m (PS:=PS) p).
Proof. apply respects_gets. by intros w1 w2 [-> ->]. Qed.

#[local] Hint Resolve resp_log_info resp_log_warning resp_log_error resp_exists_p resp_read_text resp_realpath : resp.

Lemma resp_inW {A} (m : M W A) : respects same_files m → respects same_filesB (inW m).
Proof.
  intros Hm [w1 b1] [w2 b2] [Hw Hb]. cbn in Hw, Hb. subst. destruct (Hm w1 w2 Hw) as [E1 E2].
  unfold inW. cbn [fst snd]. destruct (m w1), (m w2). cbn in *. by subst.
Qed.

Lemma resp_self : respects same_filesB (@self PS).
Proof. apply respects_gets. by intros s1 s2 [_ ?]. Qed.

Lemma resp_update f : respects same_filesB (update_self (PS:=PS) f).
Proof. apply respects_modify. intros s1 s2 [? Hb]. split; [done|]. cbn. by rewrite Hb. Qed.

Lemma resp_find paths name : respects same_files (find_dockerfile (PS:=PS) paths name).
Proof. induction paths; cbn; resp. Qed.

Lemma resp_sha p args : respects same_files (calculate_sha256 (PS:=PS) p args).
Proof. unfold calculate_sha256. resp. Qed.

#[local] Hint Resolve resp_inW resp_self resp_update resp_find resp_sha : resp.

Lemma resp_calculate_tag n x : respects same_filesB (calculate_tag_for_image (PS:=PS) n x).
Proof. revert x. induction n as [|n IH]; intros x; cbn; resp. Qed.

Lemma resp_build_order targets : respects same_filesB (get_build_order (PS:=PS) targets).
Proof.
  unfold get_build_order.
  assert (∀ c, respects same_files (get_dependency_subgraph (PS:=PS) targets c))
    by (intros; unfold get_dependency_subgraph; resp).
  resp.
Qed.

Lemma resp_generated x : respects same_filesB (generated_tag (PS:=PS) x).
Proof. unfold generated_tag. resp. Qed.

Lemma resp_map_m {A X} (f : A → M B X) l : (∀ x, respects same_filesB (f x)) → respects same_filesB (map_m f l).
Proof. intros Hf. induction l as [|x l IH]; cbn; resp. Qed.

#[local] Hint Resolve resp_calculate_tag resp_build_order resp_generated resp_map_m : resp.

Lemma resp_with_items settings key k : (∀ l, respects same_filesB (k l)) →
  respects same_filesB (with_items (PS:=PS) settings key k).
Proof. intros. unfold with_items. resp. Qed.

Lemma resp_load_packages img l : respects same_filesB (load_packages (PS:=PS) img l).
Proof. induction l as [|[k v] l IH]; cbn; resp. Qed.

Lemma resp_load_text text : respects same_filesB (load_config_text (PS:=PS) text).
Proof.
  unfold load_config_text, load_registry_config, load_images_config. resp.
  apply resp_with_items. intros l. resp. unfold load_image_settings. resp;
    apply resp_with_items; intros; resp. apply resp_load_packages.
Qed.

#[local] Hint Resolve resp_load_text : resp.

Lemma resp_load_config : respects same_filesB (load_config (PS:=PS)).
Proof.
  unfold load_config. resp. apply respects_try; [resp|]. intros e k Hk.
  destruct (_ || _); simplify_eq. resp.
Qed.

Lemma resp_load_deps_file p c : respects same_files (load_deps_file (PS:=PS) p c).
Proof.
  unfold load_deps_file. resp. apply respects_try; [resp|]. intros e k Hk.
  destruct (is_JSONDecodeError e); simplify_eq. resp.
Qed.

Lemma resp_load_image_configs paths : respects same_files (load_image_configs (PS:=PS) paths).
Proof. unfold load_image_configs. pose proof resp_load_deps_file. resp. Qed.

#[local] Hint Resolve resp_load_config resp_load_image_configs : resp.

Lemma resp_new_builder cp sps : respects same_files (new_builder (PS:=PS) cp sps).
Proof.
  assert (respects same_filesB (init_body (PS:=PS))) as Hi by (unfold init_body; resp).
  intros w1 w2 Hw. unfold new_builder.
  destruct (Hi (w1, initial_builder cp sps) (w2, initial_builder cp sps)) as [E1 E2]; [done|].
  destruct (init_body (w1, _)) as [[[]|e1] [w1' b1]], (init_body (w2, _)) as [[[]|e2] [w2' b2]]; cbn in *;
    simplify_eq; destruct E2 as [? E2]; cbn in *; by subst.
Qed.

Lemma resp_call_on {A} b (m : M B A) : respects same_filesB m → respects same_files (call_on b m).
Proof.
  intros Hm w1 w2 Hw. unfold call_on. destruct (Hm (w1, b) (w2, b)) as [E1 E2]; [done|].
  destruct (m (w1, b)) as [r1 [w1' b1]], (m (w2, b)) as [r2 [w2' b2]]. cbn in *. by destruct E2.
Qed.

(** The tag list is a function of the files: not of docker, of the environment
    or of what was logged before. *)
Lemma resp_all_tags n cp sps targets : respects same_files (get_all_docker_image_tags (PS:=PS) n cp sps targets).
Proof.
  unfold get_all_docker_image_tags. apply respects_bind; [apply resp_new_builder|]. intros b.
  apply resp_call_on. unfold calculate_tags. resp.
Qed.

Lemma resp_image_prefix cp : respects same_files (get_image_prefix (PS:=PS) cp).
Proof.
  unfold get_image_prefix. resp. apply respects_try; [resp|]. intros e k Hk.
  destruct (_ || _); simplify_eq. resp.
Qed.
End files_only.
