(* ===== verification/CleanupTheorems.v ===== *)
(** * What docker_cleanup.py guarantees

    The pattern recognises the builder's tags; the images of the current
    configuration survive; removals are a prefix of the candidates and stop with
    the cancel event; and the one way the protection is lost. *)

From stdpp Require Import base gmap sets list strings.
From Stdlib Require Import Ascii ZArith Lia.
From S2P Require Import Prelude PyStr Fs World Json Config Graph Sha256 DockerOps Builder.
From S2P Require Import BuilderTags BuilderRun BuilderConfig Sim Cleanup CleanupProofs.

(** ** The documented format

    [[registry/][project/][repo/]devkit[/namespace]/name:arch-hash], by the parts
    between the slashes: [devkit] is one of them, the last is the name, the
    architecture and 64 hexadecimal digits. *)
Definition documented (img name : string) : Prop :=
  ∃ components arch hash,
    split_on "/" img = components ++ [name +:+ ":" +:+ arch +:+ "-" +:+ hash] ∧ "devkit" ∈ components ∧
    name ≠ "" ∧ str_mem ":" name = false ∧ arch ≠ "" ∧ str_forall is_word arch = true ∧
    String.length hash = 64 ∧ str_forall is_hex hash = true.

(** [l'] is [l] with what satisfies [P] kept, in order, and the rest left out. *)
Inductive keeps (P : string → Prop) : list string → list string → Prop :=
| keeps_nil : keeps P [] []
| keeps_in x l l' : P x → keeps P l l' → keeps P (x :: l) (x :: l')
| keeps_out x l l' : ¬ P x → keeps P l l' → keeps P (x :: l) l'.

Lemma match_image_documented s name : str_mem newline s = false → match_image s = Some name ↔ documented s name.
Proof.
  intros Hn. rewrite match_image_spec. split.
  - intros (path & arch & hash & tail & -> & Ht & Hp & Hne & Hs & Hc & Ha & Haw & Hl & Hh).
    assert (tail = "") as ->.
    { destruct Ht as [?| ->]; [done|]. rewrite !str_mem_app, !orb_false_iff in Hn. naive_solver. }
    exists (split_on "/" path), arch, hash. split_and!; try done.
    + rewrite str_app_nil_r. change ("/" +:+ ?x) with (String "/" x). rewrite split_on_sep. f_equal.
      apply split_on_no_sep. rewrite !str_mem_app, Hs. cbn.
      rewrite (str_forall_not_mem is_word _ arch), (str_forall_not_mem is_hex _ hash) by done. done.
    + assert (devkit_path path = true) as Hd by (by apply devkit_path_spec).
      unfold devkit_path in Hd. apply andb_true_iff in Hd as [_ Hd]. by apply bool_decide_eq_true in Hd.
  - intros (comps & arch & hash & Hsp & Hd & Hne & Hc & Ha & Haw & Hl & Hh).
    set (base := name +:+ ":" +:+ arch +:+ "-" +:+ hash) in *.
    assert (comps ≠ []) as Hcne by (by intros ->; apply elem_of_nil in Hd).
    assert (Forall (λ x, str_mem "/" x = false) (comps ++ [base])) as Hall by (rewrite <- Hsp; apply split_on_parts).
    apply Forall_app in Hall as [Hcs Hb]. apply Forall_cons in Hb as [Hb _].
    assert (s = join "/" comps +:+ "/" +:+ base) as Hs by (rewrite <- (join_split_on "/" s), Hsp; by apply join_snoc).
    exists (join "/" comps), arch, hash, "". rewrite str_app_nil_r. split_and!; try done; [by left| |].
    + apply devkit_path_spec. unfold devkit_path. rewrite split_on_join by done.
      rewrite bool_decide_eq_true_2, andb_true_r by done. apply negb_true_iff.
      rewrite Hs, !str_mem_app, !orb_false_iff in Hn. naive_solver.
    + cbn beta in Hb. unfold base in Hb. rewrite str_mem_app, orb_false_iff in Hb. by destruct Hb.
Qed.

(** C25: The filter keeps, in order, exactly the images that have the documented
    format with a name of the allowlist, and does nothing else but log. *)
Theorem allowed_images_documented {PS : Type} imgs (w : World PS) :
  Forall (λ i, str_mem newline i = false) imgs →
  ∃ l w', filter_allowed_images imgs w = (Ok l, w') ∧ quiet w w' ∧
    keeps (λ i, ∃ name, documented i name ∧ name ∈ ALLOWED_IMAGE_NAMES) imgs l.
Proof.
  intros H. destruct (filter_allowed_eq imgs w) as [w' E]. eexists _, w'.
  split_and!; [exact E|by apply quiet_filter_allowed in E|]. clear E w'.
  assert (∀ i, str_mem newline i = false →
    allowed i = true ↔ ∃ name, documented i name ∧ name ∈ ALLOWED_IMAGE_NAMES) as Hi.
  { intros i Hn. unfold allowed. split.
    - destruct (match_image i) as [name|] eqn:E; [|done]. intros ?%bool_decide_eq_true. exists name.
      split; [by apply match_image_documented|done].
    - intros (name & Hm%match_image_documented & ?); [|done]. rewrite Hm. by apply bool_decide_eq_true. }
  induction H as [|i imgs Hn H IH]; [constructor|]. rewrite filter_cons. specialize (Hi i Hn) as Hii.
  case_decide as Ha; [apply keeps_in|apply keeps_out]; tauto.
Qed.

Lemma allowed_images_documented_witness :
  ∃ l w', filter_allowed_images ["gcr.io/devkit/x/dev-env:amd64-0000000000000000000000000000000000000000000000000000000000000000"; "debian:12"]
            (mkWorld (PS:=()) [] ∅ [] [] tt) = (Ok l, w') ∧ quiet (mkWorld (PS:=()) [] ∅ [] [] tt) w' ∧
    keeps (λ i, ∃ name, documented i name ∧ name ∈ ALLOWED_IMAGE_NAMES)
      ["gcr.io/devkit/x/dev-env:amd64-0000000000000000000000000000000000000000000000000000000000000000"; "debian:12"] l.
Proof. apply allowed_images_documented. repeat constructor. Defined.

(** C26: Every tag the builder makes, for an image name without slash or colon and
    a registry without newline, is recognised by the clean-up pattern, which
    finds the image's name in it. *)
Theorem built_tags_match {PS : Type} {EX : Exec PS} cp sps (w w' : World PS) b image content args :
  new_builder cp sps w = (Ok b, w') →
  image ≠ "" → str_mem "/" image = false → str_mem ":" image = false →
  str_mem newline (tag_prefix b) = false →
  match_image (get_image_tag b image (sha_of content args)) = Some image.
Proof.
  intros H Hne Hs Hc Hnl. apply new_builder_spec in H as (_ & _ & _ & _ & Ha & Hreg).
  assert (namespace b = "devkit" ∨ ∃ ns, namespace b = "devkit/" +:+ ns) as Hns.
  { destruct (path_exists _ _ cp); [|by destruct Hreg; left].
    destruct Hreg as (text & config & _ & _ & _ & ->). unfold spec_namespace.
    destruct (str_field _ _) as [|c ns]; [by left|right; eauto]. }
  apply match_image_spec. exists (tag_prefix b), "amd64", (sha_of content args), "".
  rewrite get_image_tag_prefix, Ha, str_app_nil_r. split_and!; try done; [by left| | |].
  - exists (if bool_decide (repo b = "") then "" else repo b +:+ "/"), (str_drop 6 (namespace b)).
    split; [|split; [done|]].
    + unfold tag_prefix. destruct Hns as [->|[ns ->]]; case_bool_decide; cbn; rewrite ?str_app_nil_r; by str_norm.
    + split; [case_bool_decide; [by left|right; eauto]|].
      destruct Hns as [->|[ns ->]]; [by left|right]. by exists ns.
  - apply hexdigest_length.
  - apply hexdigest_is_hex.
Qed.

Lemma built_tags_match_witness : match_image (get_image_tag demo_builder "dev-env" (sha_of "FROM x" [])) = Some "dev-env".
Proof.
  apply (built_tags_match demo_config_path demo_search_paths demo_world demo_new.2); [|done|done|done|done].
  vm_refl.
Defined.

Section survive.
Context {PS : Type} {EX : Exec PS} {SO : SetOrder} {PO : Popen PS} {DS : DockerSpec PS} {CS : CleanSpec PS}.
Local Abbreviation W := (World PS).
Local Abbreviation C := (World PS * option nat)%type.

(** Only images [T] allows are removed, and nothing else changes. *)
Definition shrinks (T : string → Prop) (w w' : W) : Prop :=
  w_env w' = w_env w ∧ w_fs w' = w_fs w ∧ w_cwd w' = w_cwd w ∧ locals w' ⊆ locals w ∧
  ∀ x, x ∈ locals w → ¬ T x → x ∈ locals w'.

Definition shrinksC (T : string → Prop) (s s' : C) : Prop := shrinks T s.1 s'.1.

#[local] Instance shrinks_preorder T : PreOrder (shrinks T).
Proof.
  split; [intros w; by split_and!|].
  intros x y z (?&?&?&?&Hxy) (?&?&?&?&Hyz). split_and!; [congruence..|set_solver|]. eauto.
Qed.

#[local] Instance shrinksC_preorder T : PreOrder (shrinksC T).
Proof. split; [intros s; unfold shrinksC; reflexivity|]. unfold shrinksC. intros x y z ??. by etrans. Qed.

Lemma quiet_shrinks {A} T (m : M W A) : always quiet m → always (shrinks T) m.
Proof.
  intros Hm w r w' H. apply Hm in H as [(?&?&?&Hp) _]. unfold shrinks, locals. rewrite Hp. by split_and!.
Qed.

Lemma shrinksC_onW {A} T (m : M W A) : always (shrinks T) m → always (shrinksC T) (onW m).
Proof. intros Hm s r s' [H _]%onW_inv. by apply Hm in H. Qed.

Lemma shrinks_popen_start T cmd : always (shrinks T) (popen_start (PS:=PS) cmd).
Proof.
  intros w r w' H. unfold popen_start in H. destruct (exec _ _).1; injection H as _ <-; by split_and!.
Qed.

Lemma shrinks_finish (T : string → Prop) tag : T tag → always (shrinks T) (popen_finish (PS:=PS) (rmi_cmd tag)).
Proof.
  intros HT w r w' H. unfold popen_finish in H. destruct (exec _ _) as [r0 [ps f]] eqn:E. injection H as _ <-.
  apply docker_rmi in E as (-> & ? & Hl). split_and!; try done. intros x Hx Hn. apply Hl.
  apply elem_of_difference. split; [done|]. intros ->%elem_of_singleton. done.
Qed.

Lemma shrinks_terminate (T : string → Prop) tag : T tag → always (shrinks T) (popen_terminate (PS:=PS) (rmi_cmd tag)).
Proof.
  intros HT w r w' H. unfold popen_terminate in H. destruct (popen_killed _ _) as [ps f] eqn:E. injection H as _ <-.
  apply docker_rmi_killed in E as (-> & ? & Hl). split_and!; try done. intros x Hx Hn. apply Hl.
  apply elem_of_difference. split; [done|]. intros ->%elem_of_singleton. done.
Qed.

Lemma shrinksC_observe T : always (shrinksC T) (observe_cancel (PS:=PS)).
Proof. intros s r s' [Hw _]%observe_cancel_spec. unfold shrinksC. by rewrite Hw. Qed.

Lemma shrinksC_poll T n : always (shrinksC T) (poll_loop (PS:=PS) n).
Proof. intros s r s' [Hw _]%poll_loop_spec. unfold shrinksC. by rewrite Hw. Qed.

#[local] Hint Resolve quiet_shrinks shrinksC_onW shrinks_popen_start shrinks_finish shrinks_terminate
  shrinksC_observe shrinksC_poll quiet_log_lines : frame.

Lemma shrinksC_remove (T : string → Prop) tag : T tag → always (shrinksC T) (remove_image (PS:=PS) tag).
Proof.
  intros HT. unfold remove_image, after_start. apply always_try; [apply _|frame|].
  intros e k Hk. unfold removal_handler in Hk. destruct (is_Exception e); simplify_eq. frame.
Qed.

#[local] Hint Resolve shrinksC_remove : frame.

Lemma shrinksC_removal_loop (T : string → Prop) tags : Forall T tags → always (shrinksC T) (removal_loop (PS:=PS) tags).
Proof. induction 1 as [|tag tags Ht _ IH]; cbn; frame. Qed.

Lemma shrinksC_batch_loop (T : string → Prop) bs : Forall (Forall T) bs → always (shrinksC T) (batch_loop (PS:=PS) bs).
Proof.
  induction 1 as [|b bs Hb _ IH]; cbn; [frame|].
  assert (always (shrinksC T) (cleanup_images_batch (PS:=PS) b)).
  { pose proof (shrinksC_removal_loop T b Hb). unfold cleanup_images_batch. destruct b; frame. }
  frame.
Qed.

Lemma quiet_all_tags n cp sps targets : always quiet (get_all_docker_image_tags (PS:=PS) n cp sps targets).
Proof.
  unfold get_all_docker_image_tags. apply (always_bind quiet); [intros w r w' H; by apply new_builder_spec in H as [? _]|].
  intros b w r w' H. unfold call_on in H. destruct (calculate_tags n targets (w, b)) as [r' [w1 b1]] eqn:E.
  injection H as <- <-. assert (always stable (calculate_tags (PS:=PS) n targets)) as Hs; [|by apply Hs in E as [? _]].
  unfold calculate_tags. apply (always_bind stable).
  { intros s r2 s' Ho. by eapply silent_stable, silent_build_order. }
  intros order. pose proof (stable_calculate_tag (PS:=PS) n). apply (always_bind stable); [frame|]. intros _.
  apply stable_map_m. intros x. apply stable_generated_tag.
Qed.

Lemma quiet_image_prefix cp : always quiet (get_image_prefix (PS:=PS) cp).
Proof.
  unfold get_image_prefix. frame. apply always_try; [apply _|frame|].
  intros e k Hk. destruct (_ || _); simplify_eq. frame.
Qed.

Lemma quiet_ignored n cp sps : always quiet (get_ignored_images (PS:=PS) n cp sps).
Proof.
  unfold get_ignored_images. pose proof (quiet_all_tags n cp sps []). apply always_try; [apply _|frame|].
  intros e k Hk. destruct (is_Exception e); simplify_eq. frame.
Qed.

Lemma shrinks_get_images T p d : always (shrinks T) (get_images (PS:=PS) p d).
Proof.
  unfold get_images. apply always_try; [apply _| |].
  - apply (always_bind (shrinks T)); [|intros [? ?]; frame]. apply (always_run_checked (shrinks T)).
    intros w r w' (res & ps & f & H & -> & _)%run_unchecked_spec. apply docker_images in H as [-> ->]. by split_and!.
  - intros e k Hk. destruct (_ || _); simplify_eq. frame.
Qed.

#[local] Hint Resolve quiet_image_prefix quiet_ignored shrinks_get_images quiet_filter_allowed : frame.

Lemma shrinks_candidates T n cp sps d : always (shrinks T) (get_images_to_cleanup (PS:=PS) n cp sps d).
Proof. unfold get_images_to_cleanup. frame. Qed.

Lemma shrinks_same_files T (w w' : W) : shrinks T w w' → same_files w w'.
Proof. intros (_ & Hf & Hc & _). by split. Qed.

(** When the tags can be computed, they are what is ignored. *)
Lemma ignored_tags n cp sps (w w3 : W) tags w1 ignored w4 : same_files w w3 →
  get_all_docker_image_tags n cp sps [] w = (Ok tags, w1) →
  get_ignored_images n cp sps w3 = (Ok ignored, w4) → ignored = tags.
Proof.
  intros Hs Ht H. destruct (resp_all_tags n cp sps [] w w3 Hs) as [E _]. rewrite Ht in E. cbn in E.
  unfold get_ignored_images, try_with in H.
  destruct (get_all_docker_image_tags n cp sps [] w3) as [r3 w5] eqn:E3. cbn in E. subst r3.
  rewrite (M_bind_ok _ _ _ _ _ E3) in H. erewrite M_bind_ok in H by done. by injection H as <- _.
Qed.

(** The candidates: allowed, and none of the current tags. *)
Lemma candidates_spec n cp sps d (w : W) l w' : get_images_to_cleanup n cp sps d w = (Ok l, w') →
  Forall (λ i, allowed i = true) l ∧
  ∀ tags w1, get_all_docker_image_tags n cp sps [] w = (Ok tags, w1) → Forall (λ i, i ∉ tags) l.
Proof.
  unfold get_images_to_cleanup. intros (p & w1 & Hp & H)%M_bind_inv.
  apply M_bind_inv in H as (all & w2 & Ha & H).
  apply (quiet_shrinks (λ _, False) _ (quiet_image_prefix cp)) in Hp.
  apply (shrinks_get_images (λ _, False)) in Ha.
  assert (always (shrinks (λ _, False)) (filter_allowed_images (PS:=PS) all)) as Hfa by frame.
  destruct all as [|i all]; [apply M_bind_inv in H as (? & ? & _ & H); injection H as <- _; split; [|intros]; constructor|].
  destruct (filter_allowed_eq (i :: all) w2) as [w3 Hf]. rewrite (M_bind_ok _ _ _ _ _ Hf) in H.
  apply Hfa in Hf.
  set (l1 := filter _ (i :: all)) in *. assert (Forall (λ i, allowed i = true) l1) as Hall
    by (apply Forall_forall; by intros x [? _]%list_elem_of_filter).
  destruct l1 as [|i1 l1]; [apply M_bind_inv in H as (? & ? & _ & H); injection H as <- _; split; [|intros]; constructor|].
  apply M_bind_inv in H as (ignored & w4 & Hi & H).
  assert (l = filter (λ img, img ∉ ignored) (i1 :: l1)) as ->.
  { destruct (filter _ _); apply M_bind_inv in H as (? & ? & _ & H); by injection H. }
  split.
  { apply Forall_forall. intros x [_ Hx]%list_elem_of_filter. rewrite Forall_forall in Hall. by apply Hall. }
  intros tags w5 Ht.
  assert (ignored = tags) as ->.
  { eapply (ignored_tags n cp sps w w3); [|done..]. eapply shrinks_same_files. etrans; [done|by etrans]. }
  apply Forall_forall. by intros x [? _]%list_elem_of_filter.
Qed.

Lemma Forall_batches (T : string → Prop) fuel n l : Forall T l → Forall (Forall T) (batches fuel n l).
Proof.
  revert l. induction fuel as [|fuel IH]; intros [|x l] Hl; cbn [batches]; try constructor.
  - by apply Forall_take.
  - apply IH. by apply Forall_drop.
Qed.

(** C4: The images of the current configuration survive: whatever the outcome of a
    clean-up, its cancellation and its batch size, if the tags of the configured
    images can be computed, each of those images that was in docker is still
    there, and no file was changed. *)
Theorem current_images_survive n cp sps batch_size days (w : W) c r s' tags w1 :
  get_all_docker_image_tags n cp sps [] w = (Ok tags, w1) →
  cleanup_images n cp sps batch_size days (w, c) = (r, s') →
  (∀ t, t ∈ tags → t ∈ locals w → t ∈ locals s'.1) ∧ locals s'.1 ⊆ locals w ∧ w_fs s'.1 = w_fs w.
Proof.
  intros Ht H. set (T := λ t, t ∉ tags).
  enough (shrinks T w s'.1) as (_ & ? & _ & ? & Hk).
  { split_and!; [|done..]. intros t Hin Hl. apply Hk; [done|]. unfold T. by intros ?. }
  change (shrinksC T (w, c) s'). unfold cleanup_images in H.
  destruct (observe_cancel (w, c)) as [rc s1] eqn:E1. pose proof (shrinksC_observe T _ _ _ E1) as Hs1.
  apply observe_cancel_spec in E1 as E1'. destruct E1' as [Hw1 [(-> & _)|(-> & _)]];
    rewrite (M_bind_ok _ _ _ _ _ E1) in H; [by injection H as _ <-|].
  destruct (onW (get_images_to_cleanup n cp sps days) s1) as [rg s2] eqn:E2.
  apply onW_inv in E2 as E2'. destruct E2' as [E2' _]. rewrite Hw1 in E2'. cbn in E2'.
  assert (shrinksC T (w, c) s2) as Hs2 by (by eapply (shrinks_candidates T) in E2').
  destruct rg as [l|e]; [|rewrite (M_bind_raise _ _ _ _ _ E2) in H; by injection H as _ <-].
  rewrite (M_bind_ok _ _ _ _ _ E2) in H. apply candidates_spec in E2' as [_ Hc].
  specialize (Hc tags w1 Ht). etrans; [exact Hs2|].
  destruct (bool_decide (batch_size = 0%Z)); [injection H as _ <-; reflexivity|].
  destruct (batch_size <? 0)%Z; [injection H as _ <-; reflexivity|].
  eapply (shrinksC_batch_loop T) in H; [done|]. by apply Forall_batches.
Qed.
End survive.

Section commands.
Context {PS : Type} {EX : Exec PS} {SO : SetOrder} {PO : Popen PS} {DS : DockerSpec PS} {CS : CleanSpec PS}.
#[local] Existing Instance shrinks_preorder.
Local Abbreviation W := (World PS).

(** What a clean-up starts. *)
Lemma cleanup_removals n cp sps batch_size days (w : W) c r s' :
  (0 < batch_size)%Z →
  cleanup_images n cp sps batch_size days (w, c) = (r, s') →
  (c = Some 0 ∧ r = Ok tt ∧ s'.1 = w) ∨
  ∃ rl w1, get_images_to_cleanup n cp sps days w = (rl, w1) ∧
    match rl with
    | Raise e => r = Raise e ∧ s'.1 = w1
    | Ok l =>
        Forall (λ i, allowed i = true) l ∧
        ∃ k, k ≤ length l ∧ ran s'.1 = ran w1 ++ map rmi_cmd (take k l) ∧
          (c = None → r = Ok tt → k = length l) ∧
          (∀ m, c = Some m → k < m) ∧ (r = Ok tt ∨ r = Raise KeyboardInterrupt)
    end.
Proof.
  intros Hbs H. unfold cleanup_images in H. destruct (observe_cancel (w, c)) as [rc s1] eqn:E1.
  apply observe_cancel_spec in E1 as E1'. destruct E1' as [Hw1 [(-> & _ & Hc)|(-> & Hsp)]];
    rewrite (M_bind_ok _ _ _ _ _ E1) in H; [left; by injection H as <- <-|right].
  destruct (onW (get_images_to_cleanup n cp sps days) s1) as [rg s2] eqn:E2.
  apply onW_inv in E2 as E2'. destruct E2' as [E2' Hc2]. rewrite Hw1 in E2'. cbn in E2'.
  exists rg, s2.1. split; [done|].
  destruct rg as [l|e]; [|rewrite (M_bind_raise _ _ _ _ _ E2) in H; by injection H as <- <-].
  apply candidates_spec in E2' as [Hall _]. split; [done|]. rewrite (M_bind_ok _ _ _ _ _ E2) in H.
  rewrite bool_decide_eq_false_2 in H by lia. rewrite (proj2 (Z.ltb_ge _ _)) in H by lia.
  apply batch_loop_spec in H as (k & Hk & Hran & Hsk & Hr). rewrite concat_batches in Hk, Hran, Hr by lia.
  exists k. split_and!; [done|done| | |by destruct Hr as [[? _]|?]; auto].
  - intros -> ->. cbn in Hsp. rewrite Hc2, Hsp in Hsk. cbn in Hsk.
    destruct Hr as [[_ [?|Hr]]|?]; [done|congruence|done].
  - intros m ->. destruct Hsp as (m' & Hm' & ?). rewrite Hc2, Hm' in Hsk. destruct Hsk as (m2 & _ & ?). lia.
Qed.

(** C17: What a clean-up with a positive batch size starts: nothing at all when it
    is cancelled during the initial delay; otherwise, after the candidates were
    chosen (all of them allowed names in the expected format), the removals of a
    prefix of them in order, whatever the batch size.  The prefix is everything
    when the event is never set and the user does not interrupt; and when the
    event is set after [m] observations, fewer than [m] removals are started. *)
Theorem removals_are_a_prefix n cp sps batch_size days (w : W) c r s' :
  (0 < batch_size)%Z →
  cleanup_images n cp sps batch_size days (w, c) = (r, s') →
  (c = Some 0 ∧ r = Ok tt ∧ s'.1 = w) ∨
  ∃ rl w1, get_images_to_cleanup n cp sps days w = (rl, w1) ∧
    match rl with
    | Raise e => r = Raise e ∧ s'.1 = w1
    | Ok l =>
        Forall (λ i, allowed i = true) l ∧
        ∃ k, k ≤ length l ∧ ran s'.1 = ran w1 ++ map rmi_cmd (take k l) ∧
          (c = None → r = Ok tt → k = length l) ∧
          (∀ m, c = Some m → k < m) ∧ (r = Ok tt ∨ r = Raise KeyboardInterrupt)
    end.
Proof. apply cleanup_removals. Qed.

(** Without the tags, the candidates are all that docker lists and the filter
    allows. *)
Lemma candidates_unprotected n cp sps d (w : W) e w0 l w' :
  get_all_docker_image_tags n cp sps [] w = (Raise e, w0) → is_Exception e = true →
  get_images_to_cleanup n cp sps d w = (Ok l, w') →
  ∃ p w1 all w2, get_image_prefix cp w = (Ok p, w1) ∧ get_images p d w1 = (Ok all, w2) ∧
    l = filter (λ i, allowed i = true) all ∧ ran w' = ran w2.
Proof.
  intros Ht He. unfold get_images_to_cleanup. intros (p & w1 & Hp & H)%M_bind_inv.
  apply M_bind_inv in H as (all & w2 & Ha & H). exists p, w1, all, w2. split; [done|]. split; [done|].
  apply (quiet_shrinks (λ _, False) _ (quiet_image_prefix cp)) in Hp.
  apply (shrinks_get_images (λ _, False)) in Ha.
  assert (∀ lv t (v v' : W) r, emit (Log lv t) v = (r, v') → ran v' = ran v) as Hlog.
  { intros lv t v v' r [= _ <-]. by apply ran_emit. }
  destruct all as [|i all].
  { apply M_bind_inv in H as ([] & v & Hl & H). injection H as <- <-. split; [done|]. by apply Hlog in Hl. }
  destruct (filter_allowed_eq (i :: all) w2) as [w3 Hf]. rewrite (M_bind_ok _ _ _ _ _ Hf) in H.
  apply (quiet_filter_allowed (PS:=PS)) in Hf as Hq. pose proof (quiet_shrinks (λ _, False) _ (quiet_filter_allowed (i :: all)) _ _ _ Hf) as Hs.
  destruct Hq as [_ Hq]. set (l1 := filter _ (i :: all)) in *. clearbody l1.
  destruct l1 as [|i1 l1].
  { apply M_bind_inv in H as ([] & v & Hl & H). injection H as <- <-. split; [done|]. apply Hlog in Hl. congruence. }
  apply M_bind_inv in H as (ignored & w4 & Hi & H). apply quiet_ignored in Hi as Hqi. destruct Hqi as [_ Hqi].
  assert (ignored = []) as ->.
  { assert (same_files w w3) as Hsf by (eapply shrinks_same_files; etrans; [exact Hp|]; etrans; [exact Ha|exact Hs]).
    destruct (resp_all_tags n cp sps [] w w3 Hsf) as [E _]. rewrite Ht in E. cbn in E.
    unfold get_ignored_images, try_with in Hi. destruct (get_all_docker_image_tags n cp sps [] w3) as [r3 w5] eqn:E3.
    cbn in E. subst r3. rewrite (M_bind_raise _ _ _ _ _ E3), He in Hi. apply M_bind_inv in Hi as (? & ? & _ & Hi). by injection Hi. }
  assert (filter (λ img, img ∉ []) (i1 :: l1) = i1 :: l1) as Hall.
  { generalize (i1 :: l1). intros k. induction k as [|x k IH]; [done|].
    rewrite filter_cons_True by apply not_elem_of_nil. by rewrite IH. }
  rewrite Hall in H. apply M_bind_inv in H as ([] & v & Hl & H). injection H as <- <-. split; [done|].
  apply Hlog in Hl. congruence.
Qed.

(** C27: The protection of the current images fails open: when their tags cannot be
    computed because of an exception other than an exit (a dependency that is not
    configured, an unreadable Dockerfile), a clean-up that nothing stops goes on and
    starts the removal of every image that docker lists and that has an allowed
    name, those of the current configuration too. *)
Theorem ignored_images_fail_open n cp sps batch_size days (w : W) e w0 s' :
  get_all_docker_image_tags n cp sps [] w = (Raise e, w0) → is_Exception e = true → (0 < batch_size)%Z →
  cleanup_images n cp sps batch_size days (w, None) = (Ok tt, s') →
  ∃ p w1 all w2, get_image_prefix cp w = (Ok p, w1) ∧ get_images p days w1 = (Ok all, w2) ∧
    ran s'.1 = ran w2 ++ map rmi_cmd (filter (λ i, allowed i = true) all).
Proof.
  intros Ht He Hb H. apply cleanup_removals in H as [[? _]|(rl & wc & Hc & H)]; [done| |done].
  destruct rl as [l|e']; [|by destruct H]. destruct H as (_ & k & _ & Hran & Hk & _).
  rewrite Hk, firstn_all in Hran by done.
  destruct (candidates_unprotected _ _ _ _ _ _ _ _ _ Ht He Hc) as (p & w1 & all & w2 & ? & ? & -> & Hr).
  exists p, w1, all, w2. split_and!; [done..|]. by rewrite Hran, Hr.
Qed.
End commands.

(** ** Runs on the repository of [Sim] *)

#[export] Instance sim_Popen : Popen sim := {| popen_polls _ _ := 1; popen_killed _ s := s |}.

#[export] Program Instance sim_CleanSpec : CleanSpec sim.
Next Obligation. intros p d ps f r ps' f' H. cbn in H. by injection H as <- <- <-. Qed.
Next Obligation.
  intros tag ps f r ps' f' H. cbn in H. injection H as <- <- <-. cbn. split_and!; [done|set_solver..].
Qed.
Next Obligation. intros tag ps f ps' f' H. cbn in H. injection H as <- <-. split_and!; [done|set_solver..]. Qed.

(** Three images in docker: a current one, an old one and a foreign one. *)
Definition current_tag : string :=
  "gcr.io/p/r/devkit/dev-env:amd64-301d8299f995c9232a1f842aef8279d5420b4383ce0d5080080b7e1014e8b5d5".
Definition old_tag : string :=
  "gcr.io/p/r/devkit/dev-env:amd64-0000000000000000000000000000000000000000000000000000000000000000".

Definition full_world : World sim :=
  mkWorld [] demo_fs ["repo"] [] (mkSim {[ current_tag; old_tag; "debian:12" ]} ∅).

Definition full_tags : result (list string) * World sim :=
  Eval vm_compute in get_all_docker_image_tags 2 demo_config_path demo_search_paths [] full_world.
Definition full_tag_list : list string := Eval vm_compute in match full_tags.1 with Ok l => l | _ => [] end.
Definition full_tag_world : World sim := Eval vm_compute in full_tags.2.

Definition cleaned : result () * (World sim * option nat) :=
  Eval vm_compute in cleanup_images 2 demo_config_path demo_search_paths 4 7 (full_world, None).
Definition cleaned_state : World sim * option nat := Eval vm_compute in cleaned.2.

Lemma current_images_survive_witness :
  (∀ t, t ∈ full_tag_list → t ∈ locals full_world → t ∈ locals cleaned_state.1) ∧
  locals cleaned_state.1 ⊆ locals full_world ∧ w_fs cleaned_state.1 = w_fs full_world.
Proof.
  apply (current_images_survive 2 demo_config_path demo_search_paths 4 7 full_world None (Ok tt) cleaned_state
           full_tag_list full_tag_world).
  - vm_refl.
  - vm_refl.
Defined.

Definition no_cancel : option nat := None.

Lemma removals_are_a_prefix_witness :
  (no_cancel = Some 0 ∧ Ok tt = Ok tt ∧ cleaned_state.1 = full_world) ∨
  ∃ rl w1, get_images_to_cleanup 2 demo_config_path demo_search_paths 7 full_world = (rl, w1) ∧
    match rl with
    | Raise e => Ok tt = Raise e ∧ cleaned_state.1 = w1
    | Ok l =>
        Forall (λ i, allowed i = true) l ∧
        ∃ k, k ≤ length l ∧ ran cleaned_state.1 = ran w1 ++ map rmi_cmd (take k l) ∧
          (no_cancel = None → Ok tt = Ok tt → k = length l) ∧
          (∀ m, no_cancel = Some m → k < m) ∧ (Ok tt = Ok tt ∨ Ok tt = Raise KeyboardInterrupt)
    end.
Proof.
  apply (removals_are_a_prefix 2 demo_config_path demo_search_paths 4 7 full_world no_cancel (Ok tt) cleaned_state).
  - lia.
  - vm_refl.
Defined.

(** A repository in which an image depends on one nobody configures. *)
Definition broken_world : World sim :=
  mkWorld [] (<[["repo"; "images"; "deps.json"] := NFile
    ("{" +:+ q "dev-env" +:+ ": {" +:+ q "deps" +:+ ": {" +:+ q "BASE" +:+ ":" +:+ q "gone" +:+ "}}}")]> demo_fs)
    ["repo"] [] (mkSim {[ current_tag ]} ∅).

Definition broken_result : result (list string) * World sim :=
  Eval vm_compute in get_all_docker_image_tags 2 demo_config_path demo_search_paths [] broken_world.
Definition broken_after : World sim := Eval vm_compute in broken_result.2.

Definition broken_cleaned : result () * (World sim * option nat) :=
  Eval vm_compute in cleanup_images 2 demo_config_path demo_search_paths 4 7 (broken_world, None).
Definition broken_state : World sim * option nat := Eval vm_compute in broken_cleaned.2.

Lemma ignored_images_fail_open_witness :
  ∃ p w1 all w2, get_image_prefix demo_config_path broken_world = (Ok p, w1) ∧ get_images p 7 w1 = (Ok all, w2) ∧
    ran broken_state.1 = ran w2 ++ map rmi_cmd (filter (λ i, allowed i = true) all).
Proof.
  apply (ignored_images_fail_open 2 demo_config_path demo_search_paths 4 7 broken_world (KeyError "gone") broken_after);
    [vm_refl|done|lia|vm_refl].
Defined.

(** The current image is lost. *)
Example broken_loses_current : last (ran broken_state.1) = Some (rmi_cmd current_tag) ∧ locals broken_state.1 = ∅.
Proof. vm_compute. done. Qed.
