(* ===== verification/CleanupThread.v ===== *)
(** * The clean-up as a thread (docker_cleanup.py)

    [cleanup_images] runs in a thread of its own beside docker.  Here it is a
    machine that makes one move at a time: a move is what the thread does between
    two points where others can come in.  The cancel event is an input of each
    move, so the machine can be composed with the thread that sets it; run alone
    it does what the function does ([thread_is_cleanup]). *)

From stdpp Require Import base gmap sets list strings relations.
From Stdlib Require Import ZArith Lia.
From S2P Require Import Prelude PyStr Fs World Graph DockerOps Builder BuildTheorems.
From S2P Require Import Cleanup CleanupProofs CleanupTheorems.

(** Where the thread stands: [tags] are the images of the batch still to be looked
    at, [rest] the batches after it. *)
Inductive clean_pc :=
| Delay
| Choose
| Batch (tags : list string) (rest : list (list string))
| Popen (tag : string) (tags : list string) (rest : list (list string))
| Poll (tag : string) (polls : nat) (tags : list string) (rest : list (list string))
| Interval (rest : list (list string))
| Done (r : result ()).

#[export] Instance is_Choose_dec p : Decision (p = Choose).
Proof. destruct p; ((by left) || by right). Defined.

Section thread.
Context {PS : Type} {EX : Exec PS} {SO : SetOrder} {PO : Cleanup.Popen PS}.
Local Abbreviation W := (World PS).
Local Abbreviation C := (World PS * option nat)%type.
Context (frames : nat) (config_path : Path) (search_paths : list Path) (batch_size threshold_days : Z).

(** A part of the function that does not look at the event. *)
Definition unobserved {A} (m : M C A) : M W A := λ w, let '(r, (w', _)) := m (w, None) in (r, w').

(** The head of the loop over the batches and the head of [cleanup_images_batch]. *)
Definition enter (l : list (list string)) (w : W) : clean_pc * W :=
  match l with
  | [] => (Done (Ok tt), w)
  | [] :: rest => (Interval rest, w)
  | batch :: rest =>
      (Batch batch rest,
       emit_event (Log INFO ("Cleaning up " +:+ str_of_Z (Z.of_nat (length batch)) +:+ " images in this batch.")) w)
  end.

(** After the choice of the candidates: [range(0, len(l), batch_size)]. *)
Definition start_batches (l : list string) (w : W) : clean_pc * W :=
  if bool_decide (batch_size = 0%Z) then (Done (Raise (ValueError "range() arg 3 must not be zero")), w)
  else if (batch_size <? 0)%Z then (Done (Ok tt), w)
  else enter (batches (length l) (Z.to_nat batch_size) l) w.

(** Where the removal of an image leaves the loop; [true] means that the batch
    returns. *)
Definition resume (tags : list string) (rest : list (list string)) (rw : result bool * W) : clean_pc * W :=
  (match rw.1 with
   | Ok true => Interval rest
   | Ok false => Batch tags rest
   | Raise e => Done (Raise e)
   end, rw.2).

(** One move; [cancelled] is the event as the move finds it. *)
Definition clean_step (cancelled : bool) (p : clean_pc) (w : W) : option (clean_pc * W) :=
  match p with
  | Delay => Some (if cancelled then Done (Ok tt) else Choose, w)
  | Choose =>
      Some (match get_images_to_cleanup frames config_path search_paths threshold_days w with
            | (Ok l, w') => start_batches l w'
            | (Raise e, w') => (Done (Raise e), w')
            end)
  | Batch [] rest => Some (Interval rest, w)
  | Batch (tag :: tags) rest =>
      Some (if cancelled then (Interval rest, w)
            else (Popen tag tags rest, emit_event (Log INFO ("Removing image: " +:+ tag)) w))
  | Popen tag tags rest =>
      Some (match popen_start (rmi_cmd tag) w with
            | (Ok polls, w') => (Poll tag polls tags rest, w')
            | (Raise e, w') =>
                resume tags rest (unobserved (try_with (raise e) (removal_handler tag)) w')
            end)
  | Poll tag (S polls) tags rest =>
      Some (if cancelled
            then resume tags rest
                   (unobserved (onW (log_info ("Cleanup cancelled; exiting removal loop for " +:+ tag)) ;;
                                onW (popen_terminate (rmi_cmd tag)) ;; mret true) w)
            else (Poll tag polls tags rest, w))
  | Poll tag O tags rest =>
      Some (resume tags rest (unobserved (try_with (after_start tag 0) (removal_handler tag)) w))
  | Interval rest => Some (if cancelled then (Done (Ok tt), w) else enter rest w)
  | Done _ => None
  end.

(** The moves that look at the event. *)
Definition observes (p : clean_pc) : bool :=
  match p with Delay | Batch (_ :: _) _ | Poll _ (S _) _ _ | Interval _ => true | _ => false end.

(** The thread alone, with the event set after the given number of looks at it. *)
Definition tick (c : option nat) : option nat := match c with Some (S n) => Some n | _ => c end.

Inductive solo : clean_pc * C → clean_pc * C → Prop :=
| solo_step p w c p' w' :
    clean_step (bool_decide (c = Some 0)) p w = Some (p', w') →
    solo (p, (w, c)) (p', (w', if observes p then tick c else c)).

(** ** The machine and the function *)

(** Programs whose outcome does not depend on the event, and which leave it. *)
Definition blind {A} (m : M C A) : Prop := ∀ w c, m (w, c) = ((unobserved m w).1, ((unobserved m w).2, c)).

Lemma blind_onW {A} (m : M W A) : blind (onW m).
Proof. intros w c. unfold unobserved, onW. cbn. by destruct (m w). Qed.

Lemma blind_ret {A} (a : A) : blind (mret a).
Proof. done. Qed.

Lemma blind_raise {A} e : blind (raise (A:=A) e).
Proof. done. Qed.

Lemma blind_bind {A B} (m : M C A) (f : A → M C B) : blind m → (∀ a, blind (f a)) → blind (m ≫= f).
Proof.
  intros Hm Hf w c. unfold unobserved, mbind, M_bind. rewrite (Hm w c), (Hm w None).
  destruct (unobserved m w) as [[a|e] w1]; [|done]. cbn [fst snd]. rewrite (Hf a w1 c), (Hf a w1 None). done.
Qed.

Lemma blind_try {A} (m : M C A) h : blind m → (∀ e k, h e = Some k → blind k) → blind (try_with m h).
Proof.
  intros Hm Hh w c. unfold unobserved, try_with. rewrite (Hm w c), (Hm w None).
  destruct (unobserved m w) as [[a|e] w1]; [done|]. cbn [fst snd].
  destruct (h e) as [k|] eqn:E; [|done]. specialize (Hh e k E). by rewrite (Hh w1 c), (Hh w1 None).
Qed.

Lemma blind_handler tag e k : removal_handler (PS:=PS) tag e = Some k → blind k.
Proof.
  unfold removal_handler. destruct (is_Exception e); [|done]. intros [= <-].
  apply blind_bind; [apply blind_onW|intros; apply blind_ret].
Qed.

Lemma blind_finished tag : blind (after_start (PS:=PS) tag 0).
Proof.
  apply blind_bind; [apply blind_ret|intros [|]];
    (apply blind_bind; [apply blind_onW|]); [intros _; apply blind_bind; [apply blind_onW|intros; apply blind_ret]|].
  intros [rc out err| |]; [|apply blind_raise..].
  repeat (apply blind_bind; [|intros _]); [apply blind_onW..| |apply blind_ret].
  unfold when. destruct (negb _); [apply blind_onW|apply blind_ret].
Qed.

(** A move in front of a run: one that looks at the event, and one that does not. *)
Lemma solo_look p w c p' w' z : observes p = true → clean_step (bool_decide (c = Some 0)) p w = Some (p', w') →
  rtc solo (p', (w', tick c)) z → rtc solo (p, (w, c)) z.
Proof. intros Ho H. apply rtc_l. pose proof (solo_step p w c p' w' H) as Hs. by rewrite Ho in Hs. Qed.

Lemma solo_skip p w c p' w' z : observes p = false → clean_step (bool_decide (c = Some 0)) p w = Some (p', w') →
  rtc solo (p', (w', c)) z → rtc solo (p, (w, c)) z.
Proof. intros Ho H. apply rtc_l. pose proof (solo_step p w c p' w' H) as Hs. by rewrite Ho in Hs. Qed.

(** Looking at the event is [observe_cancel]. *)
Lemma observe_tick (w : W) c : observe_cancel (w, c) = (Ok (bool_decide (c = Some 0)), (w, tick c)).
Proof. by destruct c as [[|n]|]. Qed.

(** The poll loop stays in its state until the program has ended or the event is
    set. *)
Lemma poll_runs tag polls tags rest w c b s' : poll_loop polls (w, c) = (Ok b, s') →
  ∃ k, rtc solo (Poll tag polls tags rest, (w, c)) (Poll tag k tags rest, s') ∧ s'.1 = w ∧
    if b then s'.2 = Some 0 ∧ k ≠ 0 else k = 0.
Proof.
  revert c. induction polls as [|polls IH]; intros c H; cbn [poll_loop] in H.
  - injection H as <- <-. by exists 0.
  - rewrite (M_bind_ok _ _ _ _ _ (observe_tick w c)) in H. case_bool_decide as Hc.
    + injection H as <- <-. subst c. by exists (S polls).
    + destruct (IH _ H) as (k & Hrun & ?). exists k. split; [|done].
      eapply solo_look; [done| |exact Hrun]. cbn [clean_step]. by rewrite bool_decide_eq_false_2.
Qed.

Lemma poll_returns polls (s : C) : ∃ b s', poll_loop polls s = (Ok b, s').
Proof.
  revert s. induction polls as [|polls IH]; intros [w c]; cbn [poll_loop]; [by do 2 eexists|].
  rewrite (M_bind_ok _ _ _ _ _ (observe_tick w c)). case_bool_decide; [by do 2 eexists|apply IH].
Qed.

(** The program has started: from the poll loop to the next image. *)
Lemma started_runs tag polls tags rest w c r s' :
  try_with (after_start tag polls) (removal_handler tag) (w, c) = (r, s') →
  rtc solo (Poll tag polls tags rest, (w, c)) ((resume tags rest (r, s'.1)).1, s').
Proof.
  intros H. destruct (poll_returns polls (w, c)) as (b & [w1 c1] & Hp).
  destruct (poll_runs tag polls tags rest w c b _ Hp) as (k & Hrun & Hw & Hb). cbn [fst snd] in *. subst w1.
  etrans; [exact Hrun|clear Hrun].
  unfold try_with, after_start in H. rewrite (M_bind_ok _ _ _ _ _ Hp) in H. destruct b.
  - destruct Hb as [-> Hk]. destruct k as [|k]; [done|].
    set (m := (onW (log_info ("Cleanup cancelled; exiting removal loop for " +:+ tag)) ;; _)) in H.
    assert (blind m) as Hm
      by (repeat (apply blind_bind; [apply blind_onW|intros _]); apply blind_ret).
    rewrite (Hm w (Some 0)) in H. assert (∃ w2, unobserved m w = (Ok true, w2)) as [w2 E].
    { unfold m, unobserved, onW, popen_terminate, mbind, M_bind. cbn.
      destruct (popen_killed _ _) as [ps f]. cbn. eauto. }
    rewrite E in H. cbn [fst snd] in H. injection H as <- <-. eapply solo_look; [done| |apply rtc_refl].
    cbn [clean_step]. rewrite bool_decide_eq_true_2 by done. fold m. by rewrite E.
  - subst k. assert (try_with (after_start tag 0) (removal_handler tag) (w, c1) = (r, s')) as H'.
    { unfold try_with, after_start. erewrite M_bind_ok by done. exact H. }
    rewrite (blind_try _ _ (blind_finished tag) (blind_handler tag) w c1) in H'. injection H' as <- <-.
    cbn [fst]. eapply solo_skip; [done|done|]. by destruct (unobserved _ w) as [r2 w2].
Qed.

Lemma remove_runs tag tags rest w c r s' : remove_image tag (w, c) = (r, s') →
  rtc solo (Popen tag tags rest, (w, c)) ((resume tags rest (r, s'.1)).1, s').
Proof.
  intros H. unfold remove_image, try_with in H. destruct (popen_start (rmi_cmd tag) w) as [rp w1] eqn:E.
  assert (onW (popen_start (rmi_cmd tag)) (w, c) = (rp, (w1, c))) as Ec by (unfold onW; cbn [fst snd]; by rewrite E).
  destruct rp as [polls|e].
  - rewrite (M_bind_ok _ _ _ _ _ Ec) in H. eapply solo_skip; [done|cbn [clean_step]; by rewrite E|].
    by apply started_runs.
  - rewrite (M_bind_raise _ _ _ _ _ Ec) in H.
    assert (try_with (raise e) (removal_handler tag) (w1, c) = (r, s')) as H' by exact H.
    rewrite (blind_try _ _ (blind_raise e) (blind_handler tag) w1 c) in H'. injection H' as <- <-. cbn [fst].
    eapply solo_skip; [done|cbn [clean_step]; by rewrite E|]. by destruct (unobserved _ w1) as [r2 w2].
Qed.

(** What the loop over the images of a batch hands over. *)
Definition batch_end (rest : list (list string)) (r : result ()) : clean_pc :=
  match r with Ok _ => Interval rest | Raise e => Done (Raise e) end.

Lemma removal_runs tags rest w c r s' : removal_loop tags (w, c) = (r, s') →
  rtc solo (Batch tags rest, (w, c)) (batch_end rest r, s').
Proof.
  revert w c. induction tags as [|tag tags IH]; intros w c H; cbn [removal_loop] in H.
  { injection H as <- <-. by eapply solo_skip. }
  rewrite (M_bind_ok _ _ _ _ _ (observe_tick w c)) in H. case_bool_decide as Hc.
  { injection H as <- <-. eapply solo_look; [done| |done]. cbn [clean_step]. by rewrite bool_decide_eq_true_2. }
  erewrite M_bind_ok in H by done.
  eapply solo_look; [done|cbn [clean_step]; by rewrite bool_decide_eq_false_2|].
  cbn [fst snd] in H. set (w0 := emit_event _ w) in *.
  destruct (remove_image tag (w0, tick c)) as [[stop|e] [w1 c1]] eqn:E.
  - apply (remove_runs tag tags rest) in E as Hrun. rewrite (M_bind_ok _ _ _ _ _ E) in H.
    etrans; [exact Hrun|]. destruct stop; [by injection H as <- <-|]. by apply IH.
  - apply (remove_runs tag tags rest) in E as Hrun. rewrite (M_bind_raise _ _ _ _ _ E) in H.
    by injection H as <- <-.
Qed.

Lemma batch_runs l w c r s' : batch_loop l (w, c) = (r, s') →
  rtc solo ((enter l w).1, ((enter l w).2, c)) (Done r, s').
Proof.
  revert w c. induction l as [|batch rest IH]; intros w c H; cbn [batch_loop] in H; [by injection H as <- <-|].
  assert (∀ w1 c1, (cancelled ← observe_cancel; if (cancelled : bool) then mret tt else batch_loop rest) (w1, c1) = (r, s') →
            rtc solo (Interval rest, (w1, c1)) (Done r, s')) as Hi.
  { intros w1 c1 Hb. rewrite (M_bind_ok _ _ _ _ _ (observe_tick w1 c1)) in Hb. case_bool_decide as Hc.
    - injection Hb as <- <-. eapply solo_look; [done| |done]. cbn [clean_step]. by rewrite bool_decide_eq_true_2.
    - eapply solo_look; [done| |by apply IH]. cbn [clean_step]. rewrite bool_decide_eq_false_2 by done.
      by destruct (enter rest w1). }
  destruct batch as [|tag tags]; [by apply Hi|]. cbn [enter fst snd].
  set (w1 := emit_event _ w). destruct (removal_loop (tag :: tags) (w1, c)) as [rb [w2 c2]] eqn:E.
  etrans; [by eapply removal_runs|].
  assert (cleanup_images_batch (tag :: tags) (w, c) = (rb, (w2, c2))) as Eb by exact E.
  destruct rb as [[]|e]; [rewrite (M_bind_ok _ _ _ _ _ Eb) in H; by apply Hi|].
  rewrite (M_bind_raise _ _ _ _ _ Eb) in H. by injection H as <- <-.
Qed.

Lemma cleanup_runs w c r s' :
  cleanup_images frames config_path search_paths batch_size threshold_days (w, c) = (r, s') →
  rtc solo (Delay, (w, c)) (Done r, s').
Proof.
  intros H. unfold cleanup_images in H. rewrite (M_bind_ok _ _ _ _ _ (observe_tick w c)) in H. case_bool_decide as Hc.
  { injection H as <- <-. eapply solo_look; [done| |done]. cbn [clean_step]. by rewrite bool_decide_eq_true_2. }
  eapply solo_look; [done|cbn [clean_step]; by rewrite bool_decide_eq_false_2|].
  destruct (get_images_to_cleanup frames config_path search_paths threshold_days w) as [rl w1] eqn:E.
  assert (onW (get_images_to_cleanup frames config_path search_paths threshold_days) (w, tick c) = (rl, (w1, tick c)))
    as Ec by (unfold onW; cbn [fst snd]; by rewrite E).
  destruct rl as [l|e].
  - rewrite (M_bind_ok _ _ _ _ _ Ec) in H.
    eapply solo_skip; [done|cbn [clean_step]; rewrite E; apply f_equal, surjective_pairing|].
    unfold start_batches. destruct (bool_decide (batch_size = 0%Z)); [by injection H as <- <-|].
    destruct (batch_size <? 0)%Z; [by injection H as <- <-|]. by apply batch_runs.
  - rewrite (M_bind_raise _ _ _ _ _ Ec) in H. injection H as <- <-.
    eapply solo_skip; [done|cbn [clean_step]; by rewrite E|done].
Qed.

(** The machine is deterministic and stops at its end. *)
Lemma solo_det x y z : solo x y → solo x z → y = z.
Proof. intros [p w c p' w' H] Hz. inversion Hz as [? ? ? ? ? H2]; subst. by simplify_eq. Qed.

Lemma solo_done r s : nf solo (Done r, s).
Proof. intros [y H]. inversion H as [? ? ? ? ? H2]. done. Qed.

Lemma solo_end_unique x r s y : rtc solo x (Done r, s) → rtc solo x y → nf solo y → y = (Done r, s).
Proof.
  intros H. remember (Done r, s) as e eqn:He. revert y He.
  induction H as [x|x x1 e Hx Hr IH]; intros y -> Hy Hn.
  - inversion Hy as [|? ? ? H1]; [done|]. exfalso. apply (solo_done r s). eauto.
  - inversion Hy as [|? x2 ? H1 H2]; subst; [exfalso; apply Hn; eauto|].
    rewrite (solo_det _ _ _ H1 Hx) in H2. by apply IH.
Qed.
End thread.

(** ** What a move can do *)

(** The images a state can still come to remove. *)
Definition pc_tags (p : clean_pc) : list string :=
  match p with
  | Batch tags rest => tags ++ concat rest
  | Popen tag tags rest | Poll tag _ tags rest => tag :: tags ++ concat rest
  | Interval rest => concat rest
  | Delay | Choose | Done _ => []
  end.

(** The removal a move starts. *)
Definition starts (p : clean_pc) : list (list string) :=
  match p with Popen tag _ _ => [rmi_cmd tag] | _ => [] end.

(** How far the thread is from its end once the event is set. *)
Definition clean_rank (p : clean_pc) : nat :=
  match p with
  | Done _ => 0
  | Delay | Interval _ => 1
  | Batch _ _ => 2
  | Choose | Poll _ _ _ _ => 3
  | Popen _ _ _ => 4
  end.

Section moves.
Context {PS : Type} {EX : Exec PS} {SO : SetOrder} {PO : Cleanup.Popen PS}.
Local Abbreviation W := (World PS).
Context (frames : nat) (config_path : Path) (search_paths : list Path) (batch_size threshold_days : Z).
Local Abbreviation step := (clean_step frames config_path search_paths batch_size threshold_days).
Local Abbreviation choice := (get_images_to_cleanup frames config_path search_paths threshold_days).

(** Programs are started, but no removal among them. *)
Definition removes_none (w w' : W) : Prop := ∃ new, ran w' = ran w ++ new ∧ ∀ tag, rmi_cmd tag ∉ new.

#[global] Instance removes_none_preorder : PreOrder removes_none.
Proof.
  split; [intros w; exists []; rewrite app_nil_r; split; [done|set_solver]|].
  intros x y z (n1 & H1 & ?) (n2 & H2 & ?). exists (n1 ++ n2). rewrite H2, H1, app_assoc. split; [done|set_solver].
Qed.

Lemma same_ran_removes_none (w w' : W) : ran w' = ran w → removes_none w w'.
Proof. intros H. exists []. rewrite app_nil_r. split; [done|set_solver]. Qed.

Lemma quiet_removes_none {A} (m : M W A) : always quiet m → always removes_none m.
Proof. intros Hm w r w' H. apply same_ran_removes_none. by apply Hm in H as [_ ?]. Qed.

Lemma get_images_removes_none p d : always removes_none (get_images (PS:=PS) p d).
Proof.
  unfold get_images. apply always_try; [apply _| |].
  - apply (always_bind removes_none); [|intros [? ?]; apply quiet_removes_none; frame].
    intros w r w' [H _]%run_checked_ran. exists [images_cmd p d]. split; [done|].
    intros tag Hin. apply list_elem_of_singleton in Hin. done.
  - intros e k Hk. destruct (_ || _); simplify_eq. apply quiet_removes_none. frame.
Qed.

Lemma choice_removes_none : always removes_none (choice : M W _).
Proof.
  pose proof (λ A m, @quiet_removes_none A m) as Hq. unfold get_images_to_cleanup.
  apply (always_bind removes_none); [apply Hq, quiet_image_prefix|intros p].
  apply (always_bind removes_none); [apply get_images_removes_none|intros [|i all]]; [apply Hq; frame|].
  apply (always_bind removes_none); [apply Hq, quiet_filter_allowed|intros [|i1 l]]; [apply Hq; frame|].
  apply (always_bind removes_none); [apply Hq, quiet_ignored|intros ignored].
  destruct (filter _ _); apply Hq; frame.
Qed.

Lemma unobserved_ran {A} (m : M (W * option nat) A) w : always no_start m → ran (unobserved m w).2 = ran w.
Proof.
  intros Hm. unfold unobserved. destruct (m (w, None)) as [r [w' c]] eqn:E. by apply Hm in E as [? _].
Qed.

Lemma no_start_try (m : M (W * option nat) bool) tag : always no_start m → always no_start (try_with m (removal_handler tag)).
Proof.
  intros Hm. pose proof (no_start_preorder (PS:=PS)). apply (always_try no_start); [done|].
  intros e k Hk. unfold removal_handler in Hk. destruct (is_Exception e); [|done]. injection Hk as <-.
  apply (always_bind no_start); [apply no_start_onW; frame|intros _]. by intros s r s' [= _ <-].
Qed.

Lemma enter_effect l (w : W) p w' : enter l w = (p, w') →
  ran w' = ran w ∧ pc_tags p ⊆ concat l ∧ starts p = [] ∧ clean_rank p ≤ 2.
Proof.
  unfold enter. destruct l as [|[|tag tags] rest]; intros [= <- <-]; cbn; [split_and!; (done || lia || set_solver)..|].
  split_and!; [by apply ran_emit|set_solver|done|lia].
Qed.

Lemma resume_effect tags rest rw p (w' : W) : resume tags rest rw = (p, w') →
  w' = rw.2 ∧ pc_tags p ⊆ tags ++ concat rest ∧ starts p = [] ∧ clean_rank p ≤ 2.
Proof.
  unfold resume. destruct rw as [[[|]|e] w]; intros [= <- <-]; cbn; (split_and!; [done| |done|lia]); set_solver.
Qed.

Lemma batches_sub n k l : ∀ x, x ∈ concat (batches n k l) → x ∈ l.
Proof.
  intros x Hx. assert (Forall (Forall (.∈ l)) (batches n k l)) as H by (apply Forall_batches, Forall_forall; auto).
  apply list_elem_of_bind in Hx as (b & ? & Hb). rewrite Forall_forall in H. specialize (H b Hb).
  rewrite Forall_forall in H. auto.
Qed.

(** Every move but the choice: the removal it starts, the images it keeps, and
    where it can lead when the event is set. *)
Lemma step_effect b p w p' w' : p ≠ Choose → step b p w = Some (p', w') →
  ran w' = ran w ++ starts p ∧ pc_tags p' ⊆ pc_tags p ∧
  (b = true → clean_rank p' < clean_rank p ∧ starts p' = []).
Proof.
  intros Hp H. destruct p as [| |[|tag tags] rest|tag tags rest|tag [|polls] tags rest|rest|r];
    cbn [clean_step] in H; [|done|..|done]; apply (inj Some) in H; cbn [starts]; rewrite ?app_nil_r.
  - destruct b; injection H as <- <-; (split_and!; [done|set_solver|]); [cbn; split; [lia|done]|done].
  - injection H as <- <-. split_and!; [done|cbn; set_solver|cbn; split; [lia|done]].
  - destruct b; injection H as <- <-; (split_and!; [by rewrite ?ran_emit|cbn; set_solver|]); [cbn; split; [lia|done]|done].
  - unfold popen_start in H. set (v := emit_event _ w) in H.
    assert (ran v = ran w ++ [rmi_cmd tag]) as Hv by (unfold v, ran; cbn; by rewrite commands_app).
    destruct (exec _ _).1; try (injection H as <- <-; split_and!; [done|done|];
      cbn; split; [lia|done]).
    pose proof (unobserved_ran _ v (no_start_try (raise (FileNotFoundError
      ("[Errno 2] No such file or directory: '" +:+ default "" (head (rmi_cmd tag)) +:+ "'"))) tag
      (λ s r s' E, ltac:(injection E as _ <-; apply no_start_preorder)))) as Hu.
    apply resume_effect in H as (-> & ? & ? & ?). rewrite Hu, Hv. split_and!; [done|cbn; set_solver|].
    cbn. split; [lia|done].
  - apply resume_effect in H as (-> & ? & ? & ?). rewrite unobserved_ran by apply no_start_try, no_start_after.
    split_and!; [done|cbn; set_solver|cbn; split; [lia|done]].
  - destruct b; [|injection H as <- <-; split_and!; [done|cbn; set_solver|done]].
    apply resume_effect in H as (-> & ? & ? & ?). rewrite unobserved_ran.
    + split_and!; [done|cbn; set_solver|cbn; split; [lia|done]].
    + pose proof (no_start_preorder (PS:=PS)). repeat (apply (always_bind no_start); [|intros _]);
        [apply no_start_onW; frame|apply no_start_terminate|by intros s r s' [= _ <-]].
  - destruct b; [injection H as <- <-; split_and!; [done|cbn; set_solver|cbn; split; [lia|done]]|].
    apply enter_effect in H as (? & ? & ? & ?). split_and!; [done|done|done].
Qed.

(** The choice starts no removal, and keeps images it has just chosen. *)
Lemma choose_effect b w p' w' : step b Choose w = Some (p', w') →
  removes_none w w' ∧ starts p' = [] ∧ clean_rank p' < clean_rank Choose ∧
  ∀ tag, tag ∈ pc_tags p' → ∃ l w1, choice w = (Ok l, w1) ∧ tag ∈ l.
Proof.
  cbn [clean_step]. intros H. apply (inj Some) in H. destruct (choice w) as [[l|e] w1] eqn:E;
    apply choice_removes_none in E as Hn.
  - unfold start_batches in H.
    destruct (bool_decide _); [injection H as <- <-; split_and!; [done|done|cbn; lia|set_solver]|].
    destruct (batch_size <? 0)%Z; [injection H as <- <-; split_and!; [done|done|cbn; lia|set_solver]|].
    apply enter_effect in H as (Hr & Ht & ? & ?). split_and!; [|done|cbn; lia|].
    + etrans; [done|by apply same_ran_removes_none].
    + intros tag Hin. exists l, w1. split; [done|]. apply Ht in Hin. by apply batches_sub in Hin.
  - injection H as <- <-. split_and!; [done|done|cbn; lia|set_solver].
Qed.

Lemma step_total b p w : (∀ r, p ≠ Done r) → is_Some (step b p w).
Proof. intros Hp. destruct p as [| |[|]| |? []| |r]; try by eexists. by destruct (Hp r). Qed.
End moves.

(** ** In which order *)

(** The images whose removal has not been started. *)
Definition pc_left (p : clean_pc) : list string :=
  match p with
  | Batch tags rest | Poll _ _ tags rest => tags ++ concat rest
  | Popen tag tags rest => tag :: tags ++ concat rest
  | Interval rest => concat rest
  | Delay | Choose | Done _ => []
  end.

Definition started (p : clean_pc) : list string := match p with Popen tag _ _ => [tag] | _ => [] end.

(** [k] is what has been started of the choice [L]: a beginning of it, the rest being
    still to come unless the event was set or an exception ended the thread. *)
Definition in_order (k L : list string) (cancelled : bool) (p : clean_pc) : Prop :=
  (k ++ started p) `prefix_of` L ∧ (cancelled = false → k ++ pc_left p = L ∨ ∃ e, p = Done (Raise e)).

Section order.
Context {PS : Type} {EX : Exec PS} {SO : SetOrder} {PO : Cleanup.Popen PS}.
Context (frames : nat) (config_path : Path) (search_paths : list Path) (batch_size threshold_days : Z).
Local Abbreviation step := (clean_step (PS:=PS) frames config_path search_paths batch_size threshold_days).
Local Abbreviation choice := (get_images_to_cleanup (PS:=PS) frames config_path search_paths threshold_days).

Lemma starts_started p : starts p = rmi_cmd <$> started p.
Proof. by destruct p. Qed.

Lemma in_order_cancel k L b p : in_order k L b p → in_order k L true p.
Proof. intros [H _]. by split. Qed.

(** The next state, where nothing more is started at once. *)
Lemma in_order_next k L b p p' : (k ++ started p) `prefix_of` L → started p' = [] →
  (b = false → k ++ started p ++ pc_left p' = L ∨ ∃ e, p' = Done (Raise e)) → in_order (k ++ started p) L b p'.
Proof. intros Hk Hs Hn. split; [by rewrite Hs, app_nil_r|]. by rewrite <- app_assoc. Qed.

Lemma enter_left l (w : World PS) p w' : enter l w = (p, w') → started p = [] ∧ pc_left p = concat l.
Proof. unfold enter. by destruct l as [|[|]]; intros [= <- <-]. Qed.

Lemma resume_left tags rest rw p (w' : World PS) : resume tags rest rw = (p, w') → rw.1 ≠ Ok true →
  started p = [] ∧ (pc_left p = tags ++ concat rest ∨ ∃ e, p = Done (Raise e)).
Proof. unfold resume. destruct rw as [[[|]|e] w]; intros [= <- <-] Hn; [done|by auto|by eauto]. Qed.

Lemma handled_goes_on tag (m : M (World PS * option nat) bool) w : (∀ s, (m s).1 ≠ Ok true) →
  (unobserved (try_with m (removal_handler tag)) w).1 ≠ Ok true.
Proof.
  intros Hm. unfold unobserved, try_with. specialize (Hm (w, None)). destruct (m (w, None)) as [[b|e] [w1 c]]; [done|].
  unfold removal_handler. destruct (is_Exception e); done.
Qed.

Lemma finished_goes_on tag (s : World PS * option nat) : (after_start tag 0 s).1 ≠ Ok true.
Proof.
  unfold after_start. cbn [poll_loop]. rewrite (M_bind_ok (mret false) _ s false s eq_refl).
  unfold mbind, M_bind. destruct (onW (popen_finish (rmi_cmd tag)) s) as [[[rc out err| |]|e] s1]; try done.
  destruct (onW (log_lines log_info _ _) s1) as [[[]|] s2]; [|done].
  destruct (onW (log_lines log_warning _ _) s2) as [[[]|] s3]; [|done].
  by destruct (when _ _ s3) as [[[]|] s4].
Qed.

Lemma in_order_step k L b p w p' w' : p ≠ Choose → p ≠ Delay → in_order k L b p → step b p w = Some (p', w') →
  in_order (k ++ started p) L b p'.
Proof.
  intros Hc Hd [Hk Hl] H. destruct p as [| |[|tag tags] rest|tag tags rest|tag [|polls] tags rest|rest|r];
    cbn [clean_step] in H; [done|done|..|done]; apply (inj Some) in H; cbn [pc_left] in Hl.
  - injection H as <- <-. apply in_order_next; [done|done|]. intros Hb. destruct (Hl Hb) as [?|[e ?]]; [by left|done].
  - destruct b; injection H as <- <-; [by apply in_order_next|]. cbn. rewrite app_nil_r.
    destruct (Hl eq_refl) as [<-|[e ?]]; [|done]. split; [|by left].
    cbn. exists (tags ++ concat rest). by rewrite <- app_assoc.
  - assert (∀ rw, resume tags rest rw = (p', w') → rw.1 ≠ Ok true → in_order (k ++ [tag]) L b p') as Hres.
    { intros rw Hrw Hn. apply resume_left in Hrw as [? Hr]; [|done]. apply (in_order_next k L b (Popen tag tags rest)); [done|done|].
      intros Hb. destruct (Hl Hb) as [<-|[e ?]]; [|done]. destruct Hr as [->|?]; [by left|by right]. }
    destruct (popen_start _ w) as [[polls|e] w1]; [|apply (Hres _ H), handled_goes_on; done].
    injection H as <- <-. apply (in_order_next k L b (Popen tag tags rest)); [done|done|].
    intros Hb. destruct (Hl Hb) as [<-|[e ?]]; [|done]. by left.
  - apply resume_left in H as [? Hr]; [|apply handled_goes_on, finished_goes_on]. apply in_order_next; [done|done|].
    intros Hb. destruct (Hl Hb) as [<-|[e ?]]; [|done]. destruct Hr as [->|?]; [by left|by right].
  - destruct b.
    + apply in_order_next; [done| |done]. unfold resume in H. injection H as <- _. by repeat case_match.
    + injection H as <- <-. apply in_order_next; [done|done|]. intros Hb. destruct (Hl Hb) as [<-|[e ?]]; [by left|done].
  - destruct b; [injection H as <- <-; by apply in_order_next|].
    apply enter_left in H as [? E]. apply in_order_next; [done|done|]. intros Hb.
    destruct (Hl Hb) as [<-|[e ?]]; [|done]. left. by rewrite E.
Qed.

Lemma in_order_choose b w p' w' : (0 < batch_size)%Z → step b Choose w = Some (p', w') →
  (∃ L w1, choice w = (Ok L, w1) ∧ in_order [] L b p') ∨ ∃ e, p' = Done (Raise e).
Proof.
  intros Hb H. cbn [clean_step] in H. apply (inj Some) in H. destruct (choice w) as [[L|e] w1]; [left|injection H as <- _; eauto].
  exists L, w1. split; [done|]. unfold start_batches in H.
  rewrite bool_decide_eq_false_2 in H by lia. rewrite (proj2 (Z.ltb_ge _ _)) in H by lia.
  apply enter_left in H as [Hs E]. rewrite concat_batches in E by lia.
  split; [rewrite Hs; apply prefix_nil|]. intros _. by left.
Qed.

Lemma step_left b p w p' w' : step b p w = Some (p', w') → p' ≠ Delay ∧ (p' = Choose → p = Delay).
Proof.
  destruct p as [| |[|tag tags] rest|tag tags rest|tag [|polls] tags rest|rest|r];
    cbn [clean_step]; [intros H; apply (inj Some) in H..|done];
    unfold start_batches, enter, resume in H; repeat case_match; simplify_eq; done.
Qed.
End order.

(** The thread does what the function does, move by move: from the initial
    delay, with the event set after any number of looks at it (or never), the
    machine reaches its end with an outcome, a world and a rest of looks exactly
    when [cleanup_images] returns them; and it stops nowhere else. *)
Lemma thread_is_cleanup {PS : Type} {EX : Exec PS} {SO : SetOrder} {PO : Cleanup.Popen PS} n cp sps batch_size days
    (w : World PS) c :
  (∀ r s', cleanup_images n cp sps batch_size days (w, c) = (r, s') ↔
           rtc (solo n cp sps batch_size days) (Delay, (w, c)) (Done r, s')) ∧
  (∀ y, rtc (solo n cp sps batch_size days) (Delay, (w, c)) y → nf (solo n cp sps batch_size days) y →
        ∃ r s', y = (Done r, s')).
Proof.
  destruct (cleanup_images n cp sps batch_size days (w, c)) as [r0 s0] eqn:E. apply cleanup_runs in E.
  assert (∀ y, rtc (solo n cp sps batch_size days) (Delay, (w, c)) y → nf (solo n cp sps batch_size days) y →
            y = (Done r0, s0)) as Hu by (intros; by eapply solo_end_unique).
  split; [|intros y Hy Hn; exists r0, s0; by apply Hu].
  intros r s'. split; [by intros [= <- <-]|]. intros H. apply Hu in H; [by injection H as -> ->|apply solo_done].
Qed.
