(* ===== verification/FindRoot.v ===== *)
(** * Finding the project root (find_project_root.py)

    The nearest directory, from the current one upwards, with an entry named
    [devkit]. *)

From stdpp Require Import base gmap list strings.
From Stdlib Require Import ZArith Lia.
From S2P Require Import Prelude PyStr Fs World.

Definition no_root : exn :=
  FileNotFoundError "Could not find project root. Make sure you are in a devkit project.".

Section find_root.
Context {PS : Type}.
Local Abbreviation W := (World PS).

(** [Path(os.getenv("PWD", str(Path.cwd())))] *)
Definition current_dir (w : W) : Path :=
  Path_of (default (str_path (mkPath true (w_cwd w))) (assoc "PWD" (w_env w))).

Fixpoint search_up (paths : list Path) : M W Path :=
  match paths with
  | [] => raise no_root
  | path :: paths =>
      found ← exists_p (join_name path "devkit");
      if (found : bool) then mret path else search_up paths
  end.

Definition find_project_root : M W Path :=
  cur ← gets current_dir;
  search_up (cur :: parents cur).

Definition main : M W () :=
  try_with
    (root ← find_project_root;
     println (str_path root))
    (λ e, match e with
          | FileNotFoundError m => Some (eprintln ("Error: " +:+ m) ;; sys_exit 1)
          | _ => None
          end).

(** ** Lemmas *)

Definition has_devkit (w : W) (p : Path) : bool := path_exists (w_fs w) (w_cwd w) (join_name p "devkit").

Lemma search_up_spec paths (w : W) :
  search_up paths w =
  match list_find (λ p, has_devkit w p = true) paths with
  | Some (_, p) => (Ok p, w)
  | None => (Raise no_root, w)
  end.
Proof.
  induction paths as [|p paths IH]; [done|]. cbn [search_up list_find].
  destruct (exists_p (join_name p "devkit") w) as [r w1] eqn:E.
  pose proof (exists_p_inv _ _ _ _ E) as [-> ->]. rewrite (M_bind_ok _ _ _ _ _ E).
  fold (has_devkit w p). clear E. destruct (has_devkit w p) eqn:Eh.
  - by rewrite decide_True.
  - rewrite decide_False by done. rewrite IH. by destruct (list_find _ paths) as [[i q]|].
Qed.

(** [p] and its ancestors, as prefixes of its parts. *)
Lemma ancestors_spec p i q : (p :: parents p) !! i = Some q ↔
  i ≤ length (p_parts p) ∧ q = mkPath (p_root p) (take (length (p_parts p) - i) (p_parts p)).
Proof.
  destruct p as [root l]. unfold parents. cbn [p_root p_parts]. destruct i as [|i]; cbn.
  - rewrite Nat.sub_0_r, firstn_all. split; [intros [= <-]; split; [lia|done]|by intros [_ ->]].
  - assert (∀ n i, n ≤ length l → parents_go root n l !! i = Some q ↔
      i < n ∧ q = mkPath root (take (n - S i) l)) as H.
    { induction n as [|n IH]; intros j Hn; cbn [parents_go]; [split; [by rewrite lookup_nil|lia]|].
      destruct j as [|j]; cbn.
      - rewrite Nat.sub_0_r. split; [intros [= <-]; split; [lia|done]|by intros [_ ->]].
      - rewrite IH by lia. split; intros [? ->]; split; try lia; do 2 f_equal; lia. }
    rewrite H by lia. split; intros [? ->]; split; try lia; do 2 f_equal; lia.
Qed.

Lemma find_root_frame (w w1 : W) : keeps w w1 → find_project_root w1 = ((find_project_root w).1, w1).
Proof.
  intros (He & Hf & Hc & _). unfold find_project_root.
  rewrite !(M_bind_ok (gets current_dir) _ _ _ _ eq_refl), !search_up_spec.
  assert (current_dir w1 = current_dir w) as -> by (unfold current_dir; by rewrite He, Hc).
  assert (∀ p, has_devkit w1 p = has_devkit w p) as Hd by (intros p; unfold has_devkit; by rewrite Hf, Hc).
  rewrite (list_find_ext (λ p, has_devkit w1 p = true) (λ p, has_devkit w p = true)) by (intros p; by rewrite Hd).
  by destruct (list_find _ _) as [[? ?]|].
Qed.

Lemma find_root_state (w w' : W) r : find_project_root w = (r, w') → w' = w.
Proof. rewrite (find_root_frame w w) by reflexivity. by intros [= _ <-]. Qed.
End find_root.

(** The [i]-th ancestor of a path, itself first. *)
Definition ancestor (p : Path) (i : nat) : Path :=
  mkPath (p_root p) (take (length (p_parts p) - i) (p_parts p)).

(** C28: The root found is the nearest ancestor of the current directory with an
    existing [devkit] entry; the search fails, with the documented error and
    nothing else, exactly when no ancestor has one; it changes nothing. *)
Theorem find_project_root_nearest {PS : Type} (w : World PS) :
  let cur := current_dir w in
  match find_project_root w with
  | (Ok p, w') =>
      w' = w ∧ ∃ i, i ≤ length (p_parts cur) ∧ p = ancestor cur i ∧ has_devkit w p = true ∧
        ∀ j, j < i → has_devkit w (ancestor cur j) = false
  | (Raise e, w') =>
      w' = w ∧ e = no_root ∧ ∀ j, j ≤ length (p_parts cur) → has_devkit w (ancestor cur j) = false
  end.
Proof.
  cbn zeta. set (cur := current_dir w). unfold find_project_root.
  rewrite (M_bind_ok _ _ _ cur w) by done. rewrite search_up_spec.
  destruct (list_find _ _) as [[i p]|] eqn:E.
  - apply list_find_Some in E as (Hi & Hp & Hlt). apply ancestors_spec in Hi as [Hle ->].
    split; [done|]. exists i. split_and!; [done..|]. intros j Hj. apply not_true_is_false.
    apply (Hlt j); [|done]. apply ancestors_spec. split; [lia|done].
  - apply list_find_None in E. split_and!; [done..|]. intros j Hj. apply not_true_is_false.
    eapply (Forall_lookup_1 _ _ j) in E; [exact E|]. by apply ancestors_spec.
Qed.

(** The script prints the root and nothing else, or reports the error and
    ends with code 1. *)
Theorem find_root_main {PS : Type} (w : World PS) :
  match find_project_root w, main w with
  | (Ok p, _), (r, w') => r = Ok tt ∧ stdout_of w' = stdout_of w ++ [str_path p +:+ nl]
  | (Raise _, _), (r, w') => r = Raise (SystemExit 1) ∧ stdout_of w' = stdout_of w
  end.
Proof.
  assert (∀ e w', find_project_root w = (Raise e, w') → e = no_root ∧ w' = w) as He.
  { intros e w' H. unfold find_project_root in H. rewrite (M_bind_ok _ _ _ (current_dir w) w) in H by done.
    rewrite search_up_spec in H. destruct (list_find _ _) as [[i p]|]; by simplify_eq. }
  assert (∀ p w', find_project_root w = (Ok p, w') → w' = w) as Hok.
  { intros p w' H. unfold find_project_root in H. rewrite (M_bind_ok _ _ _ (current_dir w) w) in H by done.
    rewrite search_up_spec in H. destruct (list_find _ _) as [[i q]|]; by simplify_eq. }
  unfold main, try_with. destruct (find_project_root w) as [[p|e] w'] eqn:E.
  - specialize (Hok p w' eq_refl) as ->. rewrite (M_bind_ok _ _ _ _ _ E).
    unfold println, print, emit, modify. split; [done|]. unfold stdout_of. cbn. by rewrite omap_app.
  - specialize (He e w' eq_refl) as [-> ->]. rewrite (M_bind_raise _ _ _ _ _ E). cbn.
    split; [done|]. unfold stdout_of. cbn. by rewrite omap_app, app_nil_r.
Qed.
