(* ===== verification/Coverage.v ===== *)
(** * The coverage report (coverage_report.py)

    The LCOV reader, the per-file figures, the table, the list of what is not
    covered and the verdict against the thresholds. *)

From stdpp Require Import base gmap list strings sorting.
From Stdlib Require Import Ascii ZArith Lia SpecFloat.
From S2P Require Import Prelude PyStr PyFloat Fs World Json FindRoot.

Record FileCoverage := mkFileCoverage {
  file_path : string;
  lines_found : Z;
  lines_hit : Z;
  branches_found : Z;
  branches_hit : Z;
  uncovered_lines : list Z;
  uncovered_branches : list (Z * Z * Z)
}.

#[export] Instance FileCoverage_eq_dec : EqDecision FileCoverage.
Proof. solve_decision. Defined.

(** [FileCoverage(file_path)] *)
Definition new_FileCoverage (path : string) : FileCoverage := mkFileCoverage path 0 0 0 0 [] [].

Definition line_coverage_percent (c : FileCoverage) : result float :=
  if bool_decide (lines_found c = 0%Z) then Ok f1 else int_div (lines_hit c) (lines_found c).

Definition branch_coverage_percent (c : FileCoverage) : result float :=
  if bool_decide (branches_found c = 0%Z) then Ok f1 else int_div (branches_hit c) (branches_found c).

Definition fit_to_column (filepath : string) (max_width : Z) : string :=
  let filepath_length := Z.of_nat (String.length filepath) in
  if (max_width <? filepath_length)%Z then "..." +:+ slice_from filepath (- (max_width - 3))
  else filepath +:+ str_repeat " " (Z.to_nat (max_width - filepath_length)).

(** [f"{x:>7.2%}"] *)
Definition percent7 (x : float) : string := align_right 7 (format_percent x).

Definition generate_summary_line (c : FileCoverage) (target_lines target_branch : float) : result string :=
  l ← line_coverage_percent c;
  b ← branch_coverage_percent c;
  Ok (fit_to_column (file_path c) 50 +:+ " | " +:+ percent7 l +:+ " / " +:+ percent7 target_lines
      +:+ " | " +:+ percent7 b +:+ " / " +:+ percent7 target_branch).

Definition branch_str (b : Z * Z * Z) : string :=
  let '(line, block, branch) := b in
  "Line " +:+ str_of_Z line +:+ ": (block: " +:+ str_of_Z block +:+ ", branch: " +:+ str_of_Z branch +:+ ")".

Definition get_missing_branches_str (c : FileCoverage) : string :=
  join nl (map branch_str (uncovered_branches c)).

(** ** Grouping line numbers *)

Definition range_str (r : Z * Z) : string :=
  if bool_decide (r.1 = r.2) then str_of_Z r.1 else str_of_Z r.1 +:+ "-" +:+ str_of_Z r.2.

(** The loop over the sorted numbers: [start] opens the current range and [prev]
    is its last number so far. *)
Fixpoint group_ranges (start prev : Z) (l : list Z) : list (Z * Z) :=
  match l with
  | [] => [(start, prev)]
  | x :: l =>
      if bool_decide (x = prev + 1)%Z then group_ranges start x l
      else (start, prev) :: group_ranges x x l
  end.

Definition ranges_of (numbers : list Z) : list (Z * Z) :=
  match merge_sort Z.le numbers with
  | [] => []
  | x :: l => group_ranges x x l
  end.

Definition group_consecutive_numbers (numbers : list Z) : string :=
  join ", " (map range_str (ranges_of numbers)).

Definition generate_missing_coverage_report (c : FileCoverage) : string :=
  match uncovered_lines c, uncovered_branches c with
  | [], [] => ""
  | _, _ =>
      let uncovered_lines_str := group_consecutive_numbers (uncovered_lines c) in
      let uncovered_branches_str := get_missing_branches_str c in
      nl +:+ "File: " +:+ file_path c +:+ nl
      +:+ (if bool_decide (uncovered_lines_str = "") then ""
           else "Lines to test: " +:+ uncovered_lines_str +:+ nl)
      +:+ (if bool_decide (uncovered_branches_str = "") then ""
           else "Branches to test:" +:+ nl +:+ uncovered_branches_str)
  end.

(** ** The LCOV file *)

(** The record under construction of each file, by path. *)
Abbreviation coverage_map := (list (string * FileCoverage)).

Definition set_lines_found (n : Z) (c : FileCoverage) : FileCoverage :=
  mkFileCoverage (file_path c) n (lines_hit c) (branches_found c) (branches_hit c) (uncovered_lines c) (uncovered_branches c).
Definition set_lines_hit (n : Z) (c : FileCoverage) : FileCoverage :=
  mkFileCoverage (file_path c) (lines_found c) n (branches_found c) (branches_hit c) (uncovered_lines c) (uncovered_branches c).
Definition set_branches_found (n : Z) (c : FileCoverage) : FileCoverage :=
  mkFileCoverage (file_path c) (lines_found c) (lines_hit c) n (branches_hit c) (uncovered_lines c) (uncovered_branches c).
Definition set_branches_hit (n : Z) (c : FileCoverage) : FileCoverage :=
  mkFileCoverage (file_path c) (lines_found c) (lines_hit c) (branches_found c) n (uncovered_lines c) (uncovered_branches c).
Definition add_uncovered_line (n : Z) (c : FileCoverage) : FileCoverage :=
  mkFileCoverage (file_path c) (lines_found c) (lines_hit c) (branches_found c) (branches_hit c)
    (uncovered_lines c ++ [n]) (uncovered_branches c).
Definition add_uncovered_branch (b : Z * Z * Z) (c : FileCoverage) : FileCoverage :=
  mkFileCoverage (file_path c) (lines_found c) (lines_hit c) (branches_found c) (branches_hit c)
    (uncovered_lines c) (uncovered_branches c ++ [b]).

(** [parts[i]] *)
Definition part (parts : list string) (i : nat) : result string :=
  match parts !! i with Some s => Ok s | None => Raise IndexError end.

Definition parse_lcov_data_line (line : string) (c : FileCoverage) : result FileCoverage :=
  if startswith line "LF:" then n ← py_int_r (replace line "LF:" ""); Ok (set_lines_found n c)
  else if startswith line "LH:" then n ← py_int_r (replace line "LH:" ""); Ok (set_lines_hit n c)
  else if startswith line "BRF:" then n ← py_int_r (replace line "BRF:" ""); Ok (set_branches_found n c)
  else if startswith line "BRH:" then n ← py_int_r (replace line "BRH:" ""); Ok (set_branches_hit n c)
  else if startswith line "DA:" then
    let parts := split_on "," line in
    p0 ← part parts 0;
    line_number ← py_int_r (replace p0 "DA:" "");
    p1 ← part parts 1;
    hit_count ← py_int_r p1;
    Ok (if bool_decide (hit_count = 0%Z) then add_uncovered_line line_number c else c)
  else if startswith line "BRDA" then
    let parts := split_on "," line in
    p0 ← part parts 0;
    line_number ← py_int_r (replace p0 "BRDA:" "");
    p1 ← part parts 1;
    block_id ← py_int_r p1;
    p2 ← part parts 2;
    branch_id ← py_int_r p2;
    hit_marker ← part parts 3;
    Ok (if bool_decide (hit_marker = "-") then add_uncovered_branch (line_number, block_id, branch_id) c else c)
  else Ok c.

(** The state of the reader: the records and the current path. *)
Definition lcov_state : Type := coverage_map * option string.

(** One line of the file. *)
Definition lcov_line (st : lcov_state) (raw : string) : result lcov_state :=
  let '(coverage_data, current_file_path) := st in
  let line := strip raw in
  if startswith line "SF:" then
    let path := replace line "SF:" "" in
    Ok (assoc_set path (new_FileCoverage path) coverage_data, Some path)
  else if bool_decide (line = "end_of_record") then Ok (coverage_data, None)
  else
    match current_file_path with
    | Some path =>
        if bool_decide (path = "") then Ok st
        else
          match assoc path coverage_data with
          | Some c => c' ← parse_lcov_data_line line c; Ok (assoc_set path c' coverage_data, Some path)
          | None => Ok st
          end
    | None => Ok st
    end.

Definition parse_lcov (text : string) : result coverage_map :=
  st ← result_foldl lcov_line ([], None) (file_lines text);
  Ok st.1.

Section report.
Context {PS : Type} {EX : Exec PS}.
Local Abbreviation W := (World PS).

Definition rule : string := str_repeat "-" 90.

(** The variables of the first loop: the verdict and the two averages. *)
Definition table_state : Type := bool * float * float.

Definition table_row (lines_threshold branch_threshold : float)
    (file_lines_thresholds file_branch_thresholds : list (string * float)) (n_files : Z)
    (st : table_state) (c : FileCoverage) : M W table_state :=
  let '(ok, overall_lines, overall_branch) := st in
  lines_cov ← lift_result (line_coverage_percent c);
  branch_cov ← lift_result (branch_coverage_percent c);
  let target_lines := default lines_threshold (assoc (file_path c) file_lines_thresholds) in
  let target_branch := default branch_threshold (assoc (file_path c) file_branch_thresholds) in
  line ← lift_result (generate_summary_line c target_lines target_branch);
  println line ;;
  n ← lift_result (float_of_Z n_files);
  mret (ok && negb (flt lines_cov target_lines || flt branch_cov target_branch),
        fadd overall_lines (fdiv lines_cov n),
        fadd overall_branch (fdiv branch_cov n)).

Definition missing_row (any_missing : bool) (c : FileCoverage) : M W bool :=
  let report := generate_missing_coverage_report c in
  if bool_decide (report = "") then mret any_missing else println report ;; mret true.

Definition print_and_validate_report (coverage_data : coverage_map) (lines_threshold branch_threshold : float)
    (file_lines_thresholds file_branch_thresholds : list (string * float)) : M W bool :=
  let n_files := Z.of_nat (length coverage_data) in
  println (align_left 50 "file" +:+ " | " +:+ align_left 17 "Lines %" +:+ " | Branches %") ;;
  println rule ;;
  '(ok, overall_lines, overall_branch) ←
    for_acc (table_row lines_threshold branch_threshold file_lines_thresholds file_branch_thresholds n_files)
      (true, f0, f0) coverage_data.*2;
  println rule ;;
  println (align_left 50 "Total" +:+ " | " +:+ align_left 17 (percent7 overall_lines) +:+ " | "
           +:+ percent7 overall_branch) ;;
  println (nl +:+ "--- Missing Coverage ---") ;;
  any_missing ← for_acc missing_row false coverage_data.*2;
  when (negb any_missing) (println "All covered!") ;;
  mret ok.

Definition generate_lcov_report (path : Path) (lines_threshold branch_threshold : float)
    (file_lines_thresholds file_branch_thresholds : list (string * float)) : M W bool :=
  try_with
    (text ← read_text path;
     coverage_data ← lift_result (parse_lcov text);
     print_and_validate_report coverage_data lines_threshold branch_threshold
       file_lines_thresholds file_branch_thresholds)
    (λ e, if is_FileNotFoundError e
          then Some (println ("File not found: " +:+ str_path path) ;; mret false) else None).

(** ** Running bazel *)

Definition report_in (dir : Path) : Path :=
  join_name (join_name (join_name dir "bazel-out") "_coverage") "_coverage_report.dat".

Definition coverage_cmd (project_root : Path) (target : string) : list string :=
  [str_path (join_name (join_name project_root "devkit") "build"); "bazel"; "coverage";
   "--combined_report=lcov"; target].

(** The output of the program is not captured, so the exception carries none. *)
Definition run_bazel_coverage (target : string) : M W Path :=
  project_root ← find_project_root;
  try_with
    (run_checked (coverage_cmd project_root target) ;;
     cwd_report ← gets (λ w : W, report_in (mkPath true (w_cwd w)));
     here ← exists_p cwd_report;
     if (here : bool) then mret cwd_report else mret (report_in project_root))
    (λ e, match e with
          | CalledProcessError _ rc _ _ =>
              Some (eprintln ("Error: Bazel coverage failed with exit code " +:+ str_of_Z rc +:+ ".") ;;
                    sys_exit 1)
          | _ => None
          end).

(** ** The thresholds file *)

(** [float(v)] *)
Definition py_float (v : json) : result float :=
  match v with
  | JFloat x => Ok x
  | JInt n => float_of_Z n
  | JBool b => Ok (if b then f1 else f0)
  | JStr s => match parse_float s with Some x => Ok x | None => Raise (ValueError "could not convert string to float") end
  | _ => Raise TypeError
  end.

(** [0.0 <= x <= 100.0] *)
Definition in_percent_range (x : float) : bool := fle f0 x && fle x f100.

(** One of the two [if key in values] of the loop. *)
Definition read_threshold (key label filepath : string) (values : list (string * json))
    (acc : list (string * float)) : result (list (string * float)) :=
  match assoc key values with
  | None => Ok acc
  | Some v =>
      val ← py_float v;
      if in_percent_range val then Ok (assoc_set filepath (fdiv val f100) acc)
      else Raise (ValueError (label +:+ " for " +:+ filepath +:+ " must be in [0.0, 100.0]"))
  end.

Definition thresholds : Type := list (string * float) * list (string * float).

Definition read_entry (acc : thresholds) (entry : string * json) : result thresholds :=
  let '(filepath, values) := entry in
  match values with
  | JObj fields =>
      file_lines ← read_threshold "lines" "Lines" filepath fields acc.1;
      file_branch ← read_threshold "branch" "Branch" filepath fields acc.2;
      Ok (file_lines, file_branch)
  | _ => Raise (ValueError ("Values for " +:+ filepath +:+ " must be a JSON object."))
  end.

Definition read_thresholds (text : string) : result thresholds :=
  data ← json_loads text;
  match data with
  | JObj entries => result_foldl read_entry ([], []) entries
  | _ => Raise (ValueError "Root element must be a JSON object.")
  end.

Definition thresholds_error_text (e : exn) : string :=
  match e with
  | ValueError m | JSONDecodeError m | FileNotFoundError m => m
  | _ => ""
  end.

Definition parse_thresholds_file (path : Path) : M W thresholds :=
  try_with
    (text ← read_text path; lift_result (read_thresholds text))
    (λ e, if is_FileNotFoundError e || is_JSONDecodeError e || is_ValueError e
          then Some (println ("Error reading thresholds file: " +:+ thresholds_error_text e) ;; sys_exit 1) else None).

Record cov_namespace := mkCovArgs {
  ca_target : string;
  ca_lines : float;
  ca_branch : float;
  ca_thresholds_file : option Path
}.

Definition check_range (nv : string * float) : M W () :=
  when (negb (in_percent_range nv.2))
    (println ("Error: " +:+ nv.1 +:+ " threshold value must be in range [0.0, 100.0]") ;; sys_exit 1).

(** [main] after [parse_args] *)
Definition main (args : cov_namespace) : M W () :=
  for_each check_range [("Branch", ca_branch args); ("Lines", ca_lines args)] ;;
  '(file_lines, file_branch) ←
    match ca_thresholds_file args with
    | Some p => parse_thresholds_file p
    | None => mret ([], [])
    end;
  log_info "Running Bazel Coverage" ;;
  report_path ← run_bazel_coverage (ca_target args);
  log_info "Generating coverage report" ;;
  coverage_passed ← generate_lcov_report report_path (fdiv (ca_lines args) f100) (fdiv (ca_branch args) f100)
                      file_lines file_branch;
  if (coverage_passed : bool) then println "Coverage check passed."
  else println "Coverage check failed." ;; sys_exit 1.
End report.
