(* ===== verification/CoverageProofs.v ===== *)
(** * Lemmas about the coverage report

    Ranges of line numbers, the LCOV reader against a printer of the format, and
    the verdict of the table. *)

From stdpp Require Import base gmap list strings sorting.
From Stdlib Require Import Ascii ZArith Lia SpecFloat.
From S2P Require Import Prelude PyStr PyFloat Fs World Json FindRoot Coverage.

(** ** Ranges *)

(** The numbers of a range. *)
Definition expand (r : Z * Z) : list Z := seqZ r.1 (r.2 - r.1 + 1).

(** No two neighbours can be merged. *)
Fixpoint separated (rs : list (Z * Z)) : Prop :=
  match rs with
  | r1 :: (r2 :: _) as rs' => r2.1 ≠ (r1.2 + 1)%Z ∧ separated rs'
  | _ => True
  end.

Definition valid_range (r : Z * Z) : Prop := (r.1 ≤ r.2)%Z.

Lemma seqZ_1 a : seqZ a 1 = [a].
Proof. rewrite seqZ_cons by lia. done. Qed.

Lemma expand_single a : expand (a, a) = [a].
Proof. unfold expand. cbn. replace (a - a + 1)%Z with 1%Z by lia. apply seqZ_1. Qed.

Lemma expand_cons a b : (a ≤ b)%Z → expand (a, b) = a :: seqZ (a + 1) (b - a).
Proof. intros. unfold expand. cbn. rewrite seqZ_cons by lia. f_equal. f_equal; lia. Qed.

Lemma group_ranges_spec start prev l : (start ≤ prev)%Z →
  concat (expand <$> group_ranges start prev l) = expand (start, prev) ++ l ∧
  separated (group_ranges start prev l) ∧ Forall valid_range (group_ranges start prev l) ∧
  ∃ e rs, group_ranges start prev l = (start, e) :: rs ∧ (prev ≤ e)%Z.
Proof.
  revert start prev. induction l as [|x l IH]; intros start prev H; cbn [group_ranges].
  - cbn. split_and!; try done. { by rewrite Forall_singleton. } by exists prev, [].
  - case_bool_decide as E.
    + destruct (IH start x) as (H1 & H2 & H3 & e & rs & H4 & H5); [lia|]. rewrite H1. split_and!; try done.
      * rewrite cons_middle, app_assoc. f_equal. unfold expand. cbn.
        replace (x - start + 1)%Z with (prev - start + 1 + 1)%Z by lia.
        rewrite seqZ_app, seqZ_1 by lia. do 2 f_equal. lia.
      * exists e, rs. split; [done|lia].
    + destruct (IH x x) as (H1 & H2 & H3 & e & rs & H4 & H5); [lia|]. cbn [fmap list_fmap concat]. rewrite H1.
      split_and!.
      * by rewrite expand_single.
      * rewrite H4 in *. done.
      * by constructor.
      * exists prev, (group_ranges x x l). split; [done|lia].
Qed.

Lemma ranges_of_spec numbers :
  concat (expand <$> ranges_of numbers) = merge_sort Z.le numbers ∧
  separated (ranges_of numbers) ∧ Forall valid_range (ranges_of numbers).
Proof.
  unfold ranges_of. destruct (merge_sort Z.le numbers) as [|x l]; [done|].
  destruct (group_ranges_spec x x l) as (-> & ? & ? & _); [lia|]. split_and!; try done.
  by rewrite expand_single.
Qed.

(** A list of numbers splits into maximal ranges in one way. *)
Lemma ranges_unique rs1 rs2 : separated rs1 → separated rs2 →
  Forall valid_range rs1 → Forall valid_range rs2 →
  concat (expand <$> rs1) = concat (expand <$> rs2) → rs1 = rs2.
Proof.
  (* a run that continues past [b1] contains [b1 + 1] next *)
  assert (∀ a b1 b2 (l1 l2 : list Z), (a ≤ b1)%Z → (b1 < b2)%Z →
    expand (a, b1) ++ l1 = expand (a, b2) ++ l2 → head l1 = Some (b1 + 1)%Z) as Hrun.
  { intros a b1 b2 l1 l2 Hab Hb. unfold expand. cbn.
    replace (b2 - a + 1)%Z with ((b1 - a + 1) + (b2 - b1))%Z by lia.
    rewrite (seqZ_app a (b1 - a + 1)), <- app_assoc by lia. intros ->%app_inv_head. rewrite seqZ_cons by lia. cbn.
    f_equal. lia. }
  assert (∀ rs, Forall valid_range rs → ∀ x, head (concat (expand <$> rs)) = Some x →
    ∃ e rs', rs = (x, e) :: rs') as Hhd.
  { intros [|[a e] rs] V x; [done|]. apply Forall_cons in V as [Ha _]. cbn. rewrite expand_cons by done. intros [= <-]. eauto. }
  revert rs2. induction rs1 as [|[a1 b1] rs1 IH]; intros [|[a2 b2] rs2] S1 S2 V1 V2 E; [done| | |].
  - apply Forall_cons in V2 as [V2 _]. cbn in E. by rewrite expand_cons in E by done.
  - apply Forall_cons in V1 as [V1 _]. cbn in E. by rewrite expand_cons in E by done.
  - apply Forall_cons in V1 as [V1 V1'], V2 as [V2 V2']. cbn in V1, V2, E.
    assert (a1 = a2) as -> by (rewrite !expand_cons in E by done; by injection E).
    assert (separated rs1 ∧ separated rs2) as [S1' S2'] by (destruct rs1, rs2; cbn in *; tauto).
    destruct (Z.lt_trichotomy b1 b2) as [Hb|[->|Hb]].
    + apply (Hrun a2 b1 b2) in E; [|done..]. apply Hhd in E as (e & rs' & ->); [|done]. by destruct S1.
    + f_equal. apply IH; try done. by apply app_inv_head in E.
    + symmetry in E. apply (Hrun a2 b2 b1) in E; [|done..]. apply Hhd in E as (e & rs' & ->); [|done]. by destruct S2.
Qed.

(** ** The LCOV format

    The lines of a record, how they are written, and what they say. *)

Inductive lcov_data :=
| LF (n : Z)
| LH (n : Z)
| BRF (n : Z)
| BRH (n : Z)
| DA (line count : Z)
| BRDA (line block branch : Z) (taken : option Z).

Definition lcov_record : Type := string * list lcov_data.

Definition print_data (d : lcov_data) : string :=
  match d with
  | LF n => "LF:" +:+ str_of_Z n
  | LH n => "LH:" +:+ str_of_Z n
  | BRF n => "BRF:" +:+ str_of_Z n
  | BRH n => "BRH:" +:+ str_of_Z n
  | DA l c => "DA:" +:+ str_of_Z l +:+ "," +:+ str_of_Z c
  | BRDA l b n t =>
      "BRDA:" +:+ str_of_Z l +:+ "," +:+ str_of_Z b +:+ "," +:+ str_of_Z n +:+ ","
      +:+ match t with Some k => str_of_Z k | None => "-" end
  end.

Definition record_lines (r : lcov_record) : list string :=
  ("SF:" +:+ r.1) :: (print_data <$> r.2) ++ ["end_of_record"].

Definition print_lcov (rs : list lcov_record) : string :=
  join "" ((λ l, l +:+ nl) <$> (rs ≫= record_lines)).

(** The value of the last line of a kind. *)
Definition last_of (f : lcov_data → option Z) (ds : list lcov_data) : Z := default 0%Z (last (omap f ds)).

(** What a record says about its file: the last total of each kind, the lines
    with count 0 and the branches never reached, in order. *)
Definition cov_of (r : lcov_record) : FileCoverage :=
  let ds := r.2 in
  mkFileCoverage r.1
    (last_of (λ d, match d with LF n => Some n | _ => None end) ds)
    (last_of (λ d, match d with LH n => Some n | _ => None end) ds)
    (last_of (λ d, match d with BRF n => Some n | _ => None end) ds)
    (last_of (λ d, match d with BRH n => Some n | _ => None end) ds)
    (omap (λ d, match d with DA l c => if bool_decide (c = 0%Z) then Some l else None | _ => None end) ds)
    (omap (λ d, match d with BRDA l b n None => Some (l, b, n) | _ => None end) ds).

(** Numbers CPython can read back. *)
Definition data_ok (d : lcov_data) : bool :=
  match d with
  | LF n | LH n | BRF n | BRH n => printable n
  | DA l c => printable l && printable c
  | BRDA l b n _ => printable l && printable b && printable n
  end.

(** A path that a line can hold and the reader recovers. *)
Definition path_ok (p : string) : bool :=
  negb (bool_decide (p = "")) && trimmed ("SF:" +:+ p) && negb (str_contains p "SF:")
  && str_forall (λ c, negb ((code c =? 10)%N || (code c =? 13)%N)) p.

Definition record_ok (r : lcov_record) : bool := path_ok r.1 && forallb data_ok r.2.

(** A tag in front of a number. *)
Lemma replace_tag c tag n : num_char c = false →
  replace (String c tag +:+ str_of_Z n) (String c tag) "" = str_of_Z n.
Proof. intros Hc. apply replace_head; [done|]. by apply str_contains_head_absent, str_of_Z_not_mem. Qed.

Lemma read_tag c tag n : num_char c = false → printable n = true →
  py_int_r (replace (String c tag +:+ str_of_Z n) (String c tag) "") = Ok n.
Proof. intros. rewrite replace_tag by done. by apply py_int_r_str. Qed.

Definition apply_data (c : FileCoverage) (d : lcov_data) : FileCoverage :=
  match d with
  | LF n => set_lines_found n c
  | LH n => set_lines_hit n c
  | BRF n => set_branches_found n c
  | BRH n => set_branches_hit n c
  | DA l k => if bool_decide (k = 0%Z) then add_uncovered_line l c else c
  | BRDA l b n None => add_uncovered_branch (l, b, n) c
  | BRDA l b n (Some _) => c
  end.

(** Decide which tag a line with a known head starts with. *)
Ltac tag_case :=
  repeat match goal with
  | |- context [startswith ?s ?p] =>
      first [ assert (startswith s p = true) as -> by exact (prefix_app p _)
            | assert (startswith s p = false) as -> by reflexivity ]
  end.

(** Bring the separators to the form [split_on_app] expects. *)
Ltac comma_norm := rewrite !(str_app_cons ","), !str_app_nil_l, <- (str_app_assoc _ (str_of_Z _) (String "," _)).

(** Reading one printed line. *)
Lemma parse_data_line d c : data_ok d = true → parse_lcov_data_line (print_data d) c = Ok (apply_data c d).
Proof.
  assert (∀ c tag n, num_char c = false → str_forall (λ c, negb (bool_decide (c = ","%char))) (String c tag) = true →
    str_mem "," (String c tag +:+ str_of_Z n) = false) as Hnc.
  { intros ch tag n ? Ht. rewrite str_mem_app, str_of_Z_not_mem by done. rewrite orb_false_r.
    by eapply str_forall_not_mem, Ht. }
  unfold parse_lcov_data_line. destruct d as [n|n|n|n|l k|l b n t]; cbn [data_ok print_data apply_data]; tag_case.
  1-4: intros Hn; by rewrite read_tag.
  - intros [Hl Hk]%andb_true_iff. comma_norm. rewrite split_on_app by by apply Hnc.
    rewrite split_on_no_sep by by apply str_of_Z_not_mem. cbn [part lookup list_lookup mbind result_bind].
    rewrite read_tag by done. cbn [mbind result_bind]. by rewrite py_int_r_str.
  - intros [[Hl Hb]%andb_true_iff Hn]%andb_true_iff. comma_norm. rewrite split_on_app by by apply Hnc.
    rewrite !split_on_app by by apply str_of_Z_not_mem. rewrite split_on_no_sep.
    2: { destruct t; [by apply str_of_Z_not_mem|done]. }
    cbn [part lookup list_lookup mbind result_bind]. rewrite read_tag by done. cbn [mbind result_bind].
    rewrite !py_int_r_str by done. cbn [mbind result_bind]. destruct t as [k|].
    + rewrite bool_decide_eq_false_2 by apply str_of_Z_not_dash. done.
    + done.
Qed.

Lemma last_of_snoc f ds d : last_of f (ds ++ [d]) = default (last_of f ds) (f d).
Proof.
  unfold last_of. rewrite omap_app. cbn. destruct (f d); [by rewrite last_snoc|by rewrite app_nil_r].
Qed.

Lemma apply_all path ds : foldl apply_data (new_FileCoverage path) ds = cov_of (path, ds).
Proof.
  induction ds as [|d ds IH] using rev_ind; [done|]. rewrite foldl_snoc, IH.
  unfold cov_of. cbn [fst snd]. rewrite !last_of_snoc, !omap_app.
  destruct d as [n|n|n|n|l k|l b n [t|]]; cbn; try (case_bool_decide; cbn); by rewrite ?app_nil_r.
Qed.

(** *** Lines of a text *)

Definition one_line (s : string) : bool := str_forall (λ c, negb ((code c =? 10)%N || (code c =? 13)%N)) s.

Lemma file_lines_go_line cur s t : one_line s = true →
  file_lines_go cur false (s +:+ nl +:+ t) = (cur +:+ s +:+ nl) :: file_lines_go "" false t.
Proof.
  revert cur. induction s as [|c s IH]; intros cur H; [by rewrite !str_app_nil_l|].
  cbn in H. apply andb_true_iff in H as [Hc%negb_true_iff Hs]. rewrite str_app_cons.
  cbn [file_lines_go andb]. rewrite Hc, IH by done. f_equal. by str_norm.
Qed.

Lemma join_empty_cons s l : join "" (s :: l) = s +:+ join "" l.
Proof. destruct l; [by rewrite str_app_nil_r|done]. Qed.

Lemma file_lines_join l : Forall (λ s, one_line s = true) l →
  file_lines (join "" ((λ s, s +:+ nl) <$> l)) = (λ s, s +:+ nl) <$> l.
Proof.
  unfold file_lines. induction 1 as [|s l Hs Hl IH]; [done|]. rewrite fmap_cons, join_empty_cons, str_app_assoc.
  rewrite file_lines_go_line, IH by done. by rewrite str_app_nil_l.
Qed.

(** *** A printed line as the reader sees it *)

Definition data_char (c : ascii) : bool :=
  negb (is_space c) && negb ((code c =? 10)%N || (code c =? 13)%N).

Lemma data_chars d : str_forall data_char (print_data d) = true.
Proof.
  assert (∀ n, str_forall data_char (str_of_Z n) = true) as Hn.
  { intros n. eapply str_forall_impl; [|apply str_of_Z_chars]. intros c [H1 H2]%num_char_plain.
    unfold data_char. by rewrite H1, H2. }
  destruct d as [n|n|n|n|l k|l b n [t|]]; cbn [print_data]; rewrite !str_forall_app, !Hn; reflexivity.
Qed.

Lemma data_one_line d : one_line (print_data d) = true.
Proof. eapply str_forall_impl; [|apply (data_chars d)]. by intros c [_ ?]%andb_true_iff. Qed.

Lemma data_strip d : strip (print_data d +:+ nl) = print_data d.
Proof.
  rewrite strip_nl. apply strip_no_space. eapply str_forall_impl; [|apply (data_chars d)].
  by intros c [? _]%andb_true_iff.
Qed.

Lemma assoc_set_twice {A} k (a b : A) l : assoc_set k a (assoc_set k b l) = assoc_set k a l.
Proof.
  induction l as [|[k' x] l IH]; cbn; [by rewrite bool_decide_eq_true_2|].
  destruct (decide (k = k')) as [->|Hk].
  - rewrite bool_decide_eq_true_2 by done. cbn. by rewrite bool_decide_eq_true_2.
  - rewrite bool_decide_eq_false_2 by done. cbn. rewrite bool_decide_eq_false_2 by done. by rewrite IH.
Qed.

Lemma lcov_line_data m path c d : path ≠ "" → data_ok d = true →
  lcov_line (assoc_set path c m, Some path) (print_data d +:+ nl)
  = Ok (assoc_set path (apply_data c d) m, Some path).
Proof.
  intros Hp Hd. unfold lcov_line. rewrite data_strip.
  assert (startswith (print_data d) "SF:" = false) as -> by by destruct d.
  rewrite bool_decide_eq_false_2; [|destruct d; cbn [print_data]; by rewrite str_app_cons].
  rewrite bool_decide_eq_false_2 by done. rewrite assoc_set_eq, parse_data_line by done. cbn.
  by rewrite assoc_set_twice.
Qed.

Lemma result_foldl_app {A B} (f : B → A → result B) b l1 l2 :
  result_foldl f b (l1 ++ l2) = (b' ← result_foldl f b l1; result_foldl f b' l2).
Proof. revert b. induction l1 as [|x l1 IH]; intros b; [done|]. cbn. destruct (f b x); [apply IH|done]. Qed.

Lemma lcov_lines_data m path c ds : path ≠ "" → forallb data_ok ds = true →
  result_foldl lcov_line (assoc_set path c m, Some path) ((λ s, s +:+ nl) <$> (print_data <$> ds))
  = Ok (assoc_set path (foldl apply_data c ds) m, Some path).
Proof.
  intros Hp. revert c. induction ds as [|d ds IH]; intros c; [done|]. cbn [forallb].
  intros [Hd Hds]%andb_true_iff. rewrite !fmap_cons. cbn [result_foldl]. rewrite lcov_line_data by done.
  by apply IH.
Qed.

Lemma path_ok_inv p : path_ok p = true →
  p ≠ "" ∧ strip ("SF:" +:+ p +:+ nl) = "SF:" +:+ p ∧ replace ("SF:" +:+ p) "SF:" "" = p ∧ one_line p = true.
Proof.
  unfold path_ok. intros [[[H1%negb_true_iff H2]%andb_true_iff H3%negb_true_iff]%andb_true_iff H4]%andb_true_iff.
  apply bool_decide_eq_false in H1. split_and!; [done| |by apply replace_head|done].
  rewrite <- str_app_assoc, strip_nl. by apply strip_trimmed.
Qed.

Lemma lcov_record_read m cur r : record_ok r = true →
  result_foldl lcov_line (m, cur) ((λ s, s +:+ nl) <$> record_lines r) = Ok (assoc_set r.1 (cov_of r) m, None).
Proof.
  destruct r as [path ds]. unfold record_ok, record_lines. cbn [fst snd].
  intros [(Hne & Hstrip & Hrep & _)%path_ok_inv Hds]%andb_true_iff. rewrite fmap_cons, fmap_app. cbn [result_foldl].
  assert (lcov_line (m, cur) (("SF:" +:+ path) +:+ nl)
    = Ok (assoc_set path (new_FileCoverage path) m, Some path)) as ->.
  { unfold lcov_line. rewrite str_app_assoc, Hstrip, Hrep.
    by assert (startswith ("SF:" +:+ path) "SF:" = true) as -> by apply prefix_app. }
  cbn [mbind result_bind]. rewrite result_foldl_app, lcov_lines_data by done. by rewrite apply_all.
Qed.

(** Reading back what the printer wrote. *)
Lemma parse_print_lcov rs : forallb record_ok rs = true →
  parse_lcov (print_lcov rs) = Ok (assoc_update [] ((λ r, (r.1, cov_of r)) <$> rs)).
Proof.
  intros H. unfold parse_lcov, print_lcov. rewrite file_lines_join.
  2: { apply Forall_bind, Forall_forall. intros r Hr%list_elem_of_In.
       apply forallb_forall with (x := r) in H; [|done]. apply andb_true_iff in H as [Hp _].
       apply path_ok_inv in Hp as (_ & _ & _ & Hl). unfold record_lines. constructor; [done|].
       apply Forall_app. split; [|by repeat constructor]. apply Forall_fmap, Forall_forall. intros. apply data_one_line. }
  assert (∀ m cur, ∃ cur', result_foldl lcov_line (m, cur) ((λ s, s +:+ nl) <$> (rs ≫= record_lines))
    = Ok (assoc_update m ((λ r, (r.1, cov_of r)) <$> rs), cur')) as Hrun.
  { revert H. induction rs as [|r rs IH]; [by eauto|]. cbn [forallb]. intros [Hr Hrs]%andb_true_iff m cur.
    cbn [mbind list_bind]. rewrite fmap_app, result_foldl_app, lcov_record_read by done.
    destruct (IH Hrs (assoc_set r.1 (cov_of r) m) None) as [cur' E]. exists cur'. exact E. }
  destruct (Hrun [] None) as [cur' ->]. done.
Qed.

(** ** The verdict *)

Definition measured (c : FileCoverage) : Prop :=
  is_Ok (line_coverage_percent c) ∧ is_Ok (branch_coverage_percent c).

Lemma int_div_raise n d e : d ≠ 0%Z → int_div n d = Raise e → e = OverflowError.
Proof. unfold int_div. intros. repeat case_match; by simplify_eq. Qed.

Lemma line_percent_raise c e : line_coverage_percent c = Raise e → e = OverflowError.
Proof. unfold line_coverage_percent. case_bool_decide; [done|]. by apply int_div_raise. Qed.

Lemma branch_percent_raise c e : branch_coverage_percent c = Raise e → e = OverflowError.
Proof. unfold branch_coverage_percent. case_bool_decide; [done|]. by apply int_div_raise. Qed.

Section verdict.
Context {PS : Type} {EX : Exec PS}.
Local Abbreviation W := (World PS).
Context (lt bt : float) (fl fb : list (string * float)).

(** A file meets its own targets, or the common ones. *)
Definition meets (c : FileCoverage) : bool :=
  match line_coverage_percent c, branch_coverage_percent c with
  | Ok l, Ok b =>
      negb (flt l (default lt (assoc (file_path c) fl)) || flt b (default bt (assoc (file_path c) fb)))
  | _, _ => false
  end.

Lemma quiet_table_row n st c : always (@quiet PS) (table_row lt bt fl fb n st c).
Proof. destruct st as [[ok ol] ob]. unfold table_row. frame. Qed.

Lemma table_row_spec n st c (w : W) r w' : table_row lt bt fl fb n st c w = (r, w') →
  quiet w w' ∧
  match r with
  | Ok st' => measured c ∧ is_Ok (float_of_Z n) ∧ st'.1.1 = st.1.1 && meets c
  | Raise e => e = OverflowError ∧ ¬ (measured c ∧ is_Ok (float_of_Z n))
  end.
Proof.
  intros H. split; [by apply quiet_table_row in H|].
  destruct st as [[ok ol] ob]. unfold table_row in H. cbn zeta in H.
  pose proof (line_percent_raise c) as Hl. pose proof (branch_percent_raise c) as Hb.
  unfold meets, measured, generate_summary_line in *.
  destruct (line_coverage_percent c) as [l|e]; [|munfold; simplify_eq; split; [by auto|by intros [[[]] ]]].
  destruct (branch_coverage_percent c) as [b|e]; [|munfold; simplify_eq; split; [by auto|by intros [[? []] ]]].
  unfold float_of_Z in *. munfold. destruct (is_inf (round_ratio n 1)); cbn in H; simplify_eq.
  - split; [done|]. by intros [_ []].
  - cbn. split_and!; try by eexists.
Qed.

Lemma table_loop_spec n st cs (w : W) r w' :
  for_acc (table_row lt bt fl fb n) st cs w = (r, w') →
  match r with
  | Ok st' => Forall measured cs ∧ (cs ≠ [] → is_Ok (float_of_Z n)) ∧ st'.1.1 = st.1.1 && forallb meets cs
  | Raise e => e = OverflowError ∧ ¬ (Forall measured cs ∧ is_Ok (float_of_Z n))
  end.
Proof.
  revert st w. induction cs as [|c cs IH]; intros st w H; cbn [for_acc] in H.
  { munfold. simplify_eq. by rewrite andb_true_r. }
  unfold mbind, M_bind in H. destruct (table_row lt bt fl fb n st c w) as [[st1|e] w1] eqn:E.
  - apply table_row_spec in E as (_ & Hm & Hn & Hst). apply IH in H. destruct r as [st'|e].
    + destruct H as (H1 & _ & H2). split_and!; [by constructor|done|]. cbn. by rewrite H2, Hst, andb_assoc.
    + destruct H as [-> H2]. split; [done|]. intros [[_ ?]%Forall_cons ?]; by apply H2.
  - apply table_row_spec in E as (_ & -> & Hn). simplify_eq. split; [done|]. intros [[? _]%Forall_cons ?]; by apply Hn.
Qed.

Lemma missing_loop_ok any cs (w : W) :
  ∃ any' w', for_acc missing_row any cs w = (Ok any', w') ∧
    any' = any || existsb (λ c, negb (bool_decide (generate_missing_coverage_report c = ""))) cs.
Proof.
  revert any w. induction cs as [|c cs IH]; intros any w; cbn [for_acc].
  { exists any, w. by rewrite orb_false_r. }
  cbn [existsb]. destruct (decide (generate_missing_coverage_report c = "")) as [E0|E0].
  - erewrite M_bind_ok by (unfold missing_row; by rewrite bool_decide_eq_true_2).
    rewrite bool_decide_eq_true_2 by done. apply IH.
  - erewrite M_bind_ok by (unfold missing_row; by rewrite bool_decide_eq_false_2).
    rewrite bool_decide_eq_false_2, orb_true_r by done. by apply (IH true).
Qed.

(** The outcome of the report: the verdict, or the overflow of a figure. *)
Lemma print_and_validate_spec data (w : W) r w' :
  print_and_validate_report data lt bt fl fb w = (r, w') →
  match r with
  | Ok ok => Forall measured data.*2 ∧ is_Ok (float_of_Z (Z.of_nat (length data))) ∧ ok = forallb meets data.*2
  | Raise e => e = OverflowError ∧ ¬ (Forall measured data.*2 ∧ is_Ok (float_of_Z (Z.of_nat (length data))))
  end.
Proof.
  unfold print_and_validate_report. cbn zeta. intros H.
  erewrite M_bind_ok in H by reflexivity. erewrite M_bind_ok in H by reflexivity.
  unfold mbind at 1, M_bind at 1 in H. destruct (for_acc (table_row _ _ _ _ _) _ _ _) as [[[[ok ol] ob]|e] w1] eqn:E;
    apply table_loop_spec in E; [|simplify_eq; exact E].
  destruct E as (Hm & Hn & Hok). cbn in Hok. subst ok.
  assert (is_Ok (float_of_Z (Z.of_nat (length data)))) by (destruct data; [by eexists|by apply Hn]).
  do 3 (erewrite M_bind_ok in H by reflexivity).
  match type of H with (for_acc _ _ ?cs ≫= _) ?w0 = _ => destruct (missing_loop_ok false cs w0) as (any & w2 & E & _) end.
  rewrite (M_bind_ok _ _ _ _ _ E) in H. destruct any; cbn in H; injection H as <- <-; done.
Qed.
End verdict.

(** ** The thresholds file *)

Definition field_valid (key : string) (fields : list (string * json)) : bool :=
  match assoc key fields with
  | None => true
  | Some x => match py_float x with Ok val => in_percent_range val | Raise _ => false end
  end.

Definition entry_valid (v : json) : bool :=
  match v with JObj fields => field_valid "lines" fields && field_valid "branch" fields | _ => false end.

(** The threshold an entry gives for [key], as a fraction. *)
Definition field_value (key : string) (v : json) : option float :=
  match v with
  | JObj fields =>
      match assoc key fields with
      | Some x => match py_float x with Ok val => Some (fdiv val f100) | Raise _ => None end
      | None => None
      end
  | _ => None
  end.

(** What a bad entry raises. *)
Definition bad_entry_exn (e : exn) : Prop := (∃ m, e = ValueError m) ∨ e = TypeError ∨ e = OverflowError.

Lemma py_float_raise v e : py_float v = Raise e → bad_entry_exn e.
Proof.
  unfold bad_entry_exn, py_float, float_of_Z. intros. repeat case_match; simplify_eq; eauto.
Qed.

Lemma read_threshold_spec key label p fields acc :
  match read_threshold key label p fields acc with
  | Ok acc' =>
      field_valid key fields = true ∧
      ∀ q, assoc q acc' = if bool_decide (q = p) then
                            match field_value key (JObj fields) with Some x => Some x | None => assoc q acc end
                          else assoc q acc
  | Raise e => field_valid key fields = false ∧ bad_entry_exn e
  end.
Proof.
  unfold read_threshold, field_valid, field_value. destruct (assoc key fields) as [x|].
  2: { split; [done|]. intros q. by case_bool_decide. }
  destruct (py_float x) as [val|e] eqn:E; cbn [mbind result_bind]; [|by apply py_float_raise in E].
  destruct (in_percent_range val); [|split; [done|left; eauto]]. split; [done|]. intros q.
  case_bool_decide; subst; [by rewrite assoc_set_eq|by rewrite assoc_set_ne].
Qed.

Lemma read_entry_spec acc p v :
  match read_entry acc (p, v) with
  | Ok acc' =>
      entry_valid v = true ∧
      ∀ q, (assoc q acc'.1 = if bool_decide (q = p) then
              match field_value "lines" v with Some x => Some x | None => assoc q acc.1 end else assoc q acc.1) ∧
           (assoc q acc'.2 = if bool_decide (q = p) then
              match field_value "branch" v with Some x => Some x | None => assoc q acc.2 end else assoc q acc.2)
  | Raise e => entry_valid v = false ∧ bad_entry_exn e
  end.
Proof.
  unfold read_entry. destruct v as [| | | | |l|fields]; try (by split; [|left; eauto]).
  pose proof (read_threshold_spec "lines" "Lines" p fields acc.1) as H1.
  destruct (read_threshold "lines" _ _ _ _) as [a1|e]; cbn [mbind result_bind].
  2: { destruct H1 as [H1 ?]. cbn. by rewrite H1. }
  pose proof (read_threshold_spec "branch" "Branch" p fields acc.2) as H2.
  destruct (read_threshold "branch" _ _ _ _) as [a2|e]; cbn [mbind result_bind].
  2: { destruct H2 as [H2 ?]. cbn. by rewrite H2, andb_false_r. }
  cbn [entry_valid]. destruct H1 as [-> H1], H2 as [-> H2]. split; [done|]. intros q. cbn [fst snd]. auto.
Qed.

Lemma read_entries_spec entries acc : NoDup (keys entries) →
  match result_foldl read_entry acc entries with
  | Ok acc' =>
      forallb (λ kv, entry_valid kv.2) entries = true ∧
      ∀ q, (assoc q acc'.1 = match assoc q entries ≫= field_value "lines" with
                             | Some x => Some x | None => assoc q acc.1 end) ∧
           (assoc q acc'.2 = match assoc q entries ≫= field_value "branch" with
                             | Some x => Some x | None => assoc q acc.2 end)
  | Raise e => forallb (λ kv, entry_valid kv.2) entries = false ∧ bad_entry_exn e
  end.
Proof.
  revert acc. induction entries as [|[p v] entries IH]; intros acc; [done|].
  intros [Hp Hnd]%NoDup_cons. cbn [result_foldl forallb]. pose proof (read_entry_spec acc p v) as H1.
  destruct (read_entry acc (p, v)) as [acc1|e]; cbn [mbind result_bind snd].
  2: { destruct H1 as [-> ?]. done. }
  destruct H1 as [-> H1]. specialize (IH acc1 Hnd).
  destruct (result_foldl read_entry acc1 entries) as [acc2|e]; [|done].
  destruct IH as [-> H2]. split; [done|]. intros q. destruct (H2 q) as [-> ->], (H1 q) as [-> ->].
  cbn [assoc]. case_bool_decide as Eq; [|done]. subst q.
  assert (assoc p entries = None) as -> by by apply assoc_None. done.
Qed.
