(* ===== verification/CoverageTheorems.v ===== *)
(** * What coverage_report.py guarantees

    The grouping of line numbers is canonical, the path column has its width, the
    LCOV reader recovers what the format says, the thresholds file gives the
    fractions it states, and the script succeeds exactly when every file meets its
    targets. *)

From stdpp Require Import base gmap list strings sorting.
From Stdlib Require Import Ascii ZArith Lia SpecFloat.
From S2P Require Import Prelude PyStr PyFloat Fs World Json FindRoot Coverage CoverageProofs Sim.

(** C19: The ranges shown for a list of line numbers are the only list of ranges
    that covers exactly these numbers (with their repetitions), in increasing
    order, and in which no two neighbours can be merged. *)
Theorem ranges_canonical numbers rs :
  rs = ranges_of numbers ↔
  concat (expand <$> rs) ≡ₚ numbers ∧ StronglySorted Z.le (concat (expand <$> rs)) ∧
  separated rs ∧ Forall valid_range rs.
Proof.
  destruct (ranges_of_spec numbers) as (E & Hs & Hv). split.
  - intros ->. rewrite E. split_and!; [apply merge_sort_Permutation| |done..].
    apply (StronglySorted_merge_sort Z.le).
  - intros (Hp & Hso & Hs' & Hv'). apply ranges_unique; [done..|]. rewrite E.
    apply (StronglySorted_unique Z.le); [done|apply (StronglySorted_merge_sort Z.le)|].
    by rewrite merge_sort_Permutation.
Qed.

(** A path is fitted to its column exactly: for every width above 3 (the
    script uses 50) the text has that length; a path that fits is kept whole and
    padded, a longer one keeps its end after three dots.  At width 3 the slice
    [-0] keeps the whole path, so the bound is sharp. *)
Theorem fit_to_column_exact p w :
  ((3 < w)%Z →
    Z.of_nat (String.length (fit_to_column p w)) = w ∧
    ((Z.of_nat (String.length p) ≤ w)%Z → ∃ pad, fit_to_column p w = p +:+ pad) ∧
    ((w < Z.of_nat (String.length p))%Z → ∃ cut rest, p = cut +:+ rest ∧ fit_to_column p w = "..." +:+ rest)) ∧
  ((3 < Z.of_nat (String.length p))%Z → fit_to_column p 3 = "..." +:+ p).
Proof.
  split.
  - intros Hw. unfold fit_to_column. destruct (Z.ltb_spec w (Z.of_nat (String.length p))).
    + unfold slice_from. rewrite (proj2 (Z.ltb_lt _ _)) by lia. split_and!; [|lia|].
      * rewrite str_length_app, str_drop_length. cbn. lia.
      * intros _. match goal with |- context [str_drop ?k p] => destruct (str_drop_suffix k p) as [cut Hc] end. eauto.
    + split_and!; [|by eauto|lia]. rewrite str_length_app, str_repeat_length. lia.
  - intros H. unfold fit_to_column. rewrite (proj2 (Z.ltb_lt _ _)) by lia. reflexivity.
Qed.

(** C18: Reading an LCOV file that states a list of records gives, for each path,
    what its last record says: the totals, the lines with count 0 and the
    branches marked [-], in order. *)
Theorem lcov_round_trip rs : forallb record_ok rs = true →
  parse_lcov (print_lcov rs) = Ok (assoc_update [] ((λ r, (r.1, cov_of r)) <$> rs)).
Proof. apply parse_print_lcov. Qed.

(** Two files, one with an uncovered line and an unreached branch. *)
Definition demo_records : list lcov_record :=
  [("src/a.cc", [BRDA 4 0 0 (Some 2); BRDA 4 0 1 None; BRF 2; BRH 1; DA 3 7; DA 4 0; LH 1; LF 2]%Z);
   ("src/b.cc", [DA 1 1; LH 1; LF 1]%Z)].

Lemma lcov_round_trip_witness :
  parse_lcov (print_lcov demo_records)
  = Ok [("src/a.cc", mkFileCoverage "src/a.cc" 2 1 2 1 [4%Z] [(4, 0, 1)%Z]);
        ("src/b.cc", mkFileCoverage "src/b.cc" 1 1 0 0 [] [])].
Proof. apply (lcov_round_trip demo_records). reflexivity. Defined.

(** A branch whose data line gives the count 0 (reached, never taken) is not
    recorded as uncovered, so a file with only such branches missed has a branch
    coverage below 100% and still nothing to report. *)
Theorem zero_count_branch_unreported l b n c :
  printable l = true → printable b = true → printable n = true →
  parse_lcov_data_line (print_data (BRDA l b n (Some 0%Z))) c = Ok c ∧
  let f := cov_of ("a.cc", [BRDA l b n (Some 0%Z); BRF 1; BRH 0; DA l 1; LF 1; LH 1]%Z) in
  branch_coverage_percent f = Ok f0 ∧ generate_missing_coverage_report f = "".
Proof.
  intros Hl Hb Hn. split; [|done]. rewrite parse_data_line; [done|]. cbn. by rewrite Hl, Hb, Hn.
Qed.

Lemma zero_count_branch_unreported_witness :
  parse_lcov_data_line "BRDA:4,0,1,0" (new_FileCoverage "a.cc") = Ok (new_FileCoverage "a.cc").
Proof. apply (zero_count_branch_unreported 4 0 1 (new_FileCoverage "a.cc")); reflexivity. Defined.

Section gate.
Context {PS : Type} {EX : Exec PS}.
Local Abbreviation W := (World PS).

(** What a successful run means: the options are percentages; the thresholds
    file, if any, is valid; bazel, started from the project root, ended with 0; and
    the report it left was read and every file in it meets its targets. *)
Definition coverage_passes (args : cov_namespace) (w : W) : Prop :=
  in_percent_range (ca_branch args) = true ∧ in_percent_range (ca_lines args) = true ∧
  ∃ fl fb root out err ps f text data,
    match ca_thresholds_file args with
    | None => fl = [] ∧ fb = []
    | Some p => ∃ t, read_file (w_fs w) (w_cwd w) p = Ok t ∧ read_thresholds t = Ok (fl, fb)
    end ∧
    (find_project_root w).1 = Ok root ∧
    exec (coverage_cmd root (ca_target args)) (w_procs w, w_fs w) = (Finished 0 out err, (ps, f)) ∧
    let here := report_in (mkPath true (w_cwd w)) in
    read_file f (w_cwd w) (if path_exists f (w_cwd w) here then here else report_in root) = Ok text ∧
    parse_lcov text = Ok data ∧ is_Ok (float_of_Z (Z.of_nat (length data))) ∧
    forallb (meets (fdiv (ca_lines args) f100) (fdiv (ca_branch args) f100) fl fb) data.*2 = true.

Lemma check_ranges_ok args (w : W) r w' :
  for_each check_range [("Branch", ca_branch args); ("Lines", ca_lines args)] w = (r, w') →
  if in_percent_range (ca_branch args) && in_percent_range (ca_lines args) then r = Ok tt ∧ w' = w
  else r = Raise (SystemExit 1).
Proof.
  unfold for_each, check_range. cbn [fst snd].
  destruct (in_percent_range (ca_branch args)), (in_percent_range (ca_lines args)); cbn; by intros [= <- <-].
Qed.

Lemma thresholds_ok p (w : W) r w' : parse_thresholds_file p w = (r, w') →
  match r with
  | Ok th => w' = w ∧ ∃ t, read_file (w_fs w) (w_cwd w) p = Ok t ∧ read_thresholds t = Ok th
  | Raise _ => ∀ t th, read_file (w_fs w) (w_cwd w) p = Ok t → read_thresholds t ≠ Ok th
  end.
Proof.
  unfold parse_thresholds_file, try_with. destruct (read_text p w) as [rt w1] eqn:Er.
  assert (∀ e, match (if is_FileNotFoundError e || is_JSONDecodeError e || is_ValueError e
      then Some (println ("Error reading thresholds file: " +:+ thresholds_error_text e) ;; sys_exit 1) else None) with
    | Some k => k w1 | None => (Raise e, w1) end = (r, w') → ∃ e', r = Raise e') as Hexit.
  { intros e. destruct (_ || _); cbn; intros [= <- <-]; eauto. }
  pose proof (read_text_inv _ _ _ _ Er) as [Hr ->]. destruct rt as [t|e].
  - rewrite (M_bind_ok _ _ _ _ _ Er). rewrite Hr. unfold lift_result. destruct (read_thresholds t) as [th|e] eqn:Et.
    + intros [= <- <-]. eauto.
    + intros [e' ->]%Hexit.
      intros t' th [= <-]. by rewrite Et.
  - rewrite (M_bind_raise _ _ _ _ _ Er). rewrite Hr. by intros [e' ->]%Hexit.
Qed.

Lemma run_bazel_spec target (w : W) r w' : run_bazel_coverage target w = (r, w') →
  match r with
  | Ok report => ∃ root out err ps f,
      (find_project_root w).1 = Ok root ∧
      exec (coverage_cmd root target) (w_procs w, w_fs w) = (Finished 0 out err, (ps, f)) ∧
      w_fs w' = f ∧ w_cwd w' = w_cwd w ∧
      report = let here := report_in (mkPath true (w_cwd w)) in
               if path_exists f (w_cwd w) here then here else report_in root
  | Raise _ => ∀ root out err s', (find_project_root w).1 = Ok root →
      exec (coverage_cmd root target) (w_procs w, w_fs w) ≠ (Finished 0 out err, s')
  end.
Proof.
  unfold run_bazel_coverage. unfold mbind at 1, M_bind at 1. rewrite (find_root_frame w w) by reflexivity.
  destruct (find_project_root w).1 as [root|e]; [|by intros [= <- <-]].
  unfold try_with, run_checked, run_unchecked, start. munfold. intros H.
  destruct (exec (coverage_cmd root target) (w_procs w, w_fs w)) as [[rc out err| |] [ps f]] eqn:Ex;
    [|by simplify_eq/=; intros ???? [= <-]; rewrite Ex..].
  case_bool_decide as Erc.
  - subst rc. match type of H with context [exists_p ?p ?w0] => destruct (exists_p p w0) as [r1 w1] eqn:Eh end.
    apply exists_p_inv in Eh as [-> ->]. cbn [w_fs w_cwd] in H.
    destruct (path_exists f (w_cwd w) (report_in (mkPath true (w_cwd w)))) eqn:Eh;
      (apply pair_equal_spec in H as [<- <-]; exists root, out, err, ps, f; cbn zeta; rewrite Eh; split_and!; first [exact Ex|reflexivity]).
  - cbn in H. simplify_eq. intros ???? [= <-]. rewrite Ex. by intros [= ?].
Qed.

Lemma lcov_report_spec p lt bt fl fb (w : W) r w' : generate_lcov_report p lt bt fl fb w = (r, w') →
  (r = Ok true ↔ ∃ text data, read_file (w_fs w) (w_cwd w) p = Ok text ∧ parse_lcov text = Ok data ∧
     is_Ok (float_of_Z (Z.of_nat (length data))) ∧ forallb (meets lt bt fl fb) data.*2 = true).
Proof.
  unfold generate_lcov_report, try_with. destruct (read_text p w) as [rt w1] eqn:Er.
  pose proof (read_text_inv _ _ _ _ Er) as [-> ->]. destruct rt as [text|e].
  2: { rewrite (M_bind_raise _ _ _ _ _ Er). destruct (is_FileNotFoundError e); intros [= <- <-];
       (split; [done|by intros (? & ? & ? & _)]). }
  rewrite (M_bind_ok _ _ _ _ _ Er). unfold lift_result, mbind, M_bind. destruct (parse_lcov text) as [data|e] eqn:Ep.
  2: { destruct (is_FileNotFoundError e); intros [= <- <-]; (split; [done|]); intros (? & ? & [= <-] & ? & _); congruence. }
  destruct (print_and_validate_report data lt bt fl fb w) as [[ok|e] w1] eqn:Ev; apply print_and_validate_spec in Ev.
  - destruct Ev as (Hm & Hn & ->). intros [= <- <-]. split.
    + intros [= E]. exists text, data. split_and!; [reflexivity|done..].
    + intros (? & ? & [= <-] & [= <-]%(eq_trans (eq_sym Ep)) & _ & ->). done.
  - destruct Ev as [-> Hn]. intros [= <- <-]. split; [done|].
    intros (? & ? & [= <-] & [= <-]%(eq_trans (eq_sym Ep)) & Hl & Hmeet). destruct Hn. split; [|done].
    apply Forall_forall. intros c Hc. apply Is_true_eq_left, forallb_True, Forall_forall with (x := c) in Hmeet; [|done].
    unfold meets in Hmeet. unfold measured. repeat case_match; try done; split; by eexists.
Qed.

(** C29: A thresholds file that holds a JSON object is read as it states: when
    every entry is an object with numbers between 0 and 100 under [lines] and
    [branch], each path gets its percentage divided by 100 and no other path has
    one; otherwise the script ends with code 1, or with an exception for a value
    that is not a number or too large. *)
Theorem thresholds_file_read p (w : W) text entries :
  read_file (w_fs w) (w_cwd w) p = Ok text → json_loads text = Ok (JObj entries) →
  if forallb (λ kv, entry_valid kv.2) entries then
    ∃ fl fb, parse_thresholds_file p w = (Ok (fl, fb), w) ∧
      ∀ q, assoc q fl = (assoc q entries ≫= field_value "lines") ∧
           assoc q fb = (assoc q entries ≫= field_value "branch")
  else ∃ e w', parse_thresholds_file p w = (Raise e, w') ∧ (e = SystemExit 1 ∨ e = TypeError ∨ e = OverflowError).
Proof.
  intros Hr Hj. unfold parse_thresholds_file, try_with.
  erewrite (M_bind_ok (read_text p) _ w) by (unfold read_text; by rewrite Hr).
  unfold lift_result, read_thresholds. rewrite Hj. cbn [mbind result_bind].
  pose proof (read_entries_spec entries ([], []) (json_loads_NoDup _ _ Hj)) as H.
  destruct (result_foldl read_entry _ entries) as [[fl fb]|e].
  - destruct H as [-> H]. exists fl, fb. split; [done|]. intros q. destruct (H q) as [E1 E2]. cbn in E1, E2.
    by rewrite E1, E2; destruct (_ ≫= field_value "lines"), (_ ≫= field_value "branch").
  - destruct H as [-> [[m ->]|[->| ->]]]; cbn; eauto 10.
Qed.

(** The part of [main] after the thresholds. *)
Definition report_run (args : cov_namespace) (th : thresholds) : M W () :=
  log_info "Running Bazel Coverage" ;;
  report_path ← run_bazel_coverage (ca_target args);
  log_info "Generating coverage report" ;;
  coverage_passed ← generate_lcov_report report_path (fdiv (ca_lines args) f100) (fdiv (ca_branch args) f100) th.1 th.2;
  if (coverage_passed : bool) then println "Coverage check passed."
  else println "Coverage check failed." ;; sys_exit 1.

Definition report_passes (args : cov_namespace) (w : W) (th : thresholds) : Prop :=
  ∃ root out err ps f text data,
    (find_project_root w).1 = Ok root ∧
    exec (coverage_cmd root (ca_target args)) (w_procs w, w_fs w) = (Finished 0 out err, (ps, f)) ∧
    let here := report_in (mkPath true (w_cwd w)) in
    read_file f (w_cwd w) (if path_exists f (w_cwd w) here then here else report_in root) = Ok text ∧
    parse_lcov text = Ok data ∧ is_Ok (float_of_Z (Z.of_nat (length data))) ∧
    forallb (meets (fdiv (ca_lines args) f100) (fdiv (ca_branch args) f100) th.1 th.2) data.*2 = true.

Lemma report_run_spec args th (w : W) :
  (∃ w', report_run args th w = (Ok tt, w')) ↔ report_passes args w th.
Proof.
  unfold report_run, report_passes. set (w1 := emit_event (Log INFO "Running Bazel Coverage") w).
  rewrite (M_bind_ok (log_info _) _ w tt w1 eq_refl).
  assert (keeps w w1) as Hk by repeat split. clearbody w1.
  pose proof (fst_of_pair _ _ _ (find_root_frame w w1 Hk)) as Hroot1. rewrite <- Hroot1.
  destruct Hk as (_ & Hf1 & Hc1 & Hp1).
  rewrite <- Hf1, <- Hc1, <- Hp1. clear Hf1 Hc1 Hp1 Hroot1 w. rename w1 into w.
  destruct (run_bazel_coverage (ca_target args) w) as [[report|e] w1] eqn:Eb;
    pose proof (run_bazel_spec _ _ _ _ Eb) as Hb.
  2: { rewrite (M_bind_raise _ _ _ _ _ Eb). split; [by intros [? [=]]|].
       intros (root & out & err & ps & f & text & data & Hroot & Hex & _). by destruct (Hb root out err (ps, f)). }
  destruct Hb as (root & out & err & ps & f & Hroot & Hex & Hf & Hc & Hrep). rewrite (M_bind_ok _ _ _ _ _ Eb).
  rewrite (M_bind_ok (log_info _) _ w1 tt _ eq_refl). set (w2 := emit_event _ w1).
  assert (keeps w1 w2) as (_ & Hf2 & Hc2 & _) by repeat split. clearbody w2.
  destruct (generate_lcov_report report (fdiv (ca_lines args) f100) (fdiv (ca_branch args) f100) th.1 th.2 w2)
    as [r3 w3] eqn:Eg. cbn zeta in Hrep |- *.
  pose proof (lcov_report_spec _ _ _ _ _ _ _ _ Eg) as Hg.
  rewrite Hf2, Hc2, Hf, Hc in Hg.
  transitivity (r3 = Ok true); [split|rewrite Hg; split].
  - intros [w' H]. apply M_bind_inv in H as (b & s1 & Eg' & H). rewrite Eg in Eg'. apply pair_equal_spec in Eg' as [-> ->].
    by destruct b; cbn in H.
  - intros ->. rewrite (M_bind_ok _ _ _ _ _ Eg). by eexists.
  - intros (text & data & H1 & H2 & H3 & H4). exists root, out, err, ps, f, text, data.
    rewrite <- Hrep. done.
  - intros (root' & out' & err' & ps' & f' & text & data & Hr' & Hx' & H1 & H2 & H3 & H4).
    rewrite Hroot in Hr'. injection Hr' as <-. rewrite Hex in Hx'. injection Hx' as <- <- <- <-.
    exists text, data. rewrite Hrep. done.
Qed.

(** C13: The script succeeds exactly when bazel's run succeeded and every file of
    its report meets its line and branch targets, the file's own or the common
    ones; in every other case it ends with an exit code or an exception. *)
Theorem coverage_gate args (w : W) :
  (∃ w', main args w = (Ok tt, w')) ↔ coverage_passes args w.
Proof.
  unfold main, coverage_passes.
  destruct (for_each check_range [("Branch", ca_branch args); ("Lines", ca_lines args)] w) as [r0 w0] eqn:E0. pose proof (check_ranges_ok args w r0 w0 E0) as H0.
  destruct (in_percent_range (ca_branch args)); [|cbn in H0; subst r0; rewrite (M_bind_raise _ _ _ _ _ E0);
    split; [by intros [? [=]]|by intros ([=] & _)]].
  destruct (in_percent_range (ca_lines args)); [|cbn in H0; subst r0; rewrite (M_bind_raise _ _ _ _ _ E0);
    split; [by intros [? [=]]|by intros (_ & [=] & _)]].
  destruct H0 as [-> ->]. rewrite (M_bind_ok _ _ _ _ _ E0). clear E0.
  transitivity (∃ th, match ca_thresholds_file args with
     | None => th = ([], [])
     | Some p => ∃ t, read_file (w_fs w) (w_cwd w) p = Ok t ∧ read_thresholds t = Ok th end ∧ report_passes args w th).
  2: { split.
       - intros ([fl fb] & Hth & root & out & err & ps & f & text & data & H). split; [done|]. split; [done|].
         exists fl, fb, root, out, err, ps, f, text, data. split; [|exact H].
         destruct (ca_thresholds_file args); [done|by simplify_eq].
       - intros (_ & _ & fl & fb & root & out & err & ps & f & text & data & Hth & H). exists (fl, fb).
         split; [destruct (ca_thresholds_file args); [done|by destruct Hth; simplify_eq]|].
         exists root, out, err, ps, f, text, data. exact H. }
  destruct (ca_thresholds_file args) as [p|].
  - destruct (parse_thresholds_file p w) as [[[fl fb]|e] w1] eqn:Ep; pose proof (thresholds_ok _ _ _ _ Ep) as Ht.
    + destruct Ht as [-> Ht]. rewrite (M_bind_ok _ _ _ _ _ Ep), (report_run_spec args (fl, fb) w).
      split; [by eauto|]. intros (th & (t' & Hr' & Ht') & H). destruct Ht as (t & Hr & Ht).
      rewrite Hr in Hr'. injection Hr' as <-. rewrite Ht in Ht'. by injection Ht' as <-.
    + rewrite (M_bind_raise _ _ _ _ _ Ep). split; [by intros [? [=]]|].
      intros (th & (t & Hr & Hth) & _). by destruct (Ht t th Hr).
  - rewrite (M_bind_ok (mret ([], [])) _ w ([], []) w eq_refl), (report_run_spec args ([], []) w).
    split; [by eauto|]. by intros (th & -> & H).
Qed.
End gate.

(** A thresholds file with one path. *)
Definition demo_thresholds : string :=
  "{" +:+ q "src/a.cc" +:+ ": {" +:+ q "lines" +:+ ": 80, " +:+ q "branch" +:+ ": 50.0}}".

Definition demo_thresholds_world : World sim :=
  mkWorld [] (<[["repo"] := NDir]> (<[["repo"; "t.json"] := NFile demo_thresholds]> ∅)) ["repo"] [] (mkSim ∅ ∅).

Lemma thresholds_file_read_witness :
  ∃ fl fb, parse_thresholds_file (Path_of "t.json") demo_thresholds_world = (Ok (fl, fb), demo_thresholds_world) ∧
    assoc "src/b.cc" fl = None.
Proof.
  destruct (thresholds_file_read (Path_of "t.json") demo_thresholds_world demo_thresholds
    [("src/a.cc", JObj [("lines", JInt 80); ("branch", JFloat (S754_finite false 7036874417766400 (-47)))])])
    as (fl & fb & E & H); [vm_refl|vm_refl|]. exists fl, fb. split; [exact E|]. by destruct (H "src/b.cc") as [-> _].
Defined.
