(* ===== verification/EventHandler.v ===== *)
(** * The container event handler (container_event_handler.py)

    An event is a line [name:value] sent over TCP.  The parser and the dispatcher
    are programs over the world (they read the environment and log); the listener
    thread, the thread that cancels it and the peers are a labelled transition
    system.  [after_latency] is what a copy of the script does once the latency is
    known: nothing here, a metric in the copy of mbs/api. *)

From stdpp Require Import base gmap list strings.
From Stdlib Require Import Ascii ZArith Lia SpecFloat.
From S2P Require Import Prelude PyStr PyFloat PyTime Fs World.

(** ** [bytes.decode(errors="replace")]

    Texts are kept as UTF-8.  A lead byte announces how many bytes follow and the
    range of the first; each maximal ill-formed part becomes U+FFFD.  Blanks and
    digits outside ASCII are not recognised by [strip] and [int] here. *)

Definition replacement : string := String "239" (String "191" (String "189" "")).

Definition between (lo hi : N) (c : ascii) : bool := (lo <=? code c)%N && (code c <=? hi)%N.

Definition utf8_lead (c : ascii) : option (nat * N * N) :=
  if between 0 127 c then Some (0, 0%N, 0%N)
  else if between 194 223 c then Some (1, 128%N, 191%N)
  else if between 224 224 c then Some (2, 160%N, 191%N)
  else if between 237 237 c then Some (2, 128%N, 159%N)
  else if between 225 239 c then Some (2, 128%N, 191%N)
  else if between 240 240 c then Some (3, 144%N, 191%N)
  else if between 241 243 c then Some (3, 128%N, 191%N)
  else if between 244 244 c then Some (3, 128%N, 143%N)
  else None.

(** [pending] holds the bytes of a character that still needs [need] more. *)
Fixpoint decode_go (pending : string) (need : nat) (lo hi : N) (s : string) : string :=
  match s with
  | "" => match need with O => "" | S _ => replacement end
  | String c s' =>
      let start :=
        match utf8_lead c with
        | None => replacement +:+ decode_go "" 0 0 0 s'
        | Some (O, _, _) => String c (decode_go "" 0 0 0 s')
        | Some (n, lo, hi) => decode_go (String c "") n lo hi s'
        end in
      match need with
      | O => start
      | S n =>
          if between lo hi c then
            match n with
            | O => pending +:+ String c (decode_go "" 0 0 0 s')
            | S _ => decode_go (pending +:+ String c "") n 128 191 s'
            end
          else replacement +:+ start
      end
  end.

Definition decode_replace (data : string) : string := decode_go "" 0 0 0 data.

Lemma decode_ascii data : str_forall (between 0 127) data = true → decode_replace data = data.
Proof.
  unfold decode_replace. induction data as [|c s IH]; [done|]. cbn [str_forall].
  intros [Hc Hs]%andb_true_iff. cbn [decode_go]. unfold utf8_lead. by rewrite Hc, IH.
Qed.

Section events.
Context {PS : Type}.
Local Abbreviation W := (World PS).
Context (after_latency : string → string → M W ()).

(** ** Parsing and dispatch *)

Definition value_text (e : exn) : string :=
  match e with ValueError m | JSONDecodeError m => m | _ => "" end.

(** [str(e)] of what can end the listener; the text of an [OverflowError] is not
    kept. *)
Definition listener_error_text (e : exn) : string :=
  match e with ValueError m | OSError m | FileNotFoundError m => m | _ => "" end.

Definition latency (ts_end : Z) (value start_time_env : string) : M W () :=
  try_with
    (ts_start ← lift_result (py_int_r start_time_env);
     let latency_ms := (ts_end - ts_start)%Z in
     log_info ("Calculated latency until entrypoint end: " +:+ str_of_Z latency_ms +:+ " ms") ;;
     after_latency start_time_env value)
    (λ e, if is_ValueError e
          then Some (log_warning ("DEVKIT_START_TIME_MS is not a valid integer: " +:+ start_time_env))
          else None).

Definition handle_entrypoint_end_time_ms (value : string) : M W () :=
  try_with
    (ts_end ← lift_result (py_int_r (strip value));
     when (ts_end <? 0)%Z (raise (ValueError "Timestamp cannot be negative.")) ;;
     x ← lift_result (int_div ts_end 1000);
     dt_end ← lift_result (fromtimestamp x);
     log_info ("Successfully parsed entrypoint end time: " +:+ isoformat dt_end) ;;
     start_time_env ← getenv "DEVKIT_START_TIME_MS";
     match start_time_env with
     | Some (String _ _ as s) => latency ts_end value s
     | _ => log_warning "DEVKIT_START_TIME_MS environment variable not found."
     end)
    (λ e, if is_ValueError e
          then Some (log_error ("Failed to parse entrypoint_end_time_ms: " +:+ value_text e))
          else None).

Definition process_container_event (data : string) : M W () :=
  let decoded_data := strip (decode_replace data) in
  log_info ("Container event data: " +:+ decoded_data) ;;
  if str_mem ":" decoded_data then
    let '(event_name, event_value) := split1 ":" decoded_data in
    if bool_decide (event_name = "entrypoint_end_time_ms") then handle_entrypoint_end_time_ms event_value
    else log_warning ("Unknown container event: " +:+ event_name)
  else log_warning ("Malformed container event: " +:+ decoded_data).

(** ** The listener thread

    Where the thread stands; it blocks in [accept] at [Accept] and in [recv] at
    [Recv]. *)
Inductive pc :=
| Listen
| Check
| Accept
| Recv
| Process (data : string)
| Failed (e : exn)
| Ended.

(** [c_event] is the [Event] of [SocketCancelEvent]; [c_shut] and [c_closed] are
    the states of the server socket; [c_setting] tells that [set] has set the event
    and not yet shut the socket down. *)
Record conf := mkConf {
  c_pc : pc;
  c_event : bool;
  c_setting : bool;
  c_shut : bool;
  c_closed : bool;
  c_world : W
}.

Definition set_pc (p : pc) (c : conf) : conf :=
  mkConf p (c_event c) (c_setting c) (c_shut c) (c_closed c) (c_world c).
Definition set_world (w : W) (c : conf) : conf :=
  mkConf (c_pc c) (c_event c) (c_setting c) (c_shut c) (c_closed c) w.
Definition close_socket (c : conf) : conf :=
  mkConf Ended (c_event c) (c_setting c) (c_shut c) true (c_world c).

Definition log_in (e : event) (c : conf) : conf := set_world (emit_event e (c_world c)) c.

(** Who makes a step.  [Run] and [Woken] are the listener's own: the next
    statement, and [accept] returning with an error because the socket was shut
    down.  The others need the outside: a peer connects, or sends bytes or closes
    (no bytes); a system call fails; the canceller runs the two statements of
    [set]. *)
Inductive action :=
| Run
| Woken
| ListenFails (e : exn)
| Connect
| Receive (sent : string)
| SysError (msg : string)
| SetEvent
| ShutDown.

(** [SocketCancelEvent.set], first statement, then the shutdown whose [OSError]
    is ignored. *)
Definition set_event (c : conf) : option conf :=
  if c_setting c then None
  else Some (mkConf (c_pc c) true true (c_shut c) (c_closed c) (c_world c)).

Definition shut_down (c : conf) : option conf :=
  if c_setting c then Some (mkConf (c_pc c) (c_event c) false true (c_closed c) (c_world c)) else None.

Definition listen_msg (port : Z) : string :=
  "Container event handler listening on TCP 127.0.0.1:" +:+ str_of_Z port.

(** The listener's step; [None] when the action is not possible there. *)
Definition listener_step (port : Z) (c : conf) (a : action) : option conf :=
  match a, c_pc c with
  | SetEvent, _ => set_event c
  | ShutDown, _ => shut_down c
  | Run, Listen => Some (set_pc Check (log_in (Log INFO (listen_msg port)) c))
  | ListenFails e, Listen =>
      if is_Exception e
      then Some (close_socket (log_in (Log ERROR ("Failed in container event listener: " +:+ listener_error_text e)) c))
      else None
  | Run, Check => if c_event c then Some (close_socket c) else Some (set_pc Accept c)
  | Connect, Accept => if c_shut c then None else Some (set_pc Recv c)
  | Woken, Accept => if c_shut c then Some (set_pc (Failed (OSError "[Errno 22] Invalid argument")) c) else None
  | Receive sent, Recv =>
      match str_take 1024 sent with
      | "" => Some (set_pc Check c)
      | data => Some (set_pc (Process data) c)
      end
  | SysError m, (Accept | Recv) => Some (set_pc (Failed (OSError m)) c)
  | Run, Process data =>
      match (log_info "Received event from container" ;; process_container_event data) (c_world c) with
      | (Ok _, w) => Some (set_pc Check (set_world w c))
      | (Raise e, w) => Some (set_pc (Failed e) (set_world w c))
      end
  | Run, Failed e =>
      if c_event c then Some (close_socket c)
      else Some (close_socket (log_in (Log ERROR ((if is_OSError e then "Error in container event listener: "
                                                   else "Unexpected error in container event listener: ")
                                                  +:+ listener_error_text e)) c))
  | _, _ => None
  end.

Fixpoint run_listener (port : Z) (c : conf) (l : list action) : option conf :=
  match l with
  | [] => Some c
  | a :: l => c' ← listener_step port c a; run_listener port c' l
  end.

(** [start_container_event_handler]: a bound socket, a fresh event, the thread at
    its first statement. *)
Definition start_handler (w : W) : conf := mkConf Listen false false false false w.
End events.

(** The scripts without metrics. *)
Definition no_metric {PS} (start_time value : string) : M (World PS) () := mret tt.

(** ** Lemmas *)

Section lemmas.
Context {PS : Type}.
Local Abbreviation W := (World PS).

(** The exceptions that are not a [ValueError]. *)
Definition too_large (e : exn) : Prop := e = OverflowError ∨ ∃ m, e = OSError m.

Lemma quiet_event data : always (@quiet PS) (process_container_event no_metric data).
Proof.
  assert (∀ ts v s, always (@quiet PS) (latency no_metric ts v s)) as Hl.
  { intros ts v s. unfold latency, no_metric. apply always_try; [apply _|frame|].
    intros e k. destruct (is_ValueError e); [|done]. intros [= <-]. frame. }
  unfold process_container_event, handle_entrypoint_end_time_ms. cbn zeta.
  apply always_bind; [apply _|frame|intros _]. destruct (str_mem _ _); [|frame].
  destruct (split1 _ _) as [name value]. case_bool_decide; [|frame]. apply always_try; [apply _| |].
  - unfold getenv. frame.
  - intros e k. destruct (is_ValueError e); [|done]. intros [= <-]. frame.
Qed.

Lemma py_int_r_raise s e : py_int_r s = Raise e → is_ValueError e = true.
Proof. unfold py_int_r. destruct (py_int s); [done|]. by intros [= <-]. Qed.

Lemma int_div_1000_raise n e : int_div n 1000 = Raise e → e = OverflowError.
Proof. cbn. case_match; by intros [= <-]. Qed.

Lemma latency_returns ts v s (w : W) : ∃ w', latency no_metric ts v s w = (Ok tt, w').
Proof.
  unfold latency, try_with, no_metric, lift_result, mbind, M_bind. pose proof (py_int_r_raise s) as H.
  destruct (py_int_r s) as [n|e]; [by eexists|]. rewrite (H e eq_refl). by eexists.
Qed.

Lemma event_raises data : raises too_large (process_container_event (PS:=PS) no_metric data).
Proof.
  unfold process_container_event. cbn zeta. apply raises_bind; [apply raises_log_info|intros _].
  destruct (str_mem _ _); [|apply raises_log_warning]. destruct (split1 _ _) as [name value].
  case_bool_decide; [|apply raises_log_warning]. unfold handle_entrypoint_end_time_ms.
  apply (raises_try _ (λ e, too_large e ∨ is_ValueError e = true)).
  - apply raises_bind; [apply raises_lift; intros; right; by eapply py_int_r_raise|intros ts].
    apply raises_bind; [apply raises_when, raises_raise; by right|intros _].
    apply raises_bind; [apply raises_lift; intros e ->%int_div_1000_raise; left; by left|intros x].
    apply raises_bind; [apply raises_lift|intros dt].
    { intros e [->|[[m ->]|[m ->]]]%fromtimestamp_raise; [left; by left|left; right; eauto|by right]. }
    apply raises_bind; [apply raises_log_info|intros _]. apply raises_bind; [apply raises_gets|intros [[|c s]|]];
      [apply raises_log_warning| |apply raises_log_warning].
    intros w e w' Hrun. destruct (latency_returns ts value (String c s) w) as [w1 E]. by rewrite E in Hrun.
  - intros e [?|He] Hn; [done|]. by rewrite He in Hn.
  - intros e k _ Hk. destruct (is_ValueError e); [|done]. injection Hk as <-. apply raises_log_error.
Qed.

(** How far the thread is from its end once it has been cancelled. *)
Definition rank (c : conf (PS:=PS)) : nat :=
  match c_pc c with
  | Accept => if c_shut c then 2 else 4
  | Recv => 3
  | Listen | Process _ => 2
  | Check | Failed _ => 1
  | Ended => 0
  end.

Lemma rank_le c : rank c ≤ if c_shut c then 3 else 4.
Proof. unfold rank. destruct (c_pc c), (c_shut c); lia. Qed.

(** The thread's steps, and those it makes without the outside. *)
Definition by_listener (a : action) : bool := match a with SetEvent | ShutDown => false | _ => true end.
Definition own (a : action) : bool := match a with Run | Woken => true | _ => false end.

(** The number of moves of the listener in a schedule. *)
Definition moves (l : list action) : nat := length (filter (λ a, by_listener a = true) l).

Lemma step_rank port (c c' : conf (PS:=PS)) a : listener_step no_metric port c a = Some c' → c_event c = true →
  c_event c' = true ∧ (if by_listener a then S (rank c') ≤ rank c else rank c' ≤ rank c).
Proof.
  intros H He. destruct c as [p ev se sh cl w]. cbn in He. subst ev.
  destruct a as [| |e| |sent|m| |]; cbn [by_listener]; destruct p as [| | | |data|e'|]; unfold listener_step in H;
    cbn [c_pc c_event c_shut] in H; try discriminate;
    unfold set_event, shut_down in H; cbn [c_setting] in H;
    repeat case_match; simplify_eq; (split; [done|]); unfold rank; cbn; repeat case_match; lia.
Qed.

Lemma rank_bound port (c c' : conf (PS:=PS)) l : run_listener no_metric port c l = Some c' → c_event c = true →
  moves l + rank c' ≤ rank c.
Proof.
  revert c. induction l as [|a l IH]; intros c H He; cbn [run_listener] in H; [by simplify_eq|].
  apply bind_Some in H as (c1 & H1 & H). destruct (step_rank _ _ _ _ H1 He) as [He1 Hr].
  specialize (IH c1 H He1). unfold moves in *. rewrite filter_cons.
  destruct (by_listener a); [rewrite decide_True by done; cbn [length]; lia|].
  rewrite decide_False by done. lia.
Qed.

(** A cancelled thread moves on by itself, unless it waits for a connected peer or
    for the shutdown that is about to come. *)
Lemma listener_enabled port (c : conf (PS:=PS)) : c_event c = true → c_pc c ≠ Ended →
  ∃ a c', by_listener a = true ∧ listener_step no_metric port c a = Some c' ∧
    (own a = true ∨ c_pc c = Recv ∨ c_shut c = false).
Proof.
  destruct c as [p ev se sh cl w]. cbn. intros -> Hp. destruct p as [| | | |data|e|]; [..|done].
  4: { exists (Receive ""). eexists. by split_and!; [..|right; left]. }
  3: { destruct sh; [exists Woken|exists Connect]; eexists; split_and!; [done..|by left|done|done|by right; right]. }
  all: exists Run; unfold listener_step; cbn [c_pc c_event];
    try (eexists; split_and!; [done|done|by left]).
  cbn [c_world]. destruct ((log_info _ ;; _) w) as [[[]|e] w1]; (eexists; split_and!; [done|done|by left]).
Qed.

(** Once [set] has returned, it ends by itself. *)
Lemma ends_alone port (c : conf (PS:=PS)) : c_event c = true → c_shut c = true → c_pc c ≠ Recv →
  ∃ l c', Forall (λ a, own a = true) l ∧ run_listener no_metric port c l = Some c' ∧ c_pc c' = Ended.
Proof.
  destruct c as [p ev se sh cl w]. cbn. intros -> -> Hp. destruct p as [| | | |data|e|]; [exists [Run; Run]|exists [Run]|
    exists [Woken; Run]|done|exists [Run; Run]|exists [Run]|exists []];
    try (eexists; split_and!; [by repeat constructor|reflexivity|done]).
  unfold run_listener, listener_step. cbn [c_pc c_world].
  destruct ((log_info _ ;; _) w) as [[[]|e] w1]; (eexists; split_and!; [by repeat constructor|reflexivity|done]).
Qed.

(** What holds of every state of a run from the start. *)
Definition listener_inv (c : conf (PS:=PS)) : Prop :=
  (c_closed c = true ↔ c_pc c = Ended) ∧ (c_setting c = true → c_event c = true) ∧
  (c_shut c = true → c_event c = true) ∧ (c_event c = true → c_setting c = true ∨ c_shut c = true).

Lemma inv_step port (c c' : conf (PS:=PS)) a :
  listener_inv c → listener_step no_metric port c a = Some c' → listener_inv c'.
Proof.
  intros (I1 & I2 & I3 & I4) H. destruct c as [p ev se sh cl w]. unfold listener_inv.
  destruct a as [| |e| |sent|m| |], p as [| | | |data|e'|]; unfold listener_step in H; cbn [c_pc c_event c_shut] in *;
    try discriminate; unfold set_event, shut_down in H; cbn [c_setting] in H;
    repeat case_match; simplify_eq; cbn in *; naive_solver.
Qed.

Lemma inv_run port (c c' : conf (PS:=PS)) l :
  listener_inv c → run_listener no_metric port c l = Some c' → listener_inv c'.
Proof.
  revert c. induction l as [|a l IH]; intros c Hc H; cbn [run_listener] in H; [by simplify_eq|].
  apply bind_Some in H as (c1 & H1 & H). eauto using inv_step.
Qed.
End lemmas.

(** ** What the handler guarantees *)

(** C31: Whatever a container sends, handling the event only logs: no file, program
    or variable changes; and the only exceptions that escape are those of a
    timestamp too large to convert. *)
Theorem event_only_logs {PS : Type} data (w : World PS) :
  let '(r, w') := process_container_event no_metric data w in
  quiet w w' ∧ (r = Ok tt ∨ ∃ e, r = Raise e ∧ too_large e).
Proof.
  destruct (process_container_event no_metric data w) as [r w'] eqn:E. split; [by apply quiet_event in E|].
  destruct r as [[]|e]; [by left|right]. apply event_raises in E. eauto.
Qed.

(** A well-formed end-of-entrypoint event with a valid start time in the
    environment is accepted, and the latency logged is the difference of the two. *)
Theorem latency_is_difference {PS : Type} (w : World PS) ts_start ts_end x dt :
  printable ts_start = true → printable ts_end = true → (0 ≤ ts_end)%Z →
  int_div ts_end 1000 = Ok x → fromtimestamp x = Ok dt →
  assoc "DEVKIT_START_TIME_MS" (w_env w) = Some (str_of_Z ts_start) →
  process_container_event no_metric ("entrypoint_end_time_ms:" +:+ str_of_Z ts_end) w
  = (Ok tt, mkWorld (w_env w) (w_fs w) (w_cwd w)
      (w_trace w ++ [Log INFO ("Container event data: entrypoint_end_time_ms:" +:+ str_of_Z ts_end);
                     Log INFO ("Successfully parsed entrypoint end time: " +:+ isoformat dt);
                     Log INFO ("Calculated latency until entrypoint end: " +:+ str_of_Z (ts_end - ts_start) +:+ " ms")])
      (w_procs w)).
Proof.
  intros Hs He Hpos Hx Hdt Henv. unfold process_container_event. cbn zeta.
  assert (no_space ("entrypoint_end_time_ms:" +:+ str_of_Z ts_end) = true) as Hsp
    by (unfold no_space; rewrite str_forall_app; apply str_of_Z_no_space).
  rewrite decode_ascii, strip_no_space by (done || rewrite str_forall_app; apply str_of_Z_ascii).
  rewrite (M_bind_ok (log_info _) _ _ tt _ eq_refl).
  assert (str_mem ":" ("entrypoint_end_time_ms:" +:+ str_of_Z ts_end) = true) as -> by reflexivity.
  assert (split1 ":" ("entrypoint_end_time_ms:" +:+ str_of_Z ts_end) = ("entrypoint_end_time_ms", str_of_Z ts_end))
    as -> by exact (split1_app ":" "entrypoint_end_time_ms" (str_of_Z ts_end) eq_refl).
  rewrite bool_decide_eq_true_2 by done. unfold handle_entrypoint_end_time_ms.
  rewrite strip_no_space, py_int_r_str by (done || apply str_of_Z_no_space).
  unfold lift_result, try_with, latency, getenv, no_metric. munfold.
  rewrite (proj2 (Z.ltb_ge ts_end 0)), Hx, Hdt by done. cbn. rewrite Henv.
  destruct (str_of_Z ts_start) as [|ch s] eqn:Es.
  { pose proof (py_int_str ts_start Hs) as Hp. by rewrite Es in Hp. }
  rewrite <- Es, py_int_r_str by done. unfold emit_event. cbn. by rewrite <- !app_assoc.
Qed.

Lemma latency_is_difference_witness :
  ∃ w' : World (), process_container_event no_metric "entrypoint_end_time_ms:1767225600123"
    (mkWorld [("DEVKIT_START_TIME_MS", "1767225600000")] ∅ [] [] tt) = (Ok tt, w') ∧
    last (w_trace w') = Some (Log INFO "Calculated latency until entrypoint end: 123 ms").
Proof.
  eexists. split.
  - apply (latency_is_difference _ 1767225600000 1767225600123
      (S754_finite false 7412281403498299 (-22)) (mkDatetime 2026 1 1 0 0 0 123000)); reflexivity || lia.
  - reflexivity.
Defined.

(** In every state of every run, whatever the peers, the system calls and the
    canceller do, the server socket is closed exactly when the thread has ended,
    and it is only ever shut down after the event has been set. *)
Theorem listener_invariant {PS : Type} port (w : World PS) l c :
  run_listener no_metric port (start_handler w) l = Some c →
  (c_closed c = true ↔ c_pc c = Ended) ∧ (c_shut c = true → c_event c = true).
Proof.
  intros H. apply inv_run in H as (H1 & _ & H3 & _); [done|]. by split_and!.
Qed.

Lemma listener_invariant_witness :
  c_closed (mkConf Ended true false true true (mkWorld (PS:=()) [] ∅ [] [Log INFO (listen_msg 80)] tt)) = true.
Proof.
  apply (listener_invariant 80 (mkWorld (PS:=()) [] ∅ [] [] tt)
    [Run; Run; SetEvent; ShutDown; Woken; Run]); vm_compute; reflexivity.
Defined.

(** C14: Cancelling ends the thread.  Once [set] has returned, every schedule gives
    the listener at most three more moves.  Wherever it stands, also in [accept],
    its own moves lead it to its end without anybody else's doing, with one
    exception: waiting for the bytes of a peer that has connected it cannot move
    alone, and ends by itself after whatever that peer sends. *)
Theorem cancel_ends_listener {PS : Type} port (w : World PS) l c :
  run_listener no_metric port (start_handler w) l = Some c → c_event c = true → c_setting c = false →
  (∀ l' c', run_listener no_metric port c l' = Some c' → moves l' ≤ 3 ∧ (moves l' = 3 → c_pc c' = Ended)) ∧
  (c_pc c ≠ Recv →
     ∃ l' c', Forall (λ a, own a = true) l' ∧ run_listener no_metric port c l' = Some c' ∧ c_pc c' = Ended) ∧
  (c_pc c = Recv → (∀ a, own a = true → listener_step no_metric port c a = None) ∧
     ∀ sent, ∃ l' c', Forall (λ a, own a = true) l' ∧
       run_listener no_metric port c (Receive sent :: l') = Some c' ∧ c_pc c' = Ended).
Proof.
  intros H He Hs. apply inv_run in H as (_ & _ & _ & Hsh); [|by split_and!].
  assert (c_shut c = true) as Hshut by (destruct (Hsh He); congruence). split_and!.
  - intros l' c' H. pose proof (rank_bound _ _ _ _ H He) as Hr. pose proof (rank_le c) as Hc. rewrite Hshut in Hc.
    split; [lia|]. intros Hm. unfold rank in Hr at 1. destruct (c_pc c') eqn:E; try (exfalso; lia); [|done].
    destruct (c_shut c'); exfalso; lia.
  - by apply ends_alone.
  - intros Hp. split; [intros [] Ho; try discriminate Ho; unfold listener_step; by rewrite Hp|]. intros sent.
    assert (∃ c1, listener_step no_metric port c (Receive sent) = Some c1 ∧ c_event c1 = true ∧ c_shut c1 = true ∧ c_pc c1 ≠ Recv)
      as (c1 & E & He1 & Hs1 & Hp1).
    { unfold listener_step. rewrite Hp. destruct (str_take 1024 sent); by eexists. }
    destruct (ends_alone port c1 He1 Hs1 Hp1) as (l' & c' & ? & ? & ?). exists l', c'. cbn [run_listener]. by rewrite E.
Qed.

Lemma cancel_ends_listener_witness :
  ∃ l' c', Forall (λ a, own a = true) l' ∧
    run_listener no_metric 80 (mkConf Accept true false true false (mkWorld (PS:=()) [] ∅ [] [Log INFO (listen_msg 80)] tt)) l' = Some c' ∧
    c_pc c' = Ended.
Proof.
  apply (cancel_ends_listener 80 (mkWorld (PS:=()) [] ∅ [] [] tt) [Run; Run; SetEvent; ShutDown]); done || reflexivity.
Defined.

(** One event with a timestamp too large for [datetime] ends the listener
    though nobody cancelled it: the exception is not a [ValueError], and the next
    peers find the socket closed. *)
Theorem large_timestamp_ends_listener {PS : Type} port (w : World PS) :
  match run_listener no_metric port (start_handler w)
          [Run; Run; Connect; Receive "entrypoint_end_time_ms:10000000000000000000000"; Run; Run] with
  | Some c => c_pc c = Ended ∧ c_closed c = true ∧ c_event c = false
  | None => False
  end.
Proof. vm_compute. done. Qed.
