(* ===== verification/Mounts.v ===== *)
(** * External mounts (list_external_mounts.py)

    The symbolic links of a tree are followed one step at a time; every target
    outside the tree is collected, and scanned in turn when it is a directory.
    The collected paths are then reduced to the topmost ones.  The script only
    reads the file system, so its functions take the file system and the working
    directory; the loops that are not structural take a fuel and give [None] when
    it runs out. *)

From stdpp Require Import base gmap sets list strings sorting.
From Stdlib Require Import Ascii ZArith Lia.
From S2P Require Import Prelude PyStr Fs World.

(** The order in which the system lists a directory. *)
Class ScanDir := {
  scandir : fs → list string → list string;
  scandir_spec : ∀ f d x, x ∈ scandir f d ↔ is_Some (f !! (d ++ [x]));
  scandir_NoDup : ∀ f d, NoDup (scandir f d)
}.

(** One such order: that of the table. *)
Definition table_names (f : fs) (d : list string) : list string :=
  omap (λ kn : list string * node,
    match last kn.1 with Some x => if bool_decide (kn.1 = d ++ [x]) then Some x else None | None => None end) (map_to_list f).

Lemma table_names_spec f d x : x ∈ table_names f d ↔ is_Some (f !! (d ++ [x])).
Proof.
  unfold table_names. rewrite list_elem_of_omap. split.
  - intros ([k nd] & Hin & H). cbn in H. apply elem_of_map_to_list in Hin. destruct (last k) as [y|]; [|done].
    case_bool_decide; [|done]. subst k. injection H as <-. by eexists.
  - intros [nd H]. exists (d ++ [x], nd). split; [by apply elem_of_map_to_list|]. cbn. rewrite last_snoc.
    by rewrite bool_decide_eq_true_2.
Qed.

Lemma table_names_NoDup f d : NoDup (table_names f d).
Proof.
  unfold table_names. pose proof (NoDup_fst_map_to_list f) as H.
  induction (map_to_list f) as [|[k nd] l IH]; cbn; [constructor|]. apply NoDup_cons in H as [Hk Hl].
  destruct (last k) as [x|]; [|by apply IH]. case_bool_decide as E; [|by apply IH]. apply NoDup_cons. split; [|by apply IH].
  intros ([k' nd'] & Hin & H)%list_elem_of_omap. apply Hk, list_elem_of_fmap. exists (k', nd'). split; [|done]. cbn in *.
  destruct (last k') as [y|]; [|done]. case_bool_decide as E'; [|done]. injection H as ->. congruence.
Qed.

Definition table_order : ScanDir :=
  {| scandir := table_names; scandir_spec := table_names_spec; scandir_NoDup := table_names_NoDup |}.

(** ** Order of paths *)

Fixpoint parts_leb (l1 l2 : list string) : bool :=
  match l1, l2 with
  | [], _ => true
  | _ :: _, [] => false
  | x :: l1, y :: l2 =>
      match String.compare x y with Lt => true | Gt => false | Eq => parts_leb l1 l2 end
  end.

(** Paths compare by their components, the root being an empty first one. *)
Definition order_parts (p : Path) : list string := if p_root p then "" :: p_parts p else p_parts p.

Definition path_le (p q : Path) : Prop := parts_leb (order_parts p) (order_parts q) = true.

#[export] Instance path_le_dec : RelDecision path_le.
Proof. intros p q. unfold path_le. apply _. Defined.

(** ** Minimal paths *)

(** One turn of the loop of [_minimize_paths]. *)
Definition minimize_step (minimal_paths : gset Path) (path : Path) : gset Path :=
  if existsb (is_relative_to path) (elements minimal_paths) then minimal_paths
  else {[path]} ∪ (minimal_paths ∖ filter (λ p, is_relative_to p path = true) minimal_paths).

Definition minimize_paths (paths : gset Path) : gset Path :=
  foldl minimize_step ∅ (merge_sort path_le (elements paths)).

(** A loop whose body can stop it, by an exception or for lack of fuel. *)
Fixpoint fold_or {A B} (body : B → A → option (result B)) (b : B) (l : list A) : option (result B) :=
  match l with
  | [] => Some (Ok b)
  | x :: l =>
      match body b x with
      | Some (Ok b) => fold_or body b l
      | r => r
      end
  end.

Section scan.
Context {SD : ScanDir} (f : fs) (cwd : list string).

(** ** Following one link *)

(** [external_paths] and [worklist] *)
Definition ext_state : Type := gset Path * list Path.

(** The target is recorded when it is outside, and queued when it is a new
    directory. *)
Definition record_target (scan_dir_abs abs_target common : Path) (st : ext_state) : ext_state :=
  if bool_decide (normpath common = scan_dir_abs) then st
  else
    let norm_target := normpath abs_target in
    if bool_decide (norm_target ∈ st.1) then st
    else ({[norm_target]} ∪ st.1, if path_is_dir f cwd norm_target then st.2 ++ [norm_target] else st.2).

Fixpoint process_loop (fuel : nat) (scan_dir_abs : Path) (visited_in_chain : gset Path) (st : ext_state)
    (current_path : Path) : option (result ext_state) :=
  match fuel with
  | O => None
  | S fuel =>
      if path_is_symlink f cwd current_path then
        if bool_decide (current_path ∈ visited_in_chain) then Some (Ok st)
        else
          match path_readlink f cwd current_path with
          | None => Some (Ok st)
          | Some target =>
              let abs_target := joinpath (parent current_path) target in
              if path_exists f cwd abs_target then
                match commonpath scan_dir_abs (normpath abs_target) with
                | Raise e => Some (Raise e)
                | Ok common =>
                    process_loop fuel scan_dir_abs ({[current_path]} ∪ visited_in_chain)
                      (record_target scan_dir_abs abs_target common st) abs_target
                end
              else Some (Ok st)
          end
      else Some (Ok st)
  end.

(** A chain that the kernel resolves has at most [max_symlinks] links. *)
Definition chain_fuel : nat := max_symlinks + 3.

Definition process_symlink (path scan_dir_abs : Path) (st : ext_state) : option (result ext_state) :=
  process_loop chain_fuel scan_dir_abs ∅ st path.

(** ** Walking a tree *)

(** [os.walk(top, topdown=True, followlinks=False)] with [.venv] removed from the
    directories: the directories and the other entries of [top], then the same of
    each subdirectory that is not a link. *)
Definition dir_entries (top : Path) : list string * list string :=
  match stat f cwd top with
  | Some loc =>
      let names := scandir f loc in
      (filter (λ x, path_is_dir f cwd (joinpath top (mkPath false [x])) = true ∧ x ≠ ".venv") names,
       filter (λ x, path_is_dir f cwd (joinpath top (mkPath false [x])) = false) names)
  | None => ([], [])
  end.

Fixpoint os_walk (depth : nat) (top : Path) : list (Path * list string) :=
  match depth with
  | O => []
  | S depth =>
      if path_is_dir f cwd top then
        let '(dirs, files) := dir_entries top in
        (top, dirs ++ files) ::
        (dirs ≫= λ x, let sub := joinpath top (mkPath false [x]) in
                      if path_is_symlink f cwd sub then [] else os_walk depth sub)
      else []
  end.

(** No directory is deeper than the longest path of the file system. *)
Definition walk_depth : nat := S (S (max_list (length <$> (map_to_list f).*1))).

(** ** The worklist *)

(** One entry of a directory. *)
Definition scan_entry (scan_dir_abs : Path) (st : ext_state) (entry : Path * string) : option (result ext_state) :=
  let '(root_path, name) := entry in
  let path := joinpath root_path (mkPath false [name]) in
  if path_is_symlink f cwd path then
    if startswith name "bazel-" then Some (Ok st) else process_symlink path scan_dir_abs st
  else Some (Ok st).

Definition scan_entries (scan_dir_abs : Path) (st : ext_state) (l : list (Path * string)) : option (result ext_state) :=
  fold_or (scan_entry scan_dir_abs) st l.

Definition entries_under (dir : Path) : list (Path * string) :=
  os_walk walk_depth dir ≫= λ rn, pair rn.1 <$> rn.2.

(** The [while worklist] loop, for what is done with one directory. *)
Fixpoint scan_loop (scan : ext_state → Path → option (result ext_state)) (fuel : nat) (scanned : gset Path)
    (st : ext_state) : option (result (gset Path)) :=
  match st.2 with
  | [] => Some (Ok st.1)
  | current_dir :: worklist =>
      match fuel with
      | O => None
      | S fuel =>
          if bool_decide (current_dir ∈ scanned) then scan_loop scan fuel scanned (st.1, worklist)
          else
            match scan (st.1, worklist) current_dir with
            | Some (Ok st) => scan_loop scan fuel ({[current_dir]} ∪ scanned) st
            | Some (Raise e) => Some (Raise e)
            | None => None
            end
      end
  end.

Definition scan_directory (scan_dir_abs : Path) (st : ext_state) (dir : Path) : option (result ext_state) :=
  scan_entries scan_dir_abs st (entries_under dir).

Definition list_external_mounts (fuel : nat) (scan_dir : Path) : option (result (gset Path)) :=
  match resolve f cwd scan_dir with
  | Ok scan_dir_abs => scan_loop (scan_directory scan_dir_abs) fuel ∅ (∅, [scan_dir_abs])
  | Raise e => Some (Raise e)
  end.

Definition get_minimal_mounts (fuel : nat) (root_dir : Path) (existing_mounts : list Path)
  : option (result (gset Path)) :=
  match list_external_mounts fuel root_dir with
  | Some (Ok symlink_paths) =>
      Some (real_paths ← result_map (resolve f cwd) existing_mounts;
            let existing_paths : gset Path := list_to_set existing_mounts ∪ list_to_set real_paths in
            existing_paths ← (if path_is_symlink f cwd root_dir
                              then real_root ← resolve f cwd root_dir; Ok ({[real_root]} ∪ existing_paths)
                              else Ok existing_paths);
            Ok (minimize_paths (symlink_paths ∪ existing_paths)))
  | r => r
  end.
End scan.

(** [main] after [parse_args]: the paths, one per line, in the order [set_order]
    in which the interpreter iterates over the set. *)
Definition mounts_main {PS : Type} {SD : ScanDir} (set_order : gset Path → list Path) (fuel : nat)
    (root_dir : Path) (existing_mounts : list Path) (w : World PS) : option (result () * World PS) :=
  match get_minimal_mounts (w_fs w) (w_cwd w) fuel root_dir existing_mounts with
  | Some (Ok paths) => Some (for_each (λ p, println (str_path p)) (set_order paths) w)
  | Some (Raise e) => Some (Raise e, w)
  | None => None
  end.
