(* ===== verification/MountsProofs.v ===== *)
(** * Lemmas about the external mounts

    The reduction to topmost paths, the kernel's walk as a relation that counts
    links, and the termination of the two loops. *)

From stdpp Require Import base gmap sets list strings sorting.
From Stdlib Require Import Ascii ZArith Lia.
From S2P Require Import Prelude PyStr Fs World FsOps Mounts.

(** ** Minimal paths *)

(** [p] is in the collection and nothing else in it is above [p]. *)
Definition topmost (S : Path → Prop) (p : Path) : Prop :=
  S p ∧ ∀ q, S q → is_relative_to p q = true → q = p.

Record minimized (S : Path → Prop) (acc : gset Path) : Prop := {
  min_topmost p : p ∈ acc ↔ topmost S p;
  min_covers x : S x → ∃ p, p ∈ acc ∧ is_relative_to x p = true
}.

Lemma minimize_step_spec S acc x : minimized S acc → minimized (λ y, S y ∨ y = x) (minimize_step acc x).
Proof.
  intros [Ht Hc]. unfold minimize_step. destruct (existsb _ _) eqn:E.
  - apply existsb_exists in E as (p & Hp%list_elem_of_In%elem_of_elements & Hxp). split.
    + intros y. rewrite Ht. split.
      * intros Hy. split; [left; apply Hy|]. intros q [Hq| ->] Hyq; [by apply Hy|].
        pose proof (proj2 Hy p (proj1 (proj1 (Ht p) Hp)) (is_relative_to_trans _ _ _ Hyq Hxp)) as ->.
        by apply is_relative_to_antisym.
      * intros [[Hy| ->] Hq]; [split; auto|].
        assert (p = x) as <- by (apply Hq; [left; by apply Ht|done]). by apply Ht.
    + intros z [Hz| ->]; [auto|eauto].
  - assert (∀ p, p ∈ acc → is_relative_to x p = true → False) as Hno.
    { intros p Hp Hxp. rewrite (proj2 (existsb_exists _ _)) in E; [done|]. exists p.
      split; [|done]. by apply list_elem_of_In, elem_of_elements. }
    assert (∀ q, S q → is_relative_to x q = true → False) as HnoS.
    { intros q Hq Hxq. destruct (Hc q Hq) as (p & Hp & Hqp). eapply Hno; eauto with devkit. }
    split.
    + intros y. rewrite elem_of_union, elem_of_singleton, elem_of_difference, elem_of_filter, Ht. split.
      * intros [->|[[Hy Hq] Hyx]].
        -- split; [by right|]. intros q [Hq| ->] Hxq; [by destruct (HnoS q)|done].
        -- split; [by left|]. intros q [HqS| ->] Hyq; [auto|]. destruct Hyx. split; [done|]. by split.
      * intros [[Hy| ->] Hq]; [|by left]. destruct (is_relative_to y x) eqn:Eyx; [left; symmetry; auto|right].
        split; [split; auto|]. by intros [? _].
    + intros z [Hz| ->].
      * destruct (Hc z Hz) as (p & Hp & Hzp). destruct (is_relative_to p x) eqn:Epx.
        -- exists x. split; [set_solver|]. eauto with devkit.
        -- exists p. split; [|done]. apply elem_of_union. right. apply elem_of_difference. split; [done|].
           rewrite elem_of_filter. naive_solver congruence.
      * exists x. split; [set_solver|apply is_relative_to_refl].
Qed.

Lemma minimize_foldl S acc l : minimized S acc → minimized (λ y, S y ∨ y ∈ l) (foldl minimize_step acc l).
Proof.
  revert S acc. induction l as [|x l IH]; intros S acc H; cbn [foldl].
  - destruct H as [Ht Hc]. split.
    + intros p. rewrite Ht. unfold topmost. set_solver.
    + set_solver.
  - apply (minimize_step_spec _ _ x), IH in H as [Ht Hc]. split.
    + intros p. rewrite Ht. unfold topmost. set_solver.
    + intros z Hz. apply Hc. set_solver.
Qed.

Lemma minimize_paths_spec paths : minimized (λ p, p ∈ paths) (minimize_paths paths).
Proof.
  unfold minimize_paths.
  assert (minimized (λ _, False) ∅) as H by (split; [intros p; unfold topmost; set_solver|done]).
  apply (minimize_foldl _ _ (merge_sort path_le (elements paths))) in H as [Ht Hc].
  assert (∀ p, (False ∨ p ∈ merge_sort path_le (elements paths)) ↔ p ∈ paths) as Hin.
  { intros p. rewrite merge_sort_Permutation, elem_of_elements. naive_solver. }
  split.
  - intros p. rewrite Ht. unfold topmost. rewrite Hin. by setoid_rewrite Hin.
  - intros x Hx. apply Hc, Hin, Hx.
Qed.

(** ** The walk, as a relation

    [walks f n cur todo loc]: from the directory [cur] the components [todo] lead
    to [loc], following [n] symbolic links on the way. *)
Inductive walks (f : fs) : nat → list string → list string → list string → Prop :=
| walks_nil cur : walks f 0 cur [] cur
| walks_up n cur todo loc : walks f n (take (length cur - 1) cur) todo loc → walks f n cur (".." :: todo) loc
| walks_dir n cur x todo loc : x ≠ ".." → f !! (cur ++ [x]) = Some NDir →
    walks f n (cur ++ [x]) todo loc → walks f n cur (x :: todo) loc
| walks_file cur x c : x ≠ ".." → f !! (cur ++ [x]) = Some (NFile c) → walks f 0 cur [x] (cur ++ [x])
| walks_link n cur x tgt todo loc : x ≠ ".." → f !! (cur ++ [x]) = Some (NLink tgt) →
    walks f n (if p_root (Path_of tgt) then [] else cur) (p_parts (Path_of tgt) ++ todo) loc →
    walks f (S n) cur (x :: todo) loc.

(** Neither the directory nor one above it is a file or a link. *)
Definition good_dir (f : fs) (cur : list string) : Prop :=
  ∀ k nd, node_at f (take k cur) = Some nd → nd = NDir.

Section walk.
Context (f : fs).

#[local] Transparent walk_e walk.

Lemma walk_cons follow links cur x todo :
  walk f follow links cur (x :: todo) =
  if bool_decide (x = "..") then walk f follow links (take (length cur - 1) cur) todo
  else match f !! (cur ++ [x]) with
       | None => None
       | Some NDir => walk f follow links (cur ++ [x]) todo
       | Some (NFile _) => match todo with [] => Some (cur ++ [x]) | _ => None end
       | Some (NLink tgt) =>
           match todo, follow with
           | [], false => Some (cur ++ [x])
           | _, _ =>
               match links with
               | O => None
               | S links => walk f follow links (if p_root (Path_of tgt) then [] else cur) (p_parts (Path_of tgt) ++ todo)
               end
           end
       end.
Proof.
  unfold walk. destruct links; cbn; case_bool_decide; try done; destruct (f !! (cur ++ [x])) as [[| |]|]; try done;
    destruct todo, follow; done.
Qed.

Lemma walk_nil follow links cur : walk f follow links cur [] = Some cur.
Proof. by destruct links. Qed.

#[local] Opaque walk_e walk.

(** The function agrees with the relation, within its bound on links. *)
Lemma walk_walks links cur todo loc : walk f true links cur todo = Some loc →
  ∃ n, n ≤ links ∧ walks f n cur todo loc.
Proof.
  revert cur todo. induction links as [links IHl] using lt_wf_ind. intros cur todo. revert cur.
  induction todo as [|x todo IH]; intros cur H.
  { rewrite walk_nil in H. injection H as <-. exists 0. split; [lia|constructor]. }
  rewrite walk_cons in H. case_bool_decide as Ex.
  { subst x. destruct (IH _ H) as (n & ? & ?). exists n. split; [done|by constructor]. }
  destruct (f !! (cur ++ [x])) as [[c| |tgt]|] eqn:E; [| | |done].
  - destruct todo; [|done]. injection H as <-. exists 0. split; [lia|by econstructor].
  - destruct (IH _ H) as (n & ? & ?). exists n. split; [done|by constructor].
  - assert (∃ links', links = S links' ∧
      walk f true links' (if p_root (Path_of tgt) then [] else cur) (p_parts (Path_of tgt) ++ todo) = Some loc)
      as (links' & -> & H') by (destruct todo, links; try done; eauto).
    destruct (IHl links' ltac:(lia) _ _ H') as (n & ? & ?). exists (S n). split; [lia|by econstructor].
Qed.

Lemma walks_walk n cur todo loc : walks f n cur todo loc → ∀ links, n ≤ links → walk f true links cur todo = Some loc.
Proof.
  induction 1 as [cur|n cur todo loc _ IH|n cur x todo loc Hx E _ IH|cur x c Hx E|n cur x tgt todo loc Hx E _ IH];
    intros links Hl; rewrite ?walk_cons, ?walk_nil; [done| | | |].
  - rewrite bool_decide_eq_true_2 by done. by apply IH.
  - rewrite bool_decide_eq_false_2, E by done. by apply IH.
  - by rewrite bool_decide_eq_false_2, E by done.
  - rewrite bool_decide_eq_false_2, E by done. destruct links as [|links]; [lia|].
    destruct todo; apply IH; lia.
Qed.

Lemma good_nil : good_dir f [].
Proof. intros k nd. rewrite take_nil. by intros [= <-]. Qed.

Lemma good_take cur n : good_dir f cur → good_dir f (take n cur).
Proof. intros H k nd. rewrite take_take. apply H. Qed.

Lemma good_snoc cur x : good_dir f cur → f !! (cur ++ [x]) = Some NDir → good_dir f (cur ++ [x]).
Proof.
  intros H E k nd. destruct (decide (k ≤ length cur)).
  - rewrite take_app_le by done. apply H.
  - rewrite take_ge by (rewrite length_app; cbn; lia). unfold node_at.
    destruct (cur ++ [x]) eqn:Ec; [by destruct cur|]. rewrite E. by intros [= <-].
Qed.

Lemma good_node cur nd : good_dir f cur → node_at f cur = Some nd → nd = NDir.
Proof. intros H E. apply (H (length cur)). by rewrite firstn_all. Qed.

(** Walking to a good directory and on from there. *)
Lemma walks_app n1 cur l1 mid n2 l2 loc : walks f n1 cur l1 mid → good_dir f mid →
  walks f n2 mid l2 loc → walks f (n1 + n2) cur (l1 ++ l2) loc.
Proof.
  intros H Hg H2. induction H as [cur|n cur todo loc' _ IH|n cur x todo loc' Hx E _ IH|cur x c Hx E|n cur x tgt todo loc' Hx E _ IH].
  - done.
  - constructor. auto.
  - cbn. constructor; auto.
  - exfalso. assert (NFile c = NDir); [|done]. eapply good_node; [done|]. unfold node_at.
    destruct (cur ++ [x]) eqn:Ec; [by destruct cur|done].
  - cbn. econstructor; [done..|]. rewrite app_assoc. auto.
Qed.

Lemma walks_split n1 cur l1 mid : walks f n1 cur l1 mid → good_dir f mid → ∀ N l2 loc,
  walks f N cur (l1 ++ l2) loc → ∃ n2, N = n1 + n2 ∧ walks f n2 mid l2 loc.
Proof.
  intros H Hg. induction H as [cur|n cur todo loc' _ IH|n cur x todo loc' Hx E _ IH|cur x c Hx E|n cur x tgt todo loc' Hx E _ IH];
    intros N l2 loc H2.
  - by exists N.
  - inversion H2; simplify_eq; eauto.
  - inversion H2; simplify_eq; eauto.
  - exfalso. assert (NFile c = NDir); [|done]. eapply good_node; [done|]. unfold node_at.
    destruct (cur ++ [x]) eqn:Ec; [by destruct cur|done].
  - inversion H2; simplify_eq.
    match goal with Hw : walks f _ _ _ loc |- _ => rewrite app_assoc in Hw; apply IH in Hw as (n2 & -> & ?); [|done] end.
    by exists n2.
Qed.

Lemma walks_det n1 cur l loc1 : walks f n1 cur l loc1 → ∀ n2 loc2, walks f n2 cur l loc2 → n1 = n2 ∧ loc1 = loc2.
Proof.
  induction 1 as [cur|n cur todo loc' _ IH|n cur x todo loc' Hx E _ IH|cur x c Hx E|n cur x tgt todo loc' Hx E _ IH];
    intros n2 loc2 H2; inversion H2; simplify_eq; try done; eauto.
  match goal with Hw : walks f _ _ _ loc2 |- _ => destruct (IH _ _ Hw) as [-> ->] end. done.
Qed.

(** What [lstat] finds, when it finds a link: the link's directory was walked to. *)
Lemma lwalk_link links cur todo p t : good_dir f cur → walk f false links cur todo = Some p →
  node_at f p = Some (NLink t) →
  ∃ l x n dir, todo = l ++ [x] ∧ x ≠ ".." ∧ p = dir ++ [x] ∧ walks f n cur l dir ∧ good_dir f dir.
Proof.
  revert cur todo. induction links as [links IHl] using lt_wf_ind. intros cur todo. revert cur.
  induction todo as [|x todo IH]; intros cur Hg H Hp.
  { rewrite walk_nil in H. injection H as <-. by pose proof (good_node _ _ Hg Hp). }
  rewrite walk_cons in H. case_bool_decide as Ex.
  { subst x. destruct (IH _ (good_take _ _ Hg) H Hp) as (l & x & n & dir & -> & ? & ? & ? & ?).
    exists (".." :: l), x, n, dir. split_and!; try done. by constructor. }
  destruct (f !! (cur ++ [x])) as [[c| |tgt]|] eqn:E; [| | |done].
  - exfalso. destruct todo; [|done]. injection H as <-. unfold node_at in Hp.
    destruct (cur ++ [x]) eqn:Ec; [by destruct cur|congruence].
  - destruct (IH _ (good_snoc _ _ Hg E) H Hp) as (l & y & n & dir & -> & ? & ? & ? & ?).
    exists (x :: l), y, n, dir. split_and!; try done. by constructor.
  - destruct todo as [|z todo].
    { injection H as <-. exists [], x, 0, cur. split_and!; try done. constructor. }
    destruct links as [|links]; [done|].
    apply IHl in H as (l & y & n & dir & Ht & ? & ? & Hw & ?); [|lia|by destruct (p_root _); [apply good_nil|]|done].
    destruct (last (z :: todo)) as [y'|] eqn:El; [|by apply last_None in El].
    apply last_Some in El as [l' El]. rewrite El in Ht |- *. rewrite app_assoc in Ht.
    apply app_inj_tail in Ht as [<- <-]. exists (x :: l'), y', (S n), dir. split_and!; try done. by econstructor.
Qed.
End walk.

(** ** Following a chain of links terminates *)

Section chain.
Context (f : fs) (cwd : list string).

(** A link, the directory it stands in, and where its target starts from. *)
Lemma readlink_inv c t : p_root c = true → path_readlink f cwd c = Some t →
  ∃ l x n dir tgt, t = Path_of tgt ∧ p_parts c = l ++ [x] ∧ x ≠ ".." ∧ walks f n [] l dir ∧ good_dir f dir ∧
    f !! (dir ++ [x]) = Some (NLink tgt) ∧
    p_parts (joinpath (parent c) t) = (if p_root t then [] else l) ++ p_parts t.
Proof.
  intros Hr Ht. unfold path_readlink, lstat, abs_parts in Ht. rewrite Hr in Ht. cbn [fst snd] in Ht.
  destruct (walk f false max_symlinks [] (p_parts c)) as [p|] eqn:E; [|done]. cbn [mbind option_bind] in Ht.
  destruct (node_at f p) as [[| |tgt]|] eqn:Ep; [done|done| |done]. injection Ht as <-.
  apply (lwalk_link f) with (t := tgt) in E as (l & x & n & dir & Hl & Hx & -> & Hd & Hg); [|apply good_nil|done].
  exists l, x, n, dir, tgt. split_and!; try done; [unfold node_at in Ep; by destruct dir|].
  unfold joinpath, parent. cbn [p_root p_parts]. rewrite Hl, length_app, Nat.add_sub, take_app_length.
  by destruct (p_root (Path_of tgt)).
Qed.

(** Following one link of a chain leaves exactly fewer links to follow. *)
Lemma target_fewer_links c t N loc : p_root c = true → path_readlink f cwd c = Some t →
  walks f N [] (p_parts c) loc →
  ∃ N', N' < N ∧ walks f N' [] (p_parts (joinpath (parent c) t)) loc.
Proof.
  intros Hr Ht Hw. apply readlink_inv in Ht as (l & x & n & dir & tgt & -> & Hl & Hx & Hd & Hg & Ef & ->); [|done].
  rewrite Hl in Hw. destruct (walks_split _ _ _ _ _ Hd Hg _ _ _ Hw) as (n2 & -> & H2).
  inversion H2 as [| | | |n3 cur y tgt' todo loc' _ Ef' H3]; simplify_eq. rewrite app_nil_r in H3.
  destruct (p_root (Path_of tgt)).
  - exists n3. split; [lia|done].
  - exists (n + n3). split; [lia|]. by eapply walks_app.
Qed.

Lemma target_walks_back c t N' loc : p_root c = true → path_readlink f cwd c = Some t →
  walks f N' [] (p_parts (joinpath (parent c) t)) loc → ∃ N, N' < N ∧ walks f N [] (p_parts c) loc.
Proof.
  intros Hr Ht. apply readlink_inv in Ht as (l & x & n & dir & tgt & -> & -> & Hx & Hd & Hg & Ef & ->); [|done].
  intros Hw. destruct (p_root (Path_of tgt)) eqn:Er.
  - exists (n + S N'). split; [lia|]. eapply walks_app; [done..|]. econstructor; [done..|].
    by rewrite Er, app_nil_r.
  - destruct (walks_split _ _ _ _ _ Hd Hg _ _ _ Hw) as (n2 & -> & H2). exists (n + S n2). split; [lia|].
    eapply walks_app; [done..|]. econstructor; [done..|]. by rewrite Er, app_nil_r.
Qed.

Lemma joinpath_root c t : p_root c = true → p_root (joinpath (parent c) t) = true.
Proof. unfold joinpath, parent. intros H. destruct (p_root t) eqn:E; [done|by cbn]. Qed.

Lemma exists_walks p : p_root p = true → path_exists f cwd p = true → ∃ n loc, n ≤ max_symlinks ∧ walks f n [] (p_parts p) loc.
Proof.
  unfold path_exists, stat, abs_parts. intros -> [loc Hl]%bool_decide_eq_true. cbn [fst snd] in Hl.
  apply walk_walks in Hl as (n & ? & ?). eauto.
Qed.

Lemma process_loop_enough fuel scan visited st c N loc : p_root c = true →
  walks f N [] (p_parts c) loc → N < fuel → is_Some (process_loop f cwd fuel scan visited st c).
Proof.
  revert visited st c N. induction fuel as [|fuel IH]; intros visited st c N Hr Hw Hf; [lia|]. cbn [process_loop].
  destruct (path_is_symlink f cwd c); [|by eexists]. case_bool_decide; [by eexists|].
  destruct (path_readlink f cwd c) as [t|] eqn:Et; [|by eexists].
  destruct (path_exists f cwd _); [|by eexists]. destruct (commonpath _ _); [|by eexists].
  destruct (target_fewer_links _ _ _ _ Hr Et Hw) as (N' & HN & Hw').
  apply (IH _ _ _ N'); [by apply joinpath_root|done|lia].
Qed.

(** [process_symlink] always ends. *)
Lemma process_symlink_total path scan st : p_root path = true → is_Some (process_symlink f cwd path scan st).
Proof.
  intros Hr. unfold process_symlink. assert (chain_fuel = S (max_symlinks + 2)) as -> by (unfold chain_fuel; lia).
  assert (max_symlinks < max_symlinks + 2) as Hm by lia. revert Hm. generalize (max_symlinks + 2) as fuel. intros fuel Hm.
  cbn [process_loop]. destruct (path_is_symlink f cwd path); [|by eexists]. case_bool_decide; [by eexists|].
  destruct (path_readlink f cwd path) as [t|] eqn:Et; [|by eexists].
  destruct (path_exists f cwd (joinpath (parent path) t)) eqn:Ee; [|by eexists].
  destruct (commonpath _ _); [|by eexists].
  apply exists_walks in Ee as (n & loc & Hn & Hw); [|by apply joinpath_root].
  apply (process_loop_enough _ _ _ _ _ n loc); [by apply joinpath_root|done|lia].
Qed.
End chain.

(** ** What is collected *)

Lemma norm_go_clean acc l : ".." ∉ acc → ".." ∉ norm_go true acc l.
Proof.
  revert acc. induction l as [|x l IH]; intros acc Ha; cbn [norm_go]; [by rewrite elem_of_reverse|].
  case_bool_decide as Ex.
  - destruct acc as [|y acc]; [by apply IH|]. rewrite bool_decide_eq_false_2 by set_solver. apply IH. set_solver.
  - apply IH. set_solver.
Qed.

Lemma norm_go_id root acc l : ".." ∉ l → norm_go root acc l = reverse acc ++ l.
Proof.
  revert acc. induction l as [|x l IH]; intros acc Hl; cbn [norm_go]; [by rewrite app_nil_r|].
  rewrite bool_decide_eq_false_2 by set_solver. rewrite IH by set_solver.
  by rewrite reverse_cons, <- app_assoc.
Qed.

Lemma common_parts_prefix l1 l2 : common_parts l1 l2 `prefix_of` l2.
Proof.
  revert l2. induction l1 as [|x l1 IH]; intros [|y l2]; cbn; try apply prefix_nil.
  case_bool_decide; subst; [by apply prefix_cons|apply prefix_nil].
Qed.

Lemma common_parts_eq l1 l2 : common_parts l1 l2 = l1 ↔ l1 `prefix_of` l2.
Proof.
  split; [intros H; rewrite <- H; apply common_parts_prefix|]. intros [k ->].
  induction l1 as [|x l1 IH]; cbn; [by destruct k|]. rewrite bool_decide_eq_true_2 by done. by rewrite IH.
Qed.

(** The test of the script says exactly whether the target is outside. *)
Lemma external_test scan q : p_root scan = true → p_root q = true →
  ∃ common, commonpath scan (normpath q) = Ok common ∧
    (normpath common = scan ↔ is_relative_to (normpath q) scan = true).
Proof.
  intros Hs Hq. unfold commonpath. rewrite Hs. cbn [normpath p_root]. rewrite Hq, bool_decide_eq_true_2 by done.
  eexists. split; [done|]. rewrite is_relative_to_spec. unfold normpath. cbn [p_root p_parts]. rewrite Hq, Hs.
  set (l := norm_go true [] (p_parts q)).
  assert (".." ∉ common_parts (p_parts scan) l) as Hc.
  { intros Hin. apply (norm_go_clean [] (p_parts q)); [set_solver|]. fold l.
    destruct (common_parts_prefix (p_parts scan) l) as [k ->]. set_solver. }
  rewrite norm_go_id, reverse_nil, app_nil_l by done. rewrite <- common_parts_eq.
  destruct scan as [r ls]. cbn [p_root p_parts] in *. subst r. split.
  - intros E. split; [done|]. by injection E.
  - intros [_ E]. f_equal. exact E.
Qed.

Section collect.
Context (f : fs) (cwd : list string) (scan : Path).

(** One link: [q] is what [p] points to, and it exists. *)
Definition linked (p q : Path) : Prop :=
  path_is_symlink f cwd p = true ∧
  ∃ t, path_readlink f cwd p = Some t ∧ q = joinpath (parent p) t ∧ path_exists f cwd q = true.

(** A path the script may add. *)
Definition addable (p : Path) : Prop :=
  is_relative_to p scan = false ∧ ∃ q, p_root q = true ∧ path_exists f cwd q = true ∧ p = normpath q.

(** What a part of the scan does to its variables. *)
Record grows (st st' : ext_state) : Prop := {
  gr_sub : st.1 ⊆ st'.1;
  gr_add p : p ∈ st'.1 → p ∈ st.1 ∨ addable p;
  gr_queue : ∃ new, st'.2 = st.2 ++ new ∧ NoDup new ∧
    (∀ p, p ∈ new ↔ p ∈ st'.1 ∧ p ∉ st.1 ∧ path_is_dir f cwd p = true)
}.

#[global] Instance grows_preorder : PreOrder grows.
Proof.
  split.
  - intros st. split; [done|auto|]. exists []. rewrite app_nil_r. split_and!; [done|apply NoDup_nil_2|set_solver].
  - intros s1 s2 s3 [H1 H2 (n1 & E1 & D1 & P1)] [H3 H4 (n2 & E2 & D2 & P2)]. split; [set_solver| |].
    + intros p Hp. destruct (H4 p Hp) as [H|H]; [by apply H2|by right].
    + exists (n1 ++ n2). rewrite E2, E1, app_assoc. split_and!; [done| |].
      * apply NoDup_app. split_and!; [done| |done]. intros p Hp Hp'. apply P1 in Hp. apply P2 in Hp'. tauto.
      * intros p. rewrite elem_of_app, P1, P2. destruct (decide (p ∈ s2.1)); [set_solver|set_solver].
Qed.

Lemma addable_root p : addable p → p_root p = true.
Proof. by intros (_ & q & Hq & _ & ->). Qed.

Context (Hscan : p_root scan = true).

Lemma record_target_spec q common st : p_root q = true → path_exists f cwd q = true →
  commonpath scan (normpath q) = Ok common →
  let st' := record_target f cwd scan q common st in
  grows st st' ∧ (is_relative_to (normpath q) scan = false → normpath q ∈ st'.1).
Proof.
  intros Hq He Hc. cbn zeta. destruct (external_test scan q Hscan Hq) as (common' & Hc' & Ht).
  rewrite Hc in Hc'. injection Hc' as <-. unfold record_target. case_bool_decide as Ex.
  { split; [reflexivity|]. apply Ht in Ex. congruence. }
  assert (is_relative_to (normpath q) scan = false) as Ho by (apply not_true_is_false; tauto).
  case_bool_decide as Ei; [split; [reflexivity|done]|]. split; [|set_solver]. split; cbn [fst snd].
  - set_solver.
  - intros p [->%elem_of_singleton|?]%elem_of_union; [|by left]. right. split; [done|]. by exists q.
  - destruct (path_is_dir f cwd (normpath q)) eqn:Ed.
    + exists [normpath q]. split_and!; [done|apply NoDup_singleton|]. intros p.
      rewrite list_elem_of_singleton. split; [intros ->; set_solver|set_solver].
    + exists []. rewrite app_nil_r. split_and!; [done|apply NoDup_nil_2|]. intros p. set_solver.
Qed.

(** Everything already seen on the chain needs more links than what is left. *)
Definition seen_before (visited : gset Path) (c : Path) : Prop :=
  ∀ v, v ∈ visited → ∃ Nv loc, walks f Nv [] (p_parts v) loc ∧ ∀ N loc', walks f N [] (p_parts c) loc' → N < Nv.

Lemma seen_step visited c t : p_root c = true → seen_before visited c → path_readlink f cwd c = Some t →
  path_exists f cwd (joinpath (parent c) t) = true → seen_before ({[c]} ∪ visited) (joinpath (parent c) t).
Proof.
  intros Hr Hs Ht He. apply exists_walks in He as (N' & loc & _ & Hw); [|by apply joinpath_root].
  destruct (target_walks_back f cwd _ _ _ _ Hr Ht Hw) as (N & HN & Hc).
  assert (∀ N1 l1, walks f N1 [] (p_parts (joinpath (parent c) t)) l1 → N1 = N') as Hdet.
  { intros N1 l1 H1. by destruct (walks_det _ _ _ _ _ Hw _ _ H1) as [-> _]. }
  intros v [->%elem_of_singleton|Hv]%elem_of_union.
  - exists N, loc. split; [done|]. intros N1 l1 ->%Hdet. done.
  - destruct (Hs v Hv) as (Nv & lv & Hwv & Hlt). exists Nv, lv. split; [done|]. intros N1 l1 ->%Hdet.
    specialize (Hlt N loc Hc). lia.
Qed.

Lemma process_loop_spec fuel visited st c r : p_root c = true → seen_before visited c →
  process_loop f cwd fuel scan visited st c = Some r →
  ∃ st', r = Ok st' ∧ grows st st' ∧
    ∀ q, tc linked c q → is_relative_to (normpath q) scan = false → normpath q ∈ st'.1.
Proof.
  revert visited st c. induction fuel as [|fuel IH]; intros visited st c Hr Hs H; [done|]. cbn [process_loop] in H.
  assert ((∀ q, ¬ linked c q) → ∀ q, tc linked c q → is_relative_to (normpath q) scan = false → normpath q ∈ st.1) as Hnone.
  { intros Hn q Hq. exfalso. inversion Hq; by eapply Hn. }
  destruct (path_is_symlink f cwd c) eqn:El.
  2: { injection H as <-. exists st. split_and!; [done|reflexivity|]. apply Hnone. intros q [? _]. congruence. }
  destruct (path_readlink f cwd c) as [t|] eqn:Et.
  2: { assert (r = Ok st) as -> by (destruct (bool_decide _); by simplify_eq).
       exists st. split_and!; [done|reflexivity|]. apply Hnone. intros q (_ & t & Ht & _). congruence. }
  destruct (path_exists f cwd (joinpath (parent c) t)) eqn:Ee.
  2: { assert (r = Ok st) as -> by (destruct (bool_decide _); by simplify_eq).
       exists st. split_and!; [done|reflexivity|]. apply Hnone. intros q (_ & t' & Ht & -> & ?). congruence. }
  pose proof (joinpath_root c t Hr) as Hr'. pose proof (seen_step _ _ _ Hr Hs Et Ee) as Hs'.
  case_bool_decide as Ev.
  { exfalso. apply exists_walks in Ee as (N' & loc & _ & Hw); [|done].
    destruct (target_walks_back f cwd _ _ _ _ Hr Et Hw) as (N & _ & Hc).
    destruct (Hs c Ev) as (Nv & lv & Hv & Hlt). specialize (Hlt Nv lv Hv). lia. }
  destruct (external_test scan _ Hscan Hr') as (common & Hcom & _). rewrite Hcom in H.
  destruct (record_target_spec _ _ st Hr' Ee Hcom) as [Hg Hin].
  destruct (IH _ _ _ Hr' Hs' H) as (st' & -> & Hg' & Hall). exists st'. split_and!; [done|by etrans|].
  assert (∀ q, linked c q → q = joinpath (parent c) t) as Hfun.
  { intros q (_ & t' & Ht' & -> & _). congruence. }
  intros q Hq Ho. inversion Hq as [x y Hl|x y z Hl Htc]; subst.
  - apply Hfun in Hl as ->. apply (gr_sub _ _ Hg'). auto.
  - apply Hfun in Hl as ->. auto.
Qed.

Lemma process_symlink_spec path st : p_root path = true →
  ∃ st', process_symlink f cwd path scan st = Some (Ok st') ∧ grows st st' ∧
    ∀ q, tc linked path q → is_relative_to (normpath q) scan = false → normpath q ∈ st'.1.
Proof.
  intros Hr. destruct (process_symlink_total f cwd path scan st Hr) as [r E]. rewrite E.
  assert (seen_before ∅ path) as Hs by (intros v Hv; by apply elem_of_empty in Hv).
  destruct (process_loop_spec _ _ _ _ _ Hr Hs E) as (st' & -> & ? & ?). eauto.
Qed.
End collect.

(** ** There are finitely many paths to add

    A path without [..] that the kernel resolves is made of names of the file
    system and is not longer than a bound. *)

Section finite.
Context (f : fs).

Definition all_names : list string := mjoin (map_to_list f).*1.
Local Abbreviation max_len := (max_len f).

Lemma key_names l nd x : f !! l = Some nd → x ∈ l → x ∈ all_names.
Proof.
  intros H Hx. apply list_elem_of_join. exists l. split; [done|].
  apply list_elem_of_fmap. exists (l, nd). split; [done|]. by apply elem_of_map_to_list.
Qed.

Lemma walks_cut N cur l loc : walks f N cur l loc → ∀ l1 l2, l = l1 ++ l2 →
  ∃ n1 n2 mid, N = n1 + n2 ∧ walks f n1 cur l1 mid ∧ walks f n2 mid l2 loc.
Proof.
  induction 1 as [cur|n cur todo loc Hw IH|n cur x todo loc Hx E Hw IH|cur x c Hx E|n cur x tgt todo loc Hx E Hw IH];
    intros l1 l2 El.
  - symmetry in El. apply app_nil in El as [-> ->]. exists 0, 0, cur. repeat constructor.
  - destruct l1 as [|y l1]; cbn in El; simplify_eq.
    + exists 0, n, cur. split_and!; [done|constructor|by constructor].
    + destruct (IH l1 l2 eq_refl) as (n1 & n2 & mid & -> & ? & ?). exists n1, n2, mid. split_and!; [done|by constructor|done].
  - destruct l1 as [|y l1]; cbn in El; simplify_eq.
    + exists 0, n, cur. split_and!; [done|constructor|by constructor].
    + destruct (IH l1 l2 eq_refl) as (n1 & n2 & mid & -> & ? & ?). exists n1, n2, mid. split_and!; [done|by constructor|done].
  - destruct l1 as [|y l1]; cbn in El; simplify_eq.
    + exists 0, 0, cur. split_and!; [done|constructor|by econstructor].
    + symmetry in H0. apply app_nil in H0 as [-> ->]. exists 0, 0, (cur ++ [y]).
      split_and!; [done|by econstructor|constructor].
  - destruct l1 as [|y l1]; cbn in El; simplify_eq.
    + exists 0, (S n), cur. split_and!; [done|constructor|by econstructor].
    + destruct (IH (p_parts (Path_of tgt) ++ l1) l2 (app_assoc _ _ _)) as (n1 & n2 & mid & -> & ? & ?).
      exists (S n1), n2, mid. split_and!; [done|by econstructor|done].
Qed.

Lemma walks_len N cur l loc : walks f N cur l loc → length cur ≤ max_len → length loc ≤ max_len.
Proof.
  induction 1 as [cur|n cur todo loc Hw IH|n cur x todo loc Hx E Hw IH|cur x c Hx E|n cur x tgt todo loc Hx E Hw IH];
    intros Hc; [done| | | |].
  - apply IH. rewrite length_take. lia.
  - apply IH. by eapply key_len.
  - by eapply key_len.
  - apply IH. destruct (p_root _); [cbn; lia|done].
Qed.

Lemma walks_bounded N cur l loc : walks f N cur l loc → length cur ≤ max_len → ".." ∉ l →
  length l + length cur ≤ max_len + N * (max_len + 1) ∧ ∀ x, x ∈ l → x ∈ all_names.
Proof.
  revert cur l. induction N as [N IHN] using lt_wf_ind. intros cur l. revert cur.
  induction l as [|x l IH]; intros cur Hw Hc Hl; [split; [cbn; lia|set_solver]|].
  assert (".." ∉ l) as Hl' by set_solver.
  assert (∀ nd, f !! (cur ++ [x]) = Some nd → x ∈ all_names) as Hx by (intros nd E; eapply key_names; [done|set_solver]).
  inversion Hw as [|n c0 todo l0 Hw' Ec|n c0 y todo l0 Hy E Hw' Ec|c0 y c Hy E Ec|n c0 y tgt todo l0 Hy E Hw' Ec]; simplify_eq.
  - set_solver.
  - pose proof (key_len _ _ _ E) as Hk. rewrite length_app in Hk. cbn in Hk.
    destruct (IH _ Hw') as [H1 H2]; [rewrite length_app; cbn; lia|done|]. rewrite length_app in H1. cbn in H1 |- *.
    split; [lia|]. intros z [->|Hz]%elem_of_cons; eauto.
  - pose proof (key_len _ _ _ E) as Hk. rewrite length_app in Hk. cbn in Hk |- *. split; [lia|].
    intros z ->%list_elem_of_singleton. eauto.
  - destruct (walks_cut _ _ _ _ Hw' _ _ eq_refl) as (n1 & n2 & mid & -> & Hw1 & Hw2).
    apply walks_len in Hw1; [|destruct (p_root _); [cbn; lia|done]].
    destruct (IHN n2 ltac:(lia) _ _ Hw2 Hw1 Hl') as [H1 H2]. cbn. split; [nia|].
    intros z [->|Hz]%elem_of_cons; eauto.
Qed.

Fixpoint lists_upto (names : list string) (k : nat) : list (list string) :=
  match k with
  | O => [[]]
  | S k => [] :: (names ≫= λ x, cons x <$> lists_upto names k)
  end.

Lemma lists_upto_spec names k l : length l ≤ k → (∀ x, x ∈ l → x ∈ names) → l ∈ lists_upto names k.
Proof.
  revert l. induction k as [|k IH]; intros [|x l] Hl Hn; cbn in *; try lia; [left| left |].
  right. apply list_elem_of_bind. exists x. split; [|apply Hn; left].
  apply list_elem_of_fmap. exists l. split; [done|]. apply IH; [lia|]. intros y Hy. apply Hn. by right.
Qed.

(** The paths that can be queued. *)
Definition universe : gset Path :=
  list_to_set (mkPath true <$> lists_upto all_names (max_len + max_symlinks * (max_len + 1))).

Lemma in_universe cwd p : p_root p = true → ".." ∉ p_parts p → path_is_dir f cwd p = true → p ∈ universe.
Proof.
  intros Hr Hc Hd. unfold path_is_dir in Hd. apply bool_decide_eq_true, bind_Some in Hd as (loc & Hs & _).
  unfold stat, abs_parts in Hs. rewrite Hr in Hs. cbn [fst snd] in Hs.
  apply walk_walks in Hs as (n & Hn & Hw). apply walks_bounded in Hw as [H1 H2]; [|cbn; lia|done].
  apply elem_of_list_to_set, list_elem_of_fmap. exists (p_parts p). split; [by destruct p; cbn in *; subst|].
  apply lists_upto_spec; [|done]. cbn in H1. nia.
Qed.
End finite.

(** ** The whole scan *)

Section scan_spec.
Context {SD : ScanDir} (f : fs) (cwd : list string) (scan : Path) (Hscan : p_root scan = true).

Definition entry_path (e : Path * string) : Path := joinpath e.1 (mkPath false [e.2]).

(** [R] holds every outside target of the chain of an entry. *)
Definition entry_closed (R : gset Path) (e : Path * string) : Prop :=
  startswith e.2 "bazel-" = false → ∀ q, tc (linked f cwd) (entry_path e) q →
  is_relative_to (normpath q) scan = false → normpath q ∈ R.

Definition closed_dir (R : gset Path) (dir : Path) : Prop :=
  ∀ e, e ∈ entries_under f cwd dir → entry_closed R e.

Lemma entry_closed_mono R R' e : R ⊆ R' → entry_closed R e → entry_closed R' e.
Proof. intros HR H Hb q Hq Ho. apply HR. auto. Qed.

Lemma scan_entry_spec st e : p_root e.1 = true →
  ∃ st', scan_entry f cwd scan st e = Some (Ok st') ∧ grows f cwd scan st st' ∧ entry_closed st'.1 e.
Proof.
  intros Hr. destruct e as [root name]. cbn [fst] in Hr. unfold scan_entry.
  assert (p_root (joinpath root (mkPath false [name])) = true) as Hj by done.
  destruct (path_is_symlink f cwd _) eqn:El.
  2: { exists st. split_and!; [done|reflexivity|]. intros _ q Hq. exfalso.
       unfold entry_path in Hq. cbn [fst snd] in Hq. inversion Hq as [x y [? _]|x y z [? _] _]; subst; congruence. }
  destruct (startswith name "bazel-") eqn:Eb.
  { exists st. split_and!; [done|reflexivity|]. intros H. cbn [snd] in H. congruence. }
  destruct (process_symlink_spec f cwd scan Hscan _ st Hj) as (st' & E & Hg & Hc).
  exists st'. split_and!; [done..|]. intros _ q Hq. by apply Hc.
Qed.

Lemma scan_entries_spec st l : Forall (λ e, p_root e.1 = true) l →
  ∃ st', scan_entries f cwd scan st l = Some (Ok st') ∧ grows f cwd scan st st' ∧ Forall (entry_closed st'.1) l.
Proof.
  intros H. revert st. unfold scan_entries.
  induction H as [|e l He Hl IH]; intros st; cbn [fold_or]; [exists st; by split_and!|].
  destruct (scan_entry_spec st e He) as (st1 & -> & Hg1 & Hc1). destruct (IH st1) as (st2 & -> & Hg2 & Hc2).
  exists st2. split_and!; [done|by etrans|]. constructor; [|done]. eapply entry_closed_mono; [apply (gr_sub _ _ _ _ _ Hg2)|done].
Qed.

Lemma os_walk_roots depth dir r : p_root dir = true → r ∈ os_walk f cwd depth dir → p_root r.1 = true.
Proof.
  revert dir. induction depth as [|depth IH]; intros dir Hd Hr; cbn [os_walk] in Hr; [by apply elem_of_nil in Hr|].
  destruct (path_is_dir f cwd dir); [|by apply elem_of_nil in Hr].
  destruct (dir_entries f cwd dir) as [dirs files]. apply elem_of_cons in Hr as [->|Hr]; [done|].
  apply list_elem_of_bind in Hr as (x & Hr & _). cbn zeta in Hr.
  destruct (path_is_symlink f cwd _); [by apply elem_of_nil in Hr|]. by eapply IH, Hr.
Qed.

Lemma scan_directory_spec st dir : p_root dir = true →
  ∃ st', scan_directory f cwd scan st dir = Some (Ok st') ∧ grows f cwd scan st st' ∧ closed_dir st'.1 dir.
Proof.
  intros Hd. destruct (scan_entries_spec st (entries_under f cwd dir)) as (st' & E & Hg & Hc).
  { apply Forall_forall. intros e He. apply list_elem_of_bind in He as ([r names] & He & Hr).
    apply list_elem_of_fmap in He as (x & -> & _). by apply os_walk_roots in Hr. }
  exists st'. split_and!; [done..|]. intros e He. by eapply Forall_forall in Hc.
Qed.

(** How many directories can still be taken from the worklist. *)
Definition left_to_scan (st : ext_state) : nat := size (universe f ∖ st.1) + length st.2.

Lemma addable_clean p : addable f cwd scan p → ".." ∉ p_parts p.
Proof. intros (_ & q & Hq & _ & ->). cbn. rewrite Hq. apply norm_go_clean. set_solver. Qed.

Lemma grows_left st st' : grows f cwd scan st st' → left_to_scan st' ≤ left_to_scan st.
Proof.
  intros [Hs Ha (new & Hq & Hnd & Hnew)]. unfold left_to_scan. rewrite Hq, length_app.
  assert (list_to_set new ⊆ universe f ∖ st.1) as Hsub.
  { intros p Hp%elem_of_list_to_set%Hnew. destruct Hp as (Hp & Hnp & Hd). apply elem_of_difference. split; [|done].
    destruct (Ha p Hp) as [?|Had]; [done|]. eapply in_universe; [by eapply addable_root|by eapply addable_clean|done]. }
  assert (size (universe f ∖ st'.1) ≤ size ((universe f ∖ st.1) ∖ list_to_set new)) as Hle.
  { apply subseteq_size. intros p [Hu Hp]%elem_of_difference. rewrite !elem_of_difference, elem_of_list_to_set, Hnew. set_solver. }
  rewrite (size_difference (universe f ∖ st.1) (list_to_set new)) in Hle by done. rewrite size_list_to_set in Hle by done.
  pose proof (subseteq_size _ _ Hsub) as Hsz. rewrite size_list_to_set in Hsz by done. lia.
Qed.

(** The invariant of the worklist loop. *)
Record scan_inv (scanned : gset Path) (st : ext_state) : Prop := {
  si_abs d : d ∈ st.2 → p_root d = true;
  si_scanned d : d ∈ scanned → closed_dir st.1 d;
  si_dirs p : p ∈ st.1 → path_is_dir f cwd p = true → p ∈ scanned ∨ p ∈ st.2;
  si_add p : p ∈ st.1 → addable f cwd scan p
}.

Lemma scan_inv_step scanned ext d wl st' : scan_inv scanned (ext, d :: wl) →
  grows f cwd scan (ext, wl) st' → closed_dir st'.1 d → scan_inv ({[d]} ∪ scanned) st'.
Proof.
  intros [H1 H2 H3 H4] [Hs Ha (new & Hq & Hnd & Hnew)] Hc. cbn [fst snd] in *. split.
  - intros x. rewrite Hq, elem_of_app. intros [Hx|[Hx _]%Hnew]; [apply H1; by right|].
    destruct (Ha x Hx) as [?%H4|?]; by eapply addable_root.
  - intros x [->%elem_of_singleton|Hx]%elem_of_union; [done|]. intros e He.
    eapply entry_closed_mono; [exact Hs|]. by eapply H2.
  - intros p Hp Hd. destruct (decide (p ∈ ext)) as [Hin|Hin].
    + destruct (H3 p Hin Hd) as [?|[->|?]%elem_of_cons]; [set_solver|set_solver|]. right. rewrite Hq. set_solver.
    + right. rewrite Hq. apply elem_of_app. right. by apply Hnew.
  - intros p Hp. destruct (Ha p Hp) as [?|?]; [by apply H4|done].
Qed.

Lemma scan_loop_spec fuel scanned st : scan_inv scanned st → left_to_scan st ≤ fuel →
  ∃ R, scan_loop (scan_directory f cwd scan) fuel scanned st = Some (Ok R) ∧ st.1 ⊆ R ∧
    (∀ p, p ∈ R → addable f cwd scan p) ∧
    (∀ d, d ∈ scanned ∨ d ∈ st.2 ∨ (d ∈ R ∧ path_is_dir f cwd d = true) → closed_dir R d).
Proof.
  revert scanned st. induction fuel as [|fuel IH]; intros scanned [ext wl] HI Hf.
  - destruct wl as [|d wl]; [|unfold left_to_scan in Hf; cbn in Hf; lia]. destruct HI as [H1 H2 H3 H4].
    exists ext. split_and!; [done..|]. intros d [?|[?%elem_of_nil|[Hd Hdir]]]; [by apply H2|done|].
    destruct (H3 d Hd Hdir) as [?|?%elem_of_nil]; [by apply H2|done].
  - destruct wl as [|d wl]; cbn [scan_loop snd fst].
    { destruct HI as [H1 H2 H3 H4]. exists ext. split_and!; [done..|].
      intros d [?|[?%elem_of_nil|[Hd Hdir]]]; [by apply H2|done|].
      destruct (H3 d Hd Hdir) as [?|?%elem_of_nil]; [by apply H2|done]. }
    case_bool_decide as Ed.
    + assert (scan_inv scanned (ext, wl)) as HI'.
      { destruct HI as [H1 H2 H3 H4]. split; [|done| |done]; cbn [fst snd] in *; [intros; apply H1; by right|].
        intros p Hp Hd. destruct (H3 p Hp Hd) as [?|[->|?]%elem_of_cons]; auto. }
      destruct (IH scanned (ext, wl) HI') as (R & E & Hs & Ha & Hc); [unfold left_to_scan in *; cbn in *; lia|].
      exists R. split_and!; [done..|]. intros x [?|[[->|?]%elem_of_cons|?]]; apply Hc; auto.
    + destruct (scan_directory_spec (ext, wl) d) as (st' & Es & Hg & Hcd); [apply (si_abs _ _ HI); left|].
      rewrite Es. pose proof (scan_inv_step _ _ _ _ _ HI Hg Hcd) as HI'. pose proof (grows_left _ _ Hg) as Hl.
      destruct (IH _ _ HI') as (R & E & Hs & Ha & Hc); [unfold left_to_scan in *; cbn in *; lia|].
      exists R. pose proof (gr_sub _ _ _ _ _ Hg) as Hsub. cbn [fst] in Hsub. split_and!; [done|set_solver|done|].
      destruct (gr_queue _ _ _ _ _ Hg) as (new & Hq & _). cbn [snd] in Hq.
      intros x [?|[[->|?]%elem_of_cons|?]]; apply Hc; [set_solver|set_solver| |auto].
      right; left. rewrite Hq. set_solver.
Qed.
End scan_spec.

(** The scan ends, and what it returns is what the links of the tree, and of the
    directories they lead to, point to outside the tree. *)
Lemma list_external_mounts_spec {SD : ScanDir} f cwd dir scan fuel : S (size (universe f)) ≤ fuel →
  resolve f cwd dir = Ok scan →
  ∃ R, list_external_mounts f cwd fuel dir = Some (Ok R) ∧ (∀ p, p ∈ R → addable f cwd scan p) ∧
    ∀ d, d = scan ∨ (d ∈ R ∧ path_is_dir f cwd d = true) → closed_dir f cwd scan R d.
Proof.
  intros Hf Er. unfold list_external_mounts. rewrite Er. apply resolve_ok in Er.
  assert (p_root scan = true) as Hs by (subst; apply realpath_root). clear Er.
  destruct (scan_loop_spec f cwd scan Hs fuel ∅ (∅, [scan])) as (R & E & _ & Ha & Hc).
  - split; cbn [fst snd]; [by intros d ->%list_elem_of_singleton|by intros d ?%elem_of_empty..].
  - unfold left_to_scan. cbn. rewrite difference_empty_L. lia.
  - exists R. split_and!; [done..|]. intros d [->|Hd]; apply Hc; [right; left|by right; right]. cbn. set_solver.
Qed.

(** The computation of the mounts ends. *)
Lemma minimal_mounts_total {SD : ScanDir} f cwd fuel dir mounts : S (size (universe f)) ≤ fuel →
  is_Some (get_minimal_mounts f cwd fuel dir mounts).
Proof.
  intros Hf. unfold get_minimal_mounts. destruct (resolve f cwd dir) as [scan|e] eqn:Er.
  - destruct (list_external_mounts_spec f cwd dir scan fuel Hf Er) as (R & -> & _). by eexists.
  - unfold list_external_mounts. rewrite Er. by eexists.
Qed.

(** ** More fuel changes nothing *)

Lemma scan_loop_mono scan n m scanned st r : n ≤ m →
  scan_loop scan n scanned st = Some r → scan_loop scan m scanned st = Some r.
Proof.
  revert m scanned st. induction n as [|n IH]; intros m scanned [ext wl] Hm H.
  - destruct wl; [|done]. by destruct m.
  - destruct wl as [|d wl]; [by destruct m|]. destruct m as [|m]; [lia|]. cbn [scan_loop fst snd] in *.
    case_bool_decide; [apply IH; [lia|done]|].
    destruct (scan (ext, wl) d) as [[st'|e]|]; [apply IH; [lia|done]|done|done].
Qed.

Lemma external_mounts_fuel {SD : ScanDir} f cwd dir r n m : n ≤ m →
  list_external_mounts f cwd n dir = Some r → list_external_mounts f cwd m dir = Some r.
Proof. intros Hm. unfold list_external_mounts. destruct (resolve f cwd dir); [by apply scan_loop_mono|done]. Qed.

(** Only a loop of links makes the computation of the mounts fail. *)
Lemma minimal_mounts_raise {SD : ScanDir} f cwd fuel dir mounts e :
  get_minimal_mounts f cwd fuel dir mounts = Some (Raise e) → ∃ p, p ∈ dir :: mounts ∧ resolve f cwd p = Raise e.
Proof.
  unfold get_minimal_mounts. destruct (list_external_mounts f cwd fuel dir) as [r|] eqn:El; [|done].
  apply (external_mounts_fuel _ _ _ _ _ (fuel + S (size (universe f)))) in El; [|lia].
  destruct (resolve f cwd dir) as [scan|e1] eqn:Er.
  - destruct (list_external_mounts_spec f cwd dir scan (fuel + S (size (universe f))) ltac:(lia) Er) as (R & E & _).
    rewrite El in E. injection E as ->. intros [= H].
    destruct (result_map _ mounts) as [real|e2] eqn:Em; cbn in H.
    + destruct (path_is_symlink f cwd dir); done.
    + injection H as <-. apply result_map_raise in Em as (p & ? & ?). exists p. split; [by right|done].
  - unfold list_external_mounts in El. rewrite Er in El. injection El as <-. intros [= <-]. exists dir. split; [left|done].
Qed.

Section depth.
Context {SD : ScanDir} (f : fs) (cwd : list string).
Hypothesis plain_names : ∀ l nd, f !! l = Some nd → ".." ∉ l.

Lemma walks_good n cur l loc : walks f n cur l loc → good_dir f cur → node_at f loc = Some NDir → good_dir f loc.
Proof.
  induction 1 as [cur|n cur todo loc Hw IH|n cur x todo loc Hx E Hw IH|cur x c Hx E|n cur x tgt todo loc Hx E Hw IH];
    intros Hg Hd; [done| | | |].
  - by apply IH; [apply good_take|].
  - by apply IH; [apply good_snoc|].
  - exfalso. unfold node_at in Hd. destruct (cur ++ [x]) eqn:Ec; [by destruct cur|congruence].
  - apply IH; [destruct (p_root _); [apply good_nil|done]|done].
Qed.

(** A last component after a walk, without following it. *)
Lemma lwalk_snoc n cur l mid : walks f n cur l mid → good_dir f mid → ∀ links x, n ≤ links → x ≠ ".." →
  is_Some (f !! (mid ++ [x])) → walk f false links cur (l ++ [x]) = Some (mid ++ [x]).
Proof.
  intros H Hg. induction H as [cur|n cur todo loc Hw IH|n cur x todo loc Hx E Hw IH|cur x c Hx E|n cur x tgt todo loc Hx E Hw IH];
    intros links y Hl Hy Hs; cbn [app]; rewrite walk_cons.
  - rewrite bool_decide_eq_false_2 by done. destruct Hs as [[| |] ->]; [done|apply walk_nil|done].
  - rewrite bool_decide_eq_true_2 by done. by apply IH.
  - rewrite bool_decide_eq_false_2, E by done. by apply IH.
  - exfalso. assert (NFile c = NDir); [|done]. eapply good_node; [done|]. unfold node_at.
    destruct (cur ++ [x]) eqn:Ec; [by destruct cur|done].
  - rewrite bool_decide_eq_false_2, E by done. destruct links as [|links]; [lia|].
    destruct (todo ++ [y]) eqn:Et; [by destruct todo|]. rewrite <- Et, app_assoc. apply IH; done || lia.
Qed.

(** A subdirectory that is not a link is one level deeper. *)
Lemma subdir_stat top loc x : p_root top = true → stat f cwd top = Some loc → node_at f loc = Some NDir →
  x ∈ scandir f loc → path_is_symlink f cwd (joinpath top (mkPath false [x])) = false →
  path_is_dir f cwd (joinpath top (mkPath false [x])) = true →
  stat f cwd (joinpath top (mkPath false [x])) = Some (loc ++ [x]) ∧ f !! (loc ++ [x]) = Some NDir.
Proof.
  intros Hr Hs Hd Hx Hl Hdir. apply scandir_spec in Hx as [nd Hnd].
  assert (x ≠ "..") as Hx by (intros ->; apply plain_names in Hnd; set_solver).
  unfold stat, abs_parts in Hs |- *. unfold path_is_symlink, lstat, abs_parts in Hl. unfold path_is_dir, stat, abs_parts in Hdir.
  cbn [joinpath p_root p_parts] in *. rewrite Hr in *. cbn [fst snd] in *.
  apply walk_walks in Hs as (n & Hn & Hw). pose proof (walks_good _ _ _ _ Hw (good_nil f) Hd) as Hg.
  rewrite (lwalk_snoc _ _ _ _ Hw Hg max_symlinks x Hn Hx) in Hl by eauto. cbn [mbind option_bind] in Hl.
  assert (node_at f (loc ++ [x]) = Some nd) as Hnode by (unfold node_at; by destruct loc).
  rewrite Hnode in Hl. destruct nd as [c| |tgt]; [|clear Hl|done].
  - exfalso. assert (walks f (n + 0) [] (p_parts top ++ [x]) (loc ++ [x])) as Hf by (eapply walks_app; [done..|by econstructor]).
    apply (walks_walk f) with (links := max_symlinks) in Hf; [|lia]. rewrite Hf in Hdir. cbn [mbind option_bind] in Hdir.
    by rewrite Hnode in Hdir.
  - split; [|done]. apply walks_walk with (n := n + 0); [|lia]. eapply walks_app; [done..|].
    econstructor; [done..|constructor].
Qed.

Lemma list_bind_ext_in {A B} (g h : A → list B) l : (∀ x, x ∈ l → g x = h x) → l ≫= g = l ≫= h.
Proof.
  induction l as [|x l IH]; intros H; [done|]. cbn. rewrite H by left. f_equal. apply IH. intros. apply H. by right.
Qed.

(** The depth given to [os_walk] is enough: a greater one lists the same. *)
Lemma os_walk_enough top loc d1 d2 : p_root top = true → stat f cwd top = Some loc →
  max_len f < d1 + length loc → max_len f < d2 + length loc → os_walk f cwd d1 top = os_walk f cwd d2 top.
Proof.
  assert (∀ d top, path_is_dir f cwd top = false → os_walk f cwd d top = []) as Hnd.
  { intros [|d] t Ht; cbn [os_walk]; [done|]. by rewrite Ht. }
  revert top loc d2. induction d1 as [|d1 IH]; intros top loc d2 Hr Hs H1 H2.
  { destruct (path_is_dir f cwd top) eqn:Ed; [|by rewrite !Hnd].
    exfalso. unfold stat, abs_parts in Hs. rewrite Hr in Hs. apply walk_walks in Hs as (n & _ & Hw).
    apply walks_len in Hw; cbn in *; lia. }
  destruct (path_is_dir f cwd top) eqn:Ed; [|by rewrite !Hnd].
  assert (node_at f loc = Some NDir) as Hnode.
  { unfold path_is_dir in Ed. apply bool_decide_eq_true in Ed. rewrite Hs in Ed. done. }
  assert (length loc ≤ max_len f) as Hlen.
  { unfold stat, abs_parts in Hs. rewrite Hr in Hs. apply walk_walks in Hs as (n & _ & Hw).
    apply walks_len in Hw; cbn in *; [done|lia]. }
  destruct d2 as [|d2]; [lia|]. cbn [os_walk]. rewrite Ed.
  destruct (dir_entries f cwd top) as [dirs files] eqn:Ede. f_equal. apply list_bind_ext_in. intros x Hx. cbn zeta.
  destruct (path_is_symlink f cwd _) eqn:El; [done|].
  unfold dir_entries in Ede. rewrite Hs in Ede. injection Ede as <- _. apply list_elem_of_filter in Hx as [[Hxd _] Hx].
  destruct (subdir_stat _ _ _ Hr Hs Hnode Hx El Hxd) as [Hsub _].
  eapply IH; [done|exact Hsub|rewrite length_app; cbn; lia..].
Qed.
End depth.
