(* ===== verification/MountsExact.v ===== *)
(** * What the scan for external mounts collects, exactly

    The collected paths are described by the table of the file system alone: which
    links stand below a directory, and where their chains lead.  The walk, the
    worklist and the chains of the script compute exactly that set. *)

From stdpp Require Import base gmap sets list strings sorting.
From Stdlib Require Import Ascii ZArith Lia.
From S2P Require Import Prelude PyStr Fs World FsOps Mounts MountsProofs.

(** ** The specification *)

(** Below the directory at [loc], through the directories [rel], stands the
    symbolic link [x]. *)
Definition link_below (f : fs) (loc rel : list string) (x : string) : Prop :=
  (∀ k, k ≤ length rel → node_at f (loc ++ take k rel) = Some NDir) ∧ ∃ tgt, f !! (loc ++ rel ++ [x]) = Some (NLink tgt).

Definition below (d : Path) (rel : list string) : Path := mkPath (p_root d) (p_parts d ++ rel).

(** [p] is outside [scan] and on the chain of a link below [d].  Links named
    [bazel-...] do not count, nor what is in a directory [.venv] or is a link of
    that name to a directory. *)
Definition pulls (f : fs) (cwd : list string) (scan d p : Path) : Prop :=
  ∃ loc rel x q, stat f cwd d = Some loc ∧ link_below f loc rel x ∧
    startswith x "bazel-" = false ∧ ".venv" ∉ rel ∧ (x = ".venv" → path_is_dir f cwd (below d (rel ++ [x])) = false) ∧
    tc (linked f cwd) (below d (rel ++ [x])) q ∧ p = normpath q ∧ is_relative_to p scan = false.

(** The least set that has the targets of the tree and of every directory in it. *)
Inductive collected (f : fs) (cwd : list string) (scan : Path) : Path → Prop :=
| from_tree p : pulls f cwd scan scan p → collected f cwd scan p
| from_target d p : collected f cwd scan d → pulls f cwd scan d p → collected f cwd scan p.

Lemma below_nil d : below d [] = d.
Proof. unfold below. rewrite app_nil_r. by destruct d. Qed.

Lemma below_app d r1 r2 : below (below d r1) r2 = below d (r1 ++ r2).
Proof. unfold below. cbn. by rewrite app_assoc. Qed.

Lemma joinpath_below d x : joinpath d (mkPath false [x]) = below d [x].
Proof. done. Qed.

(** ** The walk lists the tree *)

Section entries.
Context {SD : ScanDir} (f : fs) (cwd : list string).
Hypothesis plain_names : ∀ l nd, f !! l = Some nd → ".." ∉ l.

(** [top] is a directory at [loc]. *)
Definition dir_at (top : Path) (loc : list string) : Prop :=
  p_root top = true ∧ stat f cwd top = Some loc ∧ node_at f loc = Some NDir.

Lemma dir_at_walks top loc : dir_at top loc → ∃ n, n ≤ max_symlinks ∧ walks f n [] (p_parts top) loc ∧ good_dir f loc.
Proof.
  intros (Hr & Hs & Hd). unfold stat, abs_parts in Hs. rewrite Hr in Hs. apply walk_walks in Hs as (n & Hn & Hw).
  exists n. split_and!; [done..|]. eapply walks_good; [done|apply good_nil|done].
Qed.

(** What [lstat] says of an entry of a directory. *)
Lemma entry_lstat top loc x nd : dir_at top loc → f !! (loc ++ [x]) = Some nd →
  path_is_symlink f cwd (below top [x]) = is_link nd.
Proof.
  intros Ht E. destruct (dir_at_walks _ _ Ht) as (n & Hn & Hw & Hg). destruct Ht as (Hr & _ & _).
  assert (x ≠ "..") as Hx by (intros ->; apply plain_names in E; set_solver).
  unfold path_is_symlink, lstat, abs_parts, below. cbn [p_root p_parts]. rewrite Hr. cbn [fst snd].
  rewrite (lwalk_snoc f _ _ _ _ Hw Hg max_symlinks x Hn Hx) by eauto. cbn [mbind option_bind].
  assert (node_at f (loc ++ [x]) = Some nd) as -> by (unfold node_at; by destruct loc). by destruct nd.
Qed.

Lemma subdir_at top loc x : dir_at top loc → f !! (loc ++ [x]) = Some NDir → dir_at (below top [x]) (loc ++ [x]).
Proof.
  intros Ht E. destruct (dir_at_walks _ _ Ht) as (n & Hn & Hw & Hg). destruct Ht as (Hr & _ & _).
  assert (x ≠ "..") as Hx by (intros ->; apply plain_names in E; set_solver).
  split_and!; [done| |unfold node_at; by destruct loc].
  unfold stat, abs_parts, below. cbn [p_root p_parts]. rewrite Hr. cbn [fst snd].
  apply walks_walk with (n := n + 0); [|lia]. eapply walks_app; [done..|]. econstructor; [done..|constructor].
Qed.

Lemma dir_at_is_dir top loc : dir_at top loc → path_is_dir f cwd top = true.
Proof. intros (_ & Hs & Hd). unfold path_is_dir. apply bool_decide_eq_true. by rewrite Hs. Qed.

(** The names the script looks at in a directory. *)
Lemma dir_entries_names top loc x : dir_at top loc →
  x ∈ (dir_entries f cwd top).1 ++ (dir_entries f cwd top).2 ↔
  is_Some (f !! (loc ++ [x])) ∧ (x = ".venv" → path_is_dir f cwd (below top [x]) = false).
Proof.
  intros (_ & Hs & _). unfold dir_entries. rewrite Hs. cbn [fst snd].
  rewrite elem_of_app, !list_elem_of_filter, <- scandir_spec, joinpath_below.
  destruct (path_is_dir f cwd (below top [x])); naive_solver.
Qed.

(** The directories of a walk are those reached through directories that are not
    links and not called [.venv]. *)
Lemma os_walk_sound depth top loc r names : dir_at top loc → (r, names) ∈ os_walk f cwd depth top →
  ∃ rel, r = below top rel ∧ dir_at r (loc ++ rel) ∧ ".venv" ∉ rel ∧
    (∀ k, k ≤ length rel → node_at f (loc ++ take k rel) = Some NDir) ∧
    names = (dir_entries f cwd r).1 ++ (dir_entries f cwd r).2.
Proof.
  revert top loc. induction depth as [|depth IH]; intros top loc Ht Hin; cbn [os_walk] in Hin; [by apply elem_of_nil in Hin|].
  rewrite (dir_at_is_dir _ _ Ht) in Hin. destruct (dir_entries f cwd top) as [dirs files] eqn:Ede.
  apply elem_of_cons in Hin as [[= -> ->]|Hin].
  { exists []. rewrite below_nil, app_nil_r, Ede. split_and!; [done..|set_solver| |done]. intros k _.
    rewrite take_nil, app_nil_r. apply Ht. }
  apply list_elem_of_bind in Hin as (x & Hin & Hx). cbn zeta in Hin. rewrite joinpath_below in Hin.
  destruct (path_is_symlink f cwd (below top [x])) eqn:El; [by apply elem_of_nil in Hin|].
  pose proof Ht as (Hr & Hs & Hd). unfold dir_entries in Ede. rewrite Hs in Ede. injection Ede as <- _.
  apply list_elem_of_filter in Hx as [[Hxd Hxv] Hx]. rewrite joinpath_below in Hxd.
  destruct (subdir_stat f cwd plain_names _ _ _ Hr Hs Hd Hx El Hxd) as [_ Hsub].
  destruct (IH _ _ (subdir_at _ _ _ Ht Hsub) Hin) as (rel & -> & Hat & Hv & Hk & ->).
  exists (x :: rel). rewrite below_app in *. rewrite <- app_assoc in Hat. split_and!; [done|done|set_solver| |done].
  intros [|k] Hle; cbn in *; [by rewrite app_nil_r|]. specialize (Hk k ltac:(lia)). by rewrite <- app_assoc in Hk.
Qed.

Lemma os_walk_complete rel : ∀ depth top loc, dir_at top loc → max_len f < depth + length loc →
  ".venv" ∉ rel → (∀ k, k ≤ length rel → node_at f (loc ++ take k rel) = Some NDir) →
  dir_at (below top rel) (loc ++ rel) ∧
  (below top rel, (dir_entries f cwd (below top rel)).1 ++ (dir_entries f cwd (below top rel)).2) ∈ os_walk f cwd depth top.
Proof.
  induction rel as [|x rel IH]; intros depth top loc Ht Hlen Hv Hk;
    (assert (length loc ≤ max_len f) as Hl; [destruct (dir_at_walks _ _ Ht) as (n & _ & Hw & _); apply walks_len in Hw; [done|cbn; lia]|]);
    (destruct depth as [|depth]; [lia|]); cbn [os_walk]; rewrite (dir_at_is_dir _ _ Ht);
    destruct (dir_entries f cwd top) as [dirs files] eqn:Ede.
  { rewrite below_nil, app_nil_r, Ede. split; [done|left]. }
  assert (f !! (loc ++ [x]) = Some NDir) as E.
  { specialize (Hk 1 ltac:(cbn; lia)). change (take 1 (x :: rel)) with [x] in Hk. unfold node_at in Hk.
    by destruct (loc ++ [x]) eqn:El; [destruct loc|]. }
  pose proof (subdir_at _ _ _ Ht E) as Hsub.
  destruct (IH depth (below top [x]) (loc ++ [x]) Hsub) as [Hat Hin]; [rewrite length_app; cbn; lia|set_solver| |].
  { intros k Hle. specialize (Hk (S k) ltac:(cbn; lia)). cbn in Hk. by rewrite <- app_assoc. }
  rewrite below_app, <- app_assoc in Hat. rewrite below_app in Hin. split; [done|]. right.
  apply list_elem_of_bind. exists x. rewrite joinpath_below. rewrite (entry_lstat _ _ _ _ Ht E). cbn [is_link].
  split; [exact Hin|]. unfold dir_entries in Ede. rewrite (proj1 (proj2 Ht)) in Ede. injection Ede as <- _.
  apply list_elem_of_filter. rewrite joinpath_below. apply not_elem_of_cons in Hv as [Hxv _].
  split; [split; [exact (dir_at_is_dir _ _ Hsub)|congruence]|].
  apply scandir_spec. eauto.
Qed.

(** The entries the script looks at. *)
Lemma entries_under_spec top loc r x : dir_at top loc →
  (r, x) ∈ entries_under f cwd top ↔
  ∃ rel, r = below top rel ∧ dir_at r (loc ++ rel) ∧ ".venv" ∉ rel ∧
    (∀ k, k ≤ length rel → node_at f (loc ++ take k rel) = Some NDir) ∧
    is_Some (f !! (loc ++ rel ++ [x])) ∧ (x = ".venv" → path_is_dir f cwd (below top (rel ++ [x])) = false).
Proof.
  intros Ht. unfold entries_under. rewrite list_elem_of_bind. split.
  - intros ([r' names] & Hx & Hin). apply list_elem_of_fmap in Hx as (y & [= -> ->] & Hx). cbn [fst snd] in *.
    destruct (os_walk_sound _ _ _ _ _ Ht Hin) as (rel & -> & Hat & Hv & Hk & ->).
    apply (dir_entries_names _ _ _ Hat) in Hx as [Hex Hvenv]. rewrite below_app, <- app_assoc in *.
    exists rel. by split_and!.
  - intros (rel & -> & _ & Hv & Hk & Hex & Hvenv).
    destruct (os_walk_complete rel (walk_depth f) top loc Ht) as [Hat Hin];
      [unfold walk_depth; fold (max_len f); lia|done|done|].
    eexists. split; [|exact Hin]. cbn [fst snd]. apply list_elem_of_fmap. exists x. split; [done|].
    apply (dir_entries_names _ _ _ Hat). by rewrite below_app, <- app_assoc.
Qed.
End entries.

(** ** Nothing else is collected *)

Section exact.
Context {SD : ScanDir} (f : fs) (cwd : list string) (scan : Path) (Hscan : p_root scan = true).
Hypothesis plain_names : ∀ l nd, f !! l = Some nd → ".." ∉ l.

(** [p] is an outside target on the chain of [c]. *)
Definition target_of (c p : Path) : Prop :=
  ∃ q, tc (linked f cwd) c q ∧ p = normpath q ∧ is_relative_to p scan = false.

Lemma record_target_sound q common st p : p_root q = true → commonpath scan (normpath q) = Ok common →
  p ∈ (record_target f cwd scan q common st).1 → p ∈ st.1 ∨ (p = normpath q ∧ is_relative_to p scan = false).
Proof.
  intros Hq Hc. destruct (external_test scan q Hscan Hq) as (common' & Hc' & Ht). rewrite Hc in Hc'. injection Hc' as <-.
  unfold record_target. case_bool_decide as Ex; [by left|]. case_bool_decide; [by left|]. cbn [fst].
  intros [->%elem_of_singleton|?]%elem_of_union; [|by left]. right. split; [done|]. apply not_true_is_false. tauto.
Qed.

Lemma process_loop_sound fuel visited st c st' p : p_root c = true →
  process_loop f cwd fuel scan visited st c = Some (Ok st') → p ∈ st'.1 → p ∈ st.1 ∨ target_of c p.
Proof.
  revert visited st c. induction fuel as [|fuel IH]; intros visited st c Hr H Hp; [done|]. cbn [process_loop] in H.
  destruct (path_is_symlink f cwd c) eqn:El; [|simplify_eq; by left]. case_bool_decide; [simplify_eq; by left|].
  destruct (path_readlink f cwd c) as [t|] eqn:Et; [|simplify_eq; by left].
  destruct (path_exists f cwd _) eqn:Ee; [|simplify_eq; by left].
  destruct (commonpath scan _) as [common|] eqn:Ec; [|done]. pose proof (joinpath_root c t Hr) as Hr'.
  assert (linked f cwd c (joinpath (parent c) t)) as Hl by (split; [done|]; by exists t).
  destruct (IH _ _ _ Hr' H Hp) as [Hin|(q & Hq & Hpq & Ho)].
  - apply record_target_sound in Hin as [?|[-> ?]]; [by left|right|done..]. eexists. split; [by apply tc_once|done].
  - right. exists q. split; [by eapply tc_l|done].
Qed.

Lemma scan_entries_sound st l st' p : Forall (λ e, p_root e.1 = true) l →
  scan_entries f cwd scan st l = Some (Ok st') → p ∈ st'.1 →
  p ∈ st.1 ∨ ∃ e, e ∈ l ∧ path_is_symlink f cwd (entry_path e) = true ∧ startswith e.2 "bazel-" = false ∧ target_of (entry_path e) p.
Proof.
  intros Hl. revert st. unfold scan_entries. induction Hl as [|[root name] l He Hl IH]; intros st H Hp; cbn [fold_or] in H.
  { simplify_eq. by left. }
  destruct (scan_entry f cwd scan st (root, name)) as [[st1|e]|] eqn:E; [|done..].
  destruct (IH st1 H Hp) as [Hin|(e & Hin & ?)]; [|right; exists e; split; [by right|done]].
  unfold scan_entry in E. cbn [fst snd] in He. destruct (path_is_symlink f cwd _) eqn:Es; [|simplify_eq; by left].
  destruct (startswith name "bazel-") eqn:Eb; [simplify_eq; by left|].
  apply (process_loop_sound _ _ _ _ _ p) in E as [?|?]; [by left| |done|done]. right. exists (root, name).
  split_and!; [left|done..].
Qed.

(** Only a directory is listed. *)
Lemma entries_under_dir d e : p_root d = true → e ∈ entries_under f cwd d → ∃ loc, dir_at f cwd d loc.
Proof.
  intros Hr. unfold entries_under, walk_depth. cbn [os_walk].
  destruct (path_is_dir f cwd d) eqn:Ed; [|by intros ?%elem_of_nil].
  unfold path_is_dir in Ed. apply bool_decide_eq_true, bind_Some in Ed as (loc & ? & ?). intros _. by exists loc.
Qed.

(** One directory: its targets are [pulls]. *)
Lemma scan_directory_sound st d st' p : p_root d = true →
  scan_directory f cwd scan st d = Some (Ok st') → p ∈ st'.1 → p ∈ st.1 ∨ pulls f cwd scan d p.
Proof.
  intros Hr H Hp. unfold scan_directory in H. apply scan_entries_sound with (p := p) in H as [?|([r x] & He & Hl & Hb & q & Hq & -> & Ho)];
    [by left| | |done].
  2: { apply Forall_forall. intros e He. apply list_elem_of_bind in He as ([r names] & He & Hin).
       apply list_elem_of_fmap in He as (x & -> & _). by apply os_walk_roots in Hin. }
  right. destruct (entries_under_dir _ _ Hr He) as [loc Ht].
  apply (entries_under_spec f cwd plain_names _ _ _ _ Ht) in He as (rel & -> & Hat & Hv & Hk & [nd Hnd] & Hvenv).
  unfold entry_path in Hl, Hq. cbn [fst snd] in *. rewrite joinpath_below in Hl, Hq.
  rewrite app_assoc in Hnd. rewrite (entry_lstat f cwd plain_names _ _ _ _ Hat Hnd) in Hl.
  destruct nd as [| |tgt]; try discriminate Hl. rewrite below_app in Hq.
  exists loc, rel, x, q. split_and!; try done; [apply Ht|]. split; [done|]. exists tgt. by rewrite app_assoc.
Qed.

Lemma closed_dir_pulls R d : p_root d = true → closed_dir f cwd scan R d → ∀ p, pulls f cwd scan d p → p ∈ R.
Proof.
  intros Hr Hc p (loc & rel & x & q & Hs & [Hk [tgt E]] & Hb & Hv & Hvenv & Hq & -> & Ho).
  assert (dir_at f cwd d loc) as Ht.
  { split_and!; [done..|]. specialize (Hk 0 ltac:(lia)). by rewrite take_0, app_nil_r in Hk. }
  assert ((below d rel, x) ∈ entries_under f cwd d) as He.
  { apply (entries_under_spec f cwd plain_names _ _ _ _ Ht). exists rel.
    destruct (os_walk_complete f cwd plain_names rel (walk_depth f) d loc Ht) as [Hat _];
      [unfold walk_depth; fold (max_len f); lia|done..|]. by split_and!. }
  apply (Hc _ He); cbn [snd]; [done| |done]. unfold entry_path. cbn [fst snd]. by rewrite joinpath_below, below_app.
Qed.

Lemma linked_root c q : p_root c = true → tc (linked f cwd) c q → p_root q = true.
Proof.
  intros Hr H. induction H as [c q (_ & t & _ & -> & _)|c q r (_ & t & _ & -> & _) _ IH];
    [by apply joinpath_root|by apply IH, joinpath_root].
Qed.

Lemma pulls_root d p : p_root d = true → pulls f cwd scan d p → p_root p = true.
Proof. intros Hr (loc & rel & x & q & _ & _ & _ & _ & _ & Hq & -> & _). cbn. by eapply linked_root, Hq. Qed.

Lemma collected_root p : collected f cwd scan p → p_root p = true.
Proof. induction 1; by eapply pulls_root. Qed.

(** A target that is queued. *)
Definition to_scan (d : Path) : Prop := d = scan ∨ collected f cwd scan d.

Lemma to_scan_root d : to_scan d → p_root d = true.
Proof. intros [->|?]; [done|by apply collected_root]. Qed.

Lemma scan_loop_sound fuel scanned st R :
  (∀ p, p ∈ st.1 → collected f cwd scan p) → Forall to_scan st.2 →
  scan_loop (scan_directory f cwd scan) fuel scanned st = Some (Ok R) → ∀ p, p ∈ R → collected f cwd scan p.
Proof.
  revert scanned st. induction fuel as [|fuel IH]; intros scanned [ext wl] Hc Hq H; cbn [scan_loop fst snd] in *;
    (destruct wl as [|d wl]; [by simplify_eq|]); [done|]. apply Forall_cons in Hq as [Hd Hq].
  case_bool_decide; [exact (IH _ (ext, wl) Hc Hq H)|].
  destruct (scan_directory f cwd scan (ext, wl) d) as [[st'|e]|] eqn:E; [|done..].
  pose proof (to_scan_root _ Hd) as Hr.
  assert (∀ p, p ∈ st'.1 → collected f cwd scan p) as Hc'.
  { intros p Hp. apply (scan_directory_sound _ _ _ _ Hr E) in Hp as [?|?]; [by apply Hc|].
    destruct Hd as [->|?]; [by apply from_tree|by eapply from_target]. }
  eapply IH; [exact Hc'| |exact H].
  destruct (scan_directory_spec f cwd scan Hscan (ext, wl) d Hr) as (st2 & E2 & Hg & _).
  rewrite E in E2. injection E2 as <-. destruct (gr_queue _ _ _ _ _ Hg) as (new & -> & _ & Hnew).
  apply Forall_app. split; [done|]. apply Forall_forall. intros p [Hp _]%Hnew. right. by apply Hc'.
Qed.
End exact.

(** The scan returns exactly the collected paths. *)
Lemma list_external_mounts_exact {SD : ScanDir} f cwd dir scan fuel :
  (∀ l nd, f !! l = Some nd → ".." ∉ l) → S (size (universe f)) ≤ fuel → resolve f cwd dir = Ok scan →
  ∃ R, list_external_mounts f cwd fuel dir = Some (Ok R) ∧ (∀ p, p ∈ R → addable f cwd scan p) ∧
    ∀ p, p ∈ R ↔ collected f cwd scan p.
Proof.
  intros Hn Hf Er. destruct (list_external_mounts_spec f cwd dir scan fuel Hf Er) as (R & E & Ha & Hc).
  exists R. split_and!; [done..|]. unfold list_external_mounts in E. rewrite Er in E.
  assert (p_root scan = true) as Hs by (apply resolve_ok in Er as ->; apply realpath_root).
  intros p. split.
  - revert p. eapply (scan_loop_sound f cwd scan Hs Hn); [| |exact E]; cbn; [set_solver|].
    constructor; [by left|constructor].
  - induction 1 as [p Hp|d p Hd IH Hp].
    + eapply closed_dir_pulls; [done..| |exact Hp]. apply Hc. by left.
    + eapply closed_dir_pulls; [done|by eapply collected_root| |exact Hp]. apply Hc. right. split; [done|].
      destruct Hp as (loc & rel & x & q & Hst & [Hk _] & _). unfold path_is_dir. apply bool_decide_eq_true. rewrite Hst.
      specialize (Hk 0 ltac:(lia)). by rewrite take_0, app_nil_r in Hk.
Qed.
