(* ===== verification/MountsTheorems.v ===== *)
(** * What list_external_mounts.py guarantees

    The reduction keeps exactly the topmost paths; the scan ends on every file
    system, even with loops of links; it returns only existing targets outside the
    tree, and every one that a chain of links leads to. *)

From stdpp Require Import base gmap sets list strings sorting.
From Stdlib Require Import Ascii ZArith Lia.
From S2P Require Import Prelude PyStr Fs World FsOps Mounts MountsProofs MountsExact.

(** C20: The reduced set is the only subset of the paths in which no path is under
    another and that has, for every path given, one at or above it. *)
Theorem minimize_paths_unique (paths R : gset Path) :
  R = minimize_paths paths ↔
  R ⊆ paths ∧
  (∀ p q, p ∈ R → q ∈ R → is_relative_to p q = true → p = q) ∧
  (∀ x, x ∈ paths → ∃ p, p ∈ R ∧ is_relative_to x p = true).
Proof.
  destruct (minimize_paths_spec paths) as [Ht Hc]. split.
  - intros ->. split_and!; [|intros p q [Hp Hmin]%Ht [Hq _]%Ht Hpq; symmetry; by apply Hmin|done].
    intros p [Hp _]%Ht. done.
  - intros (Hsub & Hanti & Hcov). apply set_eq. intros p. rewrite Ht. split.
    + intros Hp. split; [by apply Hsub|]. intros q Hq Hpq. destruct (Hcov q Hq) as (r & Hr & Hqr).
      assert (p = r) as <- by (apply Hanti; eauto with devkit). by apply is_relative_to_antisym.
    + intros [Hp Hmin]. destruct (Hcov p Hp) as (r & Hr & Hpr). by rewrite <- (Hmin r (Hsub r Hr) Hpr).
Qed.

(** Following a chain of links always ends, also when it loops, and collects
    exactly the targets outside the scanned tree: what is added exists, was
    reached and is outside, and every outside target of the chain is there. *)
Theorem process_symlink_collects f cwd path scan st : p_root path = true → p_root scan = true →
  ∃ st', process_symlink f cwd path scan st = Some (Ok st') ∧ st.1 ⊆ st'.1 ∧
    (∀ p, p ∈ st'.1 → p ∈ st.1 ∨ addable f cwd scan p) ∧
    (∀ q, tc (linked f cwd) path q → is_relative_to (normpath q) scan = false → normpath q ∈ st'.1).
Proof.
  intros Hp Hs. destruct (process_symlink_spec f cwd scan Hs path st Hp) as (st' & E & Hg & Hc).
  exists st'. split_and!; [done|apply Hg|apply Hg|done].
Qed.

(** A tree with a link out of it, through a second link. *)
Definition demo_links : fs :=
  <[["s"] := NDir]> (<[["s"; "a"] := NLink "/x/b"]> (<[["x"] := NDir]>
  (<[["x"; "b"] := NLink "c"]> (<[["x"; "c"] := NDir]> (<[["x"; "c"; "loop"] := NLink "../c/loop"]> ∅))))).

Lemma process_symlink_collects_witness :
  ∃ st', process_symlink demo_links [] (Path_of "/s/a") (Path_of "/s") (∅, []) = Some (Ok st') ∧
    Path_of "/x/c" ∈ st'.1.
Proof.
  destruct (process_symlink_collects demo_links [] (Path_of "/s/a") (Path_of "/s") (∅, []))
    as (st' & E & _ & _ & H); [done..|]. exists st'. split; [done|].
  apply (H (Path_of "/x/c")); [|done]. apply (tc_l _ _ (Path_of "/x/b")); [|apply tc_once].
  - split; [vm_compute; reflexivity|]. exists (Path_of "/x/b"). vm_compute. done.
  - split; [vm_compute; reflexivity|]. exists (Path_of "c"). vm_compute. done.
Defined.

(** C12: The scan of a tree ends on every file system.  It fails exactly when the
    root itself is a loop of links.  Otherwise it returns exactly the paths outside
    the tree that the links of the tree lead to, step by step, and those that the
    links below directories so reached lead to in turn; links named [bazel-...] and
    everything in a directory called [.venv] are left out. *)
Theorem external_mounts_exact {SD : ScanDir} f cwd dir :
  (∀ l nd, f !! l = Some nd → ".." ∉ l) →
  ∃ r, (∃ enough, ∀ fuel, enough ≤ fuel → list_external_mounts f cwd fuel dir = Some r) ∧
    match resolve f cwd dir with
    | Raise e => r = Raise e
    | Ok scan => ∃ R, r = Ok R ∧ ∀ p, p ∈ R ↔ collected f cwd scan p
    end.
Proof.
  intros Hn. destruct (resolve f cwd dir) as [scan|e] eqn:Er.
  2: { exists (Raise e). split; [|done]. exists 0. intros fuel _. unfold list_external_mounts. by rewrite Er. }
  destruct (list_external_mounts_exact f cwd dir scan _ Hn (reflexivity _) Er) as (R & E & _ & Hc).
  exists (Ok R). split; [|by exists R]. eexists. intros fuel Hf. by eapply external_mounts_fuel.
Qed.

Lemma external_mounts_exact_witness :
  ∃ R, (∃ enough, ∀ fuel, enough ≤ fuel → list_external_mounts (SD:=table_order) demo_links [] fuel (Path_of "/s") = Some (Ok R)) ∧
    ∀ p, p ∈ R ↔ collected demo_links [] (Path_of "/s") p.
Proof.
  destruct (external_mounts_exact (SD:=table_order) demo_links [] (Path_of "/s")) as (r & Hr & H).
  { change (map_Forall (λ (l : list string) (_ : node), ".." ∉ l) demo_links). apply (bool_decide_unpack _). vm_compute. exact I. }
  assert (resolve demo_links [] (Path_of "/s") = Ok (Path_of "/s")) as E by (vm_compute; reflexivity).
  rewrite E in H. destruct H as (R & -> & H). exists R. split; [exact Hr|exact H].
Defined.

(** The scan finds the two links and leaves [bazel-out] and [.venv] alone. *)
Example demo_scan :
  (λ r, match r with Some (Ok R) => Some (elements R) | _ => None end)
    (list_external_mounts (SD:=table_order)
       (<[["s"; "bazel-out"] := NLink "/x/c"]> (<[["s"; ".venv"] := NDir]> (<[["s"; ".venv"; "l"] := NLink "/x"]> demo_links)))
       [] 10 (Path_of "/s"))
  = (λ r, match r with Some (Ok R) => Some (elements R) | _ => None end)
      (list_external_mounts (SD:=table_order) demo_links [] 10 (Path_of "/s")) ∧
  list_external_mounts (SD:=table_order) (<[["l"] := NLink "l"]> ∅) [] 10 (Path_of "/l")
  = Some (Raise (RuntimeError "Symlink loop from '/l'")).
Proof. vm_compute. done. Qed.

(** The walk of a directory visits the whole tree below it: a greater depth
    than the one the model allows lists nothing more. *)
Lemma walk_depth_enough {SD : ScanDir} f cwd top k : p_root top = true →
  (∀ l nd, f !! l = Some nd → ".." ∉ l) →
  os_walk f cwd (walk_depth f) top = os_walk f cwd (walk_depth f + k) top.
Proof.
  intros Hr Hn. destruct (stat f cwd top) as [loc|] eqn:Es.
  - apply (os_walk_enough f cwd Hn top loc); [done..| |]; unfold walk_depth; fold (max_len f); lia.
  - assert (path_is_dir f cwd top = false) as Hd.
    { unfold path_is_dir. rewrite Es. by apply bool_decide_eq_false. }
    unfold walk_depth. cbn [Nat.add os_walk]. by rewrite Hd.
Qed.

(** C21: The mounts given to docker are the topmost of all that is needed: no one is
    under another, and every requested path, its real path, the real path of a
    linked root and every outside target of a link is at or below one of them.  The
    computation always ends, and fails exactly when one of these real paths is a
    loop of links. *)
Theorem minimal_mounts_cover {SD : ScanDir} f cwd dir mounts :
  ∃ r, (∃ enough, ∀ fuel, enough ≤ fuel → get_minimal_mounts f cwd fuel dir mounts = Some r) ∧
    match r with
    | Raise e => ∃ p, p ∈ dir :: mounts ∧ resolve f cwd p = Raise e
    | Ok R =>
        (∀ p, p ∈ dir :: mounts → resolve f cwd p = Ok (realpath f cwd p)) ∧
        ∃ ext, (∃ enough, ∀ fuel, enough ≤ fuel → list_external_mounts f cwd fuel dir = Some (Ok ext)) ∧
          (∀ p q, p ∈ R → q ∈ R → is_relative_to p q = true → p = q) ∧
          (∀ x, (x ∈ ext ∨ x ∈ mounts ∨ x ∈ realpath f cwd <$> mounts ∨
                 (path_is_symlink f cwd dir = true ∧ x = realpath f cwd dir)) →
             ∃ p, p ∈ R ∧ is_relative_to x p = true) ∧
          (∀ p, p ∈ R → p ∈ ext ∨ p ∈ mounts ∨ p ∈ realpath f cwd <$> mounts ∨
                        (path_is_symlink f cwd dir = true ∧ p = realpath f cwd dir))
    end.
Proof.
  destruct (resolve f cwd dir) as [scan|e] eqn:Er.
  2: { exists (Raise e). split; [|exists dir; split; [left|done]]. exists 0. intros fuel _.
       unfold get_minimal_mounts, list_external_mounts. by rewrite Er. }
  destruct (list_external_mounts_spec f cwd dir scan _ (reflexivity _) Er) as (ext & E & _).
  assert (∀ fuel, S (size (universe f)) ≤ fuel → list_external_mounts f cwd fuel dir = Some (Ok ext)) as E'
    by (intros; by eapply external_mounts_fuel).
  destruct (result_map (resolve f cwd) mounts) as [real|e] eqn:Em.
  2: { exists (Raise e). split; [|apply result_map_raise in Em as (p & ? & ?); exists p; split; [by right|done]].
       eexists. intros fuel Hf. unfold get_minimal_mounts. by rewrite (E' fuel Hf), Em. }
  assert (real = realpath f cwd <$> mounts ∧ ∀ p, p ∈ mounts → resolve f cwd p = Ok (realpath f cwd p)) as [-> Hres].
  { apply result_map_ok in Em. clear -Em. induction Em as [|p q l ql Hp _ [-> IH]]; [split; [done|set_solver]|].
    apply resolve_ok in Hp as Hq. subst q. split; [done|]. intros p' [->|?]%elem_of_cons; auto. }
  assert (scan = realpath f cwd dir) as -> by (by apply resolve_ok).
  set (root := if path_is_symlink f cwd dir then {[realpath f cwd dir]} else ∅ : gset Path).
  set (all := ext ∪ (root ∪ (list_to_set mounts ∪ list_to_set (realpath f cwd <$> mounts)))).
  assert (∀ x, x ∈ all ↔ x ∈ ext ∨ x ∈ mounts ∨ x ∈ realpath f cwd <$> mounts ∨
             (path_is_symlink f cwd dir = true ∧ x = realpath f cwd dir)) as Hall.
  { intros x. unfold all, root. rewrite !elem_of_union, !elem_of_list_to_set.
    destruct (path_is_symlink f cwd dir); [rewrite elem_of_singleton|rewrite elem_of_empty]; naive_solver. }
  destruct (minimize_paths_spec all) as [Ht Hc]. exists (Ok (minimize_paths all)). split; [|split].
  - eexists. intros fuel Hf. unfold get_minimal_mounts. rewrite (E' fuel Hf), Em. cbn [mbind result_bind]. unfold all, root.
    destruct (path_is_symlink f cwd dir); [by rewrite Er|by rewrite union_empty_l_L].
  - intros p [->|?]%elem_of_cons; auto.
  - exists ext. split_and!; [by eexists| | |].
    + intros p q [Hp Hmin]%Ht [Hq _]%Ht Hpq. symmetry. by apply Hmin.
    + intros x Hx. by apply Hc, Hall.
    + intros p [Hp _]%Ht. by apply Hall.
Qed.
