(* ===== verification/Bep.v ===== *)
(** * Build event files (bep.py)

    One bazel run per target, each with its own temporary caches, writing one
    [bep.json] per target. *)

From stdpp Require Import base gmap sets list strings.
From Stdlib Require Import Ascii ZArith Lia.
From S2P Require Import Prelude PyStr Fs World FsOps FindRoot.

Section bep.
Context {PS : Type} {EX : Exec PS} {TD : TempDir}.
Local Abbreviation W := (World PS).

(** The outputs of the exception are only there when they were captured. *)
Definition run_command (cmd_args : list string) (capture_output : bool) : M W string :=
  log_info ("Executing: " +:+ join " " cmd_args) ;;
  try_with
    ('(out, _) ← run_checked cmd_args;
     mret (if capture_output then strip out else ""))
    (λ e, match e with
          | CalledProcessError cmd rc out err =>
              Some (eprintln ("Error: Command '" +:+ join " " cmd +:+ "' failed with exit code " +:+ str_of_Z rc +:+ ".") ;;
                    when (capture_output && negb (bool_decide (out = ""))) (eprintln ("STDOUT:" +:+ nl +:+ out)) ;;
                    when (capture_output && negb (bool_decide (err = ""))) (eprintln ("STDERR:" +:+ nl +:+ err)) ;;
                    sys_exit 1)
          | FileNotFoundError _ =>
              Some (eprintln ("Error: Command not found: " +:+ default "" (head cmd_args)) ;; sys_exit 1)
          | _ => None
          end).

(** [bash_command] *)
Definition bep_cmd (project_root : Path) (cache registry_cache bazel_target : string) (output_path : Path)
    (bazel_command : string) : list string :=
  [str_path (join_name (join_name project_root "devkit") "build"); "bazel"; "--output_base=" +:+ cache;
   bazel_command; "--build_event_json_file=" +:+ str_path output_path;
   "--repository_cache=" +:+ registry_cache; bazel_target]
  ++ (if bool_decide (bazel_command = "build") then ["--noremote_accept_cached"] else []).

Definition generate_build_event_json (bazel_target : string) (output_path : Path) (bazel_command : string) : M W () :=
  project_root ← find_project_root;
  with_tempdir (λ bazel_cache_dir,
    with_tempdir (λ bazel_registry_cache_dir,
      _ ← run_command (bep_cmd project_root bazel_cache_dir bazel_registry_cache_dir bazel_target output_path bazel_command)
            false;
      mret tt)).

Definition process_target_and_save (bazel_target : string) (output_file : Path) (command : string) : M W () :=
  log_info ("--- Processing: " +:+ bazel_target +:+ " ---") ;;
  generate_build_event_json bazel_target output_file command ;;
  log_info ("--- Finished processing " +:+ bazel_target +:+ " ---").

(** [bazel_target.replace(":", "_").split("/")[-1]] *)
Definition sanitized_target_name (bazel_target : string) : string :=
  default "" (last (split_on "/" (replace bazel_target ":" "_"))).

Definition target_file (output_dir : Path) (bazel_target : string) : Path :=
  join_name (join_name output_dir (sanitized_target_name bazel_target)) "bep.json".

Definition one_target (command : string) (output_dir : Path) (bazel_target : string) : M W () :=
  let output_file := target_file output_dir bazel_target in
  mkdir_p (parent output_file) ;;
  process_target_and_save bazel_target output_file command.

Definition generate_bazel_events_folder (targets : list string) (command : string) (output_dir : Path) : M W () :=
  mkdir_p output_dir ;;
  match targets with
  | [] => process_target_and_save "//..." (join_name output_dir "bep.json") command
  | _ => for_each (one_target command output_dir) targets
  end.

Record bep_namespace := mkBepArgs { ba_targets : list string; ba_command : string; ba_output_dir : Path }.

(** [main] after [parse_args] *)
Definition bep_main (args : bep_namespace) : M W () :=
  generate_bazel_events_folder (ba_targets args) (ba_command args) (ba_output_dir args) ;;
  println "All targets processed successfully.".

(** ** What a run does *)

(** The bazel run for a target, with some project root and caches. *)
Definition is_bep_cmd (command target : string) (file : Path) (cmd : list string) : Prop :=
  ∃ root c1 c2, cmd = bep_cmd root c1 c2 target file command.

(** [m] starts exactly one program when it returns, and it is [P]. *)
Definition runs_one (m : M W ()) (P : list string → Prop) : Prop :=
  ∀ w w', m w = (Ok tt, w') → ∃ cmd, ran w' = ran w ++ [cmd] ∧ P cmd.

Lemma run_command_ok cmd capture (w w' : W) out : run_command cmd capture w = (Ok out, w') → ran w' = ran w ++ [cmd].
Proof.
  unfold run_command. erewrite M_bind_ok by reflexivity. set (w1 := emit_event _ w).
  assert (ran w1 = ran w) as <- by by apply ran_emit. clearbody w1.
  unfold try_with, run_checked, run_unchecked, start. munfold.
  destruct (exec cmd _) as [[rc o err| |] [ps f]]; [|by intros [=]..].
  case_bool_decide; [|by destruct capture; cbn; repeat case_bool_decide; intros [=]].
  cbn. intros [= _ <-]. unfold ran. cbn. by rewrite commands_app.
Qed.

Lemma generate_runs target file command : runs_one (generate_build_event_json target file command) (is_bep_cmd command target file).
Proof.
  intros w w' H. unfold generate_build_event_json in H. apply M_bind_inv in H as (root & w1 & Hr & H).
  apply find_root_state in Hr as ->.
  apply with_tempdir_inv in H as (w2 & H & ->). apply with_tempdir_inv in H as (w3 & H & ->).
  apply M_bind_inv in H as (out & w4 & H & E). assert (w4 = w3) as -> by (unfold mret, M_ret in E; congruence).
  apply run_command_ok in H. eexists. split; [exact H|]. by eexists _, _, _.
Qed.

Lemma process_target_runs target file command :
  runs_one (process_target_and_save target file command) (is_bep_cmd command target file).
Proof.
  intros w w' H. unfold process_target_and_save in H. erewrite M_bind_ok in H by reflexivity.
  apply M_bind_inv in H as ([] & w1 & H & E). apply generate_runs in H as (cmd & Hr & Hc).
  exists cmd. split; [|done]. unfold log_info, emit, modify in E. injection E as <-.
  rewrite ran_emit, Hr, ran_emit by done. done.
Qed.

Lemma mkdir_p_ran p (w : W) w' : mkdir_p p w = (Ok tt, w') → ran w' = ran w.
Proof. intros H. unfold mkdir_p in H. apply change_fs_inv in H as (_ & _ & Ht & _). unfold ran. by rewrite Ht. Qed.

Lemma one_target_runs command dir target :
  runs_one (one_target command dir target) (is_bep_cmd command target (target_file dir target)).
Proof.
  intros w w' H. unfold one_target in H. apply M_bind_inv in H as ([] & w1 & Hm & H).
  apply mkdir_p_ran in Hm as <-. by apply process_target_runs.
Qed.

Lemma targets_run command dir targets (w w' : W) :
  for_each (one_target command dir) targets w = (Ok tt, w') →
  ∃ cmds, ran w' = ran w ++ cmds ∧ Forall2 (λ t c, is_bep_cmd command t (target_file dir t) c) targets cmds.
Proof.
  revert w. induction targets as [|t targets IH]; intros w H; cbn in H.
  - unfold mret, M_ret in H. injection H as <-. exists []. rewrite app_nil_r. by split.
  - apply M_bind_inv in H as ([] & w1 & H1 & H). apply one_target_runs in H1 as (c & E & Hc).
    apply IH in H as (cmds & E' & Hcs). exists (c :: cmds). rewrite E', E, <- app_assoc. split; [done|by constructor].
Qed.

End bep.

(** ** Names of event files *)

Lemma replace_char_app c d s t :
  replace (s +:+ t) (String c "") (String d "") = replace s (String c "") (String d "") +:+ replace t (String c "") (String d "").
Proof.
  assert (∀ u, String.prefix "" u = true) as Hp by by intros [].
  unfold replace. induction s as [|x s IH]; [by rewrite !str_app_nil_l|]. rewrite str_app_cons. cbn [replace_go].
  cbn [String.prefix String.length Nat.sub]. rewrite !Hp, IH. destruct (ascii_dec c x); [|by rewrite str_app_cons].
  by rewrite !str_app_assoc.
Qed.

Lemma split_on_nonempty c s : split_on c s ≠ [].
Proof. destruct s as [|x s]; cbn; [done|]. repeat case_match; done. Qed.

Lemma split_on_cat c s t : split_on c (s +:+ String c t) = split_on c s ++ split_on c t.
Proof.
  induction s as [|x s IH].
  - rewrite str_app_nil_l. cbn. by rewrite bool_decide_eq_true_2.
  - rewrite str_app_cons. cbn. rewrite IH. case_bool_decide; [done|].
    destruct (split_on c s) eqn:E; [by destruct (split_on_nonempty c s)|done].
Qed.

Lemma split_on_last c s t : last (split_on c (s +:+ String c t)) = last (split_on c t).
Proof.
  rewrite split_on_cat, last_app. destruct (last (split_on c t)) eqn:E; [done|].
  apply last_None in E. by destruct (split_on_nonempty c t).
Qed.

Lemma sanitized_last d name :
  sanitized_target_name (d +:+ "/" +:+ name) = default "" (last (split_on "/" (replace name ":" "_"))).
Proof.
  unfold sanitized_target_name. rewrite !replace_char_app. change (replace "/" ":" "_") with "/".
  rewrite str_app_cons, str_app_nil_l. by rewrite split_on_last.
Qed.

(** C34: When the script succeeds it has started exactly one bazel run per target,
    in the order given and with the target's own event file (and a run of the
    whole workspace when no target is given), and nothing else. *)
Theorem bep_one_run_per_target {PS : Type} {EX : Exec PS} {TD : TempDir} args (w w' : World PS) :
  bep_main args w = (Ok tt, w') →
  ∃ cmds, ran w' = ran w ++ cmds ∧
    Forall2 (λ tf c, is_bep_cmd (ba_command args) tf.1 tf.2 c)
      (match ba_targets args with
       | [] => [("//...", join_name (ba_output_dir args) "bep.json")]
       | ts => (λ t, (t, target_file (ba_output_dir args) t)) <$> ts
       end) cmds.
Proof.
  unfold bep_main, generate_bazel_events_folder. intros H. apply M_bind_inv in H as ([] & w1 & H & E).
  unfold println, print, emit, modify in E. injection E as <-. rewrite ran_emit by done.
  apply M_bind_inv in H as ([] & w2 & Hm & H). apply mkdir_p_ran in Hm as <-.
  destruct (ba_targets args) as [|t ts].
  - apply process_target_runs in H as (c & -> & Hc). exists [c]. split; [done|]. by repeat constructor.
  - apply targets_run in H as (cmds & -> & Hc). exists cmds. split; [done|]. by apply Forall2_fmap_l.
Qed.

(** A project with a [devkit] directory, where every program succeeds. *)
Definition demo_bep_world : World () :=
  mkWorld [] (<[["repo"] := NDir]> (<[["repo"; "devkit"] := NDir]> ∅)) ["repo"] [] tt.

#[local] Instance succeeds : Exec () := λ _ s, (Finished 0 "" "", s).
#[local] Existing Instance long_tempdir.

Definition demo_bep_args : bep_namespace := mkBepArgs ["//a:x"; "//b:y"] "fetch" (Path_of "out").

Definition demo_bep_run : result () * World () := Eval vm_compute in bep_main demo_bep_args demo_bep_world.

Lemma bep_one_run_per_target_witness :
  ∃ cmds, ran demo_bep_run.2 = ran demo_bep_world ++ cmds ∧ length cmds = 2.
Proof.
  destruct (bep_one_run_per_target demo_bep_args demo_bep_world demo_bep_run.2) as (cmds & E & H); [vm_compute; reflexivity|].
  exists cmds. split; [done|]. symmetry. by apply Forall2_length in H.
Defined.

(** The temporary caches never outlive the run that used them, whether bazel
    succeeds, fails or is interrupted. *)
Theorem bep_caches_removed {PS : Type} {EX : Exec PS} {TD : TempDir} target file command (w w' : World PS) r root :
  (find_project_root w).1 = Ok root →
  generate_build_event_json target file command w = (r, w') →
  let c1 := tempdir_loc (w_fs w) in
  let c2 := tempdir_loc (<[c1 := NDir]> (w_fs w)) in
  ∀ l, c1 `prefix_of` l ∨ c2 `prefix_of` l → w_fs w' !! l = None.
Proof.
  intros Hr H. cbn zeta. unfold generate_build_event_json, mbind at 1, M_bind at 1 in H.
  destruct (find_project_root w) as [[root'|e] w1] eqn:E; [|done].
  apply find_root_state in E as ->.
  apply with_tempdir_inv in H as (w2 & H & ->). apply with_tempdir_inv in H as (w3 & H & ->).
  intros l [Hl|Hl]; [by apply remove_tree_gone|]. cbn [w_fs set_fs] in *.
  destruct (decide (tempdir_loc (w_fs w) `prefix_of` l)); [by apply remove_tree_gone|].
  rewrite remove_tree_keeps by done. by apply remove_tree_gone.
Qed.

(** The event file depends on the last component of a target only: targets of
    the same name in different packages' parents share one file, and the second
    run overwrites the first. *)
Theorem bep_files_collide d1 d2 name output_dir :
  target_file output_dir (d1 +:+ "/" +:+ name) = target_file output_dir (d2 +:+ "/" +:+ name).
Proof. unfold target_file. by rewrite !sanitized_last. Qed.

Definition demo_bep_json : result () * World () :=
  Eval vm_compute in generate_build_event_json "//a:x" (Path_of "out/bep.json") "fetch" demo_bep_world.

Lemma bep_caches_removed_witness : w_fs demo_bep_json.2 !! tempdir_loc (w_fs demo_bep_world) = None.
Proof.
  apply (bep_caches_removed "//a:x" (Path_of "out/bep.json") "fetch" demo_bep_world demo_bep_json.2 demo_bep_json.1
    (Path_of "/repo")); [vm_compute; reflexivity|vm_compute; reflexivity|by left].
Defined.
