(* ===== verification/Bootstrap.v ===== *)
(** * Bootstrapping a project (bootstrap.py)

    A template directory is copied file by file through jinja2, which is not part
    of the repository: the class [Jinja] is what the script calls of it.  Symbolic
    links to directories are followed, so the walk takes a fuel. *)

From stdpp Require Import base gmap sets list strings.
From Stdlib Require Import Ascii ZArith Lia.
From S2P Require Import Prelude PyStr PyFloat Fs World FsOps Mounts.

(** [env.from_string(content)] and [template.render(context)]; rendering can read
    other files of the template directory. *)
Class Jinja := {
  template : Type;
  from_string : string → result template;
  render : fs → Path → template → list (string * string) → result string
}.

(** ** The lines around an error *)

(** [range(max(0, n - 4), min(len(lines), n + 3))] *)
Definition snippet_range (lineno : Z) (len : nat) : list Z :=
  seqZ (Z.max 0 (lineno - 4)) (Z.min (Z.of_nat len) (lineno + 3) - Z.max 0 (lineno - 4)).

Definition snippet_line (lineno : Z) (lines : list string) (i : Z) : string :=
  "    " +:+ align_right 4 (str_of_Z (i + 1)) +:+ (if bool_decide (i + 1 = lineno)%Z then " >" else "  ")
  +:+ " " +:+ default "" (lines !! Z.to_nat i).

Definition snippet (content : string) (lineno : Z) : list string :=
  let lines := splitlines content in
  snippet_line lineno lines <$> snippet_range lineno (length lines).

Section bootstrap.
Context {PS : Type} {SD : ScanDir} {JJ : Jinja}.
Local Abbreviation W := (World PS).
Local Abbreviation context := (list (string * string)).

Definition not_below : exn := ValueError "is not in the subpath of".

(** [template.render(context)] in the current file system. *)
Definition render_now (src_dir : Path) (t : template) (ctx : context) : M W string :=
  λ w, (render (w_fs w) src_dir t ctx, w).

(** One file; true when an error was reported. *)
Definition copy_file (src_dir dest_dir : Path) (ctx : context) (src_file_path : Path) : M W bool :=
  relative_path ← lift_result (match relative_to src_file_path src_dir with
                               | Some p => Ok p | None => Raise not_below end);
  let dest_file_path := joinpath dest_dir relative_path in
  mkdir_p (parent dest_file_path) ;;
  content ← read_text src_file_path;
  try_with
    (t ← lift_result (from_string content);
     write_text dest_file_path "" ;;
     text ← render_now src_dir t ctx;
     write_text dest_file_path (text +:+ nl) ;;
     emit (CopyMode src_file_path dest_file_path) ;;
     mret false)
    (λ e, match e with
          | TemplateSyntaxError lineno message =>
              Some (eprintln ("Error in template: " +:+ str_path src_file_path) ;;
                    eprintln ("  Line " +:+ str_of_Z lineno +:+ ": " +:+ message) ;;
                    for_each eprintln (snippet content lineno) ;;
                    mret true)
          | UndefinedError message =>
              Some (eprintln ("Error in template: " +:+ str_path src_file_path) ;;
                    eprintln ("  " +:+ message) ;;
                    mret true)
          | _ => None
          end).

(** The directories and the other entries of a directory; none when it cannot be
    listed. *)
Definition list_dir (top : Path) : M W (list string * list string) := gets (λ w : W,
  match stat (w_fs w) (w_cwd w) top with
  | Some loc =>
      let is_dir x := path_is_dir (w_fs w) (w_cwd w) (joinpath top (mkPath false [x])) in
      let names := scandir (w_fs w) loc in
      (filter (λ x, is_dir x = true) names, filter (λ x, is_dir x = false) names)
  | None => ([], [])
  end).

Definition copy_files (src_dir dest_dir : Path) (ctx : context) (dirpath : Path) (err : bool) (filenames : list string)
  : M W bool :=
  for_acc (λ err filename,
    if endswith filename ".include" then mret err
    else b ← copy_file src_dir dest_dir ctx (joinpath dirpath (mkPath false [filename])); mret (err || b))
    err filenames.

(** [for dirpath, _, filenames in os.walk(src_dir, followlinks=True)]; [None] when
    the fuel, a number of directories, runs out. *)
Fixpoint copy_walk (src_dir dest_dir : Path) (ctx : context) (fuel : nat) (err : bool) (stack : list Path)
  : M W (option bool) :=
  match stack with
  | [] => mret (Some err)
  | top :: stack =>
      match fuel with
      | O => mret None
      | S fuel =>
          '(dirs, files) ← list_dir top;
          err ← copy_files src_dir dest_dir ctx top err files;
          copy_walk src_dir dest_dir ctx fuel err (((λ x, joinpath top (mkPath false [x])) <$> dirs) ++ stack)
      end
  end.

Definition copy_and_template (fuel : nat) (src_dir dest_dir : Path) (ctx : context) : M W (option bool) :=
  copy_walk src_dir dest_dir ctx fuel false [src_dir].

(** ** The arguments *)

Definition add_arg (ctx : context) (arg : string) : M W context :=
  if str_mem "=" arg then let '(key, value) := split1 "=" arg in mret (assoc_set key value ctx)
  else eprintln ("Invalid argument: " +:+ arg +:+ ". Expected key=value.") ;; sys_exit 1.

Record boot_namespace := mkBootArgs {
  bo_template : string;
  bo_templates_root : option Path;
  bo_output_dir : Path;
  bo_args : list string
}.

Definition boot_error_text (e : exn) : string :=
  match e with
  | ValueError m | OSError m | FileNotFoundError m | TemplateError m => m
  | _ => ""
  end.

Definition resolve_m (p : Path) : M W Path := λ w, (resolve (w_fs w) (w_cwd w) p, w).
Definition resolve_strict_m (p : Path) : M W Path := λ w, (resolve_strict (w_fs w) (w_cwd w) p, w).

(** [templates_root_dir / template]; [script_dir] is where the script is. *)
Definition template_path (script_dir : Path) (args : boot_namespace) : Path :=
  join_name (match bo_templates_root args with Some p => p | None => join_name (parent script_dir) "templates" end)
    (bo_template args).

(** [main] after [parse_args]. *)
Definition boot_main (fuel : nat) (script_dir : Path) (args : boot_namespace) : M W (option ()) :=
  ctx ← for_acc add_arg [] (bo_args args);
  template_dir ← resolve_m (template_path script_dir args);
  template_dir ← try_with (resolve_strict_m template_dir)
    (λ e, match e with
          | FileNotFoundError _ =>
              Some (eprintln ("Template '" +:+ bo_template args +:+ "' not found at '" +:+ str_path template_dir +:+ "'") ;;
                    sys_exit 1)
          | _ => None
          end);
  r ← try_with
        (r ← copy_and_template fuel template_dir (bo_output_dir args) ctx;
         match r with
         | Some true => eprintln "Errors occurred during templating." ;; sys_exit 1
         | Some false => mret (Some ())
         | None => mret None
         end)
        (λ e, if is_Exception e then Some (eprintln ("An error occurred: " +:+ boot_error_text e) ;; sys_exit 1) else None);
  match r with
  | Some _ =>
      println ("Project bootstrapped with '" +:+ bo_template args +:+ "' template.") ;; mret (Some tt)
  | None => mret None
  end.
End bootstrap.

(** ** What the script guarantees *)

Section copy_spec.
Context {PS : Type} {JJ : Jinja}.
Local Abbreviation W := (World PS).

Lemma write_text_ok p c (w : W) loc : write_loc (w_fs w) (w_cwd w) p = Ok loc →
  write_text p c w = (Ok tt, set_fs (<[loc := NFile c]> (w_fs w)) w).
Proof. intros H. unfold write_text, change_fs, write_file. by rewrite H. Qed.

(** A file of the template is copied as jinja renders it, with a newline added
    and the mode of the source; a syntax error is reported and leaves the destination as it was; an undefined
    variable is found only while rendering, after the destination was opened, and
    leaves it empty. *)
Theorem copy_file_outcomes src_dir dest_dir ctx src rel content (w w1 : W) loc :
  relative_to src src_dir = Some rel →
  let dest := joinpath dest_dir rel in
  mkdir_p (parent dest) w = (Ok tt, w1) →
  read_file (w_fs w1) (w_cwd w1) src = Ok content →
  write_loc (w_fs w1) (w_cwd w1) dest = Ok loc →
  let '(r, w') := copy_file src_dir dest_dir ctx src w in
  let opened := <[loc := NFile ""]> (w_fs w1) in
  match from_string content with
  | Raise (TemplateSyntaxError _ _) => r = Ok true ∧ w_fs w' = w_fs w1
  | Ok t =>
      match render opened src_dir t ctx with
      | Ok text =>
          r = Ok false ∧ w' = emit_event (CopyMode src dest) (set_fs (<[loc := NFile (text +:+ nl)]> (w_fs w1)) w1)
      | Raise (UndefinedError _) => r = Ok true ∧ w_fs w' = opened
      | Raise (TemplateSyntaxError _ _) => r = Ok true ∧ w_fs w' = opened
      | Raise e => r = Raise e ∧ w_fs w' = opened
      end
  | _ => True
  end.
Proof.
  intros Hrel dest Hmk Hread Hloc. destruct (copy_file src_dir dest_dir ctx src w) as [r w'] eqn:H.
  cbn zeta. unfold copy_file in H. rewrite Hrel in H. erewrite M_bind_ok in H by reflexivity. cbn zeta in H. fold dest in H.
  rewrite (M_bind_ok _ _ _ _ _ Hmk) in H.
  rewrite (M_bind_ok (read_text src) _ w1 content w1) in H by (unfold read_text; by rewrite Hread).
  assert (∀ l (v : W), ∃ v', for_each eprintln l v = (Ok tt, v') ∧ w_fs v' = w_fs v) as Hprint.
  { induction l as [|x l IH]; intros v; [by exists v|]. cbn [for_each]. erewrite M_bind_ok by reflexivity.
    destruct (IH (emit_event (Stderr (x +:+ nl)) v)) as (v' & -> & Hv). exists v'. by rewrite Hv. }
  unfold try_with in H. destruct (from_string content) as [t|e].
  - erewrite M_bind_ok in H by reflexivity. rewrite (M_bind_ok _ _ _ _ _ (write_text_ok _ _ _ _ Hloc)) in H.
    unfold mbind at 1, M_bind at 1, render_now in H. cbn [w_fs set_fs] in H.
    destruct (render _ src_dir t ctx) as [text|e] eqn:Er.
    + erewrite M_bind_ok in H by (apply write_text_ok; by apply write_loc_again).
      erewrite M_bind_ok in H by reflexivity. unfold mret, M_ret in H. injection H as <- <-.
      split; [done|]. unfold set_fs. cbn. by rewrite insert_insert_eq.
    + destruct e; cbv beta iota in H; try (by injection H as <- <-).
      do 2 (erewrite M_bind_ok in H by reflexivity).
      match type of H with (for_each _ ?l ≫= _) ?v = _ => destruct (Hprint l v) as (v' & E & Hv) end.
      rewrite (M_bind_ok _ _ _ _ _ E) in H. unfold mret, M_ret in H. injection H as <- <-. by rewrite Hv.
  - destruct e; try done. unfold lift_result in H. erewrite M_bind_raise in H by reflexivity. cbv beta iota in H.
    do 2 (erewrite M_bind_ok in H by reflexivity).
    match type of H with (for_each _ ?l ≫= _) ?v = _ => destruct (Hprint l v) as (v' & E & Hv) end.
    rewrite (M_bind_ok _ _ _ _ _ E) in H. unfold mret, M_ret in H. injection H as <- <-. by rewrite Hv.
Qed.

(** The lines shown around an error are exactly the existing lines at most
    three before or after it, in order. *)
Theorem snippet_window content lineno i :
  i ∈ snippet_range lineno (length (splitlines content)) ↔
  (0 ≤ i < Z.of_nat (length (splitlines content)) ∧ Z.abs (i + 1 - lineno) ≤ 3)%Z.
Proof. unfold snippet_range. rewrite elem_of_seqZ. lia. Qed.
End copy_spec.

Section args_spec.
Context {PS : Type} {SD : ScanDir} {JJ : Jinja}.
Local Abbreviation W := (World PS).

Lemma add_arg_ok ctx a (w : W) : str_mem "=" a = true →
  add_arg ctx a w = (Ok (assoc_set (split1 "=" a).1 (split1 "=" a).2 ctx), w).
Proof. intros Ha. unfold add_arg. rewrite Ha. by destruct (split1 "=" a). Qed.

Lemma add_args_ok args ctx (w : W) : Forall (λ a, str_mem "=" a = true) args →
  for_acc add_arg ctx args w = (Ok (assoc_update ctx (split1 "=" <$> args)), w).
Proof.
  intros H. revert ctx. induction H as [|a args Ha Hargs IH]; intros ctx; [done|]. cbn [for_acc].
  rewrite (M_bind_ok _ _ _ _ _ (add_arg_ok _ _ _ Ha)), IH. cbn. by destruct (split1 "=" a).
Qed.

Lemma add_args_bad args ctx (w : W) r w' : ¬ Forall (λ a, str_mem "=" a = true) args →
  for_acc add_arg ctx args w = (r, w') → r = Raise (SystemExit 1) ∧ w_fs w' = w_fs w.
Proof.
  revert ctx. induction args as [|a args IH]; intros ctx Hn H; [by destruct Hn|]. cbn [for_acc] in H.
  destruct (str_mem "=" a) eqn:Ea.
  - rewrite (M_bind_ok _ _ _ _ _ (add_arg_ok _ _ _ Ea)) in H. eapply IH; [|exact H]. intros ?. apply Hn. by constructor.
  - erewrite M_bind_raise in H by (unfold add_arg; rewrite Ea; reflexivity). injection H as <- <-. done.
Qed.

(** An argument without an equals sign ends the script with code 1 before any
    file is written; otherwise the context maps each key to the value of its last
    occurrence, the value being everything after the first equals sign. *)
Theorem bootstrap_arguments fuel script_dir args (w : W) :
  (¬ Forall (λ a, str_mem "=" a = true) (bo_args args) →
     (boot_main fuel script_dir args w).1 = Raise (SystemExit 1) ∧
     w_fs (boot_main fuel script_dir args w).2 = w_fs w) ∧
  (Forall (λ a, str_mem "=" a = true) (bo_args args) →
     ∃ ctx, for_acc add_arg [] (bo_args args) w = (Ok ctx, w) ∧
       ∀ k, assoc k ctx = assoc k (reverse (split1 "=" <$> bo_args args))).
Proof.
  split.
  - intros Hn. unfold boot_main. destruct (for_acc add_arg [] (bo_args args) w) as [r w1] eqn:E.
    destruct (add_args_bad _ _ _ _ _ Hn E) as [-> Hf]. by rewrite (M_bind_raise _ _ _ _ _ E).
  - intros Hall. eexists. split; [by apply add_args_ok|]. intros k. rewrite assoc_update_spec. by destruct (assoc k _).
Qed.
End args_spec.

(** ** Success and failure *)

(** What the engine raises is an exception, never an exit. *)
Class JinjaSpec {JJ : Jinja} := {
  from_string_raises c e : from_string c = Raise e → is_Exception e = true;
  render_raises f dir t ctx e : render f dir t ctx = Raise e → is_Exception e = true
}.

Section outcome.
Context {PS : Type} {SD : ScanDir} {JJ : Jinja}.
Local Abbreviation W := (World PS).
Local Abbreviation context := (list (string * string)).

Definition stderr_of (w : W) : list string :=
  omap (λ e, match e with Stderr s => Some s | _ => None end) (w_trace w).

(** Between two worlds: standard error only grew, by something exactly when [b]. *)
Definition reported (b : bool) (w w' : W) : Prop :=
  ∃ new, stderr_of w' = stderr_of w ++ new ∧ (b = true ↔ new ≠ []).

Definition grown (w w' : W) : Prop := ∃ b, reported b w w'.

Lemma reported_trans b1 b2 w1 w2 w3 : reported b1 w1 w2 → reported b2 w2 w3 → reported (b1 || b2) w1 w3.
Proof.
  intros (n1 & E1 & H1) (n2 & E2 & H2). exists (n1 ++ n2). rewrite E2, E1, app_assoc. split; [done|].
  destruct b1, b2, n1, n2; naive_solver.
Qed.

Lemma reported_emit e (w : W) : reported (match e with Stderr _ => true | _ => false end) w (emit_event e w).
Proof. unfold reported, stderr_of. cbn. rewrite omap_app. destruct e; cbn; by eexists. Qed.

#[local] Instance reported_false_preorder : PreOrder (reported false).
Proof.
  split; [intros w; exists []; rewrite app_nil_r; naive_solver|].
  intros x y z H1 H2. exact (reported_trans false false _ _ _ H1 H2).
Qed.

Lemma silent_change_fs op : always (reported false) (change_fs (PS:=PS) op).
Proof.
  intros w r w' (_ & _ & H & _)%change_fs_inv. exists []. unfold stderr_of. rewrite H, app_nil_r. naive_solver.
Qed.

Lemma silent_mkdir p : always (reported false) (mkdir_p (PS:=PS) p).
Proof. apply silent_change_fs. Qed.

Lemma silent_write p c : always (reported false) (write_text (PS:=PS) p c).
Proof. apply silent_change_fs. Qed.

Lemma silent_read_text p : always (reported false) (read_text (PS:=PS) p).
Proof. intros w r w' [_ ->]%read_text_inv. reflexivity. Qed.

Lemma silent_render d t ctx : always (reported false) (render_now (PS:=PS) d t ctx).
Proof. intros w r w' [= _ <-]. reflexivity. Qed.

Lemma silent_copymode p q : always (reported false) (emit (PS:=PS) (CopyMode p q)).
Proof. apply always_emit. intros w. apply (reported_emit (CopyMode p q)). Qed.

#[local] Hint Resolve silent_mkdir silent_write silent_read_text silent_render silent_copymode : frame.

#[local] Instance grown_preorder : PreOrder grown.
Proof.
  split; [intros w; by exists false|]. intros x y z [b1 H1] [b2 H2]. eexists. by eapply reported_trans.
Qed.

Lemma silent_grown {A} (m : M W A) : always (reported false) m → always grown m.
Proof. intros Hm w r w' H. exists false. by apply Hm in H. Qed.

Lemma grown_eprintln s : always grown (eprintln (PS:=PS) s).
Proof. apply always_emit. intros w. eexists. apply reported_emit. Qed.

#[local] Hint Resolve silent_grown grown_eprintln : frame.

(** A line is printed and the rest only adds to it. *)
Lemma says_more {A} t (m : M W A) (w : W) r w' : always grown m → (eprintln t ;; m) w = (r, w') → reported true w w'.
Proof.
  intros Hm H. erewrite M_bind_ok in H by reflexivity. apply Hm in H as [b H].
  exact (reported_trans true b _ _ _ (reported_emit (Stderr (t +:+ nl)) w) H).
Qed.

(** The flag a file returns tells whether something was said about it. *)
Lemma copy_file_reports src_dir dest_dir ctx src (w : W) b w' :
  copy_file src_dir dest_dir ctx src w = (Ok b, w') → reported b w w'.
Proof.
  unfold copy_file. intros (rel & w1 & E1 & H)%M_bind_inv. unfold lift_result in E1. injection E1 as _ <-. cbn zeta in H.
  set (dest := joinpath dest_dir rel) in H. apply M_bind_inv in H as ([] & w2 & E2 & H).
  apply silent_mkdir in E2. apply M_bind_inv in H as (content & w3 & E3 & H). apply silent_read_text in E3.
  enough (reported b w3 w') by (apply (reported_trans false b _ w3); [by etrans|done]). clear E2 E3 w w2.
  match type of H with try_with ?m ?h w3 = _ =>
    assert (always (reported false) m) as Hm by frame; unfold try_with in H; destruct (m w3) as [[b'|e] w4] eqn:E end.
  - injection H as -> ->. assert (b = false) as ->; [|by apply Hm in E].
    repeat (apply M_bind_inv in E as (? & ? & _ & E)). by injection E as <- _.
  - apply Hm in E. destruct e; try discriminate H; (assert (reported true w4 w') as Hr; [eapply says_more; [|exact H]; frame|]);
      (assert (b = true) as ->; [repeat (apply M_bind_inv in H as (? & ? & _ & H)); by injection H|]);
      exact (reported_trans false true _ _ _ E Hr).
Qed.

Lemma copy_files_report src_dir dest_dir ctx dir names err (w : W) b w' :
  copy_files src_dir dest_dir ctx dir err names w = (Ok b, w') → ∃ b1, reported b1 w w' ∧ b = err || b1.
Proof.
  revert err w. induction names as [|x names IH]; intros err w H.
  { injection H as <- <-. exists false. by rewrite orb_false_r. }
  unfold copy_files in H. cbn [for_acc] in H. apply M_bind_inv in H as (err1 & w1 & E & H).
  apply IH in H as (b2 & H2 & ->). destruct (endswith x ".include").
  - injection E as <- <-. by exists b2.
  - apply M_bind_inv in E as (b1 & w2 & E & E'). injection E' as <- <-. apply copy_file_reports in E.
    exists (b1 || b2). split; [by eapply reported_trans|]. by rewrite orb_assoc.
Qed.

Lemma copy_walk_reports src_dir dest_dir ctx fuel err stack (w : W) b w' :
  copy_walk src_dir dest_dir ctx fuel err stack w = (Ok (Some b), w') → ∃ b1, reported b1 w w' ∧ b = err || b1.
Proof.
  revert err stack w. induction fuel as [|fuel IH]; intros err [|top stack] w H; cbn [copy_walk] in H; try done;
    try (injection H as <- <-; exists false; by rewrite orb_false_r).
  apply M_bind_inv in H as ([dirs files] & w1 & E & H). unfold list_dir, gets in E. injection E as _ <-.
  apply M_bind_inv in H as (err1 & w2 & (b1 & H1 & ->)%copy_files_report & H).
  apply IH in H as (b2 & H2 & ->). exists (b1 || b2). split; [by eapply reported_trans|]. by rewrite orb_assoc.
Qed.

Context {JS : JinjaSpec}.
Local Abbreviation exceptions := (raises (λ e, is_Exception e = true)).

Lemma copy_file_raises src_dir dest_dir ctx src : exceptions (copy_file (PS:=PS) src_dir dest_dir ctx src).
Proof.
  assert (∀ p, exceptions (mkdir_p (PS:=PS) p)) as Hmk.
  { intros p w e w' H. unfold mkdir_p in H. apply change_fs_inv in H as (_ & _ & _ & _ & H & _).
    by eapply OSError_Exception, mkdir_go_raise. }
  assert (∀ p c, exceptions (write_text (PS:=PS) p c)) as Hwr.
  { intros p c w e w' H. unfold write_text in H. apply change_fs_inv in H as (_ & _ & _ & _ & H & _).
    by eapply OSError_Exception, write_file_raise. }
  assert (∀ p, exceptions (read_text (PS:=PS) p)) as Hrd.
  { intros p w e w' [H _]%read_text_inv. by eapply OSError_Exception, read_file_raise. }
  assert (∀ d t, exceptions (render_now (PS:=PS) d t ctx)) as Hre.
  { intros d t w e w' H. unfold render_now in H. injection H as H _. by eapply render_raises. }
  unfold copy_file. apply raises_bind; [apply raises_lift; intros e; by case_match; intros [= <-]|intros rel]. cbn zeta.
  apply raises_bind; [apply Hmk|intros _]. apply raises_bind; [apply Hrd|intros content].
  apply (raises_try _ (λ e, is_Exception e = true)).
  - apply raises_bind; [apply raises_lift; intros; by eapply from_string_raises|intros t]. exc.
  - done.
  - intros e k _ Hk. destruct e; try discriminate Hk; injection Hk as <-; exc.
Qed.

Lemma copy_walk_raises src_dir dest_dir ctx fuel err stack : exceptions (copy_walk (PS:=PS) src_dir dest_dir ctx fuel err stack).
Proof.
  revert err stack. induction fuel as [|fuel IH]; intros err [|top stack]; cbn [copy_walk]; try apply raises_ret.
  apply raises_bind; [apply raises_gets|intros [dirs files]]. apply raises_bind; [|intros; apply IH].
  apply raises_for_acc. intros b x. pose proof (copy_file_raises src_dir dest_dir ctx). exc.
Qed.

Lemma copy_walk_grown src_dir dest_dir ctx fuel err stack : always grown (copy_walk (PS:=PS) src_dir dest_dir ctx fuel err stack).
Proof.
  assert (∀ src, always grown (copy_file (PS:=PS) src_dir dest_dir ctx src)) as Hf.
  { intros src. unfold copy_file. frame. apply always_try; [apply _|frame|].
    intros e k Hk. destruct e; try discriminate Hk; injection Hk as <-; frame. }
  revert err stack. induction fuel as [|fuel IH]; intros err [|top stack]; cbn [copy_walk]; frame.
  - intros w r w' [= _ <-]. reflexivity.
  - unfold copy_files. frame.
Qed.

Lemma add_args_outcome args ctx (w : W) r w' : for_acc add_arg ctx args w = (r, w') →
  match r with Ok _ => w' = w | Raise e => e = SystemExit 1 ∧ reported true w w' end.
Proof.
  revert ctx. induction args as [|a args IH]; intros ctx H; cbn [for_acc] in H; [by injection H as <- <-|].
  destruct (str_mem "=" a) eqn:Ea.
  - rewrite (M_bind_ok _ _ _ _ _ (add_arg_ok _ _ _ Ea)) in H. by eapply IH.
  - erewrite M_bind_raise in H by (unfold add_arg; rewrite Ea; reflexivity). injection H as <- <-.
    split; [done|]. apply (reported_emit (Stderr _)).
Qed.

(** What the script says and how it ends. *)
Definition boot_outcome (template : string) (w : W) (r : result (option ())) (w' : W) : Prop :=
  match r with
  | Ok (Some _) =>
      stderr_of w' = stderr_of w ∧
      last (w_trace w') = Some (Stdout (("Project bootstrapped with '" +:+ template +:+ "' template.") +:+ nl))
  | Ok None => True
  | Raise e => e = SystemExit 1 ∧ ∃ new, new ≠ [] ∧ stderr_of w' = stderr_of w ++ new
  end.

Lemma boot_fails template (w w' : W) : reported true w w' → boot_outcome template w (Raise (SystemExit 1)) w'.
Proof. intros (new & H & Hn). split; [done|]. exists new. split; [by apply Hn|done]. Qed.

(** From a template directory that was found on: the result tells what the walk
    did. *)
Lemma boot_main_copies fuel script_dir args (w : W) ctx dir1 dir r w' :
  for_acc add_arg [] (bo_args args) w = (Ok ctx, w) →
  resolve (w_fs w) (w_cwd w) (template_path script_dir args) = Ok dir1 → resolve_strict (w_fs w) (w_cwd w) dir1 = Ok dir →
  boot_main fuel script_dir args w = (r, w') →
  ∃ rc w1, copy_and_template fuel dir (bo_output_dir args) ctx w = (rc, w1) ∧ w_fs w' = w_fs w1 ∧
    boot_outcome (bo_template args) w r w' ∧
    match rc with
    | Ok (Some false) => r = Ok (Some tt)
    | Ok None => r = Ok None
    | _ => r = Raise (SystemExit 1)
    end.
Proof.
  intros Ea E1 E2. unfold boot_main. rewrite (M_bind_ok _ _ _ _ _ Ea).
  rewrite (M_bind_ok (resolve_m _) _ w dir1 w) by (unfold resolve_m; by rewrite E1).
  rewrite (M_bind_ok (try_with _ _) _ w dir w) by (unfold try_with, resolve_strict_m; by rewrite E2).
  unfold copy_and_template. destruct (copy_walk dir (bo_output_dir args) ctx fuel false [dir] w) as [rc w2] eqn:E.
  intros H. exists rc, w2. split; [done|]. destruct rc as [[b|]|e].
  - apply copy_walk_reports in E as Hr. destruct Hr as (b1 & Hr & ->). cbn in E |- *.
    unfold mbind at 1, M_bind at 1, try_with, mbind at 1, M_bind at 1 in H. rewrite E in H. destruct b1; cbn in H |- *.
    + injection H as <- <-. split; [done|]. split; [|done]. apply boot_fails.
      exact (reported_trans true true _ _ _ Hr (reported_emit (Stderr _) w2)).
    + injection H as <- <-. split; [done|]. split; [|done]. destruct Hr as (new & Hr & Hn). destruct new; [|naive_solver].
      cbn. split; [|by rewrite last_snoc]. unfold stderr_of. cbn. rewrite omap_app, app_nil_r. rewrite app_nil_r in Hr. exact Hr.
  - unfold mbind at 1, M_bind at 1, try_with, mbind at 1, M_bind at 1 in H. rewrite E in H. cbn in H. by injection H as <- <-.
  - apply copy_walk_raises in E as He. apply copy_walk_grown in E as Hb. destruct Hb as [b Hb].
    unfold mbind at 1, M_bind at 1, try_with, mbind at 1, M_bind at 1 in H. rewrite E, He in H. cbn in H.
    injection H as <- <-. split; [done|]. split; [|done]. apply boot_fails. rewrite <- (orb_true_r b).
    exact (reported_trans b true _ _ _ Hb (reported_emit (Stderr _) w2)).
Qed.

(** A template that is not there is reported, and the script exits with code 1; but
    a path through a file or into a loop of links is an exception nobody catches.
    In each case no file is touched. *)
Theorem template_lookup fuel script_dir args (w : W) :
  Forall (λ a, str_mem "=" a = true) (bo_args args) →
  match resolve (w_fs w) (w_cwd w) (template_path script_dir args) with
  | Raise e => boot_main fuel script_dir args w = (Raise e, w)
  | Ok dir =>
      match resolve_strict (w_fs w) (w_cwd w) dir with
      | Raise (FileNotFoundError _) =>
          boot_main fuel script_dir args w
          = (Raise (SystemExit 1),
             emit_event (Stderr (("Template '" +:+ bo_template args +:+ "' not found at '" +:+ str_path dir +:+ "'") +:+ nl)) w)
      | Raise e => boot_main fuel script_dir args w = (Raise e, w)
      | Ok _ => True
      end
  end.
Proof.
  intros Ha. pose proof (add_args_ok _ [] w Ha) as Ea. unfold boot_main. rewrite (M_bind_ok _ _ _ _ _ Ea).
  destruct (resolve _ _ _) as [dir|e] eqn:E1; [|by erewrite M_bind_raise by (unfold resolve_m; by rewrite E1)].
  rewrite (M_bind_ok (resolve_m _) _ w dir w) by (unfold resolve_m; by rewrite E1).
  destruct (resolve_strict _ _ dir) as [d|e] eqn:E2; [done|].
  assert (∀ h (k : Path → M W (option ())), (try_with (resolve_strict_m dir) h ≫= k) w = (match h e with Some m => m | None => raise e end ≫= k) w) as Hk.
  { intros hd k. unfold mbind, M_bind, try_with, resolve_strict_m. rewrite E2. by destruct (hd e). }
  rewrite Hk. by destruct e.
Qed.
End outcome.

(** An engine that replaces nothing and refuses the text [undefined]. *)
#[local] Instance plain_jinja : Jinja := {|
  template := string;
  from_string c := Ok c;
  render _ _ t _ := if bool_decide (t = "undefined") then Raise (UndefinedError "x is undefined") else Ok t
|}.

Definition demo_template_world : World () :=
  mkWorld [] (<[["t"] := NDir]> (<[["t"; "a.txt"] := NFile "undefined"]>
             (<[["out"] := NDir]> (<[["out"; "a.txt"] := NFile "old"]> ∅)))) [] [] tt.

(** The old content of the destination is lost. *)
Lemma copy_file_outcomes_witness :
  w_fs (copy_file (Path_of "/t") (Path_of "/out") [] (Path_of "/t/a.txt") demo_template_world).2 !! ["out"; "a.txt"]
  = Some (NFile "").
Proof.
  pose proof (copy_file_outcomes (Path_of "/t") (Path_of "/out") [] (Path_of "/t/a.txt") (mkPath false ["a.txt"]) "undefined"
    demo_template_world demo_template_world ["out"; "a.txt"]) as H.
  destruct (copy_file _ _ _ _ demo_template_world) as [r w'].
  cbn [snd]. destruct H as [_ ->]; [reflexivity|vm_compute; reflexivity|vm_compute; reflexivity|vm_compute; reflexivity|].
  vm_compute. reflexivity.
Defined.

#[local] Instance plain_jinja_spec : JinjaSpec (JJ:=plain_jinja).
Proof.
  split; [done|]. intros f dir t ctx e. unfold render, plain_jinja. case_bool_decide; [|done]. by intros [= <-].
Qed.

(** A template named below a file. *)
Lemma template_lookup_witness :
  boot_main (SD:=table_order) 5 (Path_of "/x") (mkBootArgs "t/a.txt/b" (Some (Path_of "/")) (Path_of "/out") ["a=b"]) demo_template_world
  = (Raise (OSError "[Errno 20] Not a directory: '/t/a.txt/b'"), demo_template_world).
Proof.
  pose proof (template_lookup (SD:=table_order) 5 (Path_of "/x")
    (mkBootArgs "t/a.txt/b" (Some (Path_of "/")) (Path_of "/out") ["a=b"]) demo_template_world) as H.
  vm_compute in H |- *. apply H. by repeat constructor.
Defined.
