(* ===== verification/BootstrapTree.v ===== *)
(** * Copying a whole template (bootstrap.py)

    On a template without symbolic links, outside the destination, the walk ends,
    leaves the template as it was and, when no error was reported, every file has
    its rendering in the destination. *)

From stdpp Require Import base gmap sets list strings.
From Stdlib Require Import Ascii ZArith Lia.
From S2P Require Import Prelude PyStr Fs World FsOps Mounts MountsProofs Bootstrap.

(** ** Paths without links *)

(** Every entry of a file system is in a directory. *)
Definition wf (f : fs) : Prop :=
  ∀ k x nd, f !! (k ++ [x]) = Some nd → node_at f k = Some NDir ∧ x ≠ "..".

(** No link on the way to [l]. *)
Definition clear (f : fs) (l : list string) : Prop := ∀ k, k `prefix_of` l → link_of (f !! k) = None.

Lemma clear_prefix f l k : clear f l → k `prefix_of` l → clear f k.
Proof. intros H Hk k' Hk'. apply H. by etrans. Qed.

Lemma node_at_snoc (f : fs) k x : node_at f (k ++ [x]) = f !! (k ++ [x]).
Proof. by destruct k. Qed.

(** What is above an entry is a directory. *)
Lemma wf_above f k l nd : wf f → l ≠ [] → f !! (k ++ l) = Some nd → node_at f k = Some NDir.
Proof.
  intros Hw. revert nd. induction l as [|x l IH] using rev_ind; intros nd Hl E; [done|].
  rewrite app_assoc in E. destruct (Hw _ _ _ E) as [Hd _]. destruct l as [|y l]; [by rewrite app_nil_r in Hd|].
  apply (IH NDir); [done|]. revert Hd. unfold node_at. by destruct (k ++ y :: l) eqn:Ek; [by destruct k|].
Qed.

Lemma wf_names f k nd : wf f → f !! k = Some nd → ".." ∉ k.
Proof.
  intros Hw. revert nd. induction k as [|x k IH] using rev_ind; intros nd E; [by intros ?%elem_of_nil|].
  destruct (Hw _ _ _ E) as [Hd Hx]. intros [Hin|Hin]%elem_of_app; [|by apply list_elem_of_singleton in Hin].
  destruct k as [|y k]; [by apply elem_of_nil in Hin|]. by eapply IH.
Qed.

Section walk.
Context (f : fs).

Lemma walk_clear links cur todo loc : ".." ∉ todo → clear f (cur ++ todo) →
  walk f true links cur todo = Some loc → loc = cur ++ todo.
Proof.
  revert cur. induction todo as [|x todo IH]; intros cur Hd Hc H.
  { rewrite walk_nil in H. injection H as <-. by rewrite app_nil_r. }
  apply not_elem_of_cons in Hd as [Hx Hd]. rewrite walk_cons, bool_decide_eq_false_2 in H by done.
  assert (link_of (f !! (cur ++ [x])) = None) as Hl by (apply Hc; exists todo; by rewrite <- app_assoc).
  destruct (f !! (cur ++ [x])) as [[c| |t]|]; [| |done|done].
  - destruct todo; [|done]. by injection H as <-.
  - apply IH in H; [|done|by rewrite <- app_assoc]. by rewrite <- app_assoc in H.
Qed.

Lemma walk_entry links cur todo nd : wf f → clear f (cur ++ todo) → todo ≠ [] → f !! (cur ++ todo) = Some nd →
  walk f true links cur todo = Some (cur ++ todo).
Proof.
  intros Hw. revert cur. induction todo as [|x todo IH]; intros cur Hc Hne E; [done|].
  assert (x ≠ "..") as Hx.
  { intros ->. apply (wf_names _ _ _ Hw E), elem_of_app. right. left. }
  rewrite walk_cons, bool_decide_eq_false_2 by done.
  replace (cur ++ x :: todo) with ((cur ++ [x]) ++ todo) in * by (by rewrite <- app_assoc).
  destruct todo as [|y todo].
  - rewrite app_nil_r in *. rewrite E. pose proof (Hc _ (reflexivity _)) as Hl. rewrite E in Hl.
    destruct nd; [done|by rewrite walk_nil|done].
  - assert (node_at f (cur ++ [x]) = Some NDir) as Hd by (by apply (wf_above f _ (y :: todo) nd)).
    rewrite node_at_snoc in Hd. rewrite Hd. by apply IH.
Qed.

#[local] Transparent realpath_go.

Lemma realpath_go_clear depth seen cur todo : ".." ∉ todo → clear f (cur ++ todo) →
  realpath_go f false depth seen cur todo = Resolved (cur ++ todo).
Proof.
  revert cur. induction todo as [|x todo IH]; intros cur Hd Hc.
  { rewrite app_nil_r. by destruct depth. }
  apply not_elem_of_cons in Hd as [Hx Hd].
  assert (link_of (f !! (cur ++ [x])) = None) as Hl by (apply Hc; exists todo; by rewrite <- app_assoc).
  replace (cur ++ x :: todo) with ((cur ++ [x]) ++ todo) in * by (by rewrite <- app_assoc).
  specialize (IH (cur ++ [x]) Hd Hc).
  destruct depth; cbn; rewrite bool_decide_eq_false_2 by done; destruct (f !! (cur ++ [x])) as [[| |]|]; done.
Qed.

(** A path that is there and has no links is its own real path, also strictly. *)
Lemma realpath_go_entry depth seen cur todo nd : wf f → clear f (cur ++ todo) → f !! (cur ++ todo) = Some nd →
  realpath_go f true depth seen cur todo = Resolved (cur ++ todo).
Proof.
  intros Hw. revert cur. induction todo as [|x todo IH]; intros cur Hc E.
  { rewrite app_nil_r. by destruct depth. }
  assert (x ≠ "..") as Hx by (intros ->; apply (wf_names _ _ _ Hw E), elem_of_app; right; left).
  assert (link_of (f !! (cur ++ [x])) = None) as Hl by (apply Hc; exists todo; by rewrite <- app_assoc).
  replace (cur ++ x :: todo) with ((cur ++ [x]) ++ todo) in * by (by rewrite <- app_assoc).
  assert (is_Some (f !! (cur ++ [x]))) as [nd' En].
  { destruct todo as [|y todo]; [rewrite app_nil_r in E; eauto|].
    apply (wf_above f _ (y :: todo)) in E; [|done..]. rewrite node_at_snoc in E. eauto. }
  specialize (IH (cur ++ [x]) Hc E). rewrite En in Hl.
  destruct depth; cbn; rewrite bool_decide_eq_false_2, En by done; by destruct nd'.
Qed.
End walk.

Section paths.
Context (cwd : list string).

Lemma stat_clear f l loc : ".." ∉ l → clear f l → stat f cwd (mkPath true l) = Some loc → loc = l.
Proof. intros. by apply (walk_clear f max_symlinks []). Qed.

Lemma stat_entry f l nd : wf f → clear f l → l ≠ [] → f !! l = Some nd → stat f cwd (mkPath true l) = Some l.
Proof. intros. by apply (walk_entry f max_symlinks [] l nd). Qed.

Lemma realpath_clear f l : ".." ∉ l → clear f l → realpath f cwd (mkPath true l) = mkPath true l.
Proof. intros. unfold realpath, realpath_of. cbn. by rewrite (realpath_go_clear f _ [] []). Qed.

Lemma resolve_strict_entry f l nd : wf f → clear f l → f !! l = Some nd →
  resolve_strict f cwd (mkPath true l) = Ok (mkPath true l).
Proof. intros. unfold resolve_strict, realpath_of. cbn. by rewrite (realpath_go_entry f _ [] [] l nd). Qed.

Lemma read_entry_file f l c : wf f → clear f l → l ≠ [] → f !! l = Some (NFile c) → read_file f cwd (mkPath true l) = Ok c.
Proof. intros Hw Hc Hl E. unfold read_file. rewrite (stat_entry f l (NFile c)) by done. unfold node_at. destruct l; [done|by rewrite E]. Qed.

Lemma is_dir_entry f l : wf f → clear f l → l ≠ [] → ".." ∉ l → path_is_dir f cwd (mkPath true l) = true ↔ f !! l = Some NDir.
Proof.
  intros Hw Hc Hl Hd. unfold path_is_dir. rewrite bool_decide_eq_true. split.
  - intros (loc & ->%stat_clear & E)%bind_Some; [|done..]. by destruct l.
  - intros E. rewrite (stat_entry f l NDir) by done. cbn. by destruct l.
Qed.

(** Directories are added on the way to [q], and nothing else changes. *)
Definition adds (q : list string) (f f' : fs) : Prop :=
  wf f' ∧ ∀ k, f' !! k = f !! k ∨ (f !! k = None ∧ f' !! k = Some NDir ∧ k `prefix_of` q).

Lemma adds_refl q f : wf f → adds q f f.
Proof. intros. split; [done|]. by left. Qed.

Lemma adds_trans q1 q2 f1 f2 f3 : q1 `prefix_of` q2 → adds q1 f1 f2 → adds q2 f2 f3 → adds q2 f1 f3.
Proof.
  intros Hq [_ H1] [Hw H2]. split; [done|]. intros k. destruct (H2 k) as [->|(E2 & E3 & ?)].
  - destruct (H1 k) as [?|(? & ? & ?)]; [by left|right]. split_and!; [done..|]. by etrans.
  - right. destruct (H1 k) as [E|(E & E' & ?)]; [|congruence]. split_and!; [congruence|done..].
Qed.

Lemma adds_clear q f f' l : adds q f f' → clear f l → clear f' l.
Proof. intros [_ H] Hc k Hk. destruct (H k) as [->|(_ & -> & _)]; [by apply Hc|done]. Qed.

(** Inserting in a directory keeps the tree a tree. *)
Lemma wf_insert f k x nd : wf f → node_at f k = Some NDir → x ≠ ".." →
  nd = NDir ∨ (∀ y, f !! ((k ++ [x]) ++ [y]) = None) → wf (<[k ++ [x] := nd]> f).
Proof.
  intros Hw Hk Hx Hnd k' y nd' E. destruct (decide (k ++ [x] = k' ++ [y])) as [Heq|Hne].
  - apply app_inj_tail in Heq as [<- <-]. split; [|done]. unfold node_at in *. destruct k; [done|].
    rewrite lookup_insert_ne; [done|]. intros Hl%(f_equal length). rewrite length_app in Hl. cbn in Hl. lia.
  - rewrite lookup_insert_ne in E by done. destruct (Hw _ _ _ E) as [Hd Hy]. split; [|done].
    destruct (decide (k ++ [x] = k')) as [<-|Hk']; [|unfold node_at in *; destruct k'; [done|by rewrite lookup_insert_ne]].
    rewrite node_at_snoc, lookup_insert_eq. destruct Hnd as [->|Hn]; [done|]. by rewrite Hn in E.
Qed.

Lemma os_mkdir_adds f q f' : wf f → ".." ∉ q → clear f q → os_mkdir f cwd (mkPath true q) = Ok f' → adds q f f'.
Proof.
  intros Hw Hd Hc. unfold os_mkdir, parent. cbn [p_parts p_root].
  destruct q as [|x q _] using rev_ind; [done|]. rewrite last_snoc, length_app, Nat.add_sub, take_app_length.
  apply not_elem_of_app in Hd as [Hd Hx]. assert (clear f q) as Hcq by (eapply clear_prefix; [done|by exists [x]]).
  destruct (stat f cwd (mkPath true q)) as [loc|] eqn:E; [|done]. apply stat_clear in E as ->; [|done..].
  destruct (node_at f q) as [[| |]|] eqn:En; try done. rewrite bool_decide_eq_false_2 by set_solver. cbn [orb].
  case_bool_decide as Hex; [done|]. intros [= <-]. apply eq_None_not_Some in Hex. split.
  - apply wf_insert; [done|done|set_solver|by left].
  - intros k. destruct (decide (k = q ++ [x])) as [->|]; [right; by rewrite lookup_insert_eq|left; by rewrite lookup_insert_ne].
Qed.

Lemma mkdir_go_adds n f q f' : wf f → ".." ∉ q → clear f q → mkdir_go n f cwd (mkPath true q) = Ok f' → adds q f f'.
Proof.
  revert f q f'. induction n as [|n IH]; intros f q f' Hw Hd Hc; cbn [mkdir_go];
    destruct (os_mkdir f cwd (mkPath true q)) as [f1|e] eqn:E; try (intros [= <-]; by eapply os_mkdir_adds).
  - destruct e; try done; destruct (path_is_dir _ _ _); try done; intros [= <-]; by apply adds_refl.
  - destruct e; try (destruct (path_is_dir _ _ _); [|done]; intros [= <-]; by apply adds_refl).
    unfold parent. cbn [p_parts p_root]. set (q1 := take _ q).
    assert (q1 `prefix_of` q) as Hq by apply prefix_take. clearbody q1.
    destruct (mkdir_go n f cwd (mkPath true q1)) as [f1|e] eqn:E1; [|done]. cbn [mbind result_bind].
    apply IH in E1; [|done|intros Hin; apply Hd; destruct Hq as [k ->]; set_solver|by eapply clear_prefix].
    pose proof (adds_clear _ _ _ _ E1 Hc) as Hc1.
    destruct (os_mkdir f1 cwd (mkPath true q)) as [f2|e] eqn:E2.
    + intros [= <-]. eapply adds_trans; [exact Hq|exact E1|]. eapply os_mkdir_adds; [by destruct E1|done..].
    + destruct (path_is_dir _ _ _); [|done]. intros [= <-]. eapply adds_trans; [exact Hq|exact E1|]. apply adds_refl. by destruct E1.
Qed.

Lemma write_clear f q c f' : wf f → ".." ∉ q → clear f q → write_file f cwd (mkPath true q) c = Ok f' →
  f' = <[q := NFile c]> f ∧ wf f' ∧ (f !! q = None ∨ ∃ c0, f !! q = Some (NFile c0)).
Proof.
  intros Hw Hd Hc. unfold write_file, write_loc. rewrite realpath_clear by done. cbn [p_parts].
  destruct q as [|x q _] using rev_ind; [done|]. rewrite node_at_snoc, length_app, Nat.add_sub, take_app_length.
  apply not_elem_of_app in Hd as [Hd Hx].
  assert (∀ f1, (∃ n, n = f !! (q ++ [x]) ∧ (n = None ∨ ∃ c0, n = Some (NFile c0))) → node_at f q = Some NDir →
    Ok (<[q ++ [x] := NFile c]> f) = Ok f1 →
    f1 = <[q ++ [x] := NFile c]> f ∧ wf f1 ∧ (f !! (q ++ [x]) = None ∨ ∃ c0, f !! (q ++ [x]) = Some (NFile c0))) as Hdone.
  { intros f1 (n & Hn & Hcase) Hq [= <-]. split_and!; [done| |by subst n]. apply wf_insert; [done|done|set_solver|right].
    intros y. destruct (f !! ((q ++ [x]) ++ [y])) as [nd|] eqn:E; [|done].
    destruct (Hw _ _ _ E) as [Hn' _]. rewrite node_at_snoc, <- Hn in Hn'. destruct Hcase as [->|[c0 ->]]; done. }
  destruct (f !! (q ++ [x])) as [[c0| |]|] eqn:E; cbn [mbind result_bind]; try done.
  - apply Hdone; [by eauto|]. by destruct (Hw _ _ _ E).
  - destruct (node_at f q) as [[| |]|] eqn:Eq; try done. cbn. apply Hdone; [by eauto|done].
Qed.
End paths.

(** ** Counting entries *)

(** The entries at or below a place. *)
Definition weight (f : fs) (l : list string) : nat := length (filter (λ k, l `prefix_of` k) (map_to_list f).*1).

Lemma prefix_snoc_inj {A} (l : list A) x y k : (l ++ [x]) `prefix_of` k → (l ++ [y]) `prefix_of` k → x = y.
Proof.
  intros [k1 ->] [k2 E]. rewrite <- !app_assoc in E. apply app_inv_head in E. by injection E.
Qed.

Lemma sum_filter {A K} (P : A → K → Prop) `{∀ x k, Decision (P x k)} (xs : list A) k ks :
  sum_list_with (λ x, length (filter (P x) (k :: ks))) xs
  = length (filter (λ x, P x k) xs) + sum_list_with (λ x, length (filter (P x) ks)) xs.
Proof.
  induction xs as [|x xs IH]; [done|]. cbn [sum_list_with]. rewrite IH, !filter_cons.
  destruct (decide (P x k)); cbn; lia.
Qed.

(** The directory itself and what is below its subdirectories are different
    entries. *)
Lemma weight_children f l xs nd : f !! l = Some nd → NoDup xs →
  S (sum_list_with (λ x, weight f (l ++ [x])) xs) ≤ weight f l.
Proof.
  intros E Hnd. unfold weight. set (ks := (map_to_list f).*1).
  assert (l ∈ ks) as Hin.
  { apply list_elem_of_fmap. exists (l, nd). split; [done|]. by apply elem_of_map_to_list. }
  assert (∀ k, length (filter (λ x, (l ++ [x]) `prefix_of` k) xs) ≤ 1) as Hone.
  { intros k. clear -Hnd. induction Hnd as [|x xs Hx _ IH]; [cbn; lia|]. rewrite filter_cons. case_decide as Hk; [|done].
    rewrite filter_none; [cbn; lia|]. intros y Hy Hyk. apply Hx. by rewrite (prefix_snoc_inj _ _ _ _ Hk Hyk). }
  enough (∀ ks, sum_list_with (λ x, length (filter (λ k, (l ++ [x]) `prefix_of` k) ks)) xs + length (filter (λ k, k = l) ks)
            ≤ length (filter (λ k, l `prefix_of` k) ks)) as Hsum.
  { specialize (Hsum ks). assert (length (filter (λ k, k = l) ks) ≠ 0); [|lia].
    intros H0%length_zero_iff_nil. by apply (filter_nil_not_elem_of _ _ l) in H0. }
  clear E Hin ks. induction ks as [|k ks IH].
  { rewrite filter_nil. cbn. clear. induction xs as [|x xs IH]; cbn; [lia|done]. }
  rewrite (sum_filter (λ x k, (l ++ [x]) `prefix_of` k)), !filter_cons. specialize (Hone k).
  destruct (decide (k = l)) as [->|Hk].
  - rewrite decide_True by done. rewrite (filter_none _ xs); [cbn; lia|].
    intros x _ Hp%prefix_length. rewrite length_app in Hp. cbn in Hp. lia.
  - destruct (decide (l `prefix_of` k)) as [Hl|Hl]; [cbn; lia|]. rewrite (filter_none _ xs); [cbn; lia|].
    intros x _ Hp. apply Hl. etrans; [by exists [x]|done].
Qed.

(** ** The copy *)

(** No link above, at or below [l]. *)
Definition clear_tree (f : fs) (l : list string) : Prop :=
  ∀ k, k `prefix_of` l ∨ l `prefix_of` k → link_of (f !! k) = None.

Lemma clear_below f l r : clear_tree f l → clear f (l ++ r).
Proof. intros H k Hk. apply H. by eapply prefix_weak_total, prefix_app_r. Qed.

Section tree.
Context {PS : Type} {SD : ScanDir} {JJ : Jinja}.
Local Abbreviation W := (World PS).
Context (f0 : fs) (cwd s d : list string) (ctx : list (string * string)).
Context (Hwf : wf f0) (Hs : ".." ∉ s) (Hd : ".." ∉ d) (Hsd : ¬ s `prefix_of` d) (Hds : ¬ d `prefix_of` s).

(** The template is as it was. *)
Definition same_template (f : fs) : Prop := ∀ k, s `prefix_of` k → f !! k = f0 !! k.

(** What holds of the files all along. *)
Definition tree_inv (f : fs) : Prop := wf f ∧ same_template f ∧ clear_tree f s ∧ clear_tree f d.

(** The file [rel] of the template has its rendering in the destination. *)
Definition rendered (f : fs) (rel : list string) : Prop :=
  ∃ content t text h, f0 !! (s ++ rel) = Some (NFile content) ∧ from_string content = Ok t ∧
    same_template h ∧ render h (mkPath true s) t ctx = Ok text ∧ f !! (d ++ rel) = Some (NFile (text +:+ nl)).

Lemma outside k q : k `prefix_of` q → d `prefix_of` q → ¬ s `prefix_of` k.
Proof.
  intros Hk Hq Hsk. destruct (prefix_weak_total s d q) as [?|?]; [by etrans|done|by apply Hsd|by apply Hds].
Qed.

Lemma inv_adds q f f' : d `prefix_of` q → tree_inv f → adds q f f' → tree_inv f'.
Proof.
  intros Hq (_ & Hsame & Hcs & Hcd) [Hw H]. split_and!; [done| | |].
  - intros k Hk. destruct (H k) as [->|(_ & _ & Hkq)]; [by apply Hsame|]. by destruct (outside k q).
  - intros k Hk. destruct (H k) as [->|(_ & -> & _)]; [by apply Hcs|done].
  - intros k Hk. destruct (H k) as [->|(_ & -> & _)]; [by apply Hcd|done].
Qed.

Lemma inv_write q f c : d `prefix_of` q → tree_inv f → wf (<[q := NFile c]> f) → tree_inv (<[q := NFile c]> f).
Proof.
  intros Hq (_ & Hsame & Hcs & Hcd) Hw. split_and!; [done| | |]; intros k Hk; destruct (decide (k = q)) as [->|Hne];
    rewrite ?lookup_insert_eq, ?lookup_insert_ne by done; auto. by destruct (outside q q).
Qed.

(** A step that may touch the destination of [rel] and make directories. *)
Definition tree_step (rel : list string) (w w' : W) : Prop :=
  w_cwd w = cwd → tree_inv (w_fs w) →
  w_cwd w' = cwd ∧ tree_inv (w_fs w') ∧
  ∀ rel', rel' ≠ rel → rendered (w_fs w) rel' → rendered (w_fs w') rel'.

#[local] Instance tree_step_preorder rel : PreOrder (tree_step rel).
Proof.
  split; [by intros w ? ?|]. intros x y z H1 H2 Hc Hi. destruct (H1 Hc Hi) as (Hc1 & Hi1 & ?).
  destruct (H2 Hc1 Hi1) as (? & ? & ?). split_and!; eauto.
Qed.

Lemma step_emit rel e : always (tree_step rel) (emit (PS:=PS) e).
Proof. apply always_emit. by intros w ? ?. Qed.

Lemma step_read rel p : always (tree_step rel) (read_text (PS:=PS) p).
Proof. intros w r w' [_ ->]%read_text_inv. reflexivity. Qed.

Lemma step_render rel dir t : always (tree_step rel) (render_now (PS:=PS) dir t ctx).
Proof. intros w r w' [= _ <-]. reflexivity. Qed.

Lemma step_mkdir rel q : d `prefix_of` q → ".." ∉ q → always (tree_step rel) (mkdir_p (PS:=PS) (mkPath true q)).
Proof.
  intros Hq Hn w r w' H Hc Hi. unfold mkdir_p in H. apply change_fs_inv in H as (_ & Hc' & _ & _ & H).
  destruct r as [[]|e]; [|by destruct H as [_ ->]]. rewrite Hc', Hc in *. pose proof Hi as (Hw & _ & _ & Hcd).
  assert (clear (w_fs w) q) as Hcl by (destruct Hq as [k ->]; by apply clear_below).
  apply mkdir_go_adds in H as Ha; [|done..]. split_and!; [done|by eapply inv_adds|].
  intros rel' _ (c & t & text & h & ? & ? & ? & ? & E). exists c, t, text, h. split_and!; try done.
  destruct Ha as [_ Ha]. destruct (Ha (d ++ rel')) as [->|(E' & _)]; [done|]. congruence.
Qed.

Lemma step_write rel c : ".." ∉ rel → always (tree_step rel) (write_text (PS:=PS) (mkPath true (d ++ rel)) c).
Proof.
  intros Hn w r w' H Hc Hi. unfold write_text in H. apply change_fs_inv in H as (_ & Hc' & _ & _ & H).
  destruct r as [[]|e]; [|by destruct H as [_ ->]]. rewrite Hc', Hc in *. pose proof Hi as (Hw & _ & _ & Hcd).
  apply write_clear in H as (-> & Hw' & _); [|done|by rewrite not_elem_of_app|by apply clear_below].
  split_and!; [done|apply inv_write; [by eexists|done..]|].
  intros rel' Hne (c0 & t & text & h & ? & ? & ? & ? & E). exists c0, t, text, h. split_and!; try done.
  rewrite lookup_insert_ne; [done|]. intros ?%app_inv_head. by subst.
Qed.

#[local] Hint Resolve step_emit step_read step_render : frame.

(** The part of [copy_file] after the paths were computed. *)
Lemma copy_file_at rel (w : W) : rel ≠ [] →
  ∃ r1 x, rel = r1 ++ [x] ∧
  copy_file (mkPath true s) (mkPath true d) ctx (mkPath true (s ++ rel)) w =
  (mkdir_p (mkPath true (d ++ r1)) ;;
   content ← read_text (mkPath true (s ++ rel));
   try_with
     (t ← lift_result (from_string content);
      write_text (mkPath true (d ++ rel)) "" ;;
      text ← render_now (mkPath true s) t ctx;
      write_text (mkPath true (d ++ rel)) (text +:+ nl) ;;
      emit (CopyMode (mkPath true (s ++ rel)) (mkPath true (d ++ rel))) ;;
      mret false)
     (λ e, match e with
           | TemplateSyntaxError lineno message =>
               Some (eprintln ("Error in template: " +:+ str_path (mkPath true (s ++ rel))) ;;
                     eprintln ("  Line " +:+ str_of_Z lineno +:+ ": " +:+ message) ;;
                     for_each eprintln (snippet content lineno) ;; mret true)
           | UndefinedError message =>
               Some (eprintln ("Error in template: " +:+ str_path (mkPath true (s ++ rel))) ;;
                     eprintln ("  " +:+ message) ;; mret true)
           | _ => None
           end)) w.
Proof.
  intros Hne. destruct rel as [|x r1 _] using rev_ind; [done|]. exists r1, x. split; [done|].
  unfold copy_file, relative_to. cbn [p_root p_parts]. rewrite bool_decide_eq_true_2 by done.
  rewrite (proj2 (strip_parts_spec s (s ++ r1 ++ [x]) (r1 ++ [x])) eq_refl). cbn [fmap option_fmap option_map].
  unfold lift_result at 1. erewrite M_bind_ok by reflexivity. cbn zeta. unfold joinpath, parent. cbn [p_root p_parts].
  replace (take (length (d ++ r1 ++ [x]) - 1) (d ++ r1 ++ [x])) with (d ++ r1); [done|].
  rewrite app_assoc, (length_app (d ++ r1)). cbn. by rewrite Nat.add_sub, take_app_length.
Qed.

Lemma copy_file_step rel : rel ≠ [] → ".." ∉ rel →
  always (tree_step rel) (copy_file (PS:=PS) (mkPath true s) (mkPath true d) ctx (mkPath true (s ++ rel))).
Proof.
  intros Hne Hn w r w' H. destruct (copy_file_at rel w Hne) as (r1 & x & Hrel & E). rewrite E in H. clear E.
  assert (".." ∉ d ++ r1) as Hq by (rewrite not_elem_of_app; split; [done|]; intros Hin; apply Hn; subst; set_solver).
  pose proof (step_mkdir rel (d ++ r1) ltac:(by eexists) Hq) as Hmk. pose proof (λ c, step_write rel c Hn) as Hwr.
  match type of H with ?m w = _ => assert (always (tree_step rel) m) as Hm; [|by apply Hm in H] end.
  apply (always_bind (tree_step rel)); [done|intros _]. apply (always_bind (tree_step rel)); [frame|intros content].
  apply always_try; [apply _|frame|].
  intros e k Hk. destruct e; try discriminate Hk; injection Hk as <-; unfold eprintln, eprint; frame.
Qed.

Lemma copy_file_rendered rel content (w : W) w' : rel ≠ [] → w_cwd w = cwd → tree_inv (w_fs w) →
  f0 !! (s ++ rel) = Some (NFile content) →
  copy_file (mkPath true s) (mkPath true d) ctx (mkPath true (s ++ rel)) w = (Ok false, w') → rendered (w_fs w') rel.
Proof.
  intros Hne Hc Hi Hf H. destruct (copy_file_at rel w Hne) as (r1 & x & Hrel & E). rewrite E in H. clear E.
  assert (".." ∉ rel) as Hn by (pose proof (wf_names _ _ _ Hwf Hf) as Hk; rewrite not_elem_of_app in Hk; tauto).
  assert (".." ∉ d ++ r1) as Hq by (rewrite not_elem_of_app; split; [done|]; intros Hin; apply Hn; subst; set_solver).
  apply M_bind_inv in H as ([] & w1 & E1 & H). apply (step_mkdir rel) in E1; [|by eexists|done].
  destruct (E1 Hc Hi) as (Hc1 & Hi1 & _). clear E1. apply M_bind_inv in H as (content' & w2 & E2 & H).
  apply read_text_inv in E2 as [E2 ->]. pose proof Hi1 as (Hw1 & Hsame1 & Hcs1 & _).
  rewrite Hc1, (read_entry_file cwd (w_fs w1) (s ++ rel) content) in E2;
    [|done|by apply clear_below|by destruct s, rel|rewrite Hsame1; [done|by eexists]].
  injection E2 as <-. unfold try_with in H.
  match type of H with match ?m w1 with _ => _ end = _ => destruct (m w1) as [[b|e] w2] eqn:E end.
  2: { destruct e; try discriminate H; repeat (apply M_bind_inv in H as (? & ? & _ & H)); discriminate H. }
  injection H as -> ->. apply M_bind_inv in E as (t & w2 & Et & E). unfold lift_result in Et. injection Et as Et <-.
  apply M_bind_inv in E as ([] & w2 & E2 & E). apply (step_write rel "" Hn) in E2. destruct (E2 Hc1 Hi1) as (Hc2 & Hi2 & _).
  apply M_bind_inv in E as (text & w3 & E3 & E). unfold render_now in E3. injection E3 as E3 <-.
  apply M_bind_inv in E as ([] & w3 & E4 & E). apply M_bind_inv in E as ([] & w4 & E5 & E). injection E as <-.
  unfold emit, modify in E5. injection E5 as <-. pose proof Hi2 as (Hw2 & Hsame2 & _ & Hcd2).
  exists content, t, text, (w_fs w2). split_and!; try done. cbn. unfold write_text in E4.
  apply change_fs_inv in E4 as (_ & _ & _ & _ & E4). rewrite Hc2 in E4.
  apply write_clear in E4 as (-> & _); [by rewrite lookup_insert_eq|done|by rewrite not_elem_of_app|by apply clear_below].
Qed.

(** One file: nothing is lost, and it is rendered unless an error was reported. *)
Lemma copy_file_tree rel content (w : W) r w' : rel ≠ [] → w_cwd w = cwd → tree_inv (w_fs w) →
  f0 !! (s ++ rel) = Some (NFile content) →
  copy_file (mkPath true s) (mkPath true d) ctx (mkPath true (s ++ rel)) w = (r, w') →
  w_cwd w' = cwd ∧ tree_inv (w_fs w') ∧
  (r = Ok false → rendered (w_fs w') rel ∧ ∀ rel', rendered (w_fs w) rel' → rendered (w_fs w') rel').
Proof.
  intros Hne Hc Hi Hf H.
  assert (".." ∉ rel) as Hn by (pose proof (wf_names _ _ _ Hwf Hf) as Hk; rewrite not_elem_of_app in Hk; tauto).
  destruct (copy_file_step rel Hne Hn _ _ _ H Hc Hi) as (? & ? & Hkeep). split_and!; [done..|]. intros ->.
  apply (copy_file_rendered rel content) in H; [|done..]. split; [done|].
  intros rel' Hr. destruct (decide (rel' = rel)) as [->|]; [done|]. by apply Hkeep.
Qed.

(** ** A directory *)

(** What a directory of the template holds. *)
Lemma list_dir_tree r0 (w : W) : w_cwd w = cwd → tree_inv (w_fs w) → f0 !! (s ++ r0) = Some NDir →
  ∃ dirs files, list_dir (mkPath true (s ++ r0)) w = (Ok (dirs, files), w) ∧ NoDup dirs ∧
    (∀ x, x ∈ dirs ↔ f0 !! (s ++ r0 ++ [x]) = Some NDir) ∧
    (∀ x, x ∈ files ↔ ∃ c, f0 !! (s ++ r0 ++ [x]) = Some (NFile c)).
Proof.
  intros Hc (Hw & Hsame & Hcs & _) Hdir.
  assert (∀ x, w_fs w !! (s ++ r0 ++ [x]) = f0 !! (s ++ r0 ++ [x])) as Hx by (intros x; apply Hsame; by eexists).
  assert (s ++ r0 ≠ []) as Hne by (intros E; destruct s; [|done]; apply Hsd, prefix_nil).
  assert (w_fs w !! (s ++ r0) = Some NDir) as Hdw by (rewrite Hsame; [done|by eexists]).
  unfold list_dir, gets. rewrite Hc, (stat_entry cwd _ _ NDir Hw (clear_below _ _ _ Hcs) Hne Hdw).
  cbn zeta. do 2 eexists. split; [reflexivity|].
  assert (∀ x, is_Some (f0 !! (s ++ r0 ++ [x])) → 
    path_is_dir (w_fs w) cwd (joinpath (mkPath true (s ++ r0)) (mkPath false [x])) = true ↔ f0 !! (s ++ r0 ++ [x]) = Some NDir) as Hd'.
  { intros x [nd E]. unfold joinpath. cbn [p_root p_parts]. rewrite <- app_assoc, is_dir_entry, Hx; [done|done|by apply clear_below| |].
    - intros E'. apply (f_equal length) in E'. rewrite !length_app in E'. cbn in E'. lia.
    - exact (wf_names _ _ _ Hwf E). }
  assert (∀ x, x ∈ scandir (w_fs w) (s ++ r0) ↔ is_Some (f0 !! (s ++ r0 ++ [x]))) as Hsc
    by (intros x; by rewrite scandir_spec, <- app_assoc, Hx).
  split; [apply NoDup_filter, scandir_NoDup|]. split; intros x; rewrite list_elem_of_filter, Hsc.
  - split; [intros [H1 H2]; by apply Hd'|]. intros E. rewrite Hd'; eauto.
  - split.
    + intros [H1 H2]. destruct H2 as [nd E]. destruct nd as [c| |t]; [by exists c| |].
      * assert (f0 !! (s ++ r0 ++ [x]) = Some NDir) as E' by done. apply Hd' in E'; [|by eauto]. congruence.
      * pose proof (Hcs (s ++ r0 ++ [x]) ltac:(right; by eexists)) as Hl. by rewrite Hx, E in Hl.
    + intros [c E]. split; [|by eauto]. apply not_true_is_false. rewrite Hd' by eauto. congruence.
Qed.

(** Everything that was rendered still is. *)
Definition kept (w w' : W) : Prop := ∀ rel, rendered (w_fs w) rel → rendered (w_fs w') rel.

Lemma copy_files_tree r0 err names (w : W) r w' : w_cwd w = cwd → tree_inv (w_fs w) →
  (∀ x, x ∈ names → ∃ c, f0 !! (s ++ r0 ++ [x]) = Some (NFile c)) →
  copy_files (mkPath true s) (mkPath true d) ctx (mkPath true (s ++ r0)) err names w = (r, w') →
  w_cwd w' = cwd ∧ tree_inv (w_fs w') ∧
  (r = Ok false → err = false ∧ kept w w' ∧
     ∀ x, x ∈ names → endswith x ".include" = false → rendered (w_fs w') (r0 ++ [x])).
Proof.
  revert err w. induction names as [|x names IH]; intros err w Hc Hi Hn H.
  { injection H as <- <-. split_and!; [done..|]. intros [= ->]. split_and!; [done|by intros ?|by intros x ?%elem_of_nil]. }
  unfold copy_files in H. cbn [for_acc] in H. destruct (Hn x ltac:(left)) as [c Hx].
  assert (∀ y, y ∈ names → ∃ c, f0 !! (s ++ r0 ++ [y]) = Some (NFile c)) as Hn' by (intros; apply Hn; by right).
  destruct (endswith x ".include") eqn:Einc.
  { erewrite M_bind_ok in H by reflexivity. destruct (IH err w Hc Hi Hn' H) as (? & ? & Hr). split_and!; [done..|].
    intros Hb. destruct (Hr Hb) as (? & ? & Hall). split_and!; [done..|]. intros y [->|Hy]%elem_of_cons Hinc; [congruence|auto]. }
  unfold joinpath in H. cbn [p_root p_parts] in H. rewrite <- app_assoc in H.
  destruct (copy_file (mkPath true s) (mkPath true d) ctx (mkPath true (s ++ r0 ++ [x])) w) as [rf w1] eqn:E.
  apply (copy_file_tree (r0 ++ [x]) c) in E as Hf; [|by destruct r0|done..]. destruct Hf as (Hc1 & Hi1 & Hf).
  destruct rf as [b|e].
  - rewrite (M_bind_ok _ _ w (err || b) w1) in H by (by rewrite (M_bind_ok _ _ _ _ _ E)).
    destruct (IH _ w1 Hc1 Hi1 Hn' H) as (? & ? & Hr). split_and!; [done..|].
    intros Hb. destruct (Hr Hb) as ([-> ->]%orb_false_iff & Hk & Hall). destruct (Hf eq_refl) as [Hdone Hk1].
    split_and!; [done|by intros ? ?; apply Hk, Hk1|]. intros y [->|Hy]%elem_of_cons Hinc; [by apply Hk|auto].
  - rewrite (M_bind_raise _ _ w e w1) in H by (by rewrite (M_bind_raise _ _ _ _ _ E)).
    injection H as <- <-. by split_and!.
Qed.

(** ** The walk *)

Definition dir_path (r0 : list string) : Path := mkPath true (s ++ r0).

Lemma sub_paths r0 dirs rs :
  ((λ x, joinpath (mkPath true (s ++ r0)) (mkPath false [x])) <$> dirs) ++ (dir_path <$> rs)
  = dir_path <$> (((λ x, r0 ++ [x]) <$> dirs) ++ rs).
Proof.
  rewrite fmap_app. f_equal. rewrite <- list_fmap_compose. apply list_fmap_ext. intros _ x _.
  unfold dir_path, joinpath. cbn. by rewrite <- app_assoc.
Qed.

Lemma copy_walk_tree fuel err rs (w : W) r w' : w_cwd w = cwd → tree_inv (w_fs w) →
  Forall (λ r0, f0 !! (s ++ r0) = Some NDir) rs →
  copy_walk (mkPath true s) (mkPath true d) ctx fuel err (dir_path <$> rs) w = (r, w') →
  tree_inv (w_fs w') ∧ (sum_list_with (λ r0, weight f0 (s ++ r0)) rs ≤ fuel → r ≠ Ok None) ∧
  (r = Ok (Some false) → err = false ∧ kept w w' ∧
     ∀ r0 r1 x c, r0 ∈ rs → f0 !! (s ++ r0 ++ r1 ++ [x]) = Some (NFile c) → endswith x ".include" = false →
       rendered (w_fs w') (r0 ++ r1 ++ [x])).
Proof.
  revert err rs w. induction fuel as [|fuel IH]; intros err [|r0 rs] w Hc Hi Hrs H; cbn [copy_walk fmap list_fmap] in H.
  1,3: injection H as <- <-; split_and!; [done..|]; intros [= ->]; split_and!; [done|by intros ?|by intros ? ? ? ? ?%elem_of_nil].
  { injection H as <- <-. split_and!; [done| |done]. apply Forall_cons in Hrs as [Hd0 _]. cbn [sum_list_with].
    pose proof (weight_children f0 (s ++ r0) [] NDir Hd0 ltac:(constructor)). cbn [sum_list_with] in *. lia. }
  apply Forall_cons in Hrs as [Hd0 Hrs].
  destruct (list_dir_tree r0 w Hc Hi Hd0) as (dirs & files & El & Hnd & Hdirs & Hfiles).
  unfold dir_path at 1 in H. rewrite (M_bind_ok _ _ _ _ _ El) in H.
  destruct (copy_files (mkPath true s) (mkPath true d) ctx (dir_path r0) err files w) as [[err1|e] w1] eqn:E.
  2: { rewrite (M_bind_raise _ _ _ _ _ E) in H. injection H as <- <-.
       apply (copy_files_tree r0) in E as (? & ? & _); [|done|done|intros; by apply Hfiles]. by split_and!. }
  rewrite (M_bind_ok _ _ _ _ _ E), sub_paths in H.
  apply (copy_files_tree r0) in E as (Hc1 & Hi1 & Hf); [|done|done|intros; by apply Hfiles].
  apply IH in H as (Hi' & Hfuel & Hr); [|done|done|].
  2: { apply Forall_app. split; [|done]. apply Forall_forall. intros ? (x & -> & Hx)%list_elem_of_fmap. by apply Hdirs. }
  split_and!; [done| |].
  - intros Hle. apply Hfuel. rewrite sum_list_with_app. cbn [sum_list_with] in Hle.
    pose proof (weight_children f0 (s ++ r0) dirs NDir Hd0 Hnd) as Hw.
    enough (sum_list_with (λ r0, weight f0 (s ++ r0)) ((λ x, r0 ++ [x]) <$> dirs)
            = sum_list_with (λ x, weight f0 ((s ++ r0) ++ [x])) dirs) by lia.
    clear. induction dirs as [|x dirs IH]; [done|]. cbn. by rewrite IH, <- app_assoc.
  - intros Hb. destruct (Hr Hb) as (-> & Hk & Hall). destruct (Hf eq_refl) as (-> & Hk1 & Hfs).
    split_and!; [done|by intros ? ?; apply Hk, Hk1|]. intros r2 r1 x c [->|Hin]%elem_of_cons Hx Hinc.
    + destruct r1 as [|y r1]; [apply Hk, Hfs; [|done]; apply Hfiles; by exists c|].
      assert (f0 !! (s ++ r0 ++ [y]) = Some NDir) as Hy.
      { replace (s ++ r0 ++ (y :: r1) ++ [x]) with ((s ++ r0 ++ [y]) ++ (r1 ++ [x])) in Hx by (by rewrite <- !app_assoc).
        apply (wf_above f0 _ (r1 ++ [x])) in Hx; [|done|by destruct r1]. by rewrite app_assoc, node_at_snoc, <- app_assoc in Hx. }
      replace (r0 ++ (y :: r1) ++ [x]) with ((r0 ++ [y]) ++ r1 ++ [x]) in * by (by rewrite <- !app_assoc).
      eapply Hall; [|exact Hx|done]. apply elem_of_app. left. apply list_elem_of_fmap. exists y. split; [done|by apply Hdirs].
    + eapply Hall; [|exact Hx|done]. apply elem_of_app. by right.
Qed.
End tree.

(** ** Both conditions can be checked *)

Definition wf_entry (f : fs) (k : list string) (_ : node) : Prop :=
  match last k with Some x => node_at f (take (length k - 1) k) = Some NDir ∧ x ≠ ".." | None => True end.

Lemma wf_spec f : wf f ↔ map_Forall (wf_entry f) f.
Proof.
  split.
  - intros Hw k nd E. unfold wf_entry. destruct k as [|x k _] using rev_ind; [done|].
    rewrite last_snoc, length_app, Nat.add_sub, take_app_length. by eapply Hw.
  - intros H k x nd E. specialize (H _ _ E). unfold wf_entry in H.
    by rewrite last_snoc, length_app, Nat.add_sub, take_app_length in H.
Qed.

#[export] Instance wf_entry_dec f k nd : Decision (wf_entry f k nd).
Proof. unfold wf_entry. destruct (last k); apply _. Defined.

#[export] Instance wf_dec f : Decision (wf f).
Proof. refine (cast_if (decide (map_Forall (wf_entry f) f))); by rewrite wf_spec. Defined.

Lemma clear_tree_spec f l :
  clear_tree f l ↔ map_Forall (λ k nd, is_link nd = true → ¬ (k `prefix_of` l ∨ l `prefix_of` k)) f.
Proof.
  split.
  - intros H k nd E Hl Hk. specialize (H k Hk). rewrite E in H. by destruct nd.
  - intros H k Hk. destruct (f !! k) as [nd|] eqn:E; [|done]. specialize (H k nd E). destruct nd; [done..|].
    by destruct (H eq_refl).
Qed.

#[export] Instance clear_tree_dec f l : Decision (clear_tree f l).
Proof.
  refine (cast_if (decide (map_Forall (λ k nd, is_link nd = true → ¬ (k `prefix_of` l ∨ l `prefix_of` k)) f)));
    by rewrite clear_tree_spec.
Defined.

(** A template directory at [s] and a destination [d], neither inside the other,
    without links in or above them. *)
Definition apart (f : fs) (s d : list string) : Prop :=
  wf f ∧ f !! s = Some NDir ∧ ".." ∉ d ∧ ¬ s `prefix_of` d ∧ ¬ d `prefix_of` s ∧ clear_tree f s ∧ clear_tree f d.

#[export] Instance apart_dec f s d : Decision (apart f s d).
Proof. unfold apart. apply _. Defined.

(** The copy of a template that is apart from its destination. *)
Lemma copied_tree {PS : Type} {SD : ScanDir} {JJ : Jinja} (w : World PS) s d ctx fuel r w' :
  apart (w_fs w) s d → weight (w_fs w) s ≤ fuel →
  copy_and_template fuel (mkPath true s) (mkPath true d) ctx w = (r, w') →
  r ≠ Ok None ∧ (∀ k, s `prefix_of` k → w_fs w' !! k = w_fs w !! k) ∧
  (r = Ok (Some false) → ∀ rel x content,
     w_fs w !! (s ++ rel ++ [x]) = Some (NFile content) → endswith x ".include" = false →
     ∃ t text h, from_string content = Ok t ∧ (∀ k, s `prefix_of` k → h !! k = w_fs w !! k) ∧
       render h (mkPath true s) t ctx = Ok text ∧ w_fs w' !! (d ++ rel ++ [x]) = Some (NFile (text +:+ nl))).
Proof.
  intros (Hw & Hs & Hd & Hsd & Hds & Hcs & Hcd) Hfuel H.
  assert (tree_inv (w_fs w) s d (w_fs w)) as Hi by (by split_and!). pose proof (wf_names _ _ _ Hw Hs).
  unfold copy_and_template in H. replace (mkPath true s) with (dir_path s []) in H at 2 by (unfold dir_path; by rewrite app_nil_r).
  apply (copy_walk_tree (w_fs w) (w_cwd w) s d ctx) with (rs := [[]]) in H as ((_ & Hsame & _) & Hend & Hr); try done.
  2: { constructor; [by rewrite app_nil_r|constructor]. }
  split_and!; [apply Hend; cbn; rewrite app_nil_r; lia|done|].
  intros Hb rel x content E Hinc. destruct (Hr Hb) as (_ & _ & Hall).
  destruct (Hall [] rel x content ltac:(left) E Hinc) as (c & t & text & h & Ec & Ht & Hh & Hren & Ed).
  cbn in Ec. rewrite Ec in E. injection E as ->. by exists t, text, h.
Qed.

(** C35: On a template without links, apart from the destination, the walk ends: as
    many turns as the template has entries are enough.  It leaves the template as
    it was; and when no error was reported, every file of it, however deep, except
    those to be included by others, has its rendering, with a newline added, at
    its place in the destination. *)
Theorem template_copied {PS : Type} {SD : ScanDir} {JJ : Jinja} (w : World PS) s d ctx fuel r w' :
  apart (w_fs w) s d → weight (w_fs w) s ≤ fuel →
  copy_and_template fuel (mkPath true s) (mkPath true d) ctx w = (r, w') →
  r ≠ Ok None ∧ (∀ k, s `prefix_of` k → w_fs w' !! k = w_fs w !! k) ∧
  (r = Ok (Some false) → ∀ rel x content,
     w_fs w !! (s ++ rel ++ [x]) = Some (NFile content) → endswith x ".include" = false →
     ∃ t text h, from_string content = Ok t ∧ (∀ k, s `prefix_of` k → h !! k = w_fs w !! k) ∧
       render h (mkPath true s) t ctx = Ok text ∧ w_fs w' !! (d ++ rel ++ [x]) = Some (NFile (text +:+ nl))).
Proof. apply copied_tree. Qed.

(** C36: The whole script, on a template without links, apart from the output
    directory: it ends, within as many turns as the template has entries, leaves the
    template as it was, and has one of two outcomes.  Either it exits normally
    without a word on standard error, announces the project, and every file of the
    template, except those to be included by others, has its rendering in the output
    directory, with the variables that the arguments give, the last value of a name
    counting.  Or it says something on standard error and exits with code 1. *)
Theorem bootstrap_outcome {PS : Type} {SD : ScanDir} {JJ : Jinja} {JS : JinjaSpec} (w : World PS) script_dir args s d fuel r w' :
  resolve (w_fs w) (w_cwd w) (template_path script_dir args) = Ok (mkPath true s) → bo_output_dir args = mkPath true d →
  apart (w_fs w) s d → weight (w_fs w) s ≤ fuel →
  boot_main fuel script_dir args w = (r, w') →
  (∀ k, s `prefix_of` k → w_fs w' !! k = w_fs w !! k) ∧
  ((r = Ok (Some tt) ∧ stderr_of w' = stderr_of w ∧
    last (w_trace w') = Some (Stdout (("Project bootstrapped with '" +:+ bo_template args +:+ "' template.") +:+ nl)) ∧
    ∃ ctx, (∀ k, assoc k ctx = assoc k (reverse (split1 "=" <$> bo_args args))) ∧
      ∀ rel x content, w_fs w !! (s ++ rel ++ [x]) = Some (NFile content) → endswith x ".include" = false →
        ∃ t text h, from_string content = Ok t ∧ (∀ k, s `prefix_of` k → h !! k = w_fs w !! k) ∧
          render h (mkPath true s) t ctx = Ok text ∧ w_fs w' !! (d ++ rel ++ [x]) = Some (NFile (text +:+ nl))) ∨
   (r = Raise (SystemExit 1) ∧ ∃ new, new ≠ [] ∧ stderr_of w' = stderr_of w ++ new)).
Proof.
  intros Er Ed Ha Hf H. destruct (decide (Forall (λ a, str_mem "=" a = true) (bo_args args))) as [Hargs|Hargs].
  2: { unfold boot_main in H. destruct (for_acc add_arg [] (bo_args args) w) as [ra w1] eqn:Ea.
       destruct (add_args_bad _ _ _ _ _ Hargs Ea) as [-> Hw]. apply add_args_outcome in Ea as Hs. destruct Hs as [_ Hs].
       rewrite (M_bind_raise _ _ _ _ _ Ea) in H. injection H as <- <-. split; [by intros; rewrite Hw|right].
       apply (boot_fails (bo_template args)) in Hs as [_ Hs]. by split. }
  set (ctx := assoc_update [] (split1 "=" <$> bo_args args)).
  assert (resolve_strict (w_fs w) (w_cwd w) (mkPath true s) = Ok (mkPath true s)) as Es.
  { destruct Ha as (Hw & Hs & _ & _ & _ & Hc & _). eapply resolve_strict_entry; [done| |done].
    rewrite <- (app_nil_r s). by apply clear_below. }
  destruct (boot_main_copies _ _ _ _ ctx _ _ _ _ (add_args_ok _ [] w Hargs) Er Es H) as (rc & w1 & Ec & Hfs & Ho & Hr).
  rewrite Ed in Ec. destruct (copied_tree w s d ctx fuel rc w1 Ha Hf Ec) as (Hn & Hsame & Hall).
  split; [intros; rewrite Hfs; auto|]. destruct rc as [[[]|]|e]; [| |done|]; subst r.
  - right. destruct Ho as [_ Ho]. by split.
  - left. destruct Ho as [? ?]. split_and!; [done..|]. exists ctx. rewrite Hfs. split; [|by apply Hall].
    intros k. unfold ctx. rewrite assoc_update_spec. by destruct (assoc k _).
  - right. destruct Ho as [_ Ho]. by split.
Qed.

(** A template with a subdirectory and a part for other files to include. *)
Definition demo_tree : World () :=
  mkWorld [] (<[["t"] := NDir]> (<[["t"; "sub"] := NDir]> (<[["t"; "sub"; "a.txt"] := NFile "hello"]>
             (<[["t"; "part.include"] := NFile "undefined"]> (<[["out"] := NDir]> ∅))))) [] [] tt.

Definition demo_copied : result (option bool) * World () :=
  Eval vm_compute in
  copy_and_template (SD:=table_order) (JJ:=plain_jinja) 4 (mkPath true ["t"]) (mkPath true ["out"; "new"]) [] demo_tree.

Lemma template_copied_witness :
  demo_copied.1 ≠ Ok None ∧ (∀ k, ["t"] `prefix_of` k → w_fs demo_copied.2 !! k = w_fs demo_tree !! k) ∧
  (demo_copied.1 = Ok (Some false) → ∀ rel x content,
     w_fs demo_tree !! (["t"] ++ rel ++ [x]) = Some (NFile content) → endswith x ".include" = false →
     ∃ t text h, from_string (Jinja:=plain_jinja) content = Ok t ∧ (∀ k, ["t"] `prefix_of` k → h !! k = w_fs demo_tree !! k) ∧
       render (Jinja:=plain_jinja) h (mkPath true ["t"]) t [] = Ok text ∧
       w_fs demo_copied.2 !! (["out"; "new"] ++ rel ++ [x]) = Some (NFile (text +:+ nl))).
Proof.
  apply (template_copied (SD:=table_order) (JJ:=plain_jinja) demo_tree ["t"] ["out"; "new"] [] 4).
  - apply (bool_decide_unpack _). vm_compute. exact I.
  - vm_compute. lia.
  - vm_compute. reflexivity.
Defined.

Example demo_copied_file :
  demo_copied.1 = Ok (Some false) ∧ w_fs demo_copied.2 !! ["out"; "new"; "sub"; "a.txt"] = Some (NFile ("hello" +:+ nl)).
Proof. vm_compute. done. Qed.

Definition demo_boot_args : boot_namespace := mkBootArgs "t" (Some (Path_of "/")) (Path_of "/out/new") ["a=b"].

#[local] Instance plain_spec : JinjaSpec (JJ:=plain_jinja) := plain_jinja_spec.

Definition demo_boot : result (option ()) * World () :=
  Eval vm_compute in boot_main (SD:=table_order) (JJ:=plain_jinja) 4 (Path_of "/x") demo_boot_args demo_tree.

Lemma bootstrap_outcome_witness :
  (∀ k, ["t"] `prefix_of` k → w_fs demo_boot.2 !! k = w_fs demo_tree !! k) ∧
  ((demo_boot.1 = Ok (Some tt) ∧ stderr_of demo_boot.2 = stderr_of demo_tree ∧
    last (w_trace demo_boot.2) = Some (Stdout (("Project bootstrapped with '" +:+ "t" +:+ "' template.") +:+ nl)) ∧
    ∃ ctx, (∀ k, assoc k ctx = assoc k (reverse (split1 "=" <$> ["a=b"]))) ∧
      ∀ rel x content, w_fs demo_tree !! (["t"] ++ rel ++ [x]) = Some (NFile content) → endswith x ".include" = false →
        ∃ t text h, from_string (Jinja:=plain_jinja) content = Ok t ∧ (∀ k, ["t"] `prefix_of` k → h !! k = w_fs demo_tree !! k) ∧
          render (Jinja:=plain_jinja) h (mkPath true ["t"]) t ctx = Ok text ∧
          w_fs demo_boot.2 !! (["out"; "new"] ++ rel ++ [x]) = Some (NFile (text +:+ nl))) ∨
   (demo_boot.1 = Raise (SystemExit 1) ∧ ∃ new, new ≠ [] ∧ stderr_of demo_boot.2 = stderr_of demo_tree ++ new)).
Proof.
  apply (bootstrap_outcome (SD:=table_order) (JJ:=plain_jinja) demo_tree (Path_of "/x") demo_boot_args ["t"] ["out"; "new"] 4).
  - vm_compute. reflexivity.
  - vm_compute. reflexivity.
  - apply (bool_decide_unpack _). vm_compute. exact I.
  - vm_compute. lia.
  - vm_compute. reflexivity.
Defined.
