(* ===== verification/Shlex.v ===== *)
(** * Shell words ([shlex], [os.path.expandvars])

    What docker_run.py uses of them: [shlex.split] in POSIX mode without comments,
    [shlex.join], and the expansion of variables. *)

From stdpp Require Import base list strings.
From Stdlib Require Import Ascii ZArith Lia.
From S2P Require Import Prelude PyStr.

Definition squote : ascii := "039".
Definition dquote : ascii := "034".
Definition backslash : ascii := "092".

Definition chr (c : ascii) : string := String c "".

(** The state of the lexer: between words, in a word, in quotes, after a
    backslash (met in a word, or in double quotes). *)
Inductive lex_state := Between | InWord | Quoted (q : ascii) | Escaped (in_quotes : bool).

Definition shlex_blank (c : ascii) : bool :=
  bool_decide (c = " "%char) || bool_decide (c = "009"%char) || bool_decide (c = "010"%char) || bool_decide (c = "013"%char).

Definition is_quote (c : ascii) : bool := bool_decide (c = squote) || bool_decide (c = dquote).

(** [token] is the word so far; [quoted] tells whether it had quotes, in which
    case it counts even when it is empty. *)
Fixpoint shlex_go (st : lex_state) (token : string) (quoted : bool) (s : string) : result (list string) :=
  match s with
  | "" =>
      match st with
      | Between => Ok []
      | InWord => if bool_decide (token = "") && negb quoted then Ok [] else Ok [token]
      | Quoted _ => Raise (ValueError "No closing quotation")
      | Escaped _ => Raise (ValueError "No escaped character")
      end
  | String c s =>
      match st with
      | Between =>
          if shlex_blank c then shlex_go Between "" false s
          else if bool_decide (c = backslash) then shlex_go (Escaped false) "" false s
          else if is_quote c then shlex_go (Quoted c) "" false s
          else shlex_go InWord (chr c) false s
      | InWord =>
          if shlex_blank c then
            if bool_decide (token = "") && negb quoted then shlex_go Between "" false s
            else rest ← shlex_go Between "" false s; Ok (token :: rest)
          else if is_quote c then shlex_go (Quoted c) token quoted s
          else if bool_decide (c = backslash) then shlex_go (Escaped false) token quoted s
          else shlex_go InWord (token +:+ chr c) quoted s
      | Quoted q =>
          if bool_decide (c = q) then shlex_go InWord token true s
          else if bool_decide (c = backslash) && bool_decide (q = dquote) then shlex_go (Escaped true) token true s
          else shlex_go (Quoted q) (token +:+ chr c) true s
      | Escaped in_quotes =>
          let token := if in_quotes && negb (bool_decide (c = backslash)) && negb (bool_decide (c = dquote))
                       then token +:+ chr backslash else token in
          shlex_go (if in_quotes then Quoted dquote else InWord) (token +:+ chr c) quoted s
      end
  end.

Definition shlex_split (s : string) : result (list string) := shlex_go Between "" false s.

(** The characters [quote] leaves alone: word characters and a few more. *)
Definition is_word_char (c : ascii) : bool :=
  is_digit c || ((65 <=? code c)%N && (code c <=? 90)%N) || ((97 <=? code c)%N && (code c <=? 122)%N)
  || bool_decide (c = "_"%char).

Definition shell_safe (c : ascii) : bool := is_word_char c || str_mem c "@%+=:,./-".

Definition quote_squote : string := String squote (String dquote (String squote (String dquote (chr squote)))).

Definition shlex_quote (s : string) : string :=
  if bool_decide (s = "") then String squote (chr squote)
  else if str_forall shell_safe s then s
  else chr squote +:+ replace s (chr squote) quote_squote +:+ chr squote.

Definition shlex_join (l : list string) : string := join " " (map shlex_quote l).

(** ** [os.path.expandvars]

    [$name] and [${name}] become the variable's value, which is not scanned again;
    an unknown name stays as it is. *)

Fixpoint take_word (s : string) : string * string :=
  match s with
  | String c s' => if is_word_char c then let '(a, b) := take_word s' in (String c a, b) else ("", s)
  | "" => ("", "")
  end.

(** The text up to a closing brace, and what follows the brace. *)
Fixpoint take_brace (s : string) : option (string * string) :=
  match s with
  | "" => None
  | String c s => if bool_decide (c = "}"%char) then Some ("", s)
                  else match take_brace s with Some (a, b) => Some (String c a, b) | None => None end
  end.

Fixpoint expand_go (fuel : nat) (env : string → option string) (s : string) : string :=
  match fuel, s with
  | S fuel, String "$" s' =>
      match s' with
      | String "{" s'' =>
          match take_brace s'' with
          | Some (name, rest) =>
              default ("${" +:+ name +:+ "}") (env name) +:+ expand_go fuel env rest
          | None => String "$" (expand_go fuel env s')
          end
      | _ =>
          match take_word s' with
          | ("", _) => String "$" (expand_go fuel env s')
          | (name, rest) => default (String "$" name) (env name) +:+ expand_go fuel env rest
          end
      end
  | S fuel, String c s' => String c (expand_go fuel env s')
  | _, _ => ""
  end.

(** Every turn consumes a character, so the length is fuel enough. *)
Definition expandvars (env : string → option string) (s : string) : string := expand_go (String.length s) env s.

(** ** [split] after [join] *)

Lemma chr_app s c t : (s +:+ chr c) +:+ t = s +:+ String c t.
Proof. unfold chr. by rewrite str_app_assoc, str_app_cons, str_app_nil_l. Qed.

Lemma safe_plain c : shell_safe c = true → shlex_blank c = false ∧ is_quote c = false ∧ c ≠ backslash.
Proof.
  destruct c as [[] [] [] [] [] [] [] []]; intros H; try discriminate H; vm_compute; done.
Qed.

(** Safe characters are read as they are. *)
Lemma lex_safe s : str_forall shell_safe s = true → ∀ token q rest,
  shlex_go InWord token q (s +:+ rest) = shlex_go InWord (token +:+ s) q rest.
Proof.
  induction s as [|c s IH]; intros H token q rest; [by rewrite str_app_nil_l, str_app_nil_r|].
  cbn in H. apply andb_true_iff in H as [(H1 & H2 & H3)%safe_plain Hs]. rewrite str_app_cons. cbn [shlex_go].
  rewrite H1, H2, bool_decide_eq_false_2 by done. rewrite IH by done. by rewrite chr_app.
Qed.

Lemma replace_squote_cons c s : replace (String c s) (chr squote) quote_squote =
  (if bool_decide (c = squote) then quote_squote else chr c) +:+ replace s (chr squote) quote_squote.
Proof.
  assert (∀ u, String.prefix "" u = true) as Hp by by intros [].
  unfold replace. cbn [replace_go chr String.prefix String.length Nat.sub].
  case_bool_decide as E; destruct (ascii_dec squote c) as [E'|E']; try congruence.
  - by rewrite Hp.
  - unfold chr; by rewrite str_app_cons, str_app_nil_l.
Qed.

(** A quoted text is read back up to the closing quote. *)
Lemma lex_quoted s token rest :
  shlex_go (Quoted squote) token true (replace s (chr squote) quote_squote +:+ String squote rest)
  = shlex_go InWord (token +:+ s) true rest.
Proof.
  revert token. induction s as [|c s IH]; intros token.
  { cbn [replace replace_go]. rewrite str_app_nil_l, str_app_nil_r. cbn [shlex_go]. by rewrite bool_decide_eq_true_2. }
  rewrite replace_squote_cons. case_bool_decide as E.
  - subst c. unfold quote_squote, chr. repeat rewrite str_app_cons. rewrite !str_app_nil_l.
    change (shlex_go (Quoted squote) (token +:+ chr squote) true (replace s (chr squote) quote_squote +:+ String squote rest)
            = shlex_go InWord (token +:+ String squote s) true rest).
    by rewrite IH, chr_app.
  - unfold chr at 1. rewrite !str_app_cons, str_app_nil_l. cbn [shlex_go].
    rewrite bool_decide_eq_false_2 by done. rewrite (bool_decide_eq_false_2 (squote = dquote)) by done.
    rewrite andb_false_r, IH. by rewrite chr_app.
Qed.

(** One word, up to the blank or the end. *)
Lemma lex_word w rest : (rest = "" ∨ ∃ r, rest = String " " r) →
  shlex_go Between "" false (shlex_quote w +:+ rest)
  = (l ← match rest with "" => Ok [] | String _ r => shlex_go Between "" false r end; Ok (w :: l)).
Proof.
  intros Hrest.
  assert (∀ token q, (token ≠ "" ∨ q = true) → shlex_go InWord token q rest
    = (l ← match rest with "" => Ok [] | String _ r => shlex_go Between "" false r end; Ok (token :: l))) as Hend.
  { intros token q Ht. assert (bool_decide (token = "") && negb q = false) as Hb.
    { destruct Ht as [Ht| ->]; [by rewrite bool_decide_eq_false_2|by rewrite andb_false_r]. }
    destruct Hrest as [->|[r ->]]; cbn [shlex_go]; [by rewrite Hb|].
    change (shlex_blank " ") with true. cbn match. by rewrite Hb. }
  unfold shlex_quote. case_bool_decide as Ew; [|destruct (str_forall shell_safe w) eqn:Es].
  - subst w.
    change (shlex_go InWord "" true rest = (l ← match rest with "" => Ok [] | String _ r => shlex_go Between "" false r end; Ok ("" :: l))).
    apply Hend. by right.
  - destruct w as [|c w]; [done|]. rewrite str_app_cons. cbn [shlex_go].
    cbn in Es. apply andb_true_iff in Es as [(H1 & H2 & H3)%safe_plain Hs].
    rewrite H1, bool_decide_eq_false_2, H2 by done. rewrite lex_safe by done. apply Hend. by left.
  - rewrite !str_app_assoc. unfold chr at 1. rewrite str_app_cons, str_app_nil_l. cbn [shlex_go].
    change (chr squote +:+ rest) with (String squote rest).
    assert (∀ b, shlex_go (Quoted squote) "" b (replace w (chr squote) quote_squote +:+ String squote rest)
              = shlex_go (Quoted squote) "" true (replace w (chr squote) quote_squote +:+ String squote rest)) as Hb.
    { intros b. destruct (replace w _ _ +:+ String squote rest) as [|c s] eqn:E; [done|]. cbn [shlex_go].
      case_bool_decide; [done|]. by destruct (bool_decide _ && _). }
    change (is_quote squote) with true. cbn match.
    transitivity (shlex_go (Quoted squote) "" false (replace w (chr squote) quote_squote +:+ String squote rest)); [reflexivity|].
    rewrite Hb, lex_quoted, str_app_nil_l. apply Hend. by right.
Qed.

(** The words come back. *)
Lemma shlex_split_join l : shlex_split (shlex_join l) = Ok l.
Proof.
  unfold shlex_split, shlex_join. induction l as [|w l IH]; [done|]. cbn [map]. destruct l as [|w' l].
  - cbn [map join]. rewrite <- (str_app_nil_r (shlex_quote w)). rewrite lex_word by by left. done.
  - change (join " " (shlex_quote w :: map shlex_quote (w' :: l)))
      with (shlex_quote w +:+ String " " (join " " (map shlex_quote (w' :: l)))).
    rewrite lex_word by (right; eauto). by rewrite IH.
Qed.
