(* ===== verification/DockerRun.v ===== *)
(** * Running the container (docker_run.py)

    Paths, mounts and variables are gathered from the environment, the account and
    the project; then docker runs in the foreground beside two daemon threads,
    which are cancelled and joined whatever happens.  What the script asks of the
    account and the terminal is the record [host]. *)

From stdpp Require Import base gmap sets list strings.
From Stdlib Require Import Ascii ZArith Lia.
From S2P Require Import Prelude PyStr Fs World FsOps Json Shlex FindRoot Mounts.
From S2P Require Import Builder Cleanup EventHandler.

Record host := mkHost {
  h_home : Path;                          (* Path.home() *)
  h_uid : Z;                              (* os.getuid() *)
  h_gid : Z;                              (* os.getgid() *)
  h_user_name : Z → option string;        (* pwd.getpwuid(n).pw_name; None: KeyError *)
  h_group_name : Z → option string;       (* grp.getgrgid(n).gr_name *)
  h_group_id : string → option Z;         (* grp.getgrnam(s).gr_gid *)
  h_stdin_tty : bool;
  h_stdout_tty : bool;
  h_nofile : Z * Z;                       (* resource.getrlimit(RLIMIT_NOFILE) *)
  h_hostname : string;
  h_port : Z                              (* the port the system binds *)
}.

Definition home_files : list string := [".gitconfig"].

Definition home_dirs : list string :=
  [".cache/bazel"; ".cache/bazelisk"; ".cache/buf"; ".cache/go-build"; ".cache/nvim"; ".cache/pip";
   ".cache/pip-tools"; ".cache/pre-commit"; ".cache/pylint"; ".config/gcloud"; ".config/google-chrome";
   ".config/matplotlib"; ".devkit/logs"; ".docker"; ".gemini"; ".local/pre-commit"; ".local/share/nvim";
   ".local/state"; ".npm"; ".vim"].

Definition docker_sock : Path := Path_of "/var/run/docker.sock".
Definition system_bus_socket : Path := Path_of "/run/dbus/system_bus_socket".
Definition etc_gitconfig : Path := Path_of "/etc/gitconfig".

Definition handler_thread (port : Z) : string := "ContainerEventHandler-" +:+ str_of_Z port.

Section docker_run.
Context {PS : Type} {EX : Exec PS} {SD : ScanDir}.
Local Abbreviation W := (World PS).
Context (h : host).
(** What a copy of the script adds for its own site: mounts, variables and search
    paths. *)
Context (site : string → Z → M W (list Path * list string * list Path)).

(** [os.environ.get(k)] when it is set and not empty *)
Definition env_nonempty (k : string) : M W (option string) :=
  v ← getenv k;
  mret (match v with Some (String _ _ as s) => Some s | _ => None end).

Definition path_from_env (env_var : string) (dflt : Path) : M W Path :=
  val ← env_nonempty env_var;
  mret (match val with Some s => Path_of s | None => dflt end).

(** [os.environ.get(k) or pwd...] *)
Definition name_or (k : string) (id : Z) (lookup : Z → option string) : M W string :=
  v ← env_nonempty k;
  match v with
  | Some s => mret s
  | None => match lookup id with Some s => mret s | None => raise (KeyError (str_of_Z id)) end
  end.

(** [int(os.environ.get(k) or n)] *)
Definition id_or (k : string) (id : Z) : M W Z :=
  v ← env_nonempty k;
  match v with Some s => lift_result (py_int_r s) | None => mret id end.

(** ** Directories *)

Record places := mkPlaces {
  host_project_root : Path; container_project_root : Path; command_project_root : Path;
  host_home : Path; command_home : Path; container_home : Path;
  host_tmp_dir : Path; container_tmp_dir : Path
}.

Definition find_places : M W places :=
  host_root ← try_with
    (root ← find_project_root;
     r ← path_from_env "DEVKIT_HOST_PROJECT_ROOT" root;
     log_info ("Host project root: " +:+ str_path r) ;;
     mret r)
    (λ e, match e with
          | FileNotFoundError m => Some (eprintln ("Error: " +:+ m) ;; sys_exit 1)
          | _ => None
          end);
  container_root ← path_from_env "DEVKIT_CONTAINER_PROJECT_ROOT" host_root;
  command_root ← path_from_env "DEVKIT_COMMAND_PROJECT_ROOT" host_root;
  log_info ("Container project root: " +:+ str_path container_root) ;;
  log_info ("Command project root: " +:+ str_path command_root) ;;
  hhome ← path_from_env "DEVKIT_HOST_HOME" (h_home h);
  chome ← path_from_env "DEVKIT_COMMAND_HOME" hhome;
  container_home ← path_from_env "DEVKIT_CONTAINER_HOME" hhome;
  tmpdir ← getenv "TMPDIR";
  htmp ← path_from_env "DEVKIT_HOST_TMP_DIR" (Path_of (default "/tmp" tmpdir));
  ctmp ← path_from_env "DEVKIT_CONTAINER_TMP_DIR" htmp;
  mret (mkPlaces host_root container_root command_root hhome chome container_home htmp ctmp).

(** ** Mounts *)

Definition make_home_dirs (command_home : Path) : M W (list Path) :=
  for_acc (λ mounts rel,
    let p := join_name command_home rel in
    mkdir_p p ;; mret (mounts ++ [p])) [] home_dirs.

Definition make_home_files (command_home : Path) : M W (list Path) :=
  for_acc (λ mounts rel,
    let p := join_name command_home rel in
    mkdir_p (parent p) ;; touch p ;; mret (mounts ++ [p])) [] home_files.

(** The git directory, when it is outside the working directory. *)
Definition git_mounts : M W (list Path * list string) :=
  try_with
    ('(rc, out, _) ← run_unchecked ["git"; "rev-parse"; "--is-inside-work-tree"];
     if bool_decide (rc = 0%Z) && bool_decide (strip out = "true") then
       '(gitout, _) ← run_checked ["git"; "rev-parse"; "--absolute-git-dir"];
       let git_dir := Path_of (strip gitout) in
       cwd ← gets (λ w : W, mkPath true (w_cwd w));
       if is_relative_to git_dir cwd then mret ([], [])
       else
         log_info ("Adding out-of-tree git directory to mounts: " +:+ str_path git_dir) ;;
         mret ([git_dir], ["--env=GIT_DISCOVERY_ACROSS_FILESYSTEM=1"])
     else mret ([], []))
    (λ e, if is_CalledProcessError e || is_FileNotFoundError e
          then Some (log_info ("Git discovery failed or not in a git repo: " +:+ exn_str e) ;; mret ([], [])) else None).

(** [grp.getgrnam(name).gr_gid], 0 when there is no such group *)
Definition group_id (name : string) : M W Z :=
  match h_group_id h name with
  | Some n => mret n
  | None => log_info ("Group " +:+ name +:+ " not found, defaulting GID to 0") ;; mret 0%Z
  end.

(** ** Arguments for docker *)

Definition tty_args : list string :=
  if h_stdin_tty h && h_stdout_tty h then ["--interactive"; "--tty"]
  else if h_stdin_tty h then [] else ["--interactive"].

(** [l.extend(v)] for a JSON value: a string gives its characters, an object its
    keys. *)
Fixpoint chars (s : string) : list json :=
  match s with "" => [] | String c s => JStr (String c "") :: chars s end.

Definition extend_json (v : json) : result (list json) :=
  match v with
  | JArr l => Ok l
  | JStr s => Ok (chars s)
  | JObj l => Ok (map JStr (keys l))
  | _ => Raise TypeError
  end.

(** [data.get("docker", {}).get("run", [])] *)
Definition run_args_of (data : json) : result json :=
  d ← py_get data "docker";
  r ← py_get (default (JObj []) d) "run";
  Ok (default (JArr []) r).

Definition config_args (devkit_json_path : Path) : M W (list json) :=
  try_with
    (here ← exists_p devkit_json_path;
     if (here : bool) then
       text ← read_text devkit_json_path;
       data ← lift_result (json_loads text);
       run_args ← lift_result (run_args_of data);
       if truthy run_args then
         log_info ("Loaded docker run args from devkit.json: " +:+ py_str run_args) ;;
         lift_result (extend_json run_args)
       else mret []
     else mret [])
    (λ e, if is_Exception e then Some (log_warning ("Failed to parse devkit.json: " +:+ exn_str e) ;; mret []) else None).

Definition env_args : M W (list json) :=
  v ← env_nonempty "DEVKIT_DOCKER_RUN_ARGS";
  match v with
  | Some s =>
      l ← lift_result (shlex_split s);
      log_info ("Adding args from DEVKIT_DOCKER_RUN_ARGS: " +:+ py_repr (JArr (map JStr l))) ;;
      mret (map JStr l)
  | None => mret []
  end.

(** [os.path.expandvars(arg)] *)
Definition expand_arg (env : list (string * string)) (arg : json) : result string :=
  match arg with JStr s => Ok (expandvars (λ k, assoc k env) s) | _ => Raise TypeError end.

(** [--volume] of a minimal mount: a path under the command's home is moved to the
    two other homes. *)
Definition docker_mount (pl : places) (path : Path) : string :=
  let '(host_path, container_path) :=
    match relative_to path (command_home pl) with
    | Some suffix => (joinpath (host_home pl) suffix, joinpath (container_home pl) suffix)
    | None => (path, path)
    end in
  "--volume=" +:+ str_path host_path +:+ ":" +:+ str_path container_path.

(** ** The command line *)

Record run_config := mkRunConfig {
  rc_places : places;
  rc_cwd : Path;
  rc_user_name : string; rc_user_id : Z; rc_group_name : string; rc_group_id : Z;
  rc_docker_group_id : Z;
  rc_session_bus : Path;
  rc_env : list string;
  rc_paths : list Path;
  rc_mounts : list Path;
  rc_args : list string
}.

Definition docker_cmd (scripts_dir : Path) (unknown_args : list string) (c : run_config) : list string :=
  let pl := rc_places c in
  let '(soft, hard) := h_nofile h in
  ["docker"; "run"; "--rm"; "--ulimit"; "nofile=" +:+ str_of_Z soft +:+ ":" +:+ str_of_Z hard;
   "--volume=" +:+ str_path (host_project_root pl) +:+ ":" +:+ str_path (container_project_root pl);
   "--workdir=" +:+ str_path (rc_cwd c);
   "--env=HOME=" +:+ str_path (container_home pl);
   "--env=DEVKIT_SOCKET_PORT=" +:+ str_of_Z (h_port h);
   "--env=GOOGLE_CLOUD_PROJECT"; "--env=GEMINI_API_KEY"; "--env=AWS_SECRET_ACCESS_KEY"; "--env=AWS_ACCESS_KEY_ID";
   "--env=AWS_SESSION_TOKEN"; "--env=AWS_PAGER"; "--env=GH_TOKEN";
   "--env=CLOUDSDK_CONTAINER_USE_APPLICATION_DEFAULT_CREDENTIALS";
   "--env=USER=" +:+ rc_user_name c;
   "--env=USER_ID=" +:+ str_of_Z (rc_user_id c);
   "--env=GROUP=" +:+ rc_group_name c;
   "--env=GROUP_ID=" +:+ str_of_Z (rc_group_id c);
   "--env=TMPDIR=" +:+ str_path (container_tmp_dir pl);
   "--env=TERM=xterm-256color"; "--env=COLORTERM";
   "--env=DOCKER_GROUP=docker";
   "--env=DOCKER_GROUP_ID=" +:+ str_of_Z (rc_docker_group_id c);
   "--env=NOBODY_GROUP=nobody";
   "--env=DBUS_SYSTEM_BUS_ADDRESS=unix:path=" +:+ str_path system_bus_socket;
   "--env=DBUS_SESSION_BUS_ADDRESS=unix:path=" +:+ str_path (rc_session_bus c);
   "--env=DEVKIT_NOFILE_SOFT=" +:+ str_of_Z soft;
   "--env=DEVKIT_NOFILE_HARD=" +:+ str_of_Z hard;
   "--env=ADDITIONAL_PATH=" +:+ join ":" (map str_path (rc_paths c))]
  ++ rc_env c ++ map (docker_mount pl) (rc_mounts c)
  ++ ["--net=host"; "--ipc=host"; "--hostname=" +:+ h_hostname h;
      "--volume=" +:+ str_path (host_tmp_dir pl) +:+ ":" +:+ str_path (container_tmp_dir pl);
      "--entrypoint=" +:+ str_path (join_name scripts_dir "entrypoint_docker")]
  ++ rc_args c ++ unknown_args.

(** What is gathered before the minimal mounts are computed. *)
Record gathered := mkGathered {
  g_places : places; g_user : string; g_uid : Z; g_group : string; g_gid : Z; g_docker_gid : Z;
  g_bus : Path; g_mounts : list Path; g_env : list string; g_paths : list Path
}.

Definition gather : M W gathered :=
  pl ← find_places;
  gitconfig ← exists_p etc_gitconfig;
  user_name ← name_or "USER" (h_uid h) (h_user_name h);
  user_id ← id_or "USER_ID" (h_uid h);
  group_name ← name_or "GROUP" (h_gid h) (h_group_name h);
  gid ← id_or "GROUP_ID" (h_gid h);
  let session_bus_socket := join_name (join_name (Path_of "/run/user") (str_of_Z user_id)) "bus" in
  dirs ← make_home_dirs (command_home pl);
  files ← make_home_files (command_home pl);
  '(git_dirs, git_env) ← git_mounts;
  '(site_mounts, site_env, site_paths) ← site user_name user_id;
  env ← gets (λ w : W, w_env w);
  let context_env := map (λ k, "--env=" +:+ k) (filter (λ k, startswith k "CLOUDSDK_CONTEXT_" = true) (keys env)) in
  docker_gid ← group_id "docker";
  nobody_gid ← group_id "nobody";
  let nobody_env := if (0 <? nobody_gid)%Z then ["--env=NOBODY_GROUP_ID=" +:+ str_of_Z nobody_gid] else [] in
  mret (mkGathered pl user_name user_id group_name gid docker_gid session_bus_socket
          ([docker_sock; system_bus_socket] ++ (if (gitconfig : bool) then [etc_gitconfig] else [])
           ++ [session_bus_socket] ++ dirs ++ files ++ git_dirs ++ site_mounts)
          (git_env ++ site_env ++ context_env ++ nobody_env) site_paths).

Definition docker_args (devkit_json_path : Path) : M W (list string) :=
  from_config ← config_args devkit_json_path;
  from_env ← env_args;
  env ← gets (λ w : W, w_env w);
  lift_result (result_map (expand_arg env) (map JStr tty_args ++ from_config ++ from_env)).

(** ** Running it *)

Definition thread_event (name : string) (a : thread_act) : M W () := emit (Thread name a).

(** The [finally] clause. *)
Definition stop_threads : M W () :=
  thread_event cleanup_thread ThreadCancel ;;
  thread_event (handler_thread (h_port h)) ThreadCancel ;;
  thread_event cleanup_thread ThreadJoin ;;
  thread_event (handler_thread (h_port h)) ThreadJoin.

(** 128 + SIGINT *)
Definition exit_code_sigint : Z := 130.

Definition run_docker (cmd : list string) : M W () :=
  return_code ←
    finally
      (try_with
         ('(rc, _, _) ← run_unchecked cmd; mret rc)
         (λ e, match e with KeyboardInterrupt => Some (mret exit_code_sigint) | _ => None end))
      stop_threads;
  sys_exit return_code.

(** From the start of the event handler on. *)
Definition launch (scripts_dir : Path) (unknown_args : list string) (devkit_json_path : Path) (c : run_config) : M W () :=
  thread_event (handler_thread (h_port h)) ThreadStart ;;
  log_info ("Container file descriptor limits: soft=" +:+ str_of_Z (h_nofile h).1 +:+ ", hard=" +:+ str_of_Z (h_nofile h).2) ;;
  let cmd := docker_cmd scripts_dir unknown_args c in
  log_info (shlex_join cmd) ;;
  start_background_cleanup devkit_json_path [join_name (parent scripts_dir) "images"] ;;
  (if existsb (λ arg, str_contains arg "DISPLAY") cmd
   then _ ← run_checked ["xhost"; "+local:" +:+ rc_user_name c]; mret tt else mret tt) ;;
  run_docker cmd.

(** [main] after [parse_known_args].  It always ends with an exception, the exit
    code or another; [Ok] only means that the fuel of the scan ran out. *)
Definition run_main (set_order : gset Path → list Path) (fuel : nat) (scripts_dir : Path) (unknown_args : list string) : M W () :=
  g ← gather;
  let pl := g_places g in
  minimal ← gets (λ w : W, get_minimal_mounts (w_fs w) (w_cwd w) fuel (command_project_root pl) (g_mounts g));
  match minimal with
  | None => mret tt
  | Some (Raise e) => raise e
  | Some (Ok minimal_mounts) =>
      log_info ("Resolved " +:+ str_of_Z (Z.of_nat (size minimal_mounts)) +:+ " minimal mounts out of "
                +:+ str_of_Z (Z.of_nat (length (g_mounts g))) +:+ " requested") ;;
      let devkit_json_path := join_name (command_project_root pl) "devkit.json" in
      args ← docker_args devkit_json_path;
      cwd ← gets (λ w : W, mkPath true (w_cwd w));
      launch scripts_dir unknown_args devkit_json_path
        (mkRunConfig pl cwd (g_user g) (g_uid g) (g_group g) (g_gid g) (g_docker_gid g) (g_bus g)
           (g_env g) (g_paths g) (set_order minimal_mounts) args)
  end.
End docker_run.

(** The copies without a site of their own. *)
Definition no_site {PS} (user : string) (uid : Z) : M (World PS) (list Path * list string * list Path) := mret ([], [], []).
