(* ===== verification/DockerRunTheorems.v ===== *)
(** * What docker_run.py guarantees

    The script always ends, and starts docker at most once; when it does, its exit
    code is docker's, the two threads were started before and are stopped after,
    and the command line in the log is the one that was run. *)

From stdpp Require Import base gmap sets list strings.
From Stdlib Require Import Ascii ZArith Lia.
From S2P Require Import Prelude PyStr Fs World FsOps Json Shlex FindRoot Mounts MountsProofs.
From S2P Require Import DockerOps Cleanup EventHandler DockerRun.

(** The trace of the [finally] clause. *)
Definition stopped (port : Z) : list event :=
  [Thread cleanup_thread ThreadCancel; Thread (handler_thread port) ThreadCancel;
   Thread cleanup_thread ThreadJoin; Thread (handler_thread port) ThreadJoin].

Section theorems.
Context {PS : Type} {EX : Exec PS} {SD : ScanDir}.
Local Abbreviation W := (World PS).
Context (h : host).

Lemma run_docker_spec cmd (w : W) :
  let '(pr, (ps, f)) := exec cmd (w_procs w, w_fs w) in
  let '(r, w') := run_docker h cmd w in
  w' = mkWorld (w_env w) f (w_cwd w) (w_trace w ++ Ran cmd :: stopped (h_port h)) ps ∧
  match pr with
  | Finished rc _ _ => r = Raise (SystemExit rc)
  | Interrupted => r = Raise (SystemExit 130)
  | NoSuchProgram => ∃ m, r = Raise (FileNotFoundError m)
  end.
Proof.
  unfold run_docker, run_unchecked, start, stop_threads, thread_event, emit.
  destruct (exec cmd (w_procs w, w_fs w)) as [pr [ps f]] eqn:E.
  munfold. rewrite E. destruct pr as [rc out err| |]; unfold emit_event; cbn; rewrite <- !app_assoc; cbn; eauto.
Qed.

(** The script ends with docker's own exit code, with 130 when it is
    interrupted, and with the missing-program error when there is no docker; in
    each case docker was started exactly once and both background threads were
    cancelled and then joined. *)
Theorem container_exit_code cmd (w : W) :
  let '(pr, (ps, f)) := exec cmd (w_procs w, w_fs w) in
  let '(r, w') := run_docker h cmd w in
  w' = mkWorld (w_env w) f (w_cwd w) (w_trace w ++ Ran cmd :: stopped (h_port h)) ps ∧
  match pr with
  | Finished rc _ _ => r = Raise (SystemExit rc)
  | Interrupted => r = Raise (SystemExit 130)
  | NoSuchProgram => ∃ m, r = Raise (FileNotFoundError m)
  end.
Proof. apply run_docker_spec. Qed.

(** ** Before docker *)

(** [docker run ...] *)
Definition docker_run (cmd : list string) : Prop := take 2 cmd = ["docker"; "run"].

(** Things happened, but no container was started. *)
Definition no_container (w w' : W) : Prop :=
  ∃ new, w_trace w' = w_trace w ++ new ∧ ∀ cmd, Ran cmd ∈ new → ¬ docker_run cmd.

#[local] Instance no_container_preorder : PreOrder no_container.
Proof.
  split.
  - intros w. exists []. rewrite app_nil_r. split; [done|]. by intros cmd ?%elem_of_nil.
  - intros w1 w2 w3 (n1 & E1 & H1) (n2 & E2 & H2). exists (n1 ++ n2). rewrite E2, E1, app_assoc. split; [done|].
    intros cmd [?|?]%elem_of_app; auto.
Qed.

Lemma no_container_emit e : (∀ cmd, e = Ran cmd → ¬ docker_run cmd) → always no_container (emit (PS:=PS) e).
Proof.
  intros He. apply always_emit. intros w. exists [e]. split; [done|]. intros cmd Hin. apply He. symmetry.
  by apply list_elem_of_singleton in Hin.
Qed.

Lemma no_container_change op : always no_container (change_fs (PS:=PS) op).
Proof. intros w r w' (_ & _ & H & _)%change_fs_inv. exists []. rewrite H, app_nil_r. split; [done|]. by intros cmd ?%elem_of_nil. Qed.

Lemma no_container_read p : always no_container (read_text (PS:=PS) p).
Proof. intros w r w' [_ ->]%read_text_inv. reflexivity. Qed.

Lemma no_container_exists p : always no_container (exists_p (PS:=PS) p).
Proof. intros w r w' H. apply exists_p_inv in H as [_ ->]. reflexivity. Qed.

Lemma no_container_root : always no_container (find_project_root (PS:=PS)).
Proof. intros w r w' ->%find_root_state. reflexivity. Qed.

Lemma no_container_run cmd : ¬ docker_run cmd → always no_container (run_unchecked cmd).
Proof.
  intros Hc w r w' (res & ps & f & _ & -> & _)%run_unchecked_spec. exists [Ran cmd]. split; [done|].
  intros cmd' Hin. apply list_elem_of_singleton in Hin. by injection Hin as ->.
Qed.

Lemma no_container_run_checked cmd : ¬ docker_run cmd → always no_container (run_checked cmd).
Proof. intros Hc. apply (always_run_checked no_container). by apply no_container_run. Qed.

Lemma no_container_log lv t : always no_container (emit (PS:=PS) (Log lv t)).
Proof. by apply no_container_emit. Qed.

Lemma no_container_err t : always no_container (emit (PS:=PS) (Stderr t)).
Proof. by apply no_container_emit. Qed.

Lemma no_container_thread n a : always no_container (emit (PS:=PS) (Thread n a)).
Proof. by apply no_container_emit. Qed.

#[local] Hint Resolve no_container_change no_container_read no_container_exists no_container_root no_container_run
  no_container_run_checked no_container_log no_container_err no_container_thread : frame.
#[local] Hint Unfold log_info log_warning log_error eprintln eprint getenv mkdir_p touch thread_event : frame.

Lemma no_container_places : always no_container (find_places (PS:=PS) h).
Proof.
  unfold find_places, path_from_env, env_nonempty, getenv, log_info, eprintln, eprint. frame.
  apply always_try; [apply _|frame|]. intros e k Hk. destruct e; try discriminate Hk; injection Hk as <-; frame.
Qed.

Lemma no_container_git : always no_container (git_mounts (PS:=PS)).
Proof.
  unfold git_mounts, log_info. apply always_try; [apply _| |].
  - frame; by apply no_container_run || by apply no_container_run_checked.
  - intros e k Hk. destruct (_ || _); simplify_eq. frame.
Qed.

#[local] Hint Resolve no_container_places no_container_git : frame.

Lemma no_container_gather : always no_container (gather h no_site).
Proof.
  unfold gather, name_or, id_or, env_nonempty, getenv, make_home_dirs, make_home_files, mkdir_p, touch, group_id, log_info, no_site.
  frame.
Qed.

Lemma no_container_args dj : always no_container (docker_args (PS:=PS) h dj).
Proof.
  unfold docker_args, config_args, env_args, env_nonempty, getenv, log_info, log_warning. frame.
  apply always_try; [apply _|frame|]. intros e k Hk. destruct (is_Exception e); simplify_eq. frame.
Qed.

(** An end that does not pretend success. *)
Definition fails (e : exn) : Prop := e ≠ SystemExit 0.

Lemma OSError_fails e : is_OSError e = true → fails e.
Proof. by destruct e. Qed.

Lemma start_fails e : start_exn e → fails e.
Proof. intros [H| ->]; [|done]. by destruct e. Qed.

Lemma fails_change op : (∀ f cwd e, op f cwd = Raise e → is_OSError e = true) → raises fails (change_fs (PS:=PS) op).
Proof. intros Hop w e w' (_ & _ & _ & _ & H & _)%change_fs_inv. by eapply OSError_fails, Hop. Qed.

Lemma fails_mkdir p : raises fails (mkdir_p (PS:=PS) p).
Proof. apply fails_change. intros f cwd e. apply mkdir_go_raise. Qed.

Lemma fails_touch p : raises fails (touch (PS:=PS) p).
Proof. apply fails_change. intros f cwd e. unfold touch_file. case_match; [done|apply write_file_raise]. Qed.

Lemma fails_run cmd : raises fails (run_unchecked cmd).
Proof. apply raises_run_unchecked, start_fails. Qed.

Lemma fails_run_checked cmd : raises fails (run_checked cmd).
Proof. apply raises_run_checked; [apply start_fails|done]. Qed.

Lemma fails_root : raises fails (find_project_root (PS:=PS)).
Proof.
  intros w e w' H. unfold find_project_root in H. rewrite (M_bind_ok (gets current_dir) _ _ _ _ eq_refl), search_up_spec in H.
  by destruct (list_find _ _) as [[? ?]|]; simplify_eq.
Qed.

#[local] Hint Resolve fails_mkdir fails_touch fails_run fails_run_checked fails_root : exc.

Lemma fails_gather : raises fails (gather h no_site).
Proof.
  assert (∀ k d, raises fails (path_from_env (PS:=PS) k d)) as Hp by (intros; unfold path_from_env, env_nonempty, getenv; exc).
  assert (raises fails (find_places (PS:=PS) h)) as Hplaces.
  { unfold find_places, getenv. apply raises_bind; [|intros; exc]. apply (raises_try _ fails); [exc|done|].
    intros e k _ Hk. destruct e; try discriminate Hk. injection Hk as <-. apply raises_bind; [exc|intros _].
    by apply raises_sys_exit. }
  assert (∀ k i lk, raises fails (name_or (PS:=PS) k i lk)) as Hname.
  { intros. unfold name_or, env_nonempty, getenv. exc. by apply raises_raise. }
  assert (∀ k i, raises fails (id_or (PS:=PS) k i)) as Hid.
  { intros. unfold id_or, env_nonempty, getenv. exc. apply raises_lift. intros e ?%py_int_r_raise. by destruct e. }
  assert (raises fails (git_mounts (PS:=PS))) as Hgit.
  { unfold git_mounts. apply (raises_try _ fails); [exc|done|]. intros e k _ Hk. destruct (_ || _); simplify_eq. exc. }
  unfold gather, make_home_dirs, make_home_files, group_id, no_site, exists_p. exc.
Qed.

Lemma shlex_go_raise st cur q s e : shlex_go st cur q s = Raise e → ∃ m, e = ValueError m.
Proof.
  revert st cur q. induction s as [|c s IH]; intros st cur q H; cbn [shlex_go] in H.
  - repeat case_match; simplify_eq; eauto.
  - unfold mbind, result_bind in H. repeat case_match; simplify_eq; eauto.
Qed.

Lemma fails_args dj : raises fails (docker_args (PS:=PS) h dj).
Proof.
  assert (raises fails (config_args (PS:=PS) dj)) as Hc.
  { unfold config_args. apply (raises_try _ fails); [|done|].
    - apply raises_bind; [unfold exists_p; exc|intros []; [|exc]]. apply raises_bind.
      { intros w e w' [H _]%read_text_inv. by eapply OSError_fails, read_file_raise. }
      intros text. apply raises_bind; [apply raises_lift; by intros e ->%json_loads_raise|intros data].
      apply raises_bind; [apply raises_lift|intros ra].
      { intros e. unfold run_args_of. destruct data as [| | | | | |l]; cbn; try by intros [= <-].
        destruct (default _ _); cbn; by intros [= <-]. }
      destruct (truthy ra); [|exc]. apply raises_bind; [exc|intros _]. apply raises_lift. intros e.
      destruct ra; cbn; by intros [= <-].
    - intros e k _ Hk. destruct (is_Exception e); simplify_eq. exc. }
  unfold docker_args. apply raises_bind; [done|intros l1]. apply raises_bind.
  { unfold env_args, env_nonempty, getenv. exc. apply raises_lift. by intros e [m ->]%shlex_go_raise. }
  intros l2. apply raises_bind; [exc|intros env]. apply raises_lift.
  intros e (x & _ & Hx)%result_map_raise. destruct x; cbn in Hx; by simplify_eq.
Qed.

(** ** The whole run *)

(** Docker was started once, after both threads and after its command line was
    logged; it ended as [exec] says; the threads were then stopped, and [r] is the
    exit code, 130 after an interrupt, or the missing program. *)
Definition container_ran (scripts_dir : Path) (unknown : list string) (w w' : W) (r : result ()) : Prop :=
  ∃ c pre w1 pr, let cmd := docker_cmd h scripts_dir unknown c in
    w_trace w' = w_trace w ++ pre ++ Ran cmd :: stopped (h_port h) ∧ (∀ cmd', Ran cmd' ∈ pre → ¬ docker_run cmd') ∧
    Log INFO (shlex_join cmd) ∈ pre ∧
    Thread (handler_thread (h_port h)) ThreadStart ∈ pre ∧ Thread cleanup_thread ThreadStart ∈ pre ∧
    w_trace w1 = w_trace w ++ pre ∧ exec cmd (w_procs w1, w_fs w1) = (pr, (w_procs w', w_fs w')) ∧
    match pr with
    | Finished rc _ _ => r = Raise (SystemExit rc)
    | Interrupted => r = Raise (SystemExit 130)
    | NoSuchProgram => ∃ m, r = Raise (FileNotFoundError m)
    end.

(** No container was started, and [r] is a failure, for the reason [why]. *)
Definition gave_up (why : exn → Prop) (w w' : W) (r : result ()) : Prop :=
  no_container w w' ∧ ∃ e, r = Raise e ∧ fails e ∧ why e.

(** The display is to be shared and [xhost] refused. *)
Definition xhost_failed (scripts_dir : Path) (unknown : list string) (e : exn) : Prop :=
  ∃ c (w1 w2 : W), existsb (λ arg, str_contains arg "DISPLAY") (docker_cmd h scripts_dir unknown c) = true ∧
    run_checked ["xhost"; "+local:" +:+ rc_user_name c] w1 = (Raise e, w2).

(** Why the script gives up: what it gathers failed, a mount is a loop of links, an
    argument for docker cannot be read or expanded, or [xhost] failed. *)
Definition not_prepared (scripts_dir : Path) (unknown : list string) (w : W) (e : exn) : Prop :=
  (∃ w1, gather h no_site w = (Raise e, w1)) ∨
  ∃ g w1, gather h no_site w = (Ok g, w1) ∧
    ((∃ p, p ∈ command_project_root (g_places g) :: g_mounts g ∧ resolve (w_fs w1) (w_cwd w1) p = Raise e) ∨
     (∃ w2 w3, keeps w1 w2 ∧ docker_args h (join_name (command_project_root (g_places g)) "devkit.json") w2 = (Raise e, w3)) ∨
     xhost_failed scripts_dir unknown e).

Lemma ran_later sd ua (w w1 w' : W) r : no_container w w1 → container_ran sd ua w1 w' r → container_ran sd ua w w' r.
Proof.
  intros (new & E & Hn) (c & pre & w2 & pr & Ht & Hpre & Hl & H1 & H2 & Ew & Hex & Hr).
  exists c, (new ++ pre), w2, pr. split_and!; try done; [by rewrite Ht, E, <- !app_assoc| |apply elem_of_app; by right..|
    by rewrite Ew, E, app_assoc].
  intros cmd [?|?]%elem_of_app; auto.
Qed.

Lemma launch_outcome sd ua dj c (w : W) r w' : launch h sd ua dj c w = (r, w') →
  gave_up (xhost_failed sd ua) w w' r ∨ container_ran sd ua w w' r.
Proof.
  unfold launch. cbn zeta. do 4 (erewrite M_bind_ok by reflexivity). set (cmd := docker_cmd h sd ua c).
  match goal with |- (_ ≫= _) ?v = _ → _ => set (v0 := v) end.
  set (pre := [Thread (handler_thread (h_port h)) ThreadStart;
    Log INFO ("Container file descriptor limits: soft=" +:+ str_of_Z (h_nofile h).1 +:+ ", hard=" +:+ str_of_Z (h_nofile h).2);
    Log INFO (shlex_join cmd); Thread cleanup_thread ThreadStart]).
  assert (w_trace v0 = w_trace w ++ pre) as Hv by (unfold v0, emit_event; cbn; by rewrite <- !app_assoc).
  assert (∀ cmd', Ran cmd' ∈ pre → ¬ docker_run cmd') as Hpre.
  { intros cmd' Hin. repeat (apply elem_of_cons in Hin as [Hin|Hin]; [done|]). by apply elem_of_nil in Hin. }
  clearbody v0. intros H. unfold mbind at 1, M_bind at 1 in H.
  assert (∀ v1 x, w_trace v1 = w_trace v0 ++ x → (∀ cmd', Ran cmd' ∈ x → ¬ docker_run cmd') →
    run_docker h cmd v1 = (r, w') → container_ran sd ua w w' r) as Hdock.
  { intros v1 x Hx Hnx E. pose proof (run_docker_spec cmd v1) as Hs. rewrite E in Hs.
    destruct (exec cmd (w_procs v1, w_fs v1)) as [pr [ps f]] eqn:Ex. destruct Hs as [-> Hr].
    exists c, (pre ++ x), v1, pr. cbn zeta. fold cmd. cbn [w_trace w_procs w_fs].
    rewrite Hx, Hv, <- !app_assoc. split_and!; try done; [|apply elem_of_app; left; unfold pre; set_solver..].
    intros cmd' [?|?]%elem_of_app; auto. }
  destruct (existsb _ cmd) eqn:Edisp.
  - set (xc := ["xhost"; "+local:" +:+ rc_user_name c]) in H.
    assert (¬ docker_run xc) as Hxc by done.
    unfold mbind at 1, M_bind at 1 in H. destruct (run_checked xc v0) as [[x|e] v1] eqn:E.
    + apply (no_container_run_checked _ Hxc) in E as (new & En & Hn). right. by eapply Hdock.
    + apply fails_run_checked in E as He. pose proof (no_container_run_checked _ Hxc _ _ _ E) as (new & En & Hn).
      injection H as <- <-. left. split; [|exists e; split_and!; [done..|by exists c, v0, v1]]. exists (pre ++ new). rewrite En, Hv, app_assoc. split; [done|].
      intros cmd' [?|?]%elem_of_app; auto.
  - right. apply (Hdock v0 []); [by rewrite app_nil_r|by intros cmd' ?%elem_of_nil|done].
Qed.

Lemma run_main_outcome set_order fuel sd ua (w : W) r w' : run_main h no_site set_order fuel sd ua w = (r, w') →
  (r = Ok tt ∧ no_container w w' ∧
   ∃ g w1, gather h no_site w = (Ok g, w1) ∧
     get_minimal_mounts (w_fs w1) (w_cwd w1) fuel (command_project_root (g_places g)) (g_mounts g) = None) ∨
  gave_up (not_prepared sd ua w) w w' r ∨ container_ran sd ua w w' r.
Proof.
  intros H. unfold run_main in H.
  destruct (gather h no_site w) as [[g|e] w1] eqn:Eg; apply no_container_gather in Eg as Hg.
  2: { rewrite (M_bind_raise _ _ _ _ _ Eg) in H. injection H as <- <-. right; left. split; [done|].
       exists e. split_and!; [done|by eapply fails_gather|]. left. eauto. }
  assert (∀ e, (∃ p, p ∈ command_project_root (g_places g) :: g_mounts g ∧ resolve (w_fs w1) (w_cwd w1) p = Raise e) ∨
     (∃ w2 w3, keeps w1 w2 ∧ docker_args h (join_name (command_project_root (g_places g)) "devkit.json") w2 = (Raise e, w3)) ∨
     xhost_failed sd ua e → not_prepared sd ua w e) as Hwhy by (intros e He; right; by exists g, w1).
  rewrite (M_bind_ok _ _ _ _ _ Eg) in H. cbn zeta in H. erewrite M_bind_ok in H by reflexivity.
  destruct (get_minimal_mounts _ _ _ _ _) as [[ms|e]|] eqn:Em.
  - erewrite M_bind_ok in H by reflexivity. set (w2 := emit_event _ w1) in H.
    assert (no_container w w2) as H2 by (etrans; [exact Hg|]; by eapply (no_container_log INFO), reflexivity).
    assert (keeps w1 w2) as Hk by done.
    clearbody w2. destruct (docker_args h (join_name (command_project_root (g_places g)) "devkit.json") w2) as [[args|e] w3] eqn:Ea;
      apply no_container_args in Ea as Ha.
    + rewrite (M_bind_ok _ _ _ _ _ Ea) in H. erewrite M_bind_ok in H by reflexivity.
      assert (no_container w w3) as H3 by (by etrans). right.
      apply launch_outcome in H as [(Hn & e & -> & ? & Hx)|?]; [left|right; by eapply ran_later].
      split; [by etrans|]. exists e. split_and!; [done..|]. auto.
    + rewrite (M_bind_raise _ _ _ _ _ Ea) in H. injection H as <- <-. right; left. split; [by etrans|].
      exists e. split_and!; [done|by eapply fails_args|]. apply Hwhy. right; left. by exists w2, w3.
  - injection H as <- <-. right; left. split; [done|]. apply minimal_mounts_raise in Em as (p & ? & Hp).
    exists e. apply resolve_raise in Hp as He. split_and!; [done|by subst e|]. apply Hwhy. left. eauto.
  - injection H as <- <-. left. split_and!; [done..|]. by exists g, w1.
Qed.

(** C32: The script always ends, in one of two ways.  Either it starts no container
    and fails, never reporting success, because what it gathers, a mount, an
    argument for docker or [xhost] failed.  Or it starts [docker run] exactly once,
    with both background threads running, and after docker it stops both threads
    and exits with docker's exit code, with 130 when it was interrupted, or with the
    missing-program error. *)
Theorem run_starts_one_container set_order scripts_dir unknown (w : W) :
  ∃ enough, ∀ fuel, enough ≤ fuel →
    let '(r, w') := run_main h no_site set_order fuel scripts_dir unknown w in
    gave_up (not_prepared scripts_dir unknown w) w w' r ∨ container_ran scripts_dir unknown w w' r.
Proof.
  destruct (gather h no_site w) as [[g|e] w1] eqn:Eg.
  - exists (S (size (universe (w_fs w1)))). intros fuel Hf.
    destruct (run_main h no_site set_order fuel scripts_dir unknown w) as [r w'] eqn:E.
    apply run_main_outcome in E as [(_ & _ & g' & w1' & Eg' & Hm)|?]; [|done]. rewrite Eg in Eg'. injection Eg' as <- <-.
    destruct (minimal_mounts_total (w_fs w1) (w_cwd w1) fuel (command_project_root (g_places g)) (g_mounts g) Hf). congruence.
  - exists 0. intros fuel _. destruct (run_main h no_site set_order fuel scripts_dir unknown w) as [r w'] eqn:E.
    apply run_main_outcome in E as [(_ & _ & g' & w1' & Eg' & _)|?]; [|done]. by rewrite Eg in Eg'.
Qed.

(** The containers a run starts: at most one, at the end. *)
Lemma containers_started set_order fuel sd ua (w : W) r w' : run_main h no_site set_order fuel sd ua w = (r, w') →
  ∃ new, w_trace w' = w_trace w ++ new ∧
    ∀ pre cmd post, new = pre ++ Ran cmd :: post → docker_run cmd →
      ∃ c, cmd = docker_cmd h sd ua c ∧ Log INFO (shlex_join cmd) ∈ pre.
Proof.
  intros H.
  assert (∀ new pre cmd post, (∀ cmd, Ran cmd ∈ new → ¬ docker_run cmd) → new = pre ++ Ran cmd :: post → docker_run cmd → False) as Hnone.
  { intros new pre cmd post Hn -> Hd. apply (Hn cmd); [|done]. apply elem_of_app. right. left. }
  apply run_main_outcome in H as [(_ & (new & E & Hn) & _)|[[(new & E & Hn) _]|H]].
  1,2: exists new; split; [done|]; intros; by destruct (Hnone new pre cmd post).
  destruct H as (c & pre0 & w1 & pr & E & Hpre & Hl & _). eexists. split; [exact E|].
  intros pre cmd post Heq Hd. exists c. set (cmd0 := docker_cmd h sd ua c) in *.
  destruct (decide (length pre < length pre0)) as [Hlt|Hge].
  { exfalso. apply (Hpre cmd); [|done]. apply (f_equal (.!! length pre)) in Heq.
    rewrite lookup_app_l, list_lookup_middle in Heq by done. by eapply list_elem_of_lookup_2. }
  assert (pre0 `prefix_of` pre) as [x ->].
  { apply (f_equal (take (length pre0))) in Heq. rewrite take_app_length, take_app_le in Heq by lia. rewrite Heq. apply prefix_take. }
  assert (cmd = cmd0) as ->; [|split; [done|apply elem_of_app; by left]].
  rewrite <- app_assoc in Heq. apply app_inv_head in Heq.
  assert (Ran cmd ∈ Ran cmd0 :: stopped (h_port h)) as Hin by (rewrite Heq; apply elem_of_app; right; left).
  apply elem_of_cons in Hin as [Hin|Hin]; [by injection Hin|].
  unfold stopped in Hin. repeat (apply elem_of_cons in Hin as [Hin|Hin]; [done|]). by apply elem_of_nil in Hin.
Qed.

(** C33: Every container the script starts is started with a command line that was
    logged before, in a form that a shell splits back into exactly that command
    line, whatever the paths and arguments contain. *)
Theorem logged_command_replays set_order fuel scripts_dir unknown (w : W) :
  ∃ new, w_trace (run_main h no_site set_order fuel scripts_dir unknown w).2 = w_trace w ++ new ∧
    ∀ pre cmd post, new = pre ++ Ran cmd :: post → docker_run cmd →
      ∃ line, Log INFO line ∈ pre ∧ shlex_split line = Ok cmd.
Proof.
  destruct (run_main h no_site set_order fuel scripts_dir unknown w) as [r w'] eqn:E.
  apply containers_started in E as (new & E & H). exists new. split; [exact E|]. intros pre cmd post Hn Hd.
  destruct (H pre cmd post Hn Hd) as (c & _ & Hl). eexists. split; [exact Hl|apply shlex_split_join].
Qed.
End theorems.
