(* ===== verification/System.v ===== *)
(** * The container runner and its two threads (docker_run.py)

    From the start of the event handler on, the script is three threads that share
    the programs and files of the host: the main thread, which runs docker and then
    stops the two others; the listener of [EventHandler]; and the clean-up of
    [CleanupThread].  Here they are one transition system.  A schedule says who
    moves next; between any two moves other programs, the container first of all,
    may change what docker and the disk hold.  [join(timeout=1.0)] returns whether
    or not the thread has ended, so it never blocks; the threads are daemons, so
    nothing moves after the main thread has gone.  The user can interrupt the main
    thread at any moment, and the system can refuse it a socket or a thread. *)

From stdpp Require Import base gmap sets list strings.
From Stdlib Require Import Ascii ZArith Lia.
From S2P Require Import Prelude PyStr Fs World Graph DockerOps Builder BuildTheorems.
From S2P Require Import Sim Cleanup CleanupProofs CleanupTheorems CleanupThread.
From S2P Require Import EventHandler Mounts Shlex DockerRun DockerRunTheorems.

(** Where the main thread stands; from [CancelCleanup] on it is in the [finally]
    clause and carries what it will end with.  [StartDocker] and [Running] are in
    the [try]; [Crashed] is an exception anywhere else. *)
Inductive main_pc :=
| StartHandler
| LogLimits
| LogCommand
| StartCleanup
| Xhost
| StartDocker
| Running
| CancelCleanup (r : result Z)
| CancelHandler (r : result Z)
| ShutSocket (r : result Z)
| JoinCleanup (r : result Z)
| JoinHandler (r : result Z)
| Exited (r : result ())
| Crashed (e : exn).

(** Who moves; [Others] is the rest of the host, and [Thrown] an exception that
    comes to the main thread from outside. *)
Inductive move (PS : Type) :=
| Main
| Cleaner
| Listener (a : action)
| Others (ps : PS) (f : fs)
| Thrown (e : exn).
Arguments Main {PS}.
Arguments Cleaner {PS}.
Arguments Listener {PS} a.
Arguments Others {PS} ps f.
Arguments Thrown {PS} e.

(** [s_cancel] is the clean-up's event; the listener's is part of its [conf], whose
    world is the shared one whenever it moves. *)
Record sys (PS : Type) := mkSys {
  s_main : main_pc;
  s_listener : option (conf (PS:=PS));
  s_clean : option clean_pc;
  s_cancel : bool;
  s_world : World PS
}.
Arguments mkSys {PS}.
Arguments s_main {PS}.
Arguments s_listener {PS}.
Arguments s_clean {PS}.
Arguments s_cancel {PS}.
Arguments s_world {PS}.

Section system.
Context {PS : Type} {EX : Exec PS} {SO : SetOrder} {PO : Cleanup.Popen PS}.
Local Abbreviation W := (World PS).
Local Abbreviation Sys := (sys PS).
Context (h : host) (frames : nat).
Context (scripts_dir : Path) (unknown_args : list string) (devkit_json_path : Path) (c : run_config).

Definition sys_cmd : list string := docker_cmd h scripts_dir unknown_args c.

(** How [subprocess.run] and the [except] clause leave [return_code]. *)
Definition docker_outcome (r : proc_result) : result Z :=
  match r with
  | Finished rc _ _ => Ok rc
  | Interrupted => Ok exit_code_sigint
  | NoSuchProgram =>
      Raise (FileNotFoundError ("[Errno 2] No such file or directory: '" +:+ default "" (head sys_cmd) +:+ "'"))
  end.

(** [sys.exit(return_code)], or the exception that passed through [finally]. *)
Definition exit_with (r : result Z) : result () :=
  match r with Ok rc => Raise (SystemExit rc) | Raise e => Raise e end.

Definition goto (p : main_pc) (s : Sys) : Sys := mkSys p (s_listener s) (s_clean s) (s_cancel s) (s_world s).
Definition with_world (w : W) (s : Sys) : Sys := mkSys (s_main s) (s_listener s) (s_clean s) (s_cancel s) w.
Definition note (e : event) (s : Sys) : Sys := with_world (emit_event e (s_world s)) s.
Definition with_listener (l : conf) (s : Sys) : Sys := mkSys (s_main s) (Some l) (s_clean s) (s_cancel s) (s_world s).

(** A statement of [SocketCancelEvent.set] on the listener. *)
Definition on_listener (f : conf → option conf) (s : Sys) : option Sys :=
  l ← s_listener s; l' ← f l; Some (with_listener l' s).

Definition main_step (s : Sys) : option Sys :=
  match s_main s with
  | StartHandler =>
      Some (goto LogLimits (note (Thread (handler_thread (h_port h)) ThreadStart)
                              (with_listener (start_handler (s_world s)) s)))
  | LogLimits =>
      Some (goto LogCommand (note (Log INFO ("Container file descriptor limits: soft=" +:+ str_of_Z (h_nofile h).1
                                             +:+ ", hard=" +:+ str_of_Z (h_nofile h).2)) s))
  | LogCommand => Some (goto StartCleanup (note (Log INFO (shlex_join sys_cmd)) s))
  | StartCleanup =>
      Some (note (Thread cleanup_thread ThreadStart) (mkSys Xhost (s_listener s) (Some Delay) false (s_world s)))
  | Xhost =>
      if existsb (λ arg, str_contains arg "DISPLAY") sys_cmd then
        match run_checked ["xhost"; "+local:" +:+ rc_user_name c] (s_world s) with
        | (Ok _, w) => Some (goto StartDocker (with_world w s))
        | (Raise e, w) => Some (goto (Crashed e) (with_world w s))
        end
      else Some (goto StartDocker s)
  | StartDocker => Some (goto Running (note (Ran sys_cmd) s))
  | Running =>
      let '(r, (ps, f)) := exec sys_cmd (w_procs (s_world s), w_fs (s_world s)) in
      Some (goto (CancelCleanup (docker_outcome r))
              (with_world (mkWorld (w_env (s_world s)) f (w_cwd (s_world s)) (w_trace (s_world s)) ps) s))
  | CancelCleanup r =>
      Some (note (Thread cleanup_thread ThreadCancel) (mkSys (CancelHandler r) (s_listener s) (s_clean s) true (s_world s)))
  | CancelHandler r =>
      on_listener set_event (goto (ShutSocket r) (note (Thread (handler_thread (h_port h)) ThreadCancel) s))
  | ShutSocket r => on_listener shut_down (goto (JoinCleanup r) s)
  | JoinCleanup r => Some (goto (JoinHandler r) (note (Thread cleanup_thread ThreadJoin) s))
  | JoinHandler r => Some (goto (Exited (exit_with r)) (note (Thread (handler_thread (h_port h)) ThreadJoin) s))
  | Exited _ | Crashed _ => None
  end.

Definition cleaner_step (s : Sys) : option Sys :=
  p ← s_clean s;
  '(p', w) ← clean_step frames devkit_json_path [join_name (parent scripts_dir) "images"]
               CLEANUP_BATCH_SIZE CLEANUP_THRESHOLD_DAYS (s_cancel s) p (s_world s);
  Some (mkSys (s_main s) (s_listener s) (Some p') (s_cancel s) w).

Definition listener_move (a : action) (s : Sys) : option Sys :=
  if by_listener a then
    l ← s_listener s;
    l' ← listener_step no_metric (h_port h) (set_world (s_world s) l) a;
    Some (with_world (c_world l') (with_listener l' s))
  else None.

(** Where an exception from outside takes the main thread: an interrupt is caught
    around the run of docker only; [bind] can fail, and so can the start of a
    thread. *)
Definition throw (p : main_pc) (e : exn) : option main_pc :=
  match e, p with
  | KeyboardInterrupt, (StartDocker | Running) => Some (CancelCleanup (Ok exit_code_sigint))
  | KeyboardInterrupt, _ => Some (Crashed e)
  | OSError _, StartHandler => Some (Crashed e)
  | RuntimeError _, (StartHandler | StartCleanup) => Some (Crashed e)
  | _, _ => None
  end.

Definition gone (p : main_pc) : bool := match p with Exited _ | Crashed _ => true | _ => false end.

Definition sys_step (s : Sys) (m : move PS) : option Sys :=
  if gone (s_main s) then None
  else
    match m with
    | Main => main_step s
    | Cleaner => cleaner_step s
    | Listener a => listener_move a s
    | Others ps f =>
        Some (with_world (mkWorld (w_env (s_world s)) f (w_cwd (s_world s)) (w_trace (s_world s)) ps) s)
    | Thrown e => p ← throw (s_main s) e; Some (goto p s)
    end.

Fixpoint sys_run (s : Sys) (l : list (move PS)) : option Sys :=
  match l with
  | [] => Some s
  | m :: l => s' ← sys_step s m; sys_run s' l
  end.

Definition sys_init (w : W) : Sys := mkSys StartHandler None None false w.

(** What the process ends with. *)
Definition ended (p : main_pc) : option (result ()) :=
  match p with Exited r => Some r | Crashed e => Some (Raise e) | _ => None end.

(** ** Runs *)

Lemma sys_run_app s l1 l2 : sys_run s (l1 ++ l2) = s1 ← sys_run s l1; sys_run s1 l2.
Proof.
  revert s. induction l1 as [|m l1 IH]; intros s; [done|]. cbn. destruct (sys_step s m); cbn; [apply IH|done].
Qed.

Lemma sys_run_snoc s l m s' : sys_run s (l ++ [m]) = Some s' → ∃ s1, sys_run s l = Some s1 ∧ sys_step s1 m = Some s'.
Proof.
  rewrite sys_run_app. intros (s1 & ? & H)%bind_Some. exists s1. split; [done|].
  cbn in H. by destruct (sys_step s1 m).
Qed.

(** Rule induction over the moves of a run. *)
Lemma sys_run_ind (P : Sys → Prop) s l s' :
  P s → (∀ s m s', P s → sys_step s m = Some s' → P s') → sys_run s l = Some s' → P s'.
Proof.
  intros Hs Hstep. revert s Hs. induction l as [|m l IH]; intros s Hs H; [by injection H as <-|].
  apply bind_Some in H as (s1 & H1 & H). eauto.
Qed.

(** What a move of the listener leaves alone. *)
Lemma listener_frame (l l' : conf (PS:=PS)) a : listener_step no_metric (h_port h) l a = Some l' → by_listener a = true →
  quiet (c_world l) (c_world l') ∧ c_event l' = c_event l ∧ c_setting l' = c_setting l ∧ c_shut l' = c_shut l.
Proof.
  assert (∀ (v : W) lv t, quiet v (emit_event (Log lv t) v)) as Hlog.
  { intros v lv t. by apply (quiet_emit (Log lv t) (λ _, ltac:(done)) v (Ok tt)). }
  intros H Ha. destruct l as [p ev se sh cl w].
  assert (∀ data r w', (log_info "Received event from container" ;; process_container_event no_metric data) w = (r, w') → quiet w w')
    as Hev by (intros data r w'; exact (always_bind quiet _ _ (quiet_log_info _) (λ _, quiet_event data) w r w')).
  destruct a as [| |e| |sent|m| |]; [..|done|done];
    (destruct p as [| | | |data|e'|]; unfold listener_step in H; cbn [c_pc c_event c_shut c_world] in H; try discriminate);
    repeat case_match; simplify_eq; (split_and!; [|done..]); first [apply Hlog|by eapply Hev|done].
Qed.

(** The programs a move starts: a removal only where the clean-up stands before
    one, and only that one. *)
Lemma step_starts s m s' : sys_step s m = Some s' →
  removes_none (s_world s) (s_world s') ∨
  ∃ p, m = Cleaner ∧ s_clean s = Some p ∧ p ≠ Choose ∧ ran (s_world s') = ran (s_world s) ++ starts p.
Proof.
  unfold sys_step. destruct (gone (s_main s)); [done|]. destruct m as [| |a|ps f|e].
  - intros H. left. unfold main_step, on_listener in H.
    destruct (s_main s); try (injection H as <-); try (by apply same_ran_removes_none, ran_emit).
    + destruct (existsb _ _); [|by injection H as <-].
      destruct (run_checked _ _) as [r w'] eqn:E. apply run_checked_ran in E as [E _].
      exists [["xhost"; "+local:" +:+ rc_user_name c]].
      destruct r; injection H as <-; (split; [exact E|]); intros tag Hin; by apply list_elem_of_singleton in Hin.
    + exists [sys_cmd]. split; [unfold ran; cbn; by rewrite commands_app|].
      intros tag Hin. apply list_elem_of_singleton in Hin. unfold sys_cmd, docker_cmd in Hin.
      by destruct (h_nofile h).
    + destruct (exec _ _) as [r [ps f]]. injection H as <-. by apply same_ran_removes_none.
    + apply bind_Some in H as (l & _ & (l' & _ & [= <-])%bind_Some). by apply same_ran_removes_none, ran_emit.
    + apply bind_Some in H as (l & _ & (l' & _ & [= <-])%bind_Some). done.
    + done.
    + done.
  - intros (p & Hp & ([p' w'] & H & [= <-])%bind_Some)%bind_Some. cbn [s_world].
    destruct (decide (p = Choose)) as [->|Hc]; [left; by apply choose_effect in H as [? _]|].
    right. exists p. split_and!; try done. by apply step_effect in H as [? _].
  - unfold listener_move. destruct (by_listener a) eqn:Ha; [|done].
    intros (l & Hl & (l' & H & [= <-])%bind_Some)%bind_Some. left. cbn.
    apply listener_frame in H as [[_ Hq] _]; [|done]. by apply same_ran_removes_none.
  - intros [= <-]. left. by apply same_ran_removes_none.
  - intros (p & _ & [= <-])%bind_Some. left. by apply same_ran_removes_none.
Qed.

Lemma run_ran s l s' : sys_run s l = Some s' → ran (s_world s) `prefix_of` ran (s_world s').
Proof.
  apply (sys_run_ind (λ s', ran (s_world s) `prefix_of` ran (s_world s'))); [done|].
  intros s1 m s2 H [(new & -> & _)|(p & _ & _ & _ & ->)]%step_starts; (etrans; [exact H|]); by eexists.
Qed.

(** ** Who has been told what *)

(** How far the main thread is. *)
Definition main_pos (p : main_pc) : nat :=
  match p with
  | StartHandler => 0 | LogLimits => 1 | LogCommand => 2 | StartCleanup => 3 | Xhost => 4
  | StartDocker | Crashed _ => 5 | Running => 6
  | CancelCleanup _ => 7 | CancelHandler _ => 8 | ShutSocket _ => 9
  | JoinCleanup _ => 10 | JoinHandler _ => 11 | Exited _ => 12
  end.

Definition crashed (p : main_pc) : bool := match p with Crashed _ => true | _ => false end.

Lemma gone_crashed p : gone p = false → crashed p = false.
Proof. by destruct p. Qed.

(** The events, the socket and docker's start follow the main thread's position. *)
Definition staged (s : Sys) : Prop :=
  let n := main_pos (s_main s) in
  s_cancel s = (8 <=? n) ∧ (is_Some (s_listener s) ↔ 1 ≤ n) ∧ (is_Some (s_clean s) ↔ 4 ≤ n) ∧
  (s_main s = Running → sys_cmd ∈ ran (s_world s)) ∧
  ∀ l, s_listener s = Some l →
    listener_inv l ∧ c_event l = (9 <=? n) ∧ c_setting l = (n =? 9) ∧ c_shut l = (10 <=? n).

(** An exception can come between any two statements; then only the listener's own
    invariant is left. *)
Definition sys_inv (s : Sys) : Prop :=
  (∀ l, s_listener s = Some l → listener_inv l) ∧ (crashed (s_main s) = false → staged s).

Lemma staged_inv s : staged s → sys_inv s.
Proof. intros H. split; [|done]. destruct H as (_ & _ & _ & _ & Hin). intros l El. by destruct (Hin l El). Qed.

Lemma inv_staged s : sys_inv s → gone (s_main s) = false → staged s.
Proof. intros [_ H] Hg. by apply H, gone_crashed. Qed.

Lemma inv_init w : sys_inv (sys_init w).
Proof. apply staged_inv. split_and!; [done|by split; [intros [? ?]|cbn; lia]..|done|done]. Qed.

(** The main thread moves one position on, or crashes in [xhost]; the threads' own
    state only changes where it starts or stops them. *)
Lemma main_step_pos s s' : main_step s = Some s' → main_pos (s_main s') = S (main_pos (s_main s)).
Proof.
  unfold main_step, on_listener. destruct (s_main s); intros H; try (by injection H as <-); try discriminate.
  - destruct (existsb _ _); [|by injection H as <-]. destruct (run_checked _ _) as [[?|?] ?]; by injection H as <-.
  - destruct (exec _ _) as [? [? ?]]; by injection H as <-.
  - by apply bind_Some in H as (l & _ & (l' & _ & [= <-])%bind_Some).
  - by apply bind_Some in H as (l & _ & (l' & _ & [= <-])%bind_Some).
Qed.

Definition starts_or_stops (p : main_pc) : bool :=
  match p with StartHandler | StartCleanup | CancelCleanup _ | CancelHandler _ | ShutSocket _ => true | _ => false end.

Lemma starts_or_stops_pos p : starts_or_stops p = false →
  let n := main_pos p in n ≠ 0 ∧ n ≠ 3 ∧ n ≠ 7 ∧ n ≠ 8 ∧ n ≠ 9.
Proof. by destruct p. Qed.

Lemma main_step_frame s s' : main_step s = Some s' → starts_or_stops (s_main s) = false →
  s_listener s' = s_listener s ∧ s_clean s' = s_clean s ∧ s_cancel s' = s_cancel s.
Proof.
  unfold main_step. destruct (s_main s); intros H Hn; try discriminate; try (by injection H as <-).
  - destruct (existsb _ _); [|by injection H as <-]. destruct (run_checked _ _) as [[?|?] ?]; by injection H as <-.
  - destruct (exec _ _) as [? [? ?]]; by injection H as <-.
Qed.

Lemma running_started s s' : main_step s = Some s' → s_main s' = Running → sys_cmd ∈ ran (s_world s').
Proof.
  intros H E. apply main_step_pos in H as Hp. rewrite E in Hp. unfold main_step in H.
  destruct (s_main s); try discriminate Hp; [|done].
  injection H as <-. unfold ran. cbn. rewrite commands_app. apply elem_of_app. right. left.
Qed.

Lemma staged_main s s' : staged s → main_step s = Some s' → staged s'.
Proof.
  intros (Hcan & Hl & Hc & _ & Hin) H. pose proof (running_started _ _ H) as Hd'.
  pose proof (main_step_pos _ _ H) as Hpos. unfold staged. cbn zeta. rewrite Hpos in *.
  destruct (starts_or_stops (s_main s)) eqn:Hn.
  - unfold main_step in H. destruct s as [p l cl cn w]. cbn [s_main s_cancel s_listener s_clean s_world] in *.
    destruct p; try discriminate Hn; cbn [main_pos] in *.
    + injection H as <-. cbn [note goto with_world with_listener s_cancel s_listener s_clean s_world s_main] in *.
      split_and!; [done|by split; [lia|eauto]|rewrite Hc; lia|exact Hd'|]. intros l' [= <-]. by split_and!.
    + injection H as <-. cbn [note with_world s_cancel s_listener s_clean s_world s_main] in *.
      split_and!; [done|rewrite Hl; lia|by split; [lia|eauto]|exact Hd'|exact Hin].
    + injection H as <-. cbn [note with_world s_cancel s_listener s_clean s_world s_main] in *.
      split_and!; [done|rewrite Hl; lia|rewrite Hc; lia|exact Hd'|exact Hin].
    + apply bind_Some in H as (l0 & E & (l1 & H1 & [= <-])%bind_Some). cbn in E. subst l.
      destruct (Hin l0 eq_refl) as (Hi & He & Hs & Hsh). cbn in He, Hs, Hsh.
      unfold set_event in H1. rewrite Hs in H1. injection H1 as <-.
      cbn [note goto with_world with_listener s_cancel s_listener s_clean s_world s_main] in *.
      split_and!; [done|by split; [lia|eauto]|rewrite Hc; lia|exact Hd'|]. intros l' [= <-].
      destruct Hi as (? & ? & ? & ?). repeat split; cbn; (done || tauto).
    + apply bind_Some in H as (l0 & E & (l1 & H1 & [= <-])%bind_Some). cbn in E. subst l.
      destruct (Hin l0 eq_refl) as (Hi & He & Hs & Hsh). cbn in He, Hs, Hsh.
      unfold shut_down in H1. rewrite Hs in H1. injection H1 as <-.
      cbn [note goto with_world with_listener s_cancel s_listener s_clean s_world s_main] in *.
      split_and!; [done|by split; [lia|eauto]|rewrite Hc; lia|exact Hd'|]. intros l' [= <-].
      destruct Hi as (? & ? & ? & ?). repeat split; cbn; (done || tauto).
  - apply main_step_frame in H as (-> & -> & ->); [|done].
    apply starts_or_stops_pos in Hn as (? & ? & ? & ? & ?). clear Hpos.
    split; [rewrite Hcan|split; [rewrite Hl; lia|split; [rewrite Hc; lia|split; [exact Hd'|]]]].
    { apply eq_true_iff_eq. rewrite !Nat.leb_le. lia. }
    intros l E. destruct (Hin l E) as (? & -> & -> & ->). split_and!; [done|..]; apply eq_true_iff_eq;
      rewrite ?Nat.leb_le, ?Nat.eqb_eq; lia.
Qed.

Lemma staged_thrown s e p : staged s → throw (s_main s) e = Some p → crashed p = false → staged (goto p s).
Proof.
  intros (Hcan & Hl & Hc & _ & Hin) H Hp. unfold staged. cbn [goto s_cancel s_listener s_clean s_world s_main].
  destruct (s_main s) eqn:E, e; try discriminate H; injection H as <-; try discriminate Hp; cbn [main_pos] in *;
    (split_and!; [done|rewrite Hl; lia|rewrite Hc; lia|done|exact Hin]).
Qed.

Lemma inv_sys_step s m s' : sys_inv s → sys_step s m = Some s' → sys_inv s'.
Proof.
  intros Hi H. assert (ran (s_world s) `prefix_of` ran (s_world s')) as [k Hr]
    by (apply (run_ran s [m]); cbn; by rewrite H).
  unfold sys_step in H. destruct (gone (s_main s)) eqn:Hg; [done|]. apply inv_staged in Hi as Hst; [|done].
  assert (∀ v : W, ran v = ran (s_world s) ++ k → s_main s = Running → sys_cmd ∈ ran v) as Hd.
  { intros v -> HR. destruct Hst as (_ & _ & _ & Hd & _). apply elem_of_app. left. auto. }
  destruct m as [| |a|ps f|e]; [by eapply staged_inv, staged_main| | | |]; pose proof Hst as (Hcan & Hl & Hc & _ & Hin).
  - apply bind_Some in H as (p & Hp & ([p' w'] & _ & [= <-])%bind_Some). apply staged_inv.
    split_and!; [exact Hcan|exact Hl| |intros; by apply Hd|exact Hin].
    cbn. rewrite <- Hc, Hp. split; eauto.
  - unfold listener_move in H. destruct (by_listener a) eqn:Ha; [|done].
    apply bind_Some in H as (l & El & (l' & H & [= <-])%bind_Some).
    destruct (Hin l El) as (Hil & He & Hs & Hsh). apply staged_inv.
    split_and!; [exact Hcan| |exact Hc|intros; by apply Hd|].
    + cbn. rewrite <- Hl, El. split; eauto.
    + cbn. intros l1 [= <-]. pose proof (listener_frame _ _ _ H Ha) as (_ & -> & -> & ->). cbn. split_and!; [|done..].
      eapply inv_step; [|exact H]. exact Hil.
  - injection H as <-. apply staged_inv. split_and!; [exact Hcan|exact Hl|exact Hc|intros; by apply Hd|exact Hin].
  - apply bind_Some in H as (p & Hp & [= <-]). split; [exact (proj1 Hi)|]. cbn. by eapply staged_thrown.
Qed.

Lemma inv_reach w l s : sys_run (sys_init w) l = Some s → sys_inv s.
Proof. apply (sys_run_ind sys_inv); [apply inv_init|apply inv_sys_step]. Qed.

(** The main thread is never blocked. *)
Lemma main_enabled s : sys_inv s → gone (s_main s) = false → is_Some (main_step s).
Proof.
  intros Hi Hg. destruct (inv_staged _ Hi Hg) as (_ & Hl & _ & _ & Hin). clear Hi. unfold main_step, on_listener, set_event, shut_down.
  destruct (s_main s) eqn:E; try discriminate Hg; try (by eexists).
  - destruct (existsb _ _); [destruct (run_checked _ _) as [[?|?] ?]|]; by eexists.
  - destruct (exec _ _) as [? [? ?]]. by eexists.
  - destruct (proj2 Hl) as [l El]; [cbn; lia|]. destruct (Hin l El) as (_ & _ & Hs & _). cbn in Hs |- *.
    rewrite El. cbn. rewrite Hs. by eexists.
  - destruct (proj2 Hl) as [l El]; [cbn; lia|]. destruct (Hin l El) as (_ & _ & Hs & _). cbn in Hs |- *.
    rewrite El. cbn. rewrite Hs. by eexists.
Qed.

(** From the start of docker on, alone. *)
Lemma docker_alone s l : s_main s = StartDocker → s_listener s = Some l → c_setting l = false →
  let '(r, w') := run_docker h sys_cmd (s_world s) in
  ∃ s', sys_run s (replicate 7 Main) = Some s' ∧ ended (s_main s') = Some r ∧ s_world s' = w'.
Proof.
  destruct s as [p ls cl cn w]. cbn [s_main s_listener s_world]. intros -> -> Hs.
  destruct l as [lp le lse lsh lc lw]. cbn in Hs. subst lse.
  unfold run_docker, run_unchecked, start, stop_threads, thread_event, emit.
  destruct (exec sys_cmd (w_procs w, w_fs w)) as [pr [ps f]] eqn:E. munfold. rewrite E.
  destruct pr; eexists; (split; [unfold sys_run, sys_step, main_step, on_listener; cbn -[sys_cmd]; rewrite E; reflexivity|]);
    done.
Qed.

(** Run without the others, the main thread does what [launch] does: the same
    outcome, the same programs, messages and files. *)
Lemma main_alone_is_launch w :
  let '(r, w') := launch h scripts_dir unknown_args devkit_json_path c w in
  ∃ k s, k ≤ 12 ∧ sys_run (sys_init w) (replicate k Main) = Some s ∧ ended (s_main s) = Some r ∧ s_world s = w'.
Proof.
  unfold launch. cbn zeta. fold sys_cmd. do 4 (erewrite M_bind_ok by reflexivity).
  set (w4 := emit_event _ (emit_event _ (emit_event _ (emit_event _ w)))).
  set (s4 := mkSys Xhost (Some (start_handler w)) (Some Delay) false w4).
  assert (∀ k, sys_run (sys_init w) (replicate (4 + k) Main) = sys_run s4 (replicate k Main)) as H4 by done.
  set (s5 := λ v : W, mkSys StartDocker (Some (start_handler w)) (Some Delay) false v).
  assert (∀ v, sys_step s4 Main = Some (s5 v) →
    let '(r, w') := run_docker h sys_cmd v in
    ∃ k s, k ≤ 12 ∧ sys_run (sys_init w) (replicate k Main) = Some s ∧ ended (s_main s) = Some r ∧ s_world s = w') as Hd.
  { intros v Hv. pose proof (docker_alone (s5 v) _ eq_refl eq_refl eq_refl) as H.
    change (s_world (s5 v)) with v in H. destruct (run_docker h sys_cmd v) as [r w']. destruct H as (s' & H & ? & ?).
    exists 12, s'. split_and!; [done| |done|done]. change 12 with (4 + S 7). rewrite (H4 (S 7)), replicate_S. cbn [sys_run]. by rewrite Hv. }
  unfold mbind at 1, M_bind at 1. unfold sys_step, main_step in Hd. cbn [gone s4 s_main s_world] in Hd.
  destruct (existsb _ sys_cmd) eqn:Ex; [|by apply (Hd w4)].
  unfold mbind at 1, M_bind at 1. destruct (run_checked _ w4) as [[out|e] w5] eqn:E; [by apply (Hd w5)|].
  exists 5, (mkSys (Crashed e) (Some (start_handler w)) (Some Delay) false w5). split_and!; [lia| |done|done].
  change 5 with (4 + 1). rewrite (H4 1). cbn [replicate sys_run]. unfold sys_step, main_step.
  cbn [gone s4 s_main s_world]. by rewrite Ex, E.
Qed.

(** Before docker's start, and in the [finally] clause: an exception at any of these
    statements ends the script. *)
Definition before_docker (p : main_pc) : bool :=
  match p with StartHandler | LogLimits | LogCommand | StartCleanup | Xhost => true | _ => false end.
Definition stopping (p : main_pc) : bool :=
  match p with CancelCleanup _ | CancelHandler _ | ShutSocket _ | JoinCleanup _ | JoinHandler _ => true | _ => false end.

(** What makes the script end, and how: [m] is the move, [s] the state it finds. *)
Inductive settles (s : Sys) : move PS → result () → Prop :=
| docker_ended rc out err st :
    s_main s = Running → exec sys_cmd (w_procs (s_world s), w_fs (s_world s)) = (Finished rc out err, st) →
    settles s Main (Raise (SystemExit rc))
| docker_interrupted st :
    s_main s = Running → exec sys_cmd (w_procs (s_world s), w_fs (s_world s)) = (Interrupted, st) →
    settles s Main (Raise (SystemExit 130))
| docker_missing st :
    s_main s = Running → exec sys_cmd (w_procs (s_world s), w_fs (s_world s)) = (NoSuchProgram, st) →
    settles s Main (Raise (FileNotFoundError "[Errno 2] No such file or directory: 'docker'"))
| interrupted :
    s_main s = StartDocker ∨ s_main s = Running → settles s (Thrown KeyboardInterrupt) (Raise (SystemExit 130))
| xhost_ended e w' :
    s_main s = Xhost → run_checked ["xhost"; "+local:" +:+ rc_user_name c] (s_world s) = (Raise e, w') →
    settles s Main (Raise e)
| thrown e :
    before_docker (s_main s) = true ∨ stopping (s_main s) = true → settles s (Thrown e) (Raise e).

Definition is_thrown (m : move PS) : bool := match m with Thrown _ => true | _ => false end.

(** What the main thread will end with, once docker has, or has ended with. *)
Definition pending (p : main_pc) : option (result ()) :=
  match p with
  | CancelCleanup r | CancelHandler r | ShutSocket r | JoinCleanup r | JoinHandler r => Some (exit_with r)
  | _ => ended p
  end.

Lemma ended_pending p r : ended p = Some r → pending p = Some r.
Proof. by destruct p. Qed.

Lemma sys_cmd_docker : head sys_cmd = Some "docker".
Proof. unfold sys_cmd, docker_cmd. by destruct (h_nofile h). Qed.

Lemma pending_main s s' r : main_step s = Some s' → pending (s_main s') = Some r →
  pending (s_main s) = Some r ∨ settles s Main r.
Proof.
  unfold main_step, on_listener. destruct (s_main s) eqn:E; intros H; try discriminate; try (by injection H as <-; left).
  - destruct (existsb _ _); [|by injection H as <-]. destruct (run_checked _ _) as [[?|?] ?] eqn:Ex; injection H as <-; [done|].
    intros [= <-]. right. by eapply xhost_ended.
  - intros Hp. right. destruct (exec _ _) as [pr [ps f]] eqn:Ex. injection H as <-. injection Hp as <-.
    destruct pr; cbn [docker_outcome exit_with]; rewrite ?sys_cmd_docker;
      [by eapply docker_ended|by eapply docker_missing|by eapply docker_interrupted].
  - apply bind_Some in H as (l & _ & (l' & _ & [= <-])%bind_Some). by left.
  - apply bind_Some in H as (l & _ & (l' & _ & [= <-])%bind_Some). by left.
Qed.

Lemma pending_step s m s' r : sys_step s m = Some s' → pending (s_main s') = Some r →
  (pending (s_main s) = Some r ∧ is_thrown m = false) ∨ settles s m r.
Proof.
  unfold sys_step. destruct (gone (s_main s)) eqn:Hg; [done|]. destruct m as [| |a|ps f|e].
  - intros H Hp. destruct (pending_main s s' r H Hp); auto.
  - intros (p & _ & ([p' w'] & _ & [= <-])%bind_Some)%bind_Some. by left.
  - unfold listener_move. destruct (by_listener a); [|done].
    intros (l & _ & (l' & _ & [= <-])%bind_Some)%bind_Some. by left.
  - intros [= <-]. by left.
  - intros (p & Hp & [= <-])%bind_Some Hr. cbn in Hr. right.
    destruct e, (s_main s) eqn:E; try discriminate Hp; try discriminate Hg; injection Hp as <-; injection Hr as <-;
      first [apply interrupted; rewrite E; by auto|apply thrown; rewrite E; by auto].
Qed.

(** The move that decided how the script ends; no exception came after it. *)
Lemma settled w l s r : sys_run (sys_init w) l = Some s → pending (s_main s) = Some r →
  ∃ l1 m l2 s1, l = l1 ++ m :: l2 ∧ sys_run (sys_init w) l1 = Some s1 ∧ settles s1 m r ∧
    Forall (λ m, is_thrown m = false) l2 ∧ (s_main s1 = Running → sys_cmd ∈ ran (s_world s1)).
Proof.
  revert s. induction l as [|m l IH] using rev_ind; intros s H Hp; [by injection H as <-|].
  apply sys_run_snoc in H as (s1 & H1 & Hs). destruct (pending_step _ _ _ _ Hs Hp) as [[Hp1 Ht]|Hm].
  - destruct (IH s1 H1 Hp1) as (l1 & m1 & l2 & s2 & -> & ? & ? & ? & ?). exists l1, m1, (l2 ++ [m]), s2.
    rewrite <- app_assoc. split_and!; [done..| |done]. apply Forall_app. by repeat constructor.
  - exists l, m, [], s1. split_and!; [done..|]. intros ER. apply inv_reach in H1 as [_ Hst]. rewrite ER in Hst.
    destruct (Hst eq_refl) as (_ & _ & _ & Hd & _). auto.
Qed.

(** C6: However the script ends, whatever the threads and other programs did
    meanwhile, one move of the schedule decided it, the last exception from outside if
    one came after it.  Docker, started before, ended: the script exits with its exit
    code, with 130 if docker was interrupted, or with the error of the missing
    program.  Or the user interrupted the script around docker's run: 130.  Or the
    script dies of an exception: that of [xhost], or one that came to the main thread
    before docker's start or in the [finally] clause. *)
Theorem exit_code_is_dockers w l s r : sys_run (sys_init w) l = Some s → ended (s_main s) = Some r →
  ∃ l1 m l2 s1, l = l1 ++ m :: l2 ∧ sys_run (sys_init w) l1 = Some s1 ∧ settles s1 m r ∧
    Forall (λ m, is_thrown m = false) l2 ∧ (s_main s1 = Running → sys_cmd ∈ ran (s_world s1)).
Proof. intros H Hr. by eapply settled; [|apply ended_pending]. Qed.

(** Nothing moves once the script has died. *)
Lemma crash_last s m s' e : sys_step s m = Some s' → s_main s' = Crashed e →
  (m = Main ∧ s_main s = Xhost) ∨ (m = Thrown e ∧ (before_docker (s_main s) = true ∨ stopping (s_main s) = true)).
Proof.
  intros H Hc. assert (pending (s_main s') = Some (Raise e)) as Hp by (by rewrite Hc).
  unfold sys_step in H. destruct (gone (s_main s)) eqn:Hg; [done|]. destruct m as [| |a|ps f|e'].
  - left. split; [done|]. unfold main_step, on_listener in H.
    destruct (s_main s); try discriminate; try (by injection H as <-); try done;
      try (by apply bind_Some in H as (l & _ & (l' & _ & [= <-])%bind_Some)).
    destruct (exec _ _) as [? [? ?]]. by injection H as <-.
  - apply bind_Some in H as (p & _ & ([p' w'] & _ & [= <-])%bind_Some). cbn in Hc. by rewrite Hc in Hg.
  - unfold listener_move in H. destruct (by_listener a); [|done].
    apply bind_Some in H as (l & _ & (l' & _ & [= <-])%bind_Some). cbn in Hc. by rewrite Hc in Hg.
  - injection H as <-. cbn in Hc. by rewrite Hc in Hg.
  - right. apply bind_Some in H as (p & Hp' & [= <-]). cbn in Hc. subst p.
    destruct e', (s_main s); try discriminate Hp'; injection Hp' as <-; auto.
Qed.

(** In the [finally] clause only an exception changes what is to come. *)
Lemma stopping_step s m s' r : pending (s_main s) = Some r → crashed (s_main s) = false → is_thrown m = false →
  sys_step s m = Some s' → pending (s_main s') = Some r ∧ crashed (s_main s') = false.
Proof.
  intros Hp Hc Ht H. unfold sys_step in H. destruct (gone (s_main s)); [done|]. destruct m as [| |a|ps f|e]; [..|done].
  - unfold main_step, on_listener in H. destruct (s_main s); try discriminate; try (by injection H as <-);
      by apply bind_Some in H as (l & _ & (l' & _ & [= <-])%bind_Some).
  - by apply bind_Some in H as (p & _ & ([p' w'] & _ & [= <-])%bind_Some).
  - unfold listener_move in H. destruct (by_listener a); [|done].
    by apply bind_Some in H as (l & _ & (l' & _ & [= <-])%bind_Some).
  - by injection H as <-.
Qed.

Lemma stopping_run s l s' r : pending (s_main s) = Some r → crashed (s_main s) = false →
  Forall (λ m, is_thrown m = false) l → sys_run s l = Some s' → pending (s_main s') = Some r ∧ crashed (s_main s') = false.
Proof.
  revert s. induction l as [|m l IH]; intros s Hp Hc Ht H; [by injection H as <-|].
  apply bind_Some in H as (s1 & H1 & H). apply Forall_cons in Ht as [Hm Ht].
  destruct (stopping_step _ _ _ _ Hp Hc Hm H1). by eapply IH.
Qed.

Lemma interrupt_exits s l s' : s_main s = StartDocker ∨ s_main s = Running →
  sys_run s (Thrown KeyboardInterrupt :: l) = Some s' → Forall (λ m, is_thrown m = false) l → gone (s_main s') = true →
  s_main s' = Exited (Raise (SystemExit 130)).
Proof.
  intros Hd (s1 & H1 & H)%bind_Some Ht Hg.
  assert (s_main s1 = CancelCleanup (Ok 130%Z)) as E.
  { unfold sys_step in H1. destruct Hd as [Hd|Hd]; rewrite Hd in H1; by injection H1 as <-. }
  destruct (stopping_run s1 l s' (Raise (SystemExit 130))) as [Hp Hc]; [by rewrite E..|done|done|].
  destruct (s_main s'); try done. by injection Hp as ->.
Qed.

(** C7: In every state of every schedule, interrupts and failed starts included: until
    docker has ended, neither thread has been told to stop and the socket is open to
    the container; when the script has exited, both events are set and the socket was
    shut down.  It dies without that in two cases only: before docker's start, of
    [xhost] or an exception from outside, or of an exception that comes while it is
    stopping the threads; never of anything that happens while docker starts or
    runs, whose one interrupt leads to an exit like any other end of docker.  The
    socket is closed exactly when the listener has ended, even after a crash; and
    until it is gone, the main thread can always move, whatever the threads do. *)
Theorem threads_outlive_docker w l s : sys_run (sys_init w) l = Some s →
  (crashed (s_main s) = false → main_pos (s_main s) ≤ main_pos Running →
     s_cancel s = false ∧ ∀ ls, s_listener s = Some ls → c_event ls = false ∧ c_shut ls = false) ∧
  (∀ r, s_main s = Exited r → s_cancel s = true ∧
     ∃ ls, s_listener s = Some ls ∧ c_event ls = true ∧ c_shut ls = true) ∧
  (∀ e, s_main s = Crashed e → ∃ l1 m s1, l = l1 ++ [m] ∧ sys_run (sys_init w) l1 = Some s1 ∧
     ((m = Main ∧ s_main s1 = Xhost) ∨
      (m = Thrown e ∧ (before_docker (s_main s1) = true ∨ stopping (s_main s1) = true)))) ∧
  (s_main s = StartDocker ∨ s_main s = Running → ∀ l' s', sys_run s (Thrown KeyboardInterrupt :: l') = Some s' →
     Forall (λ m, is_thrown m = false) l' → gone (s_main s') = true → s_main s' = Exited (Raise (SystemExit 130))) ∧
  (∀ ls, s_listener s = Some ls → c_closed ls = true ↔ c_pc ls = Ended) ∧
  (gone (s_main s) = false → is_Some (sys_step s Main)).
Proof.
  intros H. apply inv_reach in H as Hi. pose proof (main_enabled s Hi) as Hm. destruct Hi as [Hls Hst]. split_and!.
  - cbn [main_pos]. intros (Hc & _ & _ & _ & Hin)%Hst Hp. split; [rewrite Hc; by apply Nat.leb_gt; lia|].
    intros ls Els. destruct (Hin ls Els) as (_ & -> & _ & ->). split; apply Nat.leb_gt; lia.
  - intros r E. rewrite E in Hst. destruct (Hst eq_refl) as (Hc & Hl & _ & _ & Hin). rewrite E in *. cbn [main_pos] in *.
    split; [done|]. destruct (proj2 Hl) as [ls Els]; [lia|]. exists ls. by destruct (Hin ls Els) as (_ & -> & _ & ->).
  - intros e He. destruct l as [|m l _] using rev_ind; [by injection H as <-|].
    apply sys_run_snoc in H as (s1 & H1 & H). exists l, m, s1. split_and!; [done..|]. by eapply crash_last.
  - intros Hd l' s' Hrun. by eapply interrupt_exits.
  - intros ls Els. by destruct (Hls ls Els) as (? & _).
  - intros Hg. unfold sys_step. rewrite Hg. auto.
Qed.

(** ** After both events are set *)

Definition count_moves (m0 : move PS → bool) (l : list (move PS)) : nat := length (filter (λ m, m0 m = true) l).
Definition by_main (m : move PS) : bool := match m with Main | Thrown _ => true | _ => false end.
Definition by_cleaner (m : move PS) : bool := match m with Cleaner => true | _ => false end.
Definition by_handler (m : move PS) : bool := match m with Listener _ => true | _ => false end.

(** The moves each thread still has. *)
Definition left_main (s : Sys) : nat := if gone (s_main s) then 0 else 12 - main_pos (s_main s).
Definition left_clean (s : Sys) : nat := from_option clean_rank 0 (s_clean s).
Definition left_handler (s : Sys) : nat := from_option rank 0 (s_listener s).
(** The removals the clean-up still starts. *)
Definition left_removals (s : Sys) : nat := from_option (λ p, length (starts p)) 0 (s_clean s).

Definition told (s : Sys) : Prop := sys_inv s ∧ (crashed (s_main s) = false → 9 ≤ main_pos (s_main s)).

(** How many removals a list of commands holds. *)
Definition is_rmi (cmd : list string) : bool :=
  match cmd with [d; r; _] => bool_decide (d = "docker") && bool_decide (r = "rmi") | _ => false end.
Definition rmis (w : W) : list (list string) := filter (λ cmd, is_rmi cmd = true) (ran w).
Definition removals (w : W) : nat := length (rmis w).

Definition spend (b : bool) : nat := if b then 1 else 0.

Lemma is_rmi_spec cmd : is_rmi cmd = true ↔ ∃ tag, cmd = rmi_cmd tag.
Proof.
  split; [|by intros [tag ->]]. destruct cmd as [|d [|r [|t [|? ?]]]]; cbn; try done.
  intros [->%bool_decide_eq_true ->%bool_decide_eq_true]%andb_true_iff. by exists t.
Qed.

Lemma removes_none_rmis (w w' : W) : removes_none w w' → rmis w' = rmis w.
Proof.
  intros (new & H & Hn). unfold rmis. rewrite H, filter_app.
  enough (filter (λ cmd, is_rmi cmd = true) new = []) as -> by apply app_nil_r.
  apply filter_none. intros cmd Hin [tag ->]%is_rmi_spec. by eapply Hn.
Qed.

Lemma removes_none_removals (w w' : W) : removes_none w w' → removals w' = removals w.
Proof. unfold removals. by intros ->%removes_none_rmis. Qed.

Lemma starts_rmis (w w' : W) p : ran w' = ran w ++ starts p → rmis w' = rmis w ++ starts p.
Proof. intros H. unfold rmis. rewrite H, filter_app. by destruct p. Qed.

Lemma starts_removals (w w' : W) p : ran w' = ran w ++ starts p → removals w' = removals w + length (starts p).
Proof. intros H%starts_rmis. unfold removals. by rewrite H, length_app. Qed.

Lemma told_live s : told s → gone (s_main s) = false → staged s ∧ 9 ≤ main_pos (s_main s) < 12.
Proof.
  intros [Hi Hp] Hg. split; [by apply inv_staged|]. specialize (Hp (gone_crashed _ Hg)).
  destruct (s_main s); cbn in *; (lia || done).
Qed.

Lemma told_main s s' : 9 ≤ main_pos (s_main s) → main_step s = Some s' →
  s_clean s' = s_clean s ∧ left_handler s' ≤ left_handler s.
Proof.
  intros Hp H. unfold main_step, on_listener in H. destruct (s_main s) eqn:E; cbn in Hp; try lia; try done;
    try (by injection H as <-).
  apply bind_Some in H as (l & El & (l' & Hl & [= <-])%bind_Some). unfold left_handler. cbn in *. rewrite El.
  split; [done|]. unfold shut_down in Hl. destruct (c_setting l); [|done]. injection Hl as <-.
  unfold rank. cbn. repeat case_match; lia.
Qed.

Lemma told_cleaner s s' : staged s → 9 ≤ main_pos (s_main s) → cleaner_step s = Some s' →
  S (left_clean s') ≤ left_clean s ∧ left_handler s' = left_handler s ∧ s_main s' = s_main s ∧
  removals (s_world s') + left_removals s' ≤ removals (s_world s) + left_removals s.
Proof.
  intros (Hcan & _) Hp (p & Ep & ([p' w'] & H & [= <-])%bind_Some)%bind_Some.
  unfold left_clean, left_handler, left_removals. rewrite Ep.
  rewrite Hcan in H. replace (8 <=? _) with true in H by (symmetry; apply Nat.leb_le; lia).
  cbn [s_clean s_listener s_main s_world from_option]. destruct (decide (p = Choose)) as [->|Hc].
  - apply choose_effect in H as (Hn & Hs & ? & _). rewrite Hs, (removes_none_removals _ _ Hn). split_and!; (done || cbn in *; lia).
  - apply step_effect in H as (Hr & _ & Hb); [|done]. destruct (Hb eq_refl) as [? ->].
    rewrite (starts_removals _ _ _ Hr). split_and!; (done || cbn; lia).
Qed.

Lemma told_listener s a s' : staged s → 9 ≤ main_pos (s_main s) → listener_move a s = Some s' →
  S (left_handler s') ≤ left_handler s ∧ s_clean s' = s_clean s ∧ s_main s' = s_main s.
Proof.
  intros (_ & _ & _ & _ & Hin) Hp H. unfold listener_move in H. destruct (by_listener a) eqn:Ha; [|done].
  apply bind_Some in H as (l & El & (l' & H & [= <-])%bind_Some). destruct (Hin l El) as (_ & He & _).
  apply step_rank in H as [_ Hr]; [|cbn; rewrite He; apply Nat.leb_le; lia]. rewrite Ha in Hr.
  unfold left_handler. cbn. rewrite El. done.
Qed.

(** Once both events are set, an exception can only end the script. *)
Lemma told_thrown p e q : 9 ≤ main_pos p → throw p e = Some q → crashed q = true.
Proof. intros Hp H. destruct e, p; cbn in *; try discriminate H; try lia; by injection H as <-. Qed.

Lemma left_main_same s s' : s_main s' = s_main s → left_main s' = left_main s.
Proof. unfold left_main. by intros ->. Qed.

Lemma told_step s m s' : told s → sys_step s m = Some s' → told s' ∧
  spend (by_main m) + left_main s' ≤ left_main s ∧ spend (by_cleaner m) + left_clean s' ≤ left_clean s ∧
  spend (by_handler m) + left_handler s' ≤ left_handler s ∧
  removals (s_world s') + left_removals s' ≤ removals (s_world s) + left_removals s.
Proof.
  intros Ht H. pose proof (inv_sys_step _ _ _ (proj1 Ht) H) as Hi.
  assert (m ≠ Cleaner → removals (s_world s') = removals (s_world s)) as Hrn.
  { intros Hm. apply step_starts in H as [Hn|(? & ? & _)]; [by apply removes_none_removals|done]. }
  unfold sys_step in H. destruct (gone (s_main s)) eqn:Hg; [done|]. destruct (told_live s Ht Hg) as (Hst & Hp & Hlt).
  assert (left_main s = 12 - main_pos (s_main s)) as Hlm by (unfold left_main; by rewrite Hg).
  destruct m as [| |a|ps f|e]; cbn [by_main by_cleaner by_handler spend].
  - pose proof (main_step_pos _ _ H) as Hpos. destruct (told_main s s' Hp H) as [Hc ?].
    unfold left_clean, left_removals. rewrite Hc, Hrn, Hlm by done.
    split_and!; [split; [done|lia]|unfold left_main; destruct (gone (s_main s')); lia|lia..].
  - destruct (told_cleaner s s' Hst Hp H) as (? & -> & Em & ?). rewrite (left_main_same _ _ Em).
    split_and!; [split; [done|by rewrite Em]|lia..].
  - destruct (told_listener s a s' Hst Hp H) as (? & Ec & Em). unfold left_clean, left_removals.
    rewrite Ec, Hrn, (left_main_same _ _ Em) by done. split_and!; [split; [done|by rewrite Em]|lia..].
  - rewrite Hrn by done. injection H as <-. split_and!; [by split|done..].
  - rewrite Hrn by done. apply bind_Some in H as (q & Hq & [= <-]). apply told_thrown in Hq as Hc; [|done].
    split_and!; [split; [done|cbn; congruence]| |done..]. rewrite Hlm. destruct q; try discriminate Hc. cbn. lia.
Qed.

Lemma told_run s l s' : told s → sys_run s l = Some s' →
  told s' ∧ count_moves by_main l + left_main s' ≤ left_main s ∧ count_moves by_cleaner l + left_clean s' ≤ left_clean s ∧
  count_moves by_handler l + left_handler s' ≤ left_handler s ∧
  removals (s_world s') + left_removals s' ≤ removals (s_world s) + left_removals s.
Proof.
  revert s. induction l as [|m l IH]; intros s Ht H; [injection H as <-; split_and!; (done || cbn; lia)|].
  apply bind_Some in H as (s1 & H1 & H). destruct (told_step _ _ _ Ht H1) as (Ht1 & ? & ? & ? & ?).
  destruct (IH s1 Ht1 H) as (? & ? & ? & ? & ?).
  assert (∀ f, count_moves f (m :: l) = spend (f m) + count_moves f l) as Hf.
  { intros f. unfold count_moves. rewrite filter_cons. destruct (f m); [rewrite decide_True by done|rewrite decide_False by done]; done. }
  rewrite !Hf. split_and!; [done|lia..].
Qed.

(** C8: Stopping is bounded: once both events are set, every schedule leaves the main
    thread at most three more moves, an interrupt counted as its last, the clean-up
    four and the listener three after the socket was shut down, four before, and at
    most one more removal is started.  As long as the script is not gone, no thread
    that has not ended is stuck, and the listener moves on by itself, except where it
    waits for the bytes of a peer that has connected, or the socket is yet to be shut
    down. *)
Theorem stopping_is_bounded w l0 s ls l s' :
  sys_run (sys_init w) l0 = Some s → s_listener s = Some ls → c_event ls = true → sys_run s l = Some s' →
  count_moves by_main l ≤ 3 ∧ count_moves by_cleaner l ≤ 4 ∧
  count_moves by_handler l ≤ (if c_shut ls then 3 else 4) ∧
  removals (s_world s') ≤ removals (s_world s) + 1 ∧
  (gone (s_main s') = false →
     is_Some (sys_step s' Main) ∧
     (∀ p, s_clean s' = Some p → (∀ r, p ≠ Done r) → is_Some (sys_step s' Cleaner)) ∧
     (∀ ls', s_listener s' = Some ls' → c_pc ls' ≠ Ended →
       ∃ a, is_Some (sys_step s' (Listener a)) ∧ (own a = true ∨ c_pc ls' = Recv ∨ c_shut ls' = false))).
Proof.
  intros H0 Els He H. apply inv_reach in H0 as Hi.
  assert (told s) as Ht.
  { split; [done|]. intros Hc. destruct (proj2 Hi Hc) as (_ & _ & _ & _ & Hin). destruct (Hin ls Els) as (_ & E & _).
    rewrite E in He. by apply Nat.leb_le. }
  destruct (told_run _ _ _ Ht H) as (Ht' & Hm & Hc & Hh & Hr).
  assert (left_main s ≤ 3).
  { unfold left_main. destruct (gone (s_main s)) eqn:Hg; [lia|]. destruct (told_live s Ht Hg). lia. }
  assert (left_clean s ≤ 4) by (unfold left_clean; destruct (s_clean s) as [[]|]; cbn; lia).
  assert (left_handler s ≤ if c_shut ls then 3 else 4) by (unfold left_handler; rewrite Els; apply rank_le).
  assert (left_removals s ≤ 1) by (unfold left_removals; destruct (s_clean s) as [[]|]; cbn; lia).
  split_and!; [lia..|]. intros Hg. destruct (told_live s' Ht' Hg) as [(_ & _ & _ & _ & Hin) [Hp' _]].
  unfold sys_step. rewrite Hg. split_and!.
  - apply main_enabled; [apply Ht'|done].
  - intros p Ep Hn. unfold cleaner_step. rewrite Ep. cbn [mbind option_bind].
    destruct (step_total frames devkit_json_path [join_name (parent scripts_dir) "images"] CLEANUP_BATCH_SIZE
      CLEANUP_THRESHOLD_DAYS (s_cancel s') p (s_world s') Hn) as [[p' w'] ->]. by eexists.
  - intros ls' El Hn. destruct (Hin ls' El) as (_ & E & _).
    destruct (listener_enabled (h_port h) (set_world (s_world s') ls')) as (a & l' & Ha & Hl & Ho).
    + cbn. rewrite E. by apply Nat.leb_le.
    + done.
    + exists a. split; [|exact Ho]. unfold listener_move. rewrite Ha, El. cbn [mbind option_bind]. rewrite Hl. by eexists.
Qed.

(** ** Why an image is removed *)

Context {DS : DockerSpec PS} {CS : CleanSpec PS}.

(** At some earlier moment of the schedule the clean-up chose [tag]: it is of an
    allowed name, and not of the current configuration if that could be read then. *)
Definition chosen (w : W) (l : list (move PS)) (tag : string) : Prop :=
  ∃ l1 l2 s1, l = l1 ++ Cleaner :: l2 ∧ sys_run (sys_init w) l1 = Some s1 ∧ s_clean s1 = Some Choose ∧
    allowed tag = true ∧
    ∀ tags w1, get_all_docker_image_tags frames devkit_json_path [join_name (parent scripts_dir) "images"] [] (s_world s1)
               = (Ok tags, w1) → tag ∉ tags.

(** The other threads leave the clean-up where it is; the main thread starts it. *)
Lemma others_clean s m s' : sys_step s m = Some s' → by_cleaner m = false →
  s_clean s' = s_clean s ∨ s_clean s' = Some Delay.
Proof.
  unfold sys_step. destruct (gone (s_main s)); [done|]. destruct m as [| |a|ps f|e]; intros H Hm; [|done|..].
  - unfold main_step, on_listener in H. destruct (s_main s); try discriminate; try (injection H as <-; by auto).
    + destruct (existsb _ _); [destruct (run_checked _ _) as [[?|?] ?]|]; injection H as <-; by left.
    + destruct (exec _ _) as [? [? ?]]. injection H as <-. by left.
    + apply bind_Some in H as (l & _ & (l' & _ & [= <-])%bind_Some). by left.
    + apply bind_Some in H as (l & _ & (l' & _ & [= <-])%bind_Some). by left.
  - unfold listener_move in H. destruct (by_listener a); [|done].
    apply bind_Some in H as (l & _ & (l' & _ & [= <-])%bind_Some). by left.
  - injection H as <-. by left.
  - apply bind_Some in H as (p & _ & [= <-]). by left.
Qed.

Lemma chosen_more w l m tag : chosen w l tag → chosen w (l ++ [m]) tag.
Proof. intros (l1 & l2 & s1 & -> & ?). exists l1, (l2 ++ [m]), s1. by rewrite <- app_assoc. Qed.

(** The images the thread holds were chosen. *)
Lemma tags_chosen w l s p tag : sys_run (sys_init w) l = Some s → s_clean s = Some p → tag ∈ pc_tags p → chosen w l tag.
Proof.
  revert s p tag. induction l as [|m l IH] using rev_ind; intros s p tag H Ep Hin; [by injection H as <-|].
  apply sys_run_snoc in H as (s1 & H1 & H).
  destruct (decide (by_cleaner m = true)) as [Hm|Hm].
  - destruct m; try done. unfold sys_step in H. destruct (gone _); [done|].
    apply bind_Some in H as (p1 & E1 & ([p' w'] & H & [= <-])%bind_Some). injection Ep as ->.
    destruct (decide (p1 = Choose)) as [->|Hc].
    + apply choose_effect in H as (_ & _ & _ & Hch). destruct (Hch tag Hin) as (cand & w1 & Hcand & Hin').
      apply candidates_spec in Hcand as [Hall Htags]. rewrite Forall_forall in Hall.
      exists l, [], s1. split_and!; [done..|by apply Hall|]. intros tags w2 Ht.
      specialize (Htags tags w2 Ht). rewrite Forall_forall in Htags. by apply Htags.
    + apply step_effect in H as (_ & Hsub & _); [|done]. apply chosen_more. eapply IH; [done..|]. by apply Hsub.
  - apply others_clean in H as [E|E]; [| |by apply not_true_is_false].
    + rewrite E in Ep. apply chosen_more. by eapply IH.
    + rewrite E in Ep. injection Ep as <-. by apply elem_of_nil in Hin.
Qed.

(** C5: Whatever the schedule, an image is only removed for a reason: every
    [docker rmi] of a run was preceded, in that run, by a choice of the clean-up at
    which the image had an allowed name and was not among the tags of the current
    configuration, if those could be computed at that moment. *)
Theorem removals_are_chosen w l s : sys_run (sys_init w) l = Some s →
  ∃ new, ran (s_world s) = ran w ++ new ∧ ∀ tag, rmi_cmd tag ∈ new → chosen w l tag.
Proof.
  revert s. induction l as [|m l IH] using rev_ind; intros s H.
  { injection H as <-. exists []. rewrite app_nil_r. split; [done|]. by intros tag ?%elem_of_nil. }
  apply sys_run_snoc in H as (s1 & H1 & H). destruct (IH s1 H1) as (new & Hr & Hnew).
  apply step_starts in H as [(k & Hk & Hn)|(p & -> & Ep & _ & Hk)].
  - exists (new ++ k). rewrite Hk, Hr, app_assoc. split; [done|].
    intros tag [Hin|Hin]%elem_of_app; [by apply chosen_more, Hnew|by destruct (Hn tag)].
  - exists (new ++ starts p). rewrite Hk, Hr, app_assoc. split; [done|].
    intros tag [Hin|Hin]%elem_of_app; apply chosen_more; [by apply Hnew|].
    destruct p; try by apply elem_of_nil in Hin. apply list_elem_of_singleton in Hin. injection Hin as <-.
    eapply tags_chosen; [done..|]. left.
Qed.

(** ** In which order images are removed *)

Local Abbreviation choice :=
  (get_images_to_cleanup frames devkit_json_path [join_name (parent scripts_dir) "images"] CLEANUP_THRESHOLD_DAYS).

(** Either the thread has not chosen, and has removed nothing; or the choice [L] was
    made at some earlier moment of the schedule, and is being worked off in order. *)
Definition unchosen (s : Sys) (k : list string) : Prop :=
  k = [] ∧ ∀ p, s_clean s = Some p →
    p = Delay ∨ p = Choose ∨ (∃ e, p = Done (Raise e)) ∨ (p = Done (Ok tt) ∧ s_cancel s = true).

Definition chose (w : W) (l : list (move PS)) (L : list string) : Prop :=
  ∃ l1 l2 s1 w1, l = l1 ++ Cleaner :: l2 ∧ sys_run (sys_init w) l1 = Some s1 ∧ s_clean s1 = Some Choose ∧
    choice (s_world s1) = (Ok L, w1).

Definition working (w : W) (l : list (move PS)) (s : Sys) (k : list string) : Prop :=
  ∃ L p, chose w l L ∧ s_clean s = Some p ∧ p ≠ Delay ∧ p ≠ Choose ∧ in_order k L (s_cancel s) p.

(** The others leave the clean-up alone once it has been started, and never withdraw
    the event. *)
Lemma others_cancel s m s' : staged s → sys_step s m = Some s' → by_cleaner m = false → s_clean s ≠ None →
  s_clean s' = s_clean s ∧ (s_cancel s = true → s_cancel s' = true).
Proof.
  intros (_ & _ & Hc & _) H Hm Hn. unfold sys_step in H. destruct (gone (s_main s)); [done|].
  destruct m as [| |a|ps f|e]; [|done|..].
  - unfold main_step, on_listener in H. destruct (s_main s); try discriminate; try (by injection H as <-).
    + exfalso. destruct (s_clean s); [|done]. destruct Hc as [Hc _]. specialize (Hc ltac:(by eexists)). cbn in Hc. lia.
    + destruct (existsb _ _); [destruct (run_checked _ _) as [[?|?] ?]|]; by injection H as <-.
    + destruct (exec _ _) as [? [? ?]]. by injection H as <-.
    + by apply bind_Some in H as (l & _ & (l' & _ & [= <-])%bind_Some).
    + by apply bind_Some in H as (l & _ & (l' & _ & [= <-])%bind_Some).
  - unfold listener_move in H. destruct (by_listener a); [|done].
    by apply bind_Some in H as (l & _ & (l' & _ & [= <-])%bind_Some).
  - by injection H as <-.
  - by apply bind_Some in H as (p & _ & [= <-]).
Qed.

Lemma step_live s m s' : sys_step s m = Some s' → gone (s_main s) = false.
Proof. unfold sys_step. by destruct (gone (s_main s)). Qed.

Lemma chose_more w l m L : chose w l L → chose w (l ++ [m]) L.
Proof. intros (l1 & l2 & s1 & w1 & -> & ?). exists l1, (l2 ++ [m]), s1, w1. by rewrite <- app_assoc. Qed.

Lemma order_others w l s m s' k : sys_inv s → sys_step s m = Some s' → by_cleaner m = false →
  unchosen s k ∨ working w l s k → unchosen s' k ∨ working w (l ++ [m]) s' k.
Proof.
  intros Hi H Hm Hk. pose proof (inv_staged _ Hi (step_live _ _ _ H)) as Hst.
  destruct (s_clean s) as [p|] eqn:Ep.
  - destruct (others_cancel s m s' Hst H Hm) as [E Hc]; [by rewrite Ep|]. rewrite Ep in E.
    destruct Hk as [[-> Hk]|(L & p' & Hch & Ep' & Hd & Hc' & Ho)].
    + left. split; [done|]. intros q Eq. rewrite E in Eq. injection Eq as <-.
      destruct (Hk p Ep) as [?|[?|[?|[? ?]]]]; [by auto..|]. do 3 right. auto.
    + right. rewrite Ep in Ep'. injection Ep' as <-. exists L, p. split_and!; [by apply chose_more|done..|].
      destruct (s_cancel s') eqn:Es'; [by eapply in_order_cancel|]. destruct (s_cancel s); [by discriminate Hc|done].
  - left. destruct Hk as [[-> _]|(L & p' & _ & Ep' & _)]; [|congruence]. split; [done|].
    intros q Eq. destruct (others_clean s m s' H Hm) as [E|E]; [congruence|]. rewrite E in Eq. injection Eq as <-. by left.
Qed.

Lemma order_cleaner w l s s' k : sys_run (sys_init w) l = Some s → sys_step s Cleaner = Some s' →
  unchosen s k ∨ working w l s k →
  ∃ k', rmis (s_world s') = rmis (s_world s) ++ (rmi_cmd <$> k') ∧ (unchosen s' (k ++ k') ∨ working w (l ++ [Cleaner]) s' (k ++ k')).
Proof.
  intros Hrun H Hk. unfold sys_step in H. destruct (gone _); [done|].
  apply bind_Some in H as (p & Ep & ([p' w'] & H & [= <-])%bind_Some). cbn [s_world].
  apply step_left in H as Hl. destruct Hl as [Hnd Hch]. destruct (decide (p = Choose)) as [->|Hc].
  - apply choose_effect in H as He. destruct He as (Hn & _). exists []. rewrite app_nil_r, (removes_none_rmis _ _ Hn).
    rewrite app_nil_r. split; [done|]. destruct Hk as [[-> _]|(L & q & _ & Eq & _ & ? & _)]; [|congruence].
    apply in_order_choose in H as [(L & w1 & Hcand & Ho)|[e ->]]; [|left; split; [done|intros q [= <-]; eauto]|done].
    right. exists L, p'. split_and!; [by exists l, [], s, w1|done|done| |done].
    intros ->. by discriminate Hch.
  - apply step_effect in H as He; [|done]. destruct He as [Hr _]. exists (started p).
    rewrite (starts_rmis _ _ _ Hr), starts_started. split; [done|].
    destruct Hk as [[-> Hk]|(L & q & HL & Eq & Hd & ? & Ho)].
    + left. destruct (Hk p Ep) as [->|[?|[[e ->]|[-> _]]]]; [|done..].
      split; [done|]. intros q [= <-]. cbn [clean_step] in H. injection H as <- <-.
      cbn. destruct (s_cancel s); auto.
    + right. rewrite Ep in Eq. injection Eq as <-. exists L, p'. split_and!; [by apply chose_more|done|done| |].
      { intros ->. by rewrite Hch in Hd. }
      cbn [s_cancel]. by eapply in_order_step.
Qed.

Lemma removal_order w l s : sys_run (sys_init w) l = Some s →
  ∃ k, rmis (s_world s) = rmis w ++ (rmi_cmd <$> k) ∧ (unchosen s k ∨ working w l s k).
Proof.
  revert s. induction l as [|m l IH] using rev_ind; intros s H.
  { injection H as <-. exists []. rewrite app_nil_r. split; [done|]. by left. }
  apply sys_run_snoc in H as (s1 & H1 & H). destruct (IH s1 H1) as (k & Hr & Hk).
  destruct (decide (by_cleaner m = true)) as [Hm|Hm%not_true_is_false].
  - destruct m; try discriminate Hm. destruct (order_cleaner w l s1 s k H1 H Hk) as (k' & Hr' & Hk').
    exists (k ++ k'). by rewrite Hr', Hr, fmap_app, app_assoc.
  - exists k. split; [|by eapply order_others; [eapply inv_reach|..]].
    apply step_starts in H as [Hn|(p & -> & _)]; [|done]. by rewrite (removes_none_rmis _ _ Hn).
Qed.

(** C9: Whatever the schedule, the removals of a run are worked off in order: those
    started are the beginning of the list of candidates that one choice of the
    clean-up, at an earlier moment of that run, returned, each at most once and none
    skipped; and all of them if the clean-up has ended normally and was not told to
    stop. *)
Theorem removals_follow_choice w l s : sys_run (sys_init w) l = Some s →
  ∃ k, rmis (s_world s) = rmis w ++ (rmi_cmd <$> k) ∧
    (k ≠ [] ∨ (s_clean s = Some (Done (Ok tt)) ∧ s_cancel s = false) →
     ∃ l1 l2 s1 L w1, l = l1 ++ Cleaner :: l2 ∧ sys_run (sys_init w) l1 = Some s1 ∧ s_clean s1 = Some Choose ∧
       choice (s_world s1) = (Ok L, w1) ∧ k `prefix_of` L ∧
       (s_clean s = Some (Done (Ok tt)) → s_cancel s = false → k = L)).
Proof.
  intros H. destruct (removal_order w l s H) as (k & Hr & Hk). exists k. split; [done|]. intros Hd.
  destruct Hk as [[-> Hk]|(L & p & (l1 & l2 & s1 & w1 & ? & ? & ? & ?) & Ep & _ & _ & Hp & Ho)].
  - exfalso. destruct Hd as [?|[Ed Hc]]; [done|]. destruct (Hk _ Ed) as [?|[?|[[e ?]|[_ ?]]]]; congruence.
  - exists l1, l2, s1, L, w1. split_and!; [done..| |].
    + etrans; [|exact Hp]. by eexists.
    + intros Ed Hc. rewrite Ep in Ed. injection Ed as ->. destruct (Ho Hc) as [E|[e ?]]; [|done].
      cbn in E. by rewrite app_nil_r in E.
Qed.
End system.

(** ** A run on the repository of [Sim]

    The old image is being removed when docker ends. *)

Definition demo_host : host :=
  mkHost (Path_of "/home/u") 1000 1000 (λ _, Some "u") (λ _, Some "u") (λ _, Some 999%Z) false false (1024, 4096)%Z "box" 4711.

Definition demo_places : places :=
  mkPlaces (Path_of "/repo") (Path_of "/repo") (Path_of "/repo") (Path_of "/home/u") (Path_of "/home/u") (Path_of "/home/u")
    (Path_of "/tmp") (Path_of "/tmp").

Definition demo_run_config : run_config :=
  mkRunConfig demo_places (Path_of "/repo") "u" 1000 "u" 1000 999 (Path_of "/run/user/1000/bus") [] [] [] [].

Definition demo_scripts : Path := Path_of "/repo/scripts".

Definition demo_sys_run : sys sim → list (move sim) → option (sys sim) :=
  sys_run demo_host 2 demo_scripts ["img"; "bash"] demo_config_path demo_run_config.

(** Docker starts, the clean-up comes to the removal, docker ends; then the main
    thread sets both events. *)
Definition demo_before : list (move sim) :=
  replicate 6 Main ++ [Listener Run; Cleaner; Cleaner; Cleaner] ++ replicate 3 Main.
(** The removal is started all the same, and cut off. *)
Definition demo_after : list (move sim) := replicate 3 Cleaner ++ [Listener Run] ++ replicate 3 Main.

Definition demo_told : sys sim :=
  Eval vm_compute in default (sys_init full_world) (demo_sys_run (sys_init full_world) demo_before).
Definition demo_gone : sys sim :=
  Eval vm_compute in default (sys_init full_world) (demo_sys_run demo_told demo_after).
Definition demo_told_listener : conf :=
  Eval vm_compute in default (start_handler full_world) (s_listener demo_told).

Lemma threads_outlive_docker_witness :
  s_cancel demo_gone = true ∧
  ∃ ls, s_listener demo_gone = Some ls ∧ c_event ls = true ∧ c_shut ls = true.
Proof.
  refine (proj1 (proj2 (threads_outlive_docker demo_host 2 demo_scripts ["img"; "bash"] demo_config_path demo_run_config full_world
    (demo_before ++ demo_after) demo_gone _)) (Raise (SystemExit 0)) _); vm_refl.
Defined.

Lemma exit_code_is_dockers_witness :
  ∃ l1 m l2 s1, demo_before ++ demo_after = l1 ++ m :: l2 ∧ demo_sys_run (sys_init full_world) l1 = Some s1 ∧
    settles demo_host demo_scripts ["img"; "bash"] demo_run_config s1 m (Raise (SystemExit 0)) ∧
    Forall (λ m, is_thrown m = false) l2 ∧
    (s_main s1 = Running → sys_cmd demo_host demo_scripts ["img"; "bash"] demo_run_config ∈ ran (s_world s1)).
Proof.
  apply (exit_code_is_dockers demo_host 2 demo_scripts ["img"; "bash"] demo_config_path demo_run_config full_world
    (demo_before ++ demo_after) demo_gone); vm_refl.
Defined.

Lemma stopping_is_bounded_witness :
  count_moves by_main demo_after ≤ 3 ∧ count_moves by_cleaner demo_after ≤ 4 ∧ count_moves by_handler demo_after ≤ 4 ∧
  removals (s_world demo_gone) ≤ removals (s_world demo_told) + 1 ∧
  (gone (s_main demo_gone) = false →
     is_Some (sys_step demo_host 2 demo_scripts ["img"; "bash"] demo_config_path demo_run_config demo_gone Main) ∧
     (∀ p, s_clean demo_gone = Some p → (∀ r, p ≠ Done r) →
       is_Some (sys_step demo_host 2 demo_scripts ["img"; "bash"] demo_config_path demo_run_config demo_gone Cleaner)) ∧
     (∀ ls', s_listener demo_gone = Some ls' → c_pc ls' ≠ Ended →
       ∃ a, is_Some (sys_step demo_host 2 demo_scripts ["img"; "bash"] demo_config_path demo_run_config demo_gone (Listener a)) ∧
         (own a = true ∨ c_pc ls' = Recv ∨ c_shut ls' = false))).
Proof.
  apply (stopping_is_bounded demo_host 2 demo_scripts ["img"; "bash"] demo_config_path demo_run_config full_world
    demo_before demo_told demo_told_listener demo_after demo_gone); vm_refl.
Defined.

Lemma removals_are_chosen_witness :
  ∃ new, ran (s_world demo_gone) = [] ++ new ∧
    ∀ tag, rmi_cmd tag ∈ new →
      chosen demo_host 2 demo_scripts ["img"; "bash"] demo_config_path demo_run_config full_world (demo_before ++ demo_after) tag.
Proof.
  apply (removals_are_chosen demo_host 2 demo_scripts ["img"; "bash"] demo_config_path demo_run_config full_world
    (demo_before ++ demo_after) demo_gone); vm_refl.
Defined.

(** The clean-up ends while docker runs. *)
Definition demo_cleaning : list (move sim) := replicate 6 Main ++ replicate 8 Cleaner.
Definition demo_cleaned : sys sim :=
  Eval vm_compute in default (sys_init full_world) (demo_sys_run (sys_init full_world) demo_cleaning).

Lemma removals_follow_choice_witness :
  ∃ k, rmis (s_world demo_cleaned) = [] ++ (rmi_cmd <$> k) ∧
    ∃ l1 l2 s1 L w1, demo_cleaning = l1 ++ Cleaner :: l2 ∧ demo_sys_run (sys_init full_world) l1 = Some s1 ∧
      s_clean s1 = Some Choose ∧
      get_images_to_cleanup 2 demo_config_path [join_name (parent demo_scripts) "images"] CLEANUP_THRESHOLD_DAYS (s_world s1) = (Ok L, w1) ∧
      k `prefix_of` L ∧ (s_clean demo_cleaned = Some (Done (Ok tt)) → s_cancel demo_cleaned = false → k = L).
Proof.
  destruct (removals_follow_choice demo_host 2 demo_scripts ["img"; "bash"] demo_config_path demo_run_config full_world
    demo_cleaning demo_cleaned ltac:(vm_refl)) as (k & Hr & Hk).
  exists k. split; [exact Hr|]. apply Hk. right. by split.
Defined.

(** One removal was started after both events were set. *)
Example demo_one_removal :
  removals (s_world demo_told) = 0 ∧ removals (s_world demo_gone) = 1 ∧ s_clean demo_gone = Some (Done (Ok tt)).
Proof. vm_compute. done. Qed.

(** Interrupted while docker runs, the script stops both threads and exits with 130;
    interrupted again before it has, it dies of the second interrupt and leaves the
    socket open. *)
Definition demo_ends (l : list (move sim)) : option (main_pc * bool * option bool) :=
  s ← demo_sys_run (sys_init full_world) l; Some (s_main s, s_cancel s, c_shut <$> s_listener s).

Example demo_interrupts :
  demo_ends (replicate 6 Main ++ [Thrown KeyboardInterrupt] ++ replicate 5 Main)
  = Some (Exited (Raise (SystemExit 130)), true, Some true) ∧
  demo_ends (replicate 6 Main ++ [Thrown KeyboardInterrupt; Main; Thrown KeyboardInterrupt])
  = Some (Crashed KeyboardInterrupt, true, Some false) ∧
  demo_ends [Thrown (RuntimeError "can't start new thread")] = Some (Crashed (RuntimeError "can't start new thread"), false, None).
Proof. vm_compute. done. Qed.
