(* ===== verification/IssueCert.v ===== *)
(** * The certificate of an API response (tools/issue_certificate_response_to_der.py)

    Reads a JSON response, takes its first signed certificate and writes the bytes
    that its base64 text stands for. *)

From stdpp Require Import base gmap list strings.
From Stdlib Require Import Ascii ZArith NArith Lia.
From S2P Require Import Prelude PyStr Fs World Json.

(** ** [base64.b64decode]

    [binascii.a2b_base64] in its lenient mode: characters outside the alphabet are
    skipped and the padding ends the text. *)

Definition b64_value (c : ascii) : option N :=
  let n := code c in
  if (65 <=? n)%N && (n <=? 90)%N then Some (n - 65)%N
  else if (97 <=? n)%N && (n <=? 122)%N then Some (n - 71)%N
  else if is_digit c then Some (n + 4)%N
  else if (n =? 43)%N then Some 62%N
  else if (n =? 47)%N then Some 63%N
  else None.

(** The text ends inside a group: one character of it cannot make a byte; two or
    three can, but the padding is missing. [written] bytes came before. *)
Definition binascii_error (quad_pos written : N) : exn :=
  if (quad_pos =? 1)%N then
    ValueError ("Invalid base64-encoded string: number of data characters (" +:+ str_of_Z (Z.of_N (written / 3 * 4 + 1))
                +:+ ") cannot be 1 more than a multiple of 4")
  else ValueError "Incorrect padding".

(** [quad_pos] characters of a group were read and [leftchar] holds their bits not
    yet written; [pads] counts the [=] since the last character and [written] the
    bytes so far. *)
Fixpoint a2b_go (quad_pos leftchar pads written : N) (s : string) : result string :=
  match s with
  | "" => if (quad_pos =? 0)%N then Ok "" else Raise (binascii_error quad_pos written)
  | String c s =>
      if bool_decide (c = "="%char) then
        if (2 <=? quad_pos)%N then
          if (4 <=? quad_pos + (pads + 1))%N then Ok "" else a2b_go quad_pos leftchar (pads + 1) written s
        else a2b_go quad_pos leftchar pads written s
      else
        match b64_value c with
        | None => a2b_go quad_pos leftchar pads written s
        | Some v =>
            match quad_pos with
            | 0%N => a2b_go 1 v 0 written s
            | 1%N => r ← a2b_go 2 (v mod 16) 0 (written + 1) s; Ok (String (ascii_of_N (leftchar * 4 + v / 16)) r)
            | 2%N => r ← a2b_go 3 (v mod 4) 0 (written + 1) s; Ok (String (ascii_of_N (leftchar * 16 + v / 4)) r)
            | _ => r ← a2b_go 0 0 0 (written + 1) s; Ok (String (ascii_of_N (leftchar * 64 + v)) r)
            end
        end
  end.

Definition b64decode (s : string) : result string :=
  if str_forall (λ c, (code c <=? 127)%N) s then a2b_go 0 0 0 0 s
  else Raise (ValueError "string argument should contain only ASCII characters").

Section cert.
Context {PS : Type}.
Local Abbreviation W := (World PS).

(** [certs] falls back to the other spelling when it is missing or empty. *)
Definition certs_of (data : json) : result json :=
  a ← py_get data "signedCertificates";
  match a with
  | Some v => if truthy v then Ok v else b ← py_get data "signed_certificates"; Ok (default JNull b)
  | None => b ← py_get data "signed_certificates"; Ok (default JNull b)
  end.

Definition extract_cert_from_json (json_input : string) : M W (option json) :=
  try_with
    (data ← lift_result (json_loads json_input);
     certs ← lift_result (certs_of data);
     match certs with
     | JArr (c :: _) => mret (Some c)
     | _ => eprintln "Error: Could not find 'signedCertificates' field in input." ;; mret None
     end)
    (λ e, match e with
          | JSONDecodeError m => Some (eprintln ("Error decoding JSON: " +:+ m) ;; mret None)
          | _ => None
          end).

Definition cert_error_text (e : exn) : string := match e with ValueError m | OSError m => m | _ => "" end.

(** The message of what [b64decode v] raises; the type error names the type of [v]. *)
Definition b64_error_text (v : json) (e : exn) : string :=
  match e with
  | TypeError => "argument should be a bytes-like object or ASCII string, not '" +:+ json_type_name v +:+ "'"
  | _ => cert_error_text e
  end.

(** The script; [stdin] is what reading the standard input gives. *)
Definition cert_main (stdin : result string) : M W () :=
  json_content ← try_with (lift_result stdin)
    (λ e, if is_Exception e then Some (eprintln ("Error reading from stdin: " +:+ cert_error_text e) ;; sys_exit 1) else None);
  b64_cert ← extract_cert_from_json json_content;
  match b64_cert with
  | Some v =>
      if truthy v then
        try_with
          (der_output ← lift_result (match v with JStr s => b64decode s | _ => Raise TypeError end);
           print der_output)
          (λ e, if is_Exception e then Some (eprintln ("Error decoding Base64: " +:+ b64_error_text v e) ;; sys_exit 1) else None)
      else sys_exit 1
  | None => sys_exit 1
  end.
End cert.

(** ** Encoding, and back *)

Definition b64_char (v : N) : ascii :=
  ascii_of_N (if v <? 26 then v + 65 else if v <? 52 then v + 71 else if v <? 62 then v - 4
              else if v =? 62 then 43 else 47)%N.

(** Base64 as RFC 4648 defines it. *)
Fixpoint b64encode (s : string) : string :=
  match s with
  | "" => ""
  | String a "" =>
      String (b64_char (code a / 4)) (String (b64_char (code a mod 4 * 16)) "==")
  | String a (String b "") =>
      String (b64_char (code a / 4)) (String (b64_char (code a mod 4 * 16 + code b / 16))
        (String (b64_char (code b mod 16 * 4)) "="))
  | String a (String b (String c s)) =>
      String (b64_char (code a / 4)) (String (b64_char (code a mod 4 * 16 + code b / 16))
        (String (b64_char (code b mod 16 * 4 + code c / 64)) (String (b64_char (code c mod 64)) (b64encode s))))
  end.

Lemma code_bound c : (code c < 256)%N.
Proof. destruct c as [[] [] [] [] [] [] [] []]; done. Qed.

Lemma ascii_code c n : n = code c → ascii_of_N n = c.
Proof. intros ->. apply ascii_N_embedding. Qed.

Lemma b64_char_ok v : (v < 64)%N →
  b64_value (b64_char v) = Some v ∧ b64_char v ≠ "="%char ∧ (code (b64_char v) <=? 127)%N = true.
Proof.
  intros Hv. set (ok v := bool_decide (b64_value (b64_char v) = Some v) && negb (bool_decide (b64_char v = "="%char))
                          && (code (b64_char v) <=? 127)%N).
  assert (forallb ok (N.of_nat <$> seq 0 64) = true) as H by (vm_compute; reflexivity).
  rewrite forallb_forall in H. specialize (H v). unfold ok in H. rewrite !andb_true_iff, negb_true_iff in H.
  destruct H as [[H1%bool_decide_eq_true H2%bool_decide_eq_false] H3]; [|done].
  apply list_elem_of_In, list_elem_of_fmap. exists (N.to_nat v). rewrite N2Nat.id. split; [done|].
  apply elem_of_seq. lia.
Qed.

(** One more character of a group. *)
Lemma a2b_step qp lc v written s : (v < 64)%N →
  a2b_go qp lc 0 written (String (b64_char v) s) =
  match qp with
  | 0%N => a2b_go 1 v 0 written s
  | 1%N => r ← a2b_go 2 (v mod 16) 0 (written + 1) s; Ok (String (ascii_of_N (lc * 4 + v / 16)) r)
  | 2%N => r ← a2b_go 3 (v mod 4) 0 (written + 1) s; Ok (String (ascii_of_N (lc * 16 + v / 4)) r)
  | _ => r ← a2b_go 0 0 0 (written + 1) s; Ok (String (ascii_of_N (lc * 64 + v)) r)
  end.
Proof.
  intros (H1 & H2 & _)%b64_char_ok. cbn [a2b_go]. by rewrite bool_decide_eq_false_2, H1.
Qed.

(** The bits of the groups come back; [a], [b] and [c] are bytes. *)
Ltac bits := zify; Z.to_euclidean_division_equations; lia.

Lemma b64_bits a b c : (a < 256)%N → (b < 256)%N → (c < 256)%N →
  (a / 4 < 64 ∧ a mod 4 * 16 + b / 16 < 64 ∧ b mod 16 * 4 + c / 64 < 64 ∧ c mod 64 < 64)%N ∧
  (a / 4 * 4 + (a mod 4 * 16 + b / 16) / 16 = a ∧
   (a mod 4 * 16 + b / 16) mod 16 * 16 + (b mod 16 * 4 + c / 64) / 4 = b ∧
   (b mod 16 * 4 + c / 64) mod 4 * 64 + c mod 64 = c)%N.
Proof. intros. split_and!; bits. Qed.

Lemma b64_round_trip_go s : (∀ n, a2b_go 0 0 0 n (b64encode s) = Ok s) ∧ str_forall (λ c, (code c <=? 127)%N) (b64encode s) = true.
Proof.
  assert (∀ (P : string → Prop), P "" → (∀ a, P (String a "")) → (∀ a b, P (String a (String b ""))) →
    (∀ a b c s, P s → P (String a (String b (String c s)))) → ∀ s, P s) as Hind.
  { intros P H0 H1 H2 H3. fix IH 1. intros [|a [|b [|c s']]]; [exact H0|apply H1|apply H2|apply H3, IH]. }
  assert (∀ lc n, a2b_go 2 lc 0 n "==" = Ok "") as Hpad2 by done.
  assert (∀ lc n, a2b_go 3 lc 0 n "=" = Ok "") as Hpad1 by done.
  revert s. apply Hind; [done|intros a|intros a b|intros a b c s [IH1 IH2]].
  - destruct (b64_bits (code a) 0 0) as [(B1 & B2 & _) (D1 & _)]; [apply code_bound|done..|].
    change (0 / 16)%N with 0%N in *. rewrite N.add_0_r in *. split.
    + intros n. cbn [b64encode]. rewrite !a2b_step, Hpad2 by done. cbn. by rewrite (ascii_code a).
    + cbn. by rewrite (proj2 (proj2 (b64_char_ok _ B1))), (proj2 (proj2 (b64_char_ok _ B2))).
  - destruct (b64_bits (code a) (code b) 0) as [(B1 & B2 & B3 & _) (D1 & D2 & _)]; [apply code_bound|apply code_bound|done|].
    change (0 / 64)%N with 0%N in *. rewrite N.add_0_r in *. split.
    + intros n. cbn [b64encode]. rewrite !a2b_step, Hpad1 by done. cbn. by rewrite (ascii_code a), (ascii_code b).
    + cbn. by rewrite (proj2 (proj2 (b64_char_ok _ B1))), (proj2 (proj2 (b64_char_ok _ B2))), (proj2 (proj2 (b64_char_ok _ B3))).
  - destruct (b64_bits (code a) (code b) (code c)) as [(B1 & B2 & B3 & B4) (D1 & D2 & D3)]; [apply code_bound..|]. split.
    + intros n. cbn [b64encode]. rewrite !a2b_step by done. rewrite IH1. cbn [mbind result_bind].
      by rewrite (ascii_code a), (ascii_code b), (ascii_code c) by done.
    + cbn [b64encode str_forall]. by rewrite (proj2 (proj2 (b64_char_ok _ B1))), (proj2 (proj2 (b64_char_ok _ B2))),
        (proj2 (proj2 (b64_char_ok _ B3))), (proj2 (proj2 (b64_char_ok _ B4))).
Qed.

Lemma b64_round_trip s : b64decode (b64encode s) = Ok s.
Proof. destruct (b64_round_trip_go s) as [H1 H2]. unfold b64decode. by rewrite H2. Qed.

Lemma a2b_raise qp lc p n s e : a2b_go qp lc p n s = Raise e → ∃ qp' n', e = binascii_error qp' n'.
Proof.
  revert qp lc p n. induction s as [|c s IH]; intros qp lc p n H; cbn [a2b_go] in H; [case_match; simplify_eq; eauto|].
  unfold mbind, result_bind in H.
  repeat case_match; simplify_eq; eauto.
Qed.

Lemma b64decode_raise s e : b64decode s = Raise e → is_Exception e = true.
Proof. unfold b64decode. case_match; [|by intros [= <-]].
  intros (qp & n & ->)%a2b_raise. unfold binascii_error. by destruct (qp =? 1)%N. Qed.

(** ** What the script guarantees *)

(** C37: Given a response whose first signed certificate is the base64 of some
    bytes, the script writes exactly these bytes and nothing else, and succeeds. *)
Theorem cert_bytes_recovered {PS : Type} text fields rest der (w : World PS) :
  json_loads text = Ok (JObj fields) →
  assoc "signedCertificates" fields = Some (JArr (JStr (b64encode der) :: rest)) → der ≠ "" →
  cert_main (Ok text) w = (Ok tt, emit_event (Stdout der) w).
Proof.
  intros Hj Ha Hne. unfold cert_main. erewrite M_bind_ok by reflexivity.
  rewrite (M_bind_ok (extract_cert_from_json text) _ w (Some (JStr (b64encode der))) w).
  2: { unfold extract_cert_from_json, try_with, lift_result, mbind, M_bind. rewrite Hj.
       unfold certs_of. cbn [py_get mbind result_bind]. rewrite Ha. reflexivity. }
  assert (truthy (JStr (b64encode der)) = true) as ->.
  { cbn. apply negb_true_iff, bool_decide_eq_false. intros E. destruct der as [|a [|b [|c s]]]; [done|discriminate E..]. }
  unfold try_with, lift_result, mbind, M_bind. by rewrite b64_round_trip.
Qed.

(** The script never writes part of a certificate: it either succeeds and has
    written one text to the standard output, or it fails and has written none
    there. *)
Theorem cert_all_or_nothing {PS : Type} stdin (w : World PS) :
  (∀ e, stdin = Raise e → is_Exception e = true) →
  let '(r, w') := cert_main stdin w in
  (r = Ok tt ∧ ∃ der, stdout_of w' = stdout_of w ++ [der]) ∨
  ((r = Raise (SystemExit 1) ∨ r = Raise AttributeError) ∧ stdout_of w' = stdout_of w).
Proof.
  intros Hs. unfold cert_main, mbind at 1, M_bind at 1, try_with at 1, lift_result at 1.
  assert (∀ t (v : World PS), stdout_of (emit_event (Stderr t) v) = stdout_of v) as Herr.
  { intros t v. unfold stdout_of. cbn. by rewrite omap_app, app_nil_r. }
  destruct stdin as [text|e]; [|rewrite (Hs e eq_refl); right; split; [by left|apply Herr]].
  unfold mbind at 1, M_bind at 1.
  destruct (extract_cert_from_json text w) as [r w1] eqn:E.
  assert (stdout_of w1 = stdout_of w ∧ (is_Ok r ∨ r = Raise AttributeError)) as [Hw Hr].
  { unfold extract_cert_from_json, try_with, lift_result, mbind, M_bind in E.
    destruct (json_loads text) as [data|e0] eqn:Ej.
    2: { apply json_loads_raise in Ej as ->. injection E as <- <-. split; [apply Herr|left; by eexists]. }
    destruct (certs_of data) as [certs|e0] eqn:Ec.
    - destruct certs as [| | | | |[|c l]|]; injection E as <- <-; (split; [done || apply Herr|left; by eexists]).
    - assert (e0 = AttributeError) as -> by (unfold certs_of in Ec; destruct data; cbn in Ec; repeat case_match; by simplify_eq).
      injection E as <- <-. split; [done|by right]. }
  destruct Hr as [[v ->]| ->]; [|right; split; [by right|done]].
  destruct v as [v|]; [|right; split; [by left|done]]. destruct (truthy v); [|right; split; [by left|done]].
  unfold try_with, lift_result, mbind, M_bind.
  destruct (match v with JStr s => b64decode s | _ => Raise TypeError end) as [der|e] eqn:Ed.
  - left. split; [done|]. exists der. unfold stdout_of in *. cbn. by rewrite omap_app, Hw.
  - assert (is_Exception e = true) as ->.
    { destruct v; try by injection Ed as <-. eapply b64decode_raise, Ed. }
    right. split; [by left|]. rewrite <- Hw. apply Herr.
Qed.

Definition demo_response : string :=
  "{" +:+ String dquote ("signedCertificates" +:+ String dquote (": [" +:+ String dquote ("MIIB" +:+ String dquote "]}"))).

Lemma cert_bytes_recovered_witness :
  cert_main (Ok demo_response) (mkWorld (PS:=()) [] ∅ [] [] tt)
  = (Ok tt, mkWorld [] ∅ [] [Stdout (String "048" (String "130" (String "001" "")))] tt).
Proof.
  apply (cert_bytes_recovered demo_response [("signedCertificates", JArr [JStr "MIIB"])] []
    (String "048" (String "130" (String "001" "")))); [vm_compute; reflexivity|vm_compute; reflexivity|done].
Defined.

Lemma cert_all_or_nothing_witness :
  let '(r, w') := cert_main (Ok "[]") (mkWorld (PS:=()) [] ∅ [] [] tt) in
  (r = Ok tt ∧ ∃ der, stdout_of w' = [der]) ∨ ((r = Raise (SystemExit 1) ∨ r = Raise AttributeError) ∧ stdout_of w' = []).
Proof. apply (cert_all_or_nothing (Ok "[]")). done. Defined.

(** Why a text that stops inside a group is refused. *)
Example demo_cut_short :
  b64decode "MIIBM" = Raise (ValueError "Invalid base64-encoded string: number of data characters (5) cannot be 1 more than a multiple of 4") ∧
  b64decode "MIIBMA" = Raise (ValueError "Incorrect padding") ∧ b64decode "MIIBMA==" = b64decode "MI-IB*MA==".
Proof. vm_compute. done. Qed.
