(* ===== verification/Argparse.v ===== *)
(** * Command lines ([argparse])

    What the scripts use of [argparse.ArgumentParser], as CPython 3.11 and 3.12 have it:
    options that store a value, append one or set a flag, [nargs] of one, [*] and
    [+], types, choices, required options, [--help], abbreviations of long
    options, [--opt=value], [--] and [parse_known_args].  The scripts have at most
    one positional argument, with [nargs="*"].  The texts of the usage and of
    the help, which depend on the width of the terminal, are fields of the parser. *)

From stdpp Require Import base gmap list strings.
From Stdlib Require Import Ascii ZArith Lia.
From S2P Require Import Prelude PyStr PyFloat Fs World Json.

(** ** Parsers *)

Inductive value :=
| VNone
| VBool (b : bool)
| VStr (s : string)
| VPath (p : Path)
| VInt (n : Z)
| VFloat (x : float)
| VList (l : list value).

Inductive arg_type := TStr | TPath | TInt | TFloat.

Inductive nargs := Zero | One | ZeroOrMore | OneOrMore.

Inductive action_kind := Store | StoreTrue | Append | Help.

Record action := mkAction {
  a_flags : list string;
  a_dest : string;
  a_kind : action_kind;
  a_nargs : nargs;
  a_type : arg_type;
  a_choices : option (list string);
  a_default : option value;
  a_required : bool
}.

Record parser := mkParser {
  p_prog : string;
  p_usage : string;
  p_help : string;
  p_options : list action;
  p_positional : option action
}.

Definition namespace : Type := list (string * value).

(** A parse ends with a value, with [--help] or with a usage error. *)
Inductive stop := ShowHelp | UsageError (msg : string).

Inductive parsed (A : Type) := Got (a : A) | Stop (s : stop).
Arguments Got {A} a.
Arguments Stop {A} s.

#[global] Instance parsed_ret : MRet parsed := @Got.
#[global] Instance parsed_bind : MBind parsed := λ A B f m,
  match m with Got a => f a | Stop s => Stop s end.

(** [ArgumentError(action, msg)] *)
Definition arg_name (a : action) : string :=
  match a_flags a with [] => a_dest a | l => join "/" l end.

Definition argument_error {A} (a : action) (msg : string) : parsed A :=
  Stop (UsageError ("argument " +:+ arg_name a +:+ ": " +:+ msg)).

(** ** Values *)

Definition convert (t : arg_type) (s : string) : option value :=
  match t with
  | TStr => Some (VStr s)
  | TPath => Some (VPath (Path_of s))
  | TInt => VInt <$> py_int s
  | TFloat => VFloat <$> parse_float s
  end.

Definition type_name (t : arg_type) : string :=
  match t with TStr => "str" | TPath => "Path" | TInt => "int" | TFloat => "float" end.

(** [_get_value] *)
Definition get_value (a : action) (s : string) : parsed value :=
  match convert (a_type a) s with
  | Some v => Got v
  | None => argument_error a ("invalid " +:+ type_name (a_type a) +:+ " value: " +:+ repr_str s)
  end.

(** [_check_value]; only options of type [str] have choices. *)
Definition check_value (a : action) (s : string) : parsed () :=
  match a_choices a with
  | Some choices =>
      if bool_decide (s ∈ choices) then Got ()
      else argument_error a ("invalid choice: " +:+ repr_str s +:+ " (choose from "
                             +:+ join ", " (map repr_str choices) +:+ ")")
  | None => Got ()
  end.

Fixpoint for_args {A} (f : string → parsed A) (l : list string) : parsed (list A) :=
  match l with
  | [] => Got []
  | s :: l => v ← f s; vs ← for_args f l; Got (v :: vs)
  end.

(** [arg_strings.remove('--')] *)
Fixpoint remove_dashes (l : list string) : list string :=
  match l with
  | [] => []
  | s :: l => if bool_decide (s = "--") then l else s :: remove_dashes l
  end.

(** [_get_values]; when the only value was [--] itself, a list is stored. *)
Definition get_values (a : action) (args : list string) : parsed value :=
  match a_nargs a, a_flags a, remove_dashes args with
  | ZeroOrMore, [], [] => Got (default (VList []) (a_default a))
  | One, _, [s] => v ← get_value a s; _ ← check_value a s; Got v
  | _, _, l => vs ← for_args (get_value a) l; _ ← for_args (check_value a) l; Got (VList vs)
  end.

(** [take_action] *)
Definition take_action (a : action) (args : list string) (ns : namespace) : parsed namespace :=
  v ← get_values a args;
  match a_kind a with
  | Store => Got (assoc_set (a_dest a) v ns)
  | StoreTrue => Got (assoc_set (a_dest a) (VBool true) ns)
  | Append =>
      Got (assoc_set (a_dest a)
             (VList (match assoc (a_dest a) ns with Some (VList l) => l ++ [v] | _ => [v] end)) ns)
  | Help => Stop ShowHelp
  end.

(** ** Which arguments are options *)

(** [parser._option_string_actions] *)
Definition flag_table (p : parser) : list (string * action) :=
  a ← p_options p; (λ f, (f, a)) <$> a_flags a.

(** An option argument: the action it names (none when it looks like an option but
    is unknown), the flag, and what follows [=] or the letter. *)
Definition option_tuple : Type := action * string * option string.

(** [_get_option_tuples] *)
Definition get_option_tuples (p : parser) (s : string) : list option_tuple :=
  if startswith s "--" then
    let '(pre, explicit) := if str_mem "=" s then let '(o, e) := split1 "=" s in (o, Some e) else (s, None) in
    omap (λ '(f, a), if startswith f pre then Some (a, f, explicit) else None) (flag_table p)
  else
    omap (λ '(f, a),
            if bool_decide (f = str_take 2 s) then Some (a, f, Some (str_drop 2 s))
            else if startswith f s then Some (a, f, None) else None) (flag_table p).

(** [^-\d+$|^-\d*\.\d+$]; [$] also matches before a newline at the end. *)
Definition all_digits (s : string) : bool := negb (bool_decide (s = "")) && str_forall is_digit s.

Definition drop_last_newline (s : string) : string :=
  if endswith s nl then str_take (String.length s - 1) s else s.

Definition is_negative_number (s : string) : bool :=
  match s with
  | String "-" rest =>
      let rest := drop_last_newline rest in
      all_digits rest ||
      (str_mem "." rest && let '(i, f) := split1 "." rest in str_forall is_digit i && all_digits f)
  | _ => false
  end.

(** [_parse_optional]: [None] for a positional argument, [Some None] for an option
    the parser does not know. *)
Definition parse_optional (p : parser) (s : string) : parsed (option (option option_tuple)) :=
  if negb (startswith s "-") then Got None
  else
    match assoc s (flag_table p) with
    | Some a => Got (Some (Some (a, s, None)))
    | None =>
        if bool_decide (s = "-") then Got None
        else
          match (if str_mem "=" s
                 then let '(o, e) := split1 "=" s in a ← assoc o (flag_table p); Some (a, o, Some e)
                 else None) with
          | Some t => Got (Some (Some t))
          | None =>
              match get_option_tuples p s with
              | [t] => Got (Some (Some t))
              | [] => if is_negative_number s || str_mem " " s then Got None else Got (Some None)
              | ts => Stop (UsageError ("ambiguous option: " +:+ s +:+ " could match "
                                        +:+ join ", " (map (λ t, t.1.2) ts)))
              end
          end
    end.

(** The arguments up to the first option, and each option with the arguments up to
    the next; after [--] there are no options. *)
Definition segments_of : Type := list string * list (string * option option_tuple * list string).

Fixpoint segment (p : parser) (argv : list string) : parsed segments_of :=
  match argv with
  | [] => Got ([], [])
  | s :: rest =>
      if bool_decide (s = "--") then Got (s :: rest, [])
      else
        o ← parse_optional p s;
        '(block, segs) ← segment p rest;
        match o with
        | None => Got (s :: block, segs)
        | Some o => Got ([], (s, o, block) :: segs)
        end
  end.

(** ** Consuming them *)

Record parse_state := mkParseState {
  ps_ns : namespace;
  ps_seen : list string;
  ps_positional : option action;
  ps_extras : list string
}.

Definition act (a : action) (args : list string) (st : parse_state) : parsed parse_state :=
  ns ← take_action a args (ps_ns st);
  Got (mkParseState ns (ps_seen st ++ [a_dest a]) (ps_positional st) (ps_extras st)).

Definition add_extras (l : list string) (st : parse_state) : parse_state :=
  mkParseState (ps_ns st) (ps_seen st) (ps_positional st) (ps_extras st ++ l).

(** [consume_positionals] on the arguments between two options, or after the last:
    the positional takes all of them, once; what is left over is extra. *)
Definition consume_positionals (is_last : bool) (block : list string) (st : parse_state) : parsed parse_state :=
  match ps_positional st with
  | Some a =>
      if negb is_last && bool_decide (block = []) then Got st
      else act a block (mkParseState (ps_ns st) (ps_seen st) None (ps_extras st))
  | None => Got (add_extras block st)
  end.

(** The options in one argument: [-xyz] is [-x -y -z] when none but the last takes
    a value.  The last one is left to the following arguments when nothing is
    attached to it. *)
Fixpoint explicit_arg (p : parser) (a : action) (flag e : string) :
    parsed (list (action * list string) * option action) :=
  match a_nargs a with
  | Zero =>
      match e with
      | "" => argument_error a ("ignored explicit argument " +:+ repr_str e)
      | String c e' =>
          if startswith flag "--" then argument_error a ("ignored explicit argument " +:+ repr_str e)
          else
            let flag' := String "-" (String c "") in
            match assoc flag' (flag_table p) with
            | None => argument_error a ("ignored explicit argument " +:+ repr_str e)
            | Some a' =>
                match e' with
                | "" => Got ([(a, [])], Some a')
                | _ => '(l, last) ← explicit_arg p a' flag' e'; Got ((a, []) :: l, last)
                end
            end
      end
  | _ => Got ([(a, [e])], None)
  end.

Fixpoint span_plain (l : list string) : list string * list string :=
  match l with
  | [] => ([], [])
  | s :: l' => if bool_decide (s = "--") then ([], l) else let '(x, y) := span_plain l' in (s :: x, y)
  end.

(** [match_argument] on the arguments that follow: those taken and those left. *)
Definition following_args (a : action) (block : list string) : parsed (list string * list string) :=
  match a_nargs a with
  | Zero => Got ([], block)
  | One =>
      match span_plain block with
      | (s :: _, _) => Got ([s], drop 1 block)
      | _ => argument_error a "expected one argument"
      end
  | ZeroOrMore => Got (span_plain block)
  | OneOrMore =>
      match span_plain block with
      | ([], _) => argument_error a "expected at least one argument"
      | r => Got r
      end
  end.

Fixpoint act_all (l : list (action * list string)) (st : parse_state) : parsed parse_state :=
  match l with
  | [] => Got st
  | (a, args) :: l => st ← act a args st; act_all l st
  end.

(** [consume_optional]: the state and the arguments that are left of the block. *)
Definition consume_optional (p : parser) (s : string) (o : option option_tuple) (block : list string)
    (st : parse_state) : parsed (parse_state * list string) :=
  match o with
  | None => Got (add_extras [s] st, block)
  | Some (a, flag, explicit) =>
      '(acts, last) ← match explicit with
                      | Some e => explicit_arg p a flag e
                      | None => Got ([], Some a)
                      end;
      match last with
      | None => st ← act_all acts st; Got (st, block)
      | Some a =>
          '(args, rest) ← following_args a block;
          st ← act_all (acts ++ [(a, args)]) st; Got (st, rest)
      end
  end.

Fixpoint consume (p : parser) (block : list string) (segs : list (string * option option_tuple * list string))
    (st : parse_state) : parsed parse_state :=
  match segs with
  | [] => consume_positionals true block st
  | (s, o, block') :: segs =>
      st ← consume_positionals false block st;
      '(st, rest) ← consume_optional p s o block' st;
      consume p rest segs st
  end.

(** The namespace of the defaults. *)
Definition default_namespace (p : parser) : namespace :=
  omap (λ a, v ← a_default a; Some (a_dest a, v)) (p_options p ++ option_list (p_positional p)).

(** [_parse_known_args] *)
Definition parse_known (p : parser) (argv : list string) : parsed (namespace * list string) :=
  '(block, segs) ← segment p argv;
  st ← consume p block segs (mkParseState (default_namespace p) [] (p_positional p) []);
  match filter (λ a, a_required a = true ∧ a_dest a ∉ ps_seen st) (p_options p) with
  | [] => Got (ps_ns st, ps_extras st)
  | missing =>
      Stop (UsageError ("the following arguments are required: " +:+ join ", " (map arg_name missing)))
  end.

Section entry.
Context {PS : Type}.
Local Abbreviation W := (World PS).

(** [parser.error(msg)] and [--help] *)
Definition on_stop {A} (p : parser) (s : stop) : M W A :=
  match s with
  | ShowHelp => print (p_help p) ;; sys_exit 0
  | UsageError msg => eprint (p_usage p) ;; eprint (p_prog p +:+ ": error: " +:+ msg +:+ nl) ;; sys_exit 2
  end.

Definition parse_known_args (p : parser) (argv : list string) : M W (namespace * list string) :=
  match parse_known p argv with
  | Got r => mret r
  | Stop s => on_stop p s
  end.

Definition parse_args (p : parser) (argv : list string) : M W namespace :=
  '(ns, extras) ← parse_known_args p argv;
  match extras with
  | [] => mret ns
  | _ => on_stop p (UsageError ("unrecognized arguments: " +:+ join " " extras))
  end.
End entry.
