(* ===== verification/ArgparseProofs.v ===== *)
(** * Lemmas about command lines

    Three generic facts about [parse_known]: options written as [--opt] or
    [--opt=value] are read back as they were meant; arguments the parser has no
    claim to are passed through in order; and a parse that succeeds gives every
    destination a value of its declared type. *)

From stdpp Require Import base gmap list strings.
From Stdlib Require Import Ascii ZArith Lia.
From S2P Require Import Prelude PyStr PyFloat Fs World Json Argparse.

Lemma parsed_bind_inv {A B} (m : parsed A) (f : A → parsed B) b :
  m ≫= f = Got b → ∃ a, m = Got a ∧ f a = Got b.
Proof. destruct m; [by eauto|done]. Qed.

(** ** Options as they are written *)

(** [--opt] or [--opt=value] *)
Definition render (t : option_tuple) : string :=
  match t.2 with Some e => t.1.2 +:+ String "=" e | None => t.1.2 end.

Definition intended (t : option_tuple) : action * list string := (t.1.1, option_list t.2).

(** A long flag of the parser, with a value exactly when its action takes one. *)
Definition setting_ok (p : parser) (t : option_tuple) : Prop :=
  assoc t.1.2 (flag_table p) = Some t.1.1 ∧ startswith t.1.2 "--" = true ∧ t.1.2 ≠ "--" ∧
  str_mem "=" t.1.2 = false ∧ a_nargs t.1.1 = match t.2 with Some _ => One | None => Zero end.

Definition no_equals (p : parser) : bool := forallb (λ fa, negb (str_mem "=" fa.1)) (flag_table p).

Lemma assoc_equals p s : no_equals p = true → str_mem "=" s = true → assoc s (flag_table p) = None.
Proof.
  unfold no_equals. generalize (flag_table p). intros l Hl Hs. induction l as [|[f a] l IH]; [done|]. cbn in *.
  apply andb_prop in Hl as [Hf Hl]. case_bool_decide as E; [|by apply IH]. subst f. by rewrite Hs in Hf.
Qed.

Lemma startswith_dashes s : startswith s "--" = true → ∃ r, s = String "-" (String "-" r).
Proof. intros [t ->]%prefix_spec. by exists t. Qed.

Lemma parse_optional_render p t : no_equals p = true → setting_ok p t →
  parse_optional p (render t) = Got (Some (Some t)).
Proof.
  intros Hp (Hf & Hd & Hn & He & _). destruct t as [[a f] [e|]]; unfold render; cbn in *.
  - apply startswith_dashes in Hd as [r ->].
    assert (str_mem "=" (String "-" (String "-" r) +:+ String "=" e) = true) as Hm.
    { rewrite str_mem_app. cbn. by rewrite orb_true_r. }
    pose proof (assoc_equals p _ Hp Hm) as Ha. unfold parse_optional.
    replace (startswith _ "-") with true by by rewrite !str_app_cons.
    cbn [negb]. rewrite Ha, bool_decide_eq_false_2 by by rewrite !str_app_cons.
    by rewrite Hm, (split1_app "=" _ e He), Hf.
  - apply startswith_dashes in Hd as [r ->]. unfold parse_optional. cbn [negb startswith String.prefix].
    by rewrite Hf.
Qed.

Lemma render_not_dashes p t : setting_ok p t → render t ≠ "--".
Proof.
  intros (_ & Hd & Hn & _). destruct t as [[a f] [e|]]; cbn in *; [|done].
  apply startswith_dashes in Hd as [r ->]. unfold render. cbn [snd fst]. rewrite !str_app_cons. by destruct r.
Qed.

(** Settings in front of other arguments. *)
Fixpoint attach (ts : list option_tuple) (tail : segments_of) : segments_of :=
  match ts with
  | [] => tail
  | t :: ts => let '(block, segs) := attach ts tail in ([], (render t, Some t, block) :: segs)
  end.

Lemma segment_render p ts rest tail : no_equals p = true → Forall (setting_ok p) ts →
  segment p rest = Got tail → segment p (map render ts ++ rest) = Got (attach ts tail).
Proof.
  intros Hp Hts Hr. induction Hts as [|t ts Ht Hts IH]; [by destruct tail|]. cbn.
  rewrite bool_decide_eq_false_2 by by eapply render_not_dashes. rewrite (parse_optional_render p t Hp Ht). cbn.
  rewrite IH. cbn. by destruct (attach ts tail).
Qed.

Lemma add_extras_nil st : add_extras [] st = st.
Proof. destruct st. unfold add_extras. cbn. by rewrite app_nil_r. Qed.

Lemma consume_positionals_none st : consume_positionals false [] st = Got st.
Proof. unfold consume_positionals. destruct (ps_positional st); [done|]. by rewrite add_extras_nil. Qed.

Lemma consume_attach p ts block segs st : Forall (setting_ok p) ts →
  consume p (attach ts (block, segs)).1 (attach ts (block, segs)).2 st
  = (st ← act_all (map intended ts) st; consume p block segs st).
Proof.
  intros Hts. revert st. induction Hts as [|t ts Ht Hts IH]; intros st; [done|]. cbn.
  destruct (attach ts (block, segs)) as [b s] eqn:E. cbn in *.
  rewrite consume_positionals_none. cbn. destruct Ht as (_ & _ & _ & _ & Hn).
  destruct t as [[a f] [e|]]; cbn in *.
  - replace (explicit_arg p a f e) with (Got ([(a, [e])], @None action)) by (destruct e; cbn; by rewrite Hn). cbn.
    destruct (act a [e] st) as [st'|]; [|done]. cbn. apply IH.
  - unfold following_args. rewrite Hn. cbn. destruct (act a [] st) as [st'|]; [|done]. cbn. apply IH.
Qed.

(** ** Arguments the parser has no claim to *)

(** The argument is not taken for an option of the parser. *)
Definition unclaimed (p : parser) (s : string) : Prop :=
  parse_optional p s = Got None ∨ parse_optional p s = Got (Some None).

Fixpoint before_dashes (l : list string) : list string :=
  match l with [] => [] | s :: l => if bool_decide (s = "--") then [] else s :: before_dashes l end.

Lemma segment_unclaimed p argv : Forall (unclaimed p) (before_dashes argv) →
  ∃ block segs, segment p argv = Got (block, segs) ∧ Forall (λ x, x.1.2 = None) segs ∧
    argv = block ++ concat (map (λ x, x.1.1 :: x.2) segs).
Proof.
  induction argv as [|s argv IH]; [by exists [], []|]. cbn. case_bool_decide as E.
  { intros _. exists (s :: argv), []. cbn. by rewrite app_nil_r. }
  intros [Hs Hr]%Forall_cons. destruct (IH Hr) as (block & segs & -> & Hsegs & Hargv).
  destruct Hs as [-> | ->]; cbn.
  - exists (s :: block), segs. by rewrite Hargv at 1.
  - exists [], ((s, None, block) :: segs). split; [done|]. split; [by constructor|]. cbn. by rewrite Hargv at 1.
Qed.

Lemma consume_unclaimed p segs block st : ps_positional st = None → Forall (λ x, x.1.2 = None) segs →
  consume p block segs st = Got (add_extras (block ++ concat (map (λ x, x.1.1 :: x.2) segs)) st).
Proof.
  intros Hp Hs. revert block st Hp. induction Hs as [|[[s o] b] segs Ho Hs IH]; intros block st Hp; cbn.
  - unfold consume_positionals. rewrite Hp. by rewrite app_nil_r.
  - cbn in Ho. subst o. unfold consume_positionals. rewrite Hp. cbn. rewrite IH by done.
    unfold add_extras. cbn. by rewrite <- !app_assoc.
Qed.

Lemma parse_known_unclaimed p argv : p_positional p = None → Forall (λ a, a_required a = false) (p_options p) →
  Forall (unclaimed p) (before_dashes argv) → parse_known p argv = Got (default_namespace p, argv).
Proof.
  intros Hp Hr Hu. destruct (segment_unclaimed p argv Hu) as (block & segs & Hseg & Hs & ->).
  unfold parse_known. rewrite Hseg. cbn. rewrite consume_unclaimed by done. cbn.
  replace (filter _ (p_options p)) with (@nil action); [done|].
  symmetry. induction Hr as [|a l Ha Hr IH]; [done|]. rewrite filter_cons_False; [done|]. rewrite Ha. by intros [? _].
Qed.

(** ** The values have their types *)

Definition value_ok (t : arg_type) (v : value) : Prop :=
  match t, v with
  | TStr, VStr _ | TPath, VPath _ | TInt, VInt _ | TFloat, VFloat _ => True
  | _, _ => False
  end.

Definition list_ok (t : arg_type) (v : value) : Prop := ∃ l, v = VList l ∧ Forall (value_ok t) l.

(** What an action stores. *)
Definition has_type (a : action) (v : value) : Prop :=
  match a_kind a, a_nargs a with
  | Store, One => value_ok (a_type a) v
  | Store, _ => list_ok (a_type a) v
  | StoreTrue, _ => v = VBool true
  | Append, _ => ∃ l, v = VList l ∧ l ≠ [] ∧ Forall (value_ok (a_type a)) l
  | Help, _ => False
  end.

Definition actions (p : parser) : list action := p_options p ++ option_list (p_positional p).

Definition action_ok (a : action) : Prop :=
  match a_kind a with
  | Help => a_default a = None
  | Append => a_nargs a = One ∧ (a_default a = Some VNone ∨ a_default a = Some (VList []))
  | _ => is_Some (a_default a)
  end.

Record parser_ok (p : parser) : Prop := {
  ok_dests : NoDup (a_dest <$> actions p);
  ok_actions : Forall action_ok (actions p);
  ok_positional : ∀ a, p_positional p = Some a →
    a_flags a = [] ∧ a_required a = false ∧ a_nargs a = ZeroOrMore ∧ a_default a = Some (VList []);
  ok_options : Forall (λ a, a_flags a ≠ []) (p_options p)
}.

Lemma convert_ok t s v : convert t s = Some v → value_ok t v.
Proof. destruct t; cbn; [by intros [= <-]..| |]; intros (x & _ & ->)%fmap_Some; done. Qed.

Lemma get_value_ok a s v : get_value a s = Got v → value_ok (a_type a) v.
Proof. unfold get_value. destruct (convert _ s) eqn:E; [|done]. intros [= ->]. by eapply convert_ok. Qed.

Lemma for_args_ok a l vs : for_args (get_value a) l = Got vs → Forall (value_ok (a_type a)) vs.
Proof.
  revert vs. induction l as [|s l IH]; intros vs; cbn; [by intros [= <-]|].
  intros (v & Hv & (vs' & Hvs & [= <-])%parsed_bind_inv)%parsed_bind_inv.
  constructor; [by eapply get_value_ok|by apply IH].
Qed.

(** The arguments an action is given: as many as it takes, and [--] is not one. *)
Definition args_fit (a : action) (args : list string) : Prop :=
  match a_nargs a with One => ∃ s, args = [s] ∧ s ≠ "--" | _ => True end.

Lemma get_values_ok a args v : a_kind a = Store ∨ a_kind a = Append → action_ok a → args_fit a args →
  (a_flags a = [] → a_default a = Some (VList [])) → get_values a args = Got v →
  match a_nargs a with One => value_ok (a_type a) v | _ => list_ok (a_type a) v end.
Proof.
  intros Hk Ha Hfit Hdef. unfold get_values, args_fit in *.
  assert (∀ l, (vs ← for_args (get_value a) l; _ ← for_args (check_value a) l; Got (VList vs)) = Got v →
    list_ok (a_type a) v) as Hlist.
  { intros l (vs & Hvs%for_args_ok & (? & _ & [= <-])%parsed_bind_inv)%parsed_bind_inv. by exists vs. }
  destruct (a_nargs a) eqn:En; try by apply Hlist.
  - destruct Hfit as (s & -> & Hs). cbn. rewrite bool_decide_eq_false_2 by done.
    intros (v' & Hv%get_value_ok & (? & _ & [= <-])%parsed_bind_inv)%parsed_bind_inv. done.
  - destruct (a_flags a) eqn:Ef; [|by apply Hlist]. destruct (remove_dashes args); [|by apply Hlist].
    rewrite Hdef by done. intros [= <-]. by exists [].
Qed.

(** ** The invariant of a parse *)

(** Every destination has its default, or a value of its type once it was seen. *)
Definition state_ok (p : parser) (st : parse_state) : Prop :=
  (∀ a, ps_positional st = Some a → p_positional p = Some a) ∧
  ∀ a, a ∈ actions p → a_kind a ≠ Help → ∃ v, assoc (a_dest a) (ps_ns st) = Some v ∧
    (has_type a v ∨ (a_dest a ∉ ps_seen st ∧ a_default a = Some v)).

Lemma dest_inj p a b : parser_ok p → a ∈ actions p → b ∈ actions p → a_dest a = a_dest b → a = b.
Proof.
  intros Hp. pose proof (ok_dests p Hp) as Hn. revert Hn. generalize (actions p). intros l Hn Ha Hb E.
  apply list_elem_of_lookup in Ha as [i Hi]. apply list_elem_of_lookup in Hb as [j Hj].
  assert (i = j) as ->; [|congruence].
  eapply NoDup_lookup; [exact Hn|rewrite list_lookup_fmap, Hi; done|rewrite list_lookup_fmap, Hj; cbn; by rewrite E].
Qed.

Lemma act_state_ok p a args st st' : parser_ok p → a ∈ actions p → args_fit a args →
  state_ok p st → act a args st = Got st' → state_ok p st'.
Proof.
  intros Hp Ha Hfit [Hpos Hst] (ns & Hns & [= <-])%parsed_bind_inv. split; [exact Hpos|]. cbn.
  unfold take_action in Hns. apply parsed_bind_inv in Hns as (v & Hv & Hns).
  pose proof (proj1 (Forall_forall _ _) (ok_actions p Hp) a Ha) as Hok.
  assert (a_flags a = [] → a_default a = Some (VList [])) as Hdef.
  { intros Hf. unfold actions in Ha. apply elem_of_app in Ha as [Ha|Ha].
    - pose proof (proj1 (Forall_forall _ _) (ok_options p Hp) a Ha). done.
    - destruct (p_positional p) as [b|] eqn:Eb; [|by apply elem_of_nil in Ha].
      apply list_elem_of_singleton in Ha as ->. by apply (ok_positional p Hp). }
  assert (∃ u, ns = assoc_set (a_dest a) u (ps_ns st) ∧ has_type a u) as (u & -> & Hu).
  { destruct (a_kind a) eqn:Ek; try done; [| |].
    - apply (get_values_ok a args v) in Hv; [|by auto..]. injection Hns as <-. exists v. split; [done|].
      unfold has_type. rewrite Ek. by destruct (a_nargs a).
    - injection Hns as <-. exists (VBool true). split; [done|]. unfold has_type. by rewrite Ek.
    - apply (get_values_ok a args v) in Hv; [|by auto..]. injection Hns as <-. eexists. split; [done|].
      unfold has_type, action_ok in *. rewrite Ek in *. destruct Hok as [En Hd]. rewrite En in Hv.
      destruct (Hst a Ha) as (u & -> & Hu); [by rewrite Ek|]. unfold has_type in Hu. rewrite Ek in Hu.
      destruct Hu as [(l & -> & _ & Hl)|[_ Hd']].
      + eexists. split; [done|]. split; [by destruct l|]. by apply Forall_app_1.
      + exists [v]. split; [destruct Hd as [Hd|Hd]; rewrite Hd in Hd'; by injection Hd' as <-|].
        split; [done|by constructor]. }
  intros b Hb Hk. destruct (decide (a_dest b = a_dest a)) as [E|E].
  - apply (dest_inj p b a Hp Hb Ha) in E as ->. exists u. rewrite assoc_set_eq. auto.
  - rewrite assoc_set_ne by done. destruct (Hst b Hb Hk) as (v' & Hv' & H). exists v'. split; [done|].
    destruct H as [H|[H1 H2]]; [by left|right]. split; [|done].
    intros [H|H]%elem_of_app; [done|]. by apply list_elem_of_singleton in H.
Qed.

(** An argument that ends in [--] could give an option the value [--], which
    [remove_dashes] then drops. *)
Fixpoint ends_dashes (s : string) : bool :=
  bool_decide (s = "--") || match s with "" => false | String _ s => ends_dashes s end.

Lemma ends_dashes_suffix q e : ends_dashes (q +:+ e) = false → ends_dashes e = false.
Proof. induction q as [|c q IH]; [done|]. rewrite str_app_cons. cbn. intros [_ H]%orb_false_elim. auto. Qed.

Lemma ends_dashes_ne e : ends_dashes e = false → e ≠ "--".
Proof. by intros H ->. Qed.

Definition tuple_ok (p : parser) (t : option_tuple) : Prop :=
  t.1.1 ∈ p_options p ∧ ∀ e, t.2 = Some e → ends_dashes e = false.

Lemma flag_table_in p f a : (f, a) ∈ flag_table p → a ∈ p_options p.
Proof.
  unfold flag_table. intros (a' & Hf & Ha)%list_elem_of_bind.
  by apply list_elem_of_fmap in Hf as (f' & [= -> ->] & _).
Qed.

Lemma split1_suffix c s a b : split1 c s = (a, b) → ∃ q, s = q +:+ b.
Proof.
  revert a. induction s as [|d s IH]; intros a; cbn; [intros [= <- <-]; by exists ""|].
  case_bool_decide; [intros [= <- <-]; by exists (String d "")|].
  destruct (split1 c s) as [a' b'] eqn:E. intros [= <- <-]. destruct (IH a' eq_refl) as [q ->].
  exists (String d q). by rewrite str_app_cons.
Qed.

Lemma option_tuples_ok p s t : t ∈ get_option_tuples p s → ends_dashes s = false → tuple_ok p t.
Proof.
  unfold get_option_tuples. intros Ht Hs. destruct (startswith s "--").
  - destruct (str_mem "=" s).
    + destruct (split1 "=" s) as [o e] eqn:E. apply list_elem_of_omap in Ht as ([f a] & Hf%flag_table_in & Ht).
      destruct (startswith f o); [|done]. injection Ht as <-. split; [done|]. cbn. intros ? [= <-].
      destruct (split1_suffix _ _ _ _ E) as [q ->]. by eapply ends_dashes_suffix.
    + apply list_elem_of_omap in Ht as ([f a] & Hf%flag_table_in & Ht).
      destruct (startswith f s); [|done]. by injection Ht as <-.
  - apply list_elem_of_omap in Ht as ([f a] & Hf%flag_table_in & Ht).
    case_bool_decide; [|destruct (startswith f s); [|done]; by injection Ht as <-].
    injection Ht as <-. split; [done|]. cbn. intros ? [= <-].
    destruct (str_drop_suffix 2 s) as [q Hq]. rewrite Hq in Hs. by eapply ends_dashes_suffix.
Qed.

Lemma parse_optional_ok p s t : parse_optional p s = Got (Some (Some t)) → ends_dashes s = false → tuple_ok p t.
Proof.
  unfold parse_optional. intros H Hs. destruct (negb _); [done|].
  destruct (assoc s (flag_table p)) as [a|] eqn:Ea.
  { injection H as <-. by apply assoc_elem, flag_table_in in Ea. }
  case_bool_decide; [done|].
  destruct (if str_mem "=" s then _ else None) as [t'|] eqn:Eq.
  - injection H as ->. destruct (str_mem _ _); [|done]. destruct (split1 "=" s) as [o e] eqn:E.
    destruct (assoc o _) as [a|] eqn:Eo; [|done]. injection Eq as <-. apply assoc_elem, flag_table_in in Eo.
    split; [done|]. cbn. intros ? [= <-]. destruct (split1_suffix _ _ _ _ E) as [q Hq]. rewrite Hq in Hs.
    by eapply ends_dashes_suffix.
  - destruct (get_option_tuples p s) as [|t' [|t'' ts]] eqn:Eg; [by destruct (_ || _)| |done].
    injection H as ->. eapply option_tuples_ok; [|exact Hs]. rewrite Eg. apply list_elem_of_here.
Qed.

Lemma explicit_arg_ok p e a f acts last : a ∈ p_options p → ends_dashes e = false →
  explicit_arg p a f e = Got (acts, last) →
  Forall (λ x, x.1 ∈ p_options p ∧ args_fit x.1 x.2) acts ∧ ∀ b, last = Some b → b ∈ p_options p.
Proof.
  revert a f acts last. induction e as [|c e IH]; intros a f acts last Ha He H; cbn in H.
  - destruct (a_nargs a) eqn:En; try done; injection H as <- <-;
      (split; [|done]; repeat constructor; [done|]; unfold args_fit; cbn; by rewrite En; eauto).
  - destruct (a_nargs a) eqn:En.
    2-4: injection H as <- <-; split; [|done]; repeat constructor; [done|]; unfold args_fit; cbn; rewrite En; try done.
    2: eexists; split; [done|]; by apply ends_dashes_ne.
    destruct (startswith f "--"); [done|]. destruct (assoc _ (flag_table p)) as [a'|] eqn:Ea; [|done].
    apply assoc_elem, flag_table_in in Ea.
    assert (args_fit a []) as Hfit by by unfold args_fit; rewrite En.
    destruct e as [|c' e'].
    + injection H as <- <-. split; [by repeat constructor|]. by intros b [= <-].
    + apply parsed_bind_inv in H as ([l la] & Hl & [= <- <-]).
      apply IH in Hl as [Hl Hla]; [|done|by apply (ends_dashes_suffix (String c ""))].
      split; [|done]. by constructor.
Qed.

Lemma span_plain_ok l : Forall (λ s, s ≠ "--") (span_plain l).1.
Proof.
  induction l as [|s l IH]; cbn; [constructor|]. case_bool_decide; [constructor|].
  destruct (span_plain l). by constructor.
Qed.

Lemma following_args_ok a block args rest : following_args a block = Got (args, rest) → args_fit a args.
Proof.
  unfold following_args, args_fit. destruct (a_nargs a); try done.
  pose proof (span_plain_ok block) as H. destruct (span_plain block) as [[|s l] r]; [done|]. intros [= <- _].
  exists s. split; [done|]. by apply Forall_cons in H as [? _].
Qed.

Lemma act_all_state_ok p l st st' : parser_ok p → Forall (λ x, x.1 ∈ p_options p ∧ args_fit x.1 x.2) l →
  state_ok p st → act_all l st = Got st' → state_ok p st'.
Proof.
  intros Hp Hl. revert st. induction Hl as [|[a args] l [Ha Hfit] Hl IH]; intros st Hst; cbn; [by intros [= <-]|].
  intros (st1 & H1 & H)%parsed_bind_inv. eapply IH; [|exact H].
  eapply act_state_ok; [done| |done..]. apply elem_of_app. by left.
Qed.

Lemma consume_optional_ok p s o block st st' rest : parser_ok p → (∀ t, o = Some t → tuple_ok p t) →
  state_ok p st → consume_optional p s o block st = Got (st', rest) → state_ok p st'.
Proof.
  intros Hp Ho Hst. destruct o as [[[a f] ex]|]; cbn; [|by intros [= <- _]].
  destruct (Ho _ eq_refl) as [Ha He]. cbn in *. intros ([acts la] & Hacts & H)%parsed_bind_inv.
  assert (Forall (λ x, x.1 ∈ p_options p ∧ args_fit x.1 x.2) acts ∧ ∀ b, la = Some b → b ∈ p_options p) as [Hl Hla].
  { destruct ex as [e|]; [eapply explicit_arg_ok; [exact Ha|by apply He|exact Hacts]|].
    injection Hacts as <- <-. split; [done|]. by intros b [= <-]. }
  destruct la as [b|]; [apply parsed_bind_inv in H as ([args r] & Hargs%following_args_ok & H)|];
    apply parsed_bind_inv in H as (st1 & H1 & [= <- _]); (eapply act_all_state_ok; [done| |done|exact H1]).
  - apply Forall_app_1; [done|]. split; [by apply Hla|done].
  - done.
Qed.

Lemma consume_positionals_ok p b block st st' : parser_ok p → state_ok p st →
  consume_positionals b block st = Got st' → state_ok p st'.
Proof.
  intros Hp Hst. unfold consume_positionals. destruct (ps_positional st) as [a|] eqn:Ea; [|by intros [= <-]].
  destruct (_ && _); [by intros [= <-]|]. apply (proj1 Hst) in Ea. pose proof (ok_positional p Hp a Ea) as (_ & _ & En & _).
  eapply act_state_ok; [done| | |]; [| |split; [done|apply Hst]].
  - apply elem_of_app. right. rewrite Ea. by apply list_elem_of_singleton.
  - unfold args_fit. by rewrite En.
Qed.

Lemma consume_ok p segs block st st' : parser_ok p →
  Forall (λ x : string * option option_tuple * list string, ∀ t, x.1.2 = Some t → tuple_ok p t) segs →
  state_ok p st → consume p block segs st = Got st' → state_ok p st'.
Proof.
  intros Hp Hs. revert block st. induction Hs as [|[[s o] b] segs Ho Hs IH]; intros block st Hst; cbn.
  - by apply consume_positionals_ok.
  - intros (st1 & H1 & ([st2 r] & H2 & H)%parsed_bind_inv)%parsed_bind_inv. eapply IH; [|exact H].
    eapply consume_optional_ok; [done|exact Ho| |exact H2]. by eapply consume_positionals_ok.
Qed.

Lemma segment_ok p argv block segs : Forall (λ s, ends_dashes s = false) (before_dashes argv) →
  segment p argv = Got (block, segs) →
  Forall (λ x : string * option option_tuple * list string, ∀ t, x.1.2 = Some t → tuple_ok p t) segs.
Proof.
  revert block segs. induction argv as [|s argv IH]; intros block segs; cbn; [by intros _ [= <- <-]|].
  case_bool_decide as Ed; [by intros _ [= <- <-]|]. intros [Hs Hr]%Forall_cons.
  intros (o & Ho & ([b sg] & Hsg & H)%parsed_bind_inv)%parsed_bind_inv. apply (IH _ _ Hr) in Hsg.
  destruct o as [o|]; injection H as <- <-; [|done]. constructor; [|done]. cbn. intros t ->.
  by eapply parse_optional_ok.
Qed.

Lemma default_state_ok p : parser_ok p →
  state_ok p (mkParseState (default_namespace p) [] (p_positional p) []).
Proof.
  intros Hp. split; [done|]. cbn. intros a Ha Hk. unfold default_namespace.
  pose proof (ok_dests p Hp) as Hn. pose proof (proj1 (Forall_forall _ _) (ok_actions p Hp) a Ha) as Hd.
  assert (∃ v, a_default a = Some v) as [v Hv].
  { unfold action_ok in Hd. destruct (a_kind a); try done. destruct Hd as [_ [Hd|Hd]]; eauto. }
  exists v. split; [|right; split; [apply not_elem_of_nil|done]].
  fold (actions p). induction (actions p) as [|b l IH]; [by apply elem_of_nil in Ha|].
  cbn in Hn. apply NoDup_cons in Hn as [Hb Hn]. cbn. apply elem_of_cons in Ha as [<-|Ha].
  - rewrite Hv. cbn. by rewrite bool_decide_eq_true_2.
  - destruct (a_default b); cbn; [|by apply IH]. rewrite bool_decide_eq_false_2; [by apply IH|].
    intros E. apply Hb. rewrite <- E. by apply list_elem_of_fmap_2.
Qed.

(** A parse that succeeds has a value of the declared type for every destination,
    or the default of one that is not required. *)
Lemma parse_known_typed p argv ns extras : parser_ok p → Forall (λ s, ends_dashes s = false) (before_dashes argv) →
  parse_known p argv = Got (ns, extras) →
  ∀ a, a ∈ actions p → a_kind a ≠ Help → ∃ v, assoc (a_dest a) ns = Some v ∧
    (has_type a v ∨ (a_required a = false ∧ a_default a = Some v)).
Proof.
  intros Hp Hargv H a Ha Hk. unfold parse_known in H.
  apply parsed_bind_inv in H as ([block segs] & Hs & (st & Hst & H)%parsed_bind_inv).
  apply segment_ok in Hs; [|done]. apply consume_ok in Hst; [|done..|by apply default_state_ok].
  destruct (filter _ (p_options p)) eqn:Ef; [|done]. injection H as <- <-.
  destruct (proj2 Hst a Ha Hk) as (v & Hv & Ht). exists v. split; [done|].
  destruct Ht as [Ht|[Hn Hd]]; [by left|right]. split; [|done].
  apply elem_of_app in Ha as [Ha|Ha].
  - destruct (a_required a) eqn:Er; [|done]. exfalso. apply (elem_of_nil a). rewrite <- Ef.
    by apply list_elem_of_filter.
  - destruct (p_positional p) as [b|] eqn:Eb; [|by apply elem_of_nil in Ha].
    apply list_elem_of_singleton in Ha as ->. by apply (ok_positional p Hp).
Qed.
