(* ===== verification/Cli.v ===== *)
(** * The command lines of the scripts

    The parser each script declares, the typed namespace its [main] reads from it,
    and the whole script: parsing, the set-up of the log, and [main].  The log file
    is opened here; what is appended to it is in the trace. *)

From stdpp Require Import base gmap sets list strings.
From Stdlib Require Import Ascii ZArith Lia.
From S2P Require Import Prelude PyStr PyFloat Fs World FsOps Json Graph DockerOps Builder Cleanup.
From S2P Require Import Coverage Mounts Bep Bootstrap DockerRun IssueCert Argparse.

(** The name under which the script was started, and the texts of the usage and
    the help. *)
Record texts := mkTexts { t_prog : string; t_usage : string; t_help : string }.

(** ** Declaring arguments *)

(** [add_argument(flag, type=t, default=d, required=r)] *)
Definition option_arg (flag dest : string) (t : arg_type) (d : value) (required : bool) : action :=
  mkAction [flag] dest Store One t None (Some d) required.

Definition flag_arg (flag dest : string) : action :=
  mkAction [flag] dest StoreTrue Zero TStr None (Some (VBool false)) false.

Definition append_arg (flag dest : string) (t : arg_type) (d : value) (required : bool) : action :=
  mkAction [flag] dest Append One t None (Some d) required.

Definition help_arg : action := mkAction ["-h"; "--help"] "help" Help Zero TStr None None false.

Definition log_file_arg (flag dest : string) : action := option_arg flag dest TPath VNone false.

(** ** Reading the namespace *)

Definition get_path (d : string) (ns : namespace) : result Path :=
  match assoc d ns with Some (VPath p) => Ok p | _ => Raise TypeError end.

Definition get_opt_path (d : string) (ns : namespace) : result (option Path) :=
  match assoc d ns with Some VNone => Ok None | Some (VPath p) => Ok (Some p) | _ => Raise TypeError end.

Definition get_str (d : string) (ns : namespace) : result string :=
  match assoc d ns with Some (VStr s) => Ok s | _ => Raise TypeError end.

Definition get_bool (d : string) (ns : namespace) : result bool :=
  match assoc d ns with Some (VBool b) => Ok b | _ => Raise TypeError end.

Definition get_int (d : string) (ns : namespace) : result Z :=
  match assoc d ns with Some (VInt n) => Ok n | _ => Raise TypeError end.

Definition get_float (d : string) (ns : namespace) : result float :=
  match assoc d ns with Some (VFloat x) => Ok x | _ => Raise TypeError end.

Fixpoint list_of {A} (f : value → option A) (l : list value) : result (list A) :=
  match l with
  | [] => Ok []
  | v :: l =>
      match f v with
      | Some a => as_ ← list_of f l; Ok (a :: as_)
      | None => Raise TypeError
      end
  end.

Definition get_list {A} (f : value → option A) (d : string) (ns : namespace) : result (list A) :=
  match assoc d ns with Some (VList l) => list_of f l | _ => Raise TypeError end.

Definition as_path (v : value) : option Path := match v with VPath p => Some p | _ => None end.
Definition as_str (v : value) : option string := match v with VStr s => Some s | _ => None end.

(** ** The parsers *)

(** docker/build.py *)
Definition build_parser (x : texts) : parser :=
  mkParser (t_prog x) (t_usage x) (t_help x)
    [help_arg;
     flag_arg "--print-tag" "print_tag";
     option_arg "--config" "config" TPath VNone true;
     append_arg "--search-path" "search_path" TPath VNone true;
     flag_arg "--local" "local";
     flag_arg "--no-cache" "no_cache";
     log_file_arg "--log-file" "log_file"]
    (Some (mkAction [] "target_images" Store ZeroOrMore TStr None (Some (VList [])) false)).

Definition build_args (ns : namespace) : result build_namespace :=
  target_images ← get_list as_str "target_images" ns;
  print_tag ← get_bool "print_tag" ns;
  config ← get_path "config" ns;
  search_path ← get_list as_path "search_path" ns;
  local ← get_bool "local" ns;
  no_cache ← get_bool "no_cache" ns;
  log_file ← get_opt_path "log_file" ns;
  Ok (mkBuildArgs target_images print_tag config search_path local no_cache log_file).

(** docker_cleanup.py *)
Definition cleanup_parser (x : texts) : parser :=
  mkParser (t_prog x) (t_usage x) (t_help x)
    [help_arg;
     log_file_arg "--devkit-log-file" "devkit_log_file";
     option_arg "--config-path" "config_path" TPath VNone true;
     append_arg "--search-path" "search_path" TPath VNone true;
     option_arg "--initial-delay" "initial_delay" TFloat (VFloat f0) false;
     option_arg "--cleanup-interval" "cleanup_interval" TFloat (VFloat f0) false;
     option_arg "--batch-size" "batch_size" TInt (VInt 10) false;
     option_arg "--threshold-days" "threshold_days" TInt (VInt CLEANUP_THRESHOLD_DAYS) false]
    None.

Record cleanup_namespace := mkCleanupArgs {
  cl_config_path : Path;
  cl_search_path : list Path;
  cl_initial_delay : float;
  cl_interval : float;
  cl_batch_size : Z;
  cl_threshold_days : Z;
  cl_log_file : option Path
}.

Definition cleanup_args (ns : namespace) : result cleanup_namespace :=
  config_path ← get_path "config_path" ns;
  search_path ← get_list as_path "search_path" ns;
  initial_delay ← get_float "initial_delay" ns;
  interval ← get_float "cleanup_interval" ns;
  batch_size ← get_int "batch_size" ns;
  threshold_days ← get_int "threshold_days" ns;
  log_file ← get_opt_path "devkit_log_file" ns;
  Ok (mkCleanupArgs config_path search_path initial_delay interval batch_size threshold_days log_file).

(** docker_run.py *)
Definition run_parser (x : texts) : parser :=
  mkParser (t_prog x) (t_usage x) (t_help x) [log_file_arg "--devkit-log-file" "devkit_log_file"] None.

(** list_external_mounts.py; [cwd] is the current directory. *)
Definition mounts_parser (x : texts) (cwd : Path) : parser :=
  mkParser (t_prog x) (t_usage x) (t_help x)
    [help_arg;
     option_arg "--root-dir" "root_dir" TPath (VPath cwd) false;
     append_arg "--mount" "existing_mounts" TPath (VList []) false]
    None.

(** bep.py *)
Definition bep_parser (x : texts) : parser :=
  mkParser "bep" (t_usage x) (t_help x)
    [help_arg;
     mkAction ["--targets"] "targets" Store OneOrMore TStr None (Some (VList [])) false;
     mkAction ["--command"] "command" Store One TStr (Some ["fetch"; "build"]) (Some (VStr "fetch")) false;
     option_arg "--output_dir" "output_dir" TPath (VPath (Path_of "bazel-bep")) false;
     log_file_arg "--devkit-log-file" "devkit_log_file"]
    None.

Definition bep_args (ns : namespace) : result bep_namespace :=
  targets ← get_list as_str "targets" ns;
  command ← get_str "command" ns;
  output_dir ← get_path "output_dir" ns;
  Ok (mkBepArgs targets command output_dir).

(** bootstrap.py *)
Definition boot_parser (x : texts) (cwd : Path) : parser :=
  mkParser "bootstrap" (t_usage x) (t_help x)
    [help_arg;
     option_arg "--template" "template" TStr VNone true;
     option_arg "--templates-root" "templates_root" TPath VNone false;
     option_arg "--output-dir" "output_dir" TPath (VPath cwd) false;
     mkAction ["--args"] "args" Store ZeroOrMore TStr None (Some (VList [])) false;
     log_file_arg "--devkit-log-file" "devkit_log_file"]
    None.

Definition boot_args (ns : namespace) : result boot_namespace :=
  template ← get_str "template" ns;
  templates_root ← get_opt_path "templates_root" ns;
  output_dir ← get_path "output_dir" ns;
  args ← get_list as_str "args" ns;
  Ok (mkBootArgs template templates_root output_dir args).

(** coverage_report.py *)
Definition coverage_parser (x : texts) : parser :=
  mkParser "coverage" (t_usage x) (t_help x)
    [help_arg;
     option_arg "--target" "target" TStr (VStr "//...") false;
     option_arg "--lines" "lines" TFloat (VFloat f100) false;
     option_arg "--branch" "branch" TFloat (VFloat f100) false;
     option_arg "--thresholds-file" "thresholds_file" TPath VNone false;
     log_file_arg "--devkit-log-file" "devkit_log_file"]
    None.

Definition coverage_args (ns : namespace) : result cov_namespace :=
  target ← get_str "target" ns;
  lines ← get_float "lines" ns;
  branch ← get_float "branch" ns;
  thresholds_file ← get_opt_path "thresholds_file" ns;
  Ok (mkCovArgs target lines branch thresholds_file).

(** tools/issue_certificate_response_to_der.py *)
Definition cert_parser (x : texts) : parser :=
  mkParser (t_prog x) (t_usage x) (t_help x) [help_arg] None.

(** ** The scripts *)

(** [logging.basicConfig(filename=f, filemode="a")]: the file is opened for
    appending, which makes it when it is missing. *)
Definition open_append (f : fs) (cwd : list string) (p : Path) : result fs :=
  loc ← write_loc f cwd (normpath (joinpath (mkPath true cwd) p));
  Ok (match node_at f loc with Some _ => f | None => <[loc := NFile ""]> f end).

Section scripts.
Context {PS : Type} {EX : Exec PS}.
Local Abbreviation W := (World PS).

Definition open_log (log_file : option Path) : M W () :=
  match log_file with
  | Some p => change_fs (λ f cwd, open_append f cwd p)
  | None => mret tt
  end.

Definition current_path : M W Path := gets (λ w : W, mkPath true (w_cwd w)).

(** Importing docker/build.py runs [ensure_cloudsdk_python_is_set]. *)
Definition build_script {SO : SetOrder} (x : texts) (frames : nat) (argv : list string) : M W () :=
  ensure_cloudsdk_python_is_set ;;
  ns ← parse_args (build_parser x) argv;
  args ← lift_result (build_args ns);
  open_log (ba_log_file args) ;;
  Builder.main frames args.

Definition cleanup_script {SO : SetOrder} {PO : Popen PS} (x : texts) (frames : nat) (argv : list string) : M W () :=
  ensure_cloudsdk_python_is_set ;;
  ns ← parse_args (cleanup_parser x) argv;
  args ← lift_result (cleanup_args ns);
  open_log (cl_log_file args) ;;
  Cleanup.main frames (cl_config_path args) (cl_search_path args) (cl_batch_size args) (cl_threshold_days args).

Definition run_script {SD : ScanDir} (h : host) (set_order : gset Path → list Path) (fuel : nat)
    (scripts_dir : Path) (x : texts) (argv : list string) : M W () :=
  ensure_cloudsdk_python_is_set ;;
  '(ns, unknown_args) ← parse_known_args (run_parser x) argv;
  log_file ← lift_result (get_opt_path "devkit_log_file" ns);
  open_log log_file ;;
  run_main h no_site set_order fuel scripts_dir unknown_args.

(** [None] when the fuel of the scan runs out. *)
Definition mounts_script {SD : ScanDir} (set_order : gset Path → list Path) (fuel : nat) (x : texts)
    (argv : list string) (w : W) : option (result () * W) :=
  match (cwd ← current_path;
         ns ← parse_args (mounts_parser x cwd) argv;
         root_dir ← lift_result (get_path "root_dir" ns);
         existing_mounts ← lift_result (get_list as_path "existing_mounts" ns);
         mret (root_dir, existing_mounts)) w with
  | (Ok (root_dir, existing_mounts), w) => mounts_main set_order fuel root_dir existing_mounts w
  | (Raise e, w) => Some (Raise e, w)
  end.

Definition bep_script {TD : TempDir} (x : texts) (argv : list string) : M W () :=
  ns ← parse_args (bep_parser x) argv;
  args ← lift_result (bep_args ns);
  log_file ← lift_result (get_opt_path "devkit_log_file" ns);
  open_log log_file ;;
  bep_main args.

Definition boot_script {SD : ScanDir} {JJ : Jinja} (fuel : nat) (script_dir : Path) (x : texts)
    (argv : list string) : M W (option ()) :=
  cwd ← current_path;
  ns ← parse_args (boot_parser x cwd) argv;
  args ← lift_result (boot_args ns);
  log_file ← lift_result (get_opt_path "devkit_log_file" ns);
  open_log log_file ;;
  boot_main fuel script_dir args.

Definition coverage_script (x : texts) (argv : list string) : M W () :=
  ns ← parse_args (coverage_parser x) argv;
  args ← lift_result (coverage_args ns);
  log_file ← lift_result (get_opt_path "devkit_log_file" ns);
  open_log log_file ;;
  Coverage.main args.

Definition cert_script (x : texts) (stdin : result string) (argv : list string) : M W () :=
  parse_args (cert_parser x) argv ;;
  cert_main stdin.
End scripts.
