(* ===== verification/CliTheorems.v ===== *)
(** * What the command lines guarantee

    The arguments a script gets past its parser have their declared types; a
    builder's command line can be written for every namespace; docker_run.py passes
    on what it does not claim, and claims abbreviations. *)

From stdpp Require Import base gmap sets list strings.
From Stdlib Require Import Ascii ZArith Lia.
From S2P Require Import Prelude PyStr PyFloat Fs World FsOps Json Graph DockerOps Builder Cleanup Coverage Mounts Bep Bootstrap.
From S2P Require Import Shlex EventHandler DockerRun DockerRunTheorems Argparse ArgparseProofs Cli.

(** ** Types *)

Ltac all_actions tac :=
  cbn; repeat first [apply List.Forall_nil | apply List.Forall_cons; [solve [tac]|]].

Ltac parser_ok :=
  constructor;
  [ apply (bool_decide_unpack _); vm_compute; exact I
  | all_actions ltac:(cbn; eauto)
  | intros a; cbn; intros [=]; subst; repeat split
  | all_actions done ].

Lemma build_parser_ok x : parser_ok (build_parser x).
Proof. parser_ok. Qed.
Lemma cleanup_parser_ok x : parser_ok (cleanup_parser x).
Proof. parser_ok. Qed.
Lemma run_parser_ok x : parser_ok (run_parser x).
Proof. parser_ok. Qed.
Lemma mounts_parser_ok x cwd : parser_ok (mounts_parser x cwd).
Proof. parser_ok. Qed.
Lemma bep_parser_ok x : parser_ok (bep_parser x).
Proof. parser_ok. Qed.
Lemma boot_parser_ok x cwd : parser_ok (boot_parser x cwd).
Proof. parser_ok. Qed.
Lemma coverage_parser_ok x : parser_ok (coverage_parser x).
Proof. parser_ok. Qed.

(** What the readers of the namespace give, from [parse_known_typed]. *)
Section typed.
Context (p : parser) (ns : namespace).
Context (H : ∀ a, a ∈ actions p → a_kind a ≠ Help → ∃ v, assoc (a_dest a) ns = Some v ∧
    (has_type a v ∨ (a_required a = false ∧ a_default a = Some v))).

Ltac read a Ha :=
  destruct (H a Ha) as (v & Hv & Ht); [done|]; unfold has_type in Ht; cbn in Hv, Ht;
  unfold get_path, get_opt_path, get_str, get_bool, get_int, get_float, get_list; rewrite Hv.

Lemma typed_path f d dv r : option_arg f d TPath dv r ∈ actions p → r = true ∨ (∃ q, dv = VPath q) →
  ∃ q, get_path d ns = Ok q.
Proof. intros Ha Hd. read (option_arg f d TPath dv r) Ha. destruct Ht as [Ht|[-> [= ->]]], v, Hd as [|[]]; by eauto. Qed.

Lemma typed_opt_path f d : option_arg f d TPath VNone false ∈ actions p → ∃ q, get_opt_path d ns = Ok q.
Proof. intros Ha. read (option_arg f d TPath VNone false) Ha. destruct Ht as [Ht|[_ [= <-]]]; [destruct v|]; by eauto. Qed.

Lemma typed_str f d dv r : option_arg f d TStr dv r ∈ actions p → r = true ∨ (∃ s, dv = VStr s) →
  ∃ s, get_str d ns = Ok s.
Proof. intros Ha Hd. read (option_arg f d TStr dv r) Ha. destruct Ht as [Ht|[-> [= ->]]], v, Hd as [|[]]; by eauto. Qed.

Lemma typed_choice f d cs dv : mkAction [f] d Store One TStr (Some cs) (Some (VStr dv)) false ∈ actions p →
  ∃ s, get_str d ns = Ok s.
Proof.
  intros Ha. read (mkAction [f] d Store One TStr (Some cs) (Some (VStr dv)) false) Ha.
  destruct Ht as [Ht|[_ [= <-]]]; [destruct v|]; by eauto.
Qed.

Lemma typed_int f d n : option_arg f d TInt (VInt n) false ∈ actions p → ∃ m, get_int d ns = Ok m.
Proof. intros Ha. read (option_arg f d TInt (VInt n) false) Ha. destruct Ht as [Ht|[_ [= <-]]]; [destruct v|]; by eauto. Qed.

Lemma typed_float f d y : option_arg f d TFloat (VFloat y) false ∈ actions p → ∃ z, get_float d ns = Ok z.
Proof. intros Ha. read (option_arg f d TFloat (VFloat y) false) Ha. destruct Ht as [Ht|[_ [= <-]]]; [destruct v|]; by eauto. Qed.

Lemma typed_bool f d : flag_arg f d ∈ actions p → ∃ b, get_bool d ns = Ok b.
Proof. intros Ha. read (flag_arg f d) Ha. destruct Ht as [->|[_ [= <-]]]; by eauto. Qed.

Lemma list_of_paths l : Forall (value_ok TPath) l → ∃ ps, list_of as_path l = Ok ps ∧ length ps = length l.
Proof.
  induction 1 as [|v l Hv Hl (ps & Hps & Hlen)]; [by exists []|]. destruct v as [| | |q| | |]; try done.
  exists (q :: ps). cbn. by rewrite Hps, Hlen.
Qed.

Lemma list_of_strs l : Forall (value_ok TStr) l → ∃ ss, list_of as_str l = Ok ss.
Proof.
  induction 1 as [|v l Hv Hl (ss & Hss)]; [by exists []|]. destruct v as [| |s| | | |]; try done.
  exists (s :: ss). cbn. by rewrite Hss.
Qed.

Lemma typed_paths f d : append_arg f d TPath VNone true ∈ actions p →
  ∃ ps, get_list as_path d ns = Ok ps ∧ ps ≠ [].
Proof.
  intros Ha. read (append_arg f d TPath VNone true) Ha. destruct Ht as [(l & -> & Hn & Hl)|[[=] _]].
  destruct (list_of_paths l Hl) as (ps & Hps & Hlen). exists ps. split; [done|]. by intros ->; destruct l.
Qed.

Lemma typed_paths_opt f d : append_arg f d TPath (VList []) false ∈ actions p →
  ∃ ps, get_list as_path d ns = Ok ps.
Proof.
  intros Ha. read (append_arg f d TPath (VList []) false) Ha. destruct Ht as [(l & -> & Hn & Hl)|[_ [= <-]]]; [|by eauto].
  destruct (list_of_paths l Hl) as (ps & Hps & _). by exists ps.
Qed.

Lemma typed_strs fs d n c : n ≠ One → mkAction fs d Store n TStr c (Some (VList [])) false ∈ actions p →
  ∃ ss, get_list as_str d ns = Ok ss.
Proof.
  intros Hn Ha. read (mkAction fs d Store n TStr c (Some (VList [])) false) Ha.
  destruct Ht as [Ht|[_ [= <-]]]; [|by eauto].
  assert (list_ok TStr v) as (l & -> & Hl) by by destruct n. by apply list_of_strs.
Qed.
End typed.

Ltac in_actions := cbn; repeat first [apply list_elem_of_here | apply list_elem_of_further].


Section scripts.
Context (x : texts) (cwd : Path) (argv : list string) (ns : namespace) (extras : list string).
Context (Hargv : Forall (λ s, ends_dashes s = false) (before_dashes argv)).

Lemma build_args_typed : parse_known (build_parser x) argv = Got (ns, extras) →
  ∃ a, build_args ns = Ok a ∧ ba_search_path a ≠ [].
Proof.
  intros H. pose proof (parse_known_typed _ _ _ _ (build_parser_ok x) Hargv H) as Ht. unfold build_args.
  destruct (typed_strs _ _ Ht [] "target_images" ZeroOrMore None) as [? ->]; [done|in_actions|].
  destruct (typed_bool _ _ Ht "--print-tag" "print_tag") as [? ->]; [in_actions|].
  destruct (typed_path _ _ Ht "--config" "config" VNone true) as [? ->]; [in_actions|by left|].
  destruct (typed_paths _ _ Ht "--search-path" "search_path") as (? & -> & ?); [in_actions|].
  destruct (typed_bool _ _ Ht "--local" "local") as [? ->]; [in_actions|].
  destruct (typed_bool _ _ Ht "--no-cache" "no_cache") as [? ->]; [in_actions|].
  destruct (typed_opt_path _ _ Ht "--log-file" "log_file") as [? ->]; [in_actions|]. by eexists.
Qed.

Lemma cleanup_args_typed : parse_known (cleanup_parser x) argv = Got (ns, extras) →
  ∃ a, cleanup_args ns = Ok a ∧ cl_search_path a ≠ [].
Proof.
  intros H. pose proof (parse_known_typed _ _ _ _ (cleanup_parser_ok x) Hargv H) as Ht. unfold cleanup_args.
  destruct (typed_path _ _ Ht "--config-path" "config_path" VNone true) as [? ->]; [in_actions|by left|].
  destruct (typed_paths _ _ Ht "--search-path" "search_path") as (? & -> & ?); [in_actions|].
  destruct (typed_float _ _ Ht "--initial-delay" "initial_delay" f0) as [? ->]; [in_actions|].
  destruct (typed_float _ _ Ht "--cleanup-interval" "cleanup_interval" f0) as [? ->]; [in_actions|].
  destruct (typed_int _ _ Ht "--batch-size" "batch_size" 10) as [? ->]; [in_actions|].
  destruct (typed_int _ _ Ht "--threshold-days" "threshold_days" CLEANUP_THRESHOLD_DAYS) as [? ->]; [in_actions|].
  destruct (typed_opt_path _ _ Ht "--devkit-log-file" "devkit_log_file") as [? ->]; [in_actions|]. by eexists.
Qed.

Lemma run_args_typed : parse_known (run_parser x) argv = Got (ns, extras) →
  ∃ f, get_opt_path "devkit_log_file" ns = Ok f.
Proof.
  intros H. pose proof (parse_known_typed _ _ _ _ (run_parser_ok x) Hargv H) as Ht.
  apply (typed_opt_path _ _ Ht "--devkit-log-file"). in_actions.
Qed.

Lemma mounts_args_typed : parse_known (mounts_parser x cwd) argv = Got (ns, extras) →
  ∃ d ms, get_path "root_dir" ns = Ok d ∧ get_list as_path "existing_mounts" ns = Ok ms.
Proof.
  intros H. pose proof (parse_known_typed _ _ _ _ (mounts_parser_ok x cwd) Hargv H) as Ht.
  destruct (typed_path _ _ Ht "--root-dir" "root_dir" (VPath cwd) false) as [? ->]; [in_actions|by eauto|].
  destruct (typed_paths_opt _ _ Ht "--mount" "existing_mounts") as [? ->]; [in_actions|]. by eauto.
Qed.

Lemma bep_args_typed : parse_known (bep_parser x) argv = Got (ns, extras) →
  ∃ a, bep_args ns = Ok a.
Proof.
  intros H. pose proof (parse_known_typed _ _ _ _ (bep_parser_ok x) Hargv H) as Ht. unfold bep_args.
  destruct (typed_strs _ _ Ht ["--targets"] "targets" OneOrMore None) as [? ->]; [done|in_actions|].
  destruct (typed_choice _ _ Ht "--command" "command" ["fetch"; "build"] "fetch") as [? ->]; [in_actions|].
  destruct (typed_path _ _ Ht "--output_dir" "output_dir" (VPath (Path_of "bazel-bep")) false) as [? ->];
    [in_actions|by eauto|]. by eexists.
Qed.

Lemma boot_args_typed : parse_known (boot_parser x cwd) argv = Got (ns, extras) →
  ∃ a, boot_args ns = Ok a.
Proof.
  intros H. pose proof (parse_known_typed _ _ _ _ (boot_parser_ok x cwd) Hargv H) as Ht. unfold boot_args.
  destruct (typed_str _ _ Ht "--template" "template" VNone true) as [? ->]; [in_actions|by left|].
  destruct (typed_opt_path _ _ Ht "--templates-root" "templates_root") as [? ->]; [in_actions|].
  destruct (typed_path _ _ Ht "--output-dir" "output_dir" (VPath cwd) false) as [? ->]; [in_actions|by eauto|].
  destruct (typed_strs _ _ Ht ["--args"] "args" ZeroOrMore None) as [? ->]; [done|in_actions|]. by eexists.
Qed.

Lemma coverage_args_typed : parse_known (coverage_parser x) argv = Got (ns, extras) →
  ∃ a, coverage_args ns = Ok a.
Proof.
  intros H. pose proof (parse_known_typed _ _ _ _ (coverage_parser_ok x) Hargv H) as Ht. unfold coverage_args.
  destruct (typed_str _ _ Ht "--target" "target" (VStr "//...") false) as [? ->]; [in_actions|by eauto|].
  destruct (typed_float _ _ Ht "--lines" "lines" f100) as [? ->]; [in_actions|].
  destruct (typed_float _ _ Ht "--branch" "branch" f100) as [? ->]; [in_actions|].
  destruct (typed_opt_path _ _ Ht "--thresholds-file" "thresholds_file") as [? ->]; [in_actions|]. by eexists.
Qed.

End scripts.

(** C38: Whatever the command line, when a script gets past its parser every argument
    it reads has the type it was declared with, a required one was given, and the
    required lists are not empty (an argument ending in [--] apart, whose value
    this [argparse] drops). *)
Theorem parsed_arguments_typed x cwd argv ns extras :
  Forall (λ s, ends_dashes s = false) (before_dashes argv) →
  (parse_known (build_parser x) argv = Got (ns, extras) → ∃ a, build_args ns = Ok a ∧ ba_search_path a ≠ []) ∧
  (parse_known (cleanup_parser x) argv = Got (ns, extras) → ∃ a, cleanup_args ns = Ok a ∧ cl_search_path a ≠ []) ∧
  (parse_known (run_parser x) argv = Got (ns, extras) → ∃ f, get_opt_path "devkit_log_file" ns = Ok f) ∧
  (parse_known (mounts_parser x cwd) argv = Got (ns, extras) →
     ∃ d ms, get_path "root_dir" ns = Ok d ∧ get_list as_path "existing_mounts" ns = Ok ms) ∧
  (parse_known (bep_parser x) argv = Got (ns, extras) → ∃ a, bep_args ns = Ok a) ∧
  (parse_known (boot_parser x cwd) argv = Got (ns, extras) → ∃ a, boot_args ns = Ok a) ∧
  (parse_known (coverage_parser x) argv = Got (ns, extras) → ∃ a, coverage_args ns = Ok a).
Proof.
  intros Hargv. repeat apply conj.
  - by apply build_args_typed.
  - by apply cleanup_args_typed.
  - by apply run_args_typed.
  - by apply mounts_args_typed.
  - by apply bep_args_typed.
  - by apply boot_args_typed.
  - by apply coverage_args_typed.
Qed.

Lemma parsed_arguments_typed_witness : ∃ a,
  build_args [("print_tag", VBool false); ("config", VPath (Path_of "c")); ("search_path", VList [VPath (Path_of "s")]);
              ("local", VBool true); ("no_cache", VBool false); ("log_file", VNone); ("target_images", VList [VStr "i"])]
  = Ok a ∧ ba_search_path a ≠ [].
Proof.
  apply (proj1 (parsed_arguments_typed (mkTexts "build.py" "" "") (Path_of "/") ["i"; "--config"; "c"; "--search-path=s"; "--loc"]
                  _ [] ltac:(repeat constructor))). vm_compute. reflexivity.
Defined.

(** ** Writing a command line *)

(** A path as pathlib keeps it. *)
Definition path_wf (p : Path) : Prop := Forall (λ s, proper_part s ∧ str_mem "/" s = false) (p_parts p).

Lemma Path_of_str_path p : path_wf p → Path_of (str_path p) = p.
Proof.
  destruct p as [root parts]. unfold path_wf. cbn [p_parts]. intros H.
  assert (filter proper_part parts = parts) as Hf.
  { induction H as [|s l [Hs _] Hl IH]; [done|]. rewrite filter_cons_True by done. by rewrite IH. }
  destruct parts as [|s l]; [by destruct root|].
  assert (split_on "/" (join "/" (s :: l)) = s :: l) as Hs.
  { apply split_on_join; [done|]. eapply Forall_impl; [exact H|]. by intros ? [_ ?]. }
  assert (startswith (join "/" (s :: l)) "/" = false) as Hr.
  { apply List.Forall_inv in H as [[Hne _] Hsl]. destruct s as [|c s]; [done|]. cbn in Hsl.
    apply orb_false_elim in Hsl as [Hc%bool_decide_eq_false _].
    apply not_true_is_false. intros [t Ht]%prefix_spec. rewrite (str_app_cons "/") in Ht.
    apply Hc. destruct l; cbn [join] in Ht; rewrite ?str_app_cons in Ht; congruence. }
  unfold Path_of, str_path. cbn [p_root p_parts]. revert Hs Hr. generalize (join "/" (s :: l)) as t. intros t Hs Hr.
  destruct root.
  - change ("/" +:+ t) with (String "/" t). f_equal; [by apply (prefix_app "/")|].
    cbn [split_on]. rewrite bool_decide_eq_true_2, Hs by done. rewrite filter_cons_False by by intros [? _]. exact Hf.
  - rewrite Hs, Hf. by rewrite Hr.
Qed.

(** A command line for a namespace: every value attached to its option, the targets
    after [--]. *)
Definition flag_if (b : bool) (flag : string) : list string := if b then [flag] else [].

Definition build_argv (a : build_namespace) : list string :=
  flag_if (ba_print_tag a) "--print-tag" ++
  ["--config=" +:+ str_path (ba_config a)] ++
  map (λ p, "--search-path=" +:+ str_path p) (ba_search_path a) ++
  flag_if (ba_local a) "--local" ++ flag_if (ba_no_cache a) "--no-cache" ++
  match ba_log_file a with Some p => ["--log-file=" +:+ str_path p] | None => [] end ++
  "--" :: ba_target_images a.

Definition path_sayable (p : Path) : Prop := path_wf p ∧ str_path p ≠ "--".

Definition set_flag (b : bool) (flag dest : string) : list option_tuple :=
  if b then [(flag_arg flag dest, flag, None)] else [].

Definition build_settings (a : build_namespace) : list option_tuple :=
  set_flag (ba_print_tag a) "--print-tag" "print_tag" ++
  [(option_arg "--config" "config" TPath VNone true, "--config", Some (str_path (ba_config a)))] ++
  map (λ p, (append_arg "--search-path" "search_path" TPath VNone true, "--search-path", Some (str_path p))) (ba_search_path a) ++
  set_flag (ba_local a) "--local" "local" ++ set_flag (ba_no_cache a) "--no-cache" "no_cache" ++
  match ba_log_file a with
  | Some p => [(log_file_arg "--log-file" "log_file", "--log-file", Some (str_path p))]
  | None => []
  end.

Lemma build_argv_settings a : build_argv a = map render (build_settings a) ++ "--" :: ba_target_images a.
Proof.
  unfold build_argv, build_settings, flag_if, set_flag. rewrite !map_app, map_map, <- !app_assoc.
  by destruct (ba_print_tag a), (ba_local a), (ba_no_cache a), (ba_log_file a).
Qed.

Lemma build_settings_ok x a : Forall (setting_ok (build_parser x)) (build_settings a).
Proof.
  assert (∀ b flag dest, assoc flag (flag_table (build_parser x)) = Some (flag_arg flag dest) →
    startswith flag "--" = true → flag ≠ "--" → str_mem "=" flag = false →
    Forall (setting_ok (build_parser x)) (set_flag b flag dest)) as Hflag.
  { intros [] flag dest H1 H2 H3 H4; [|apply List.Forall_nil]. apply List.Forall_cons; [done|apply List.Forall_nil]. }
  unfold build_settings. rewrite !Forall_app. split_and!; [by apply Hflag| | |by apply Hflag|by apply Hflag|].
  - apply List.Forall_cons; [done|apply List.Forall_nil].
  - apply Forall_map, Forall_true. done.
  - destruct (ba_log_file a); [|apply List.Forall_nil]. apply List.Forall_cons; [done|apply List.Forall_nil].
Qed.

Lemma act_all_app l1 l2 st : act_all (l1 ++ l2) st = (st ← act_all l1 st; act_all l2 st).
Proof.
  revert st. induction l1 as [|[a args] l1 IH]; intros st; [done|]. cbn. destruct (act a args st); [|done]. apply IH.
Qed.

Lemma get_values_path a p : a_nargs a = One → a_type a = TPath → a_choices a = None → path_sayable p →
  get_values a [str_path p] = Got (VPath p).
Proof.
  intros Hn Ht Hc [Hwf Hd]. unfold get_values. rewrite Hn. cbn. rewrite bool_decide_eq_false_2 by done.
  unfold get_value, check_value, convert. rewrite Ht, Hc. cbn. by rewrite Path_of_str_path.
Qed.

Lemma for_args_strs a l : a_type a = TStr → a_choices a = None →
  for_args (get_value a) l = Got (VStr <$> l) ∧ for_args (check_value a) l = Got ((λ _, ()) <$> l).
Proof.
  intros Ht Hc. induction l as [|s l [IH1 IH2]]; [done|]. cbn. rewrite IH1, IH2. unfold get_value, check_value.
  by rewrite Ht, Hc.
Qed.

(** The namespace of the builder, field by field. *)
Definition build_ns (print_tag config search_path local no_cache log_file target_images : value) : namespace :=
  [("print_tag", print_tag); ("config", config); ("search_path", search_path); ("local", local);
   ("no_cache", no_cache); ("log_file", log_file); ("target_images", target_images)].

Lemma append_search_paths ps l seen pos extras pt c lo nc lf ti : Forall path_sayable ps →
  act_all (map intended (map (λ p, (append_arg "--search-path" "search_path" TPath VNone true, "--search-path", Some (str_path p))) ps))
    (mkParseState (build_ns pt c (VList (VPath <$> l)) lo nc lf ti) seen pos extras)
  = Got (mkParseState (build_ns pt c (VList (VPath <$> (l ++ ps))) lo nc lf ti)
           (seen ++ replicate (length ps) "search_path") pos extras).
Proof.
  intros H. revert l seen. induction H as [|p ps Hp Hps IH]; intros l seen; [by rewrite !app_nil_r|].
  cbn [map intended act_all fst snd option_list length replicate]. unfold act at 1, take_action.
  change (option_list (Some (str_path p))) with [str_path p]. rewrite get_values_path by done.
  specialize (IH (l ++ [p]) (seen ++ ["search_path"])). rewrite (fmap_app _ l [p]), <- !(app_assoc _ [_]) in IH. exact IH.
Qed.

Section fields.
Context (seen : list string) (pos : option action) (extras : list string) (pt c sp lo nc lf ti : value).

Lemma set_print_tag b :
  act_all (map intended (set_flag b "--print-tag" "print_tag"))
    (mkParseState (build_ns (VBool false) c sp lo nc lf ti) seen pos extras)
  = Got (mkParseState (build_ns (VBool b) c sp lo nc lf ti) (seen ++ flag_if b "print_tag") pos extras).
Proof. destruct b; [done|]. cbn. by rewrite app_nil_r. Qed.

Lemma set_local b :
  act_all (map intended (set_flag b "--local" "local"))
    (mkParseState (build_ns pt c sp (VBool false) nc lf ti) seen pos extras)
  = Got (mkParseState (build_ns pt c sp (VBool b) nc lf ti) (seen ++ flag_if b "local") pos extras).
Proof. destruct b; [done|]. cbn. by rewrite app_nil_r. Qed.

Lemma set_no_cache b :
  act_all (map intended (set_flag b "--no-cache" "no_cache"))
    (mkParseState (build_ns pt c sp lo (VBool false) lf ti) seen pos extras)
  = Got (mkParseState (build_ns pt c sp lo (VBool b) lf ti) (seen ++ flag_if b "no_cache") pos extras).
Proof. destruct b; [done|]. cbn. by rewrite app_nil_r. Qed.

Lemma set_config p : path_sayable p →
  act (option_arg "--config" "config" TPath VNone true) [str_path p]
    (mkParseState (build_ns pt VNone sp lo nc lf ti) seen pos extras)
  = Got (mkParseState (build_ns pt (VPath p) sp lo nc lf ti) (seen ++ ["config"]) pos extras).
Proof. intros Hp. unfold act, take_action. by rewrite get_values_path. Qed.

Lemma set_search_path p : path_sayable p →
  act (append_arg "--search-path" "search_path" TPath VNone true) [str_path p]
    (mkParseState (build_ns pt c VNone lo nc lf ti) seen pos extras)
  = Got (mkParseState (build_ns pt c (VList [VPath p]) lo nc lf ti) (seen ++ ["search_path"]) pos extras).
Proof. intros Hp. unfold act, take_action. by rewrite get_values_path. Qed.

Lemma set_log_file p : path_sayable p →
  act (log_file_arg "--log-file" "log_file") [str_path p]
    (mkParseState (build_ns pt c sp lo nc VNone ti) seen pos extras)
  = Got (mkParseState (build_ns pt c sp lo nc (VPath p) ti) (seen ++ ["log_file"]) pos extras).
Proof. intros Hp. unfold act, take_action. by rewrite get_values_path. Qed.
End fields.

Definition opt_path (p : option Path) : value := match p with Some p => VPath p | None => VNone end.

Lemma act_build_settings x a : path_sayable (ba_config a) → Forall path_sayable (ba_search_path a) →
  ba_search_path a ≠ [] → (∀ p, ba_log_file a = Some p → path_sayable p) →
  ∃ seen, act_all (map intended (build_settings a))
      (mkParseState (default_namespace (build_parser x)) [] (p_positional (build_parser x)) [])
    = Got (mkParseState (build_ns (VBool (ba_print_tag a)) (VPath (ba_config a)) (VList (VPath <$> ba_search_path a))
             (VBool (ba_local a)) (VBool (ba_no_cache a)) (opt_path (ba_log_file a)) (VList []))
           seen (p_positional (build_parser x)) []) ∧ "config" ∈ seen ∧ "search_path" ∈ seen.
Proof.
  intros Hc Hs Hn Hl. unfold build_settings. rewrite !map_app.
  change (default_namespace (build_parser x)) with (build_ns (VBool false) VNone VNone (VBool false) (VBool false) VNone (VList [])).
  destruct (ba_search_path a) as [|p ps]; [done|]. apply Forall_cons in Hs as [Hp Hps].
  rewrite act_all_app, set_print_tag. cbn [mbind parsed_bind map app act_all intended fst snd].
  change (option_list (Some ?s)) with [s]. rewrite set_config by done. cbn [mbind parsed_bind].
  rewrite set_search_path by done. cbn [mbind parsed_bind].
  rewrite act_all_app. rewrite (append_search_paths ps [p]) by done. cbn [mbind parsed_bind].
  rewrite act_all_app, set_local. cbn [mbind parsed_bind]. rewrite act_all_app, set_no_cache. cbn [mbind parsed_bind].
  destruct (ba_log_file a) as [lf|]; cbn [map act_all intended fst snd].
  - change (option_list (Some ?s)) with [s]. rewrite set_log_file by by apply Hl. cbn [mbind parsed_bind].
    eexists. split; [done|]. set_solver.
  - eexists. split; [done|]. set_solver.
Qed.

Lemma list_of_map_strs l : list_of as_str (VStr <$> l) = Ok l.
Proof. induction l as [|s l IH]; [done|]. cbn. by rewrite IH. Qed.

Lemma list_of_map_paths l : list_of as_path (VPath <$> l) = Ok l.
Proof. induction l as [|p l IH]; [done|]. cbn. by rewrite IH. Qed.

Lemma get_values_targets a l : a_nargs a = ZeroOrMore → a_flags a = [] → a_type a = TStr → a_choices a = None →
  a_default a = Some (VList []) → get_values a ("--" :: l) = Got (VList (VStr <$> l)).
Proof.
  intros Hn Hf Ht Hc Hd. unfold get_values. rewrite Hn, Hf.
  change (remove_dashes ("--" :: l)) with l. destruct (for_args_strs a l Ht Hc) as [H1 H2].
  destruct l; [by rewrite Hd|]. by rewrite H1, H2.
Qed.

Lemma required_seen x (seen : list string) : "config" ∈ seen → "search_path" ∈ seen →
  filter (λ a, a_required a = true ∧ a_dest a ∉ seen) (p_options (build_parser x)) = [].
Proof.
  intros Hc Hs. cbn [p_options build_parser].
  repeat (rewrite filter_cons_False by (intros [Hr Hn]; first [discriminate Hr|by apply Hn])). done.
Qed.

Lemma build_args_ns pt c sp lo nc lf ti :
  build_args (build_ns (VBool pt) (VPath c) (VList (VPath <$> sp)) (VBool lo) (VBool nc) (opt_path lf) (VList (VStr <$> ti)))
  = Ok (mkBuildArgs ti pt c sp lo nc lf).
Proof.
  unfold build_args. set (ns := build_ns _ _ _ _ _ _ _).
  assert (get_list as_str "target_images" ns = Ok ti) as -> by apply list_of_map_strs.
  assert (get_list as_path "search_path" ns = Ok sp) as Hp by apply list_of_map_paths.
  cbn [mbind result_bind]. rewrite Hp. by destruct lf.
Qed.

(** C16: The builder's command line can say everything: for every namespace with at
    least one search path and paths other than [--], the canonical command line
    parses without a message to exactly that namespace, whatever the image names
    (even ones that look like options). *)
Theorem build_argv_round_trip {PS : Type} x a (w : World PS) :
  path_sayable (ba_config a) → Forall path_sayable (ba_search_path a) → ba_search_path a ≠ [] →
  (∀ p, ba_log_file a = Some p → path_sayable p) →
  ∃ ns, parse_args (build_parser x) (build_argv a) w = (Ok ns, w) ∧ build_args ns = Ok a.
Proof.
  intros Hc Hs Hn Hl. destruct (act_build_settings x a Hc Hs Hn Hl) as (seen & Hact & H1 & H2).
  assert (parse_known (build_parser x) (build_argv a) = Got (build_ns (VBool (ba_print_tag a)) (VPath (ba_config a))
    (VList (VPath <$> ba_search_path a)) (VBool (ba_local a)) (VBool (ba_no_cache a)) (opt_path (ba_log_file a))
    (VList (VStr <$> ba_target_images a)), [])) as Hk.
  { unfold parse_known. rewrite build_argv_settings.
    rewrite (segment_render (build_parser x) _ ("--" :: ba_target_images a) ("--" :: ba_target_images a, []) eq_refl (build_settings_ok x a) eq_refl).
    pose proof (consume_attach (build_parser x) (build_settings a) ("--" :: ba_target_images a) []
      (mkParseState (default_namespace (build_parser x)) [] (p_positional (build_parser x)) []) (build_settings_ok x a)) as Ha.
    destruct (attach _ _) as [block segs]. cbn [fst snd mbind parsed_bind] in *. rewrite Ha, Hact.
    cbn [mbind parsed_bind consume]. unfold consume_positionals, act, take_action. cbn [ps_positional p_positional build_parser negb andb].
    rewrite get_values_targets by done. cbn [mbind parsed_bind a_kind ps_ns ps_seen ps_extras a_dest].
    rewrite required_seen; [done|set_solver..]. }
  eexists. unfold parse_args, parse_known_args. rewrite Hk. split; [done|].
  rewrite build_args_ns. by destruct a.
Qed.

Lemma build_argv_round_trip_witness :
  let a := mkBuildArgs ["--odd"; "b"] true (Path_of "/c/devkit.json") [Path_of "s"; Path_of "/t"] false true (Some (Path_of "l.log")) in
  let w := mkWorld [] ∅ [] [] () in
  build_argv a = ["--print-tag"; "--config=/c/devkit.json"; "--search-path=s"; "--search-path=/t"; "--no-cache";
                  "--log-file=l.log"; "--"; "--odd"; "b"] ∧
  ∃ ns, parse_args (build_parser (mkTexts "build.py" "" "")) (build_argv a) w = (Ok ns, w) ∧ build_args ns = Ok a.
Proof.
  intros a w. split; [reflexivity|].
  assert (∀ s, bool_decide (path_wf (Path_of s) ∧ str_path (Path_of s) ≠ "--") = true → path_sayable (Path_of s)) as Hs.
  { intros s H. by apply bool_decide_eq_true in H. }
  apply (build_argv_round_trip (mkTexts "build.py" "" "") a w).
  - apply Hs. vm_compute. reflexivity.
  - repeat (apply List.Forall_cons; [apply Hs; vm_compute; reflexivity|]). apply List.Forall_nil.
  - discriminate.
  - intros p [= <-]. apply Hs. vm_compute. reflexivity.
Defined.

(** ** What docker_run.py passes on *)

(** The argument is the option for the log file, or one of its abbreviations. *)
Definition abbreviates_log_file (s : string) : bool :=
  startswith s "--" && startswith "--devkit-log-file" (if str_mem "=" s then (split1 "=" s).1 else s).

Lemma split1_app_inv c s a b : str_mem c s = true → split1 c s = (a, b) → s = a +:+ String c b.
Proof.
  revert a. induction s as [|d s IH]; intros a; [done|]. cbn. case_bool_decide as E.
  - intros _. rewrite bool_decide_eq_true_2 by done. intros [= <- <-]. by subst.
  - cbn. intros Hs. rewrite bool_decide_eq_false_2 by done. destruct (split1 c s) as [a' b'] eqn:Es.
    intros [= <- <-]. rewrite str_app_cons. by rewrite <- (IH a').
Qed.

Definition log_flag : string := "--devkit-log-file".

(** A single dash and more cannot be an abbreviation of it. *)
Lemma single_dash s : startswith s "-" = true → s ≠ "-" → startswith s "--" = false →
  startswith log_flag s = false ∧ log_flag ≠ str_take 2 s.
Proof.
  intros [r ->]%prefix_spec Hn Hd. change ("-" +:+ r) with (String "-" r) in *. split.
  - apply not_true_is_false. intros [t Ht]%prefix_spec. destruct r as [|c r]; [done|].
    rewrite !str_app_cons in Ht. injection Ht as <- _.
    pose proof (prefix_app "--" r) as Hp. change (startswith (String "-" (String "-" r)) "--" = true) in Hp. by rewrite Hp in Hd.
  - destruct r as [|c [|d r]]; cbn; intros [=].
Qed.

Lemma run_option_tuples x s : startswith s "-" = true → s ≠ "-" → abbreviates_log_file s = false →
  get_option_tuples (run_parser x) s = [].
Proof.
  intros H1 H2. unfold abbreviates_log_file, get_option_tuples. fold log_flag.
  change (flag_table (run_parser x)) with [(log_flag, log_file_arg log_flag "devkit_log_file")].
  destruct (startswith s "--") eqn:Ed; cbn [andb].
  - intros H. destruct (str_mem "=" s); [destruct (split1 "=" s)|]; cbn [omap list_omap fst] in *; by rewrite H.
  - intros _. destruct (single_dash s H1 H2 Ed) as [H3 H4]. cbn [omap list_omap].
    by rewrite bool_decide_eq_false_2, H3.
Qed.

Lemma run_unclaimed x s : abbreviates_log_file s = false → unclaimed (run_parser x) s.
Proof.
  intros H. unfold unclaimed, parse_optional. destruct (startswith s "-") eqn:Ed; [|by left]. cbn [negb].
  change (flag_table (run_parser x)) with [(log_flag, log_file_arg log_flag "devkit_log_file")].
  cbn [assoc]. case_bool_decide as E1; [by subst|]. case_bool_decide as E2; [by left|].
  rewrite run_option_tuples by done.
  destruct (str_mem "=" s) eqn:Em; [|by destruct (_ || _); auto].
  destruct (split1 "=" s) as [o e] eqn:Es. case_bool_decide as Eo; [|by destruct (_ || _); auto].
  exfalso. revert H. unfold abbreviates_log_file. rewrite Em, Es. apply split1_app_inv in Es as ->; [|done]. subst o.
  by vm_compute.
Qed.

Lemma run_parser_free x argv : Forall (λ s, abbreviates_log_file s = false) (before_dashes argv) →
  Forall (unclaimed (run_parser x)) (before_dashes argv).
Proof. intros H. eapply Forall_impl; [exact H|]. intros s. apply run_unclaimed. Qed.

Lemma run_parser_none x argv : Forall (λ s, abbreviates_log_file s = false) (before_dashes argv) →
  parse_known (run_parser x) argv = Got ([("devkit_log_file", VNone)], argv).
Proof. intros H%(run_parser_free x). by apply (parse_known_unclaimed (run_parser x)); [|repeat constructor|]. Qed.

Lemma run_parser_file x f argv : startswith f "-" = false →
  Forall (λ s, abbreviates_log_file s = false) (before_dashes argv) →
  parse_known (run_parser x) (log_flag :: f :: argv) = Got ([("devkit_log_file", VPath (Path_of f))], argv).
Proof.
  intros Hf H%(run_parser_free x). destruct (segment_unclaimed _ _ H) as (block & segs & Hseg & Hs & Hargv).
  assert (f ≠ "--") as Hne by by intros ->.
  assert (segment (run_parser x) (log_flag :: f :: argv)
    = Got ([], (log_flag, Some (log_file_arg log_flag "devkit_log_file", log_flag, None), f :: block) :: segs)) as Hsg.
  { cbn [segment]. rewrite bool_decide_eq_false_2 by done.
    change (parse_optional (run_parser x) log_flag) with (Got (Some (Some (log_file_arg log_flag "devkit_log_file", log_flag, @None string)))).
    rewrite (bool_decide_eq_false_2 (f = "--")) by done. unfold parse_optional. rewrite Hf. cbn [negb mbind parsed_bind].
    by rewrite Hseg. }
  unfold parse_known. rewrite Hsg. cbn [mbind parsed_bind consume]. rewrite consume_positionals_none.
  cbn [mbind parsed_bind consume_optional]. unfold following_args. cbn [a_nargs log_file_arg option_arg span_plain].
  rewrite bool_decide_eq_false_2 by done. destruct (span_plain block) as [b1 b2]. cbn [mbind parsed_bind app act_all].
  unfold act, take_action, get_values. cbn [a_nargs log_file_arg option_arg remove_dashes].
  rewrite bool_decide_eq_false_2 by done. cbn [mbind parsed_bind].
  unfold get_value. cbn [a_type convert log_file_arg option_arg check_value a_choices mbind parsed_bind a_kind].
  rewrite consume_unclaimed by done. rewrite Hargv. done.
Qed.

(** The arguments of the container are the end of docker's command line. *)
Lemma docker_cmd_args h sd argv c : docker_cmd h sd argv c = docker_cmd h sd [] c ++ argv.
Proof. unfold docker_cmd. destruct (h_nofile h). by rewrite <- !app_assoc, app_nil_l. Qed.

Lemma ensure_quiet {PS : Type} (w : World PS) : ∃ w', ensure_cloudsdk_python_is_set w = (Ok tt, w') ∧ w_trace w' = w_trace w.
Proof.
  unfold ensure_cloudsdk_python_is_set, getenv, exists_p, putenv, mbind, M_bind, gets, modify.
  destruct (assoc "CLOUDSDK_PYTHON" (w_env w)); [by eauto|].
  destruct (path_exists _ _ (Path_of "/usr/bin/python3")); [by eauto|].
  destruct (path_exists _ _ (Path_of "/usr/bin/python")); by eauto.
Qed.

(** C30: docker_run.py hands on every argument it has no claim to, in order and
    unchanged: when nothing before a [--] is the option for the log file or an
    abbreviation of it, then, with or without that option in front, a container it
    starts gets exactly the arguments given after docker's own. *)
Theorem run_arguments_pass_through {PS : Type} {EX : Exec PS} {SD : ScanDir} h set_order fuel scripts_dir x f argv (w : World PS) :
  startswith f "-" = false → Forall (λ s, abbreviates_log_file s = false) (before_dashes argv) →
  ∀ option, option ∈ [[]; ["--devkit-log-file"; f]] →
    ∃ new, w_trace (run_script h set_order fuel scripts_dir x (option ++ argv) w).2 = w_trace w ++ new ∧
      ∀ pre cmd post, new = pre ++ Ran cmd :: post → docker_run cmd →
        ∃ c, cmd = docker_cmd h scripts_dir [] c ++ argv.
Proof.
  intros Hf H option Ho. unfold run_script, parse_known_args.
  destruct (ensure_quiet w) as (w1 & Hw1 & Ht1). rewrite (M_bind_ok _ _ _ _ _ Hw1).
  assert (∀ w2, w_trace w2 = w_trace w → ∃ new, w_trace (run_main h no_site set_order fuel scripts_dir argv w2).2 = w_trace w ++ new ∧
    ∀ pre cmd post, new = pre ++ Ran cmd :: post → docker_run cmd → ∃ c, cmd = docker_cmd h scripts_dir [] c ++ argv) as Hrun.
  { intros w2 Ht2. destruct (run_main h no_site set_order fuel scripts_dir argv w2) as [r w'] eqn:E.
    apply containers_started in E as (new & E & Hc). exists new. rewrite <- Ht2. split; [done|]. intros pre cmd post Hn Hd.
    destruct (Hc pre cmd post Hn Hd) as (c & -> & _). exists c. apply docker_cmd_args. }
  apply elem_of_cons in Ho as [->|Ho]; [|apply list_elem_of_singleton in Ho as ->]; cbn [app].
  - rewrite (run_parser_none x argv H). by apply Hrun.
  - rewrite (run_parser_file x f argv Hf H : parse_known _ ("--devkit-log-file" :: f :: argv) = _).
    erewrite M_bind_ok by reflexivity. cbv beta iota. erewrite M_bind_ok by reflexivity.
    destruct (open_log (Some (Path_of f)) w1) as [rl w2] eqn:El.
    assert (w_trace w2 = w_trace w1) as Ht2 by (unfold open_log in El; by apply change_fs_inv in El as (_ & _ & ? & _)).
    destruct rl as [[]|e]; [rewrite (M_bind_ok _ _ _ _ _ El); apply Hrun; congruence|].
    rewrite (M_bind_raise _ _ _ _ _ El). exists []. cbn. rewrite app_nil_r. split; [congruence|].
    intros pre cmd post Hn. by destruct pre.
Qed.

(** A host on which every program succeeds except docker, which returns 7. *)
#[local] Instance demo_exec : Exec () :=
  λ cmd s, (Finished (if bool_decide (take 2 cmd = ["docker"; "run"]) then 7 else 0) "" "", s).

Definition demo_run_host : host :=
  mkHost (Path_of "/home/u") 1000 1000 (λ _, Some "u") (λ _, Some "u") (λ _, Some 999%Z) false false (1024, 4096)%Z "box" 4711.

Definition demo_run_world : World () :=
  mkWorld [] (<[["home"] := NDir]> (<[["home"; "u"] := NDir]> (<[["repo"] := NDir]> (<[["repo"; "devkit"] := NDir]> ∅)))) ["repo"] [] tt.

Definition demo_argv : list string := ["img"; "make"; "-k"; "--"; "--dev"].

Definition demo_started : result () * World () :=
  Eval vm_compute in run_script (SD:=table_order) demo_run_host elements 100 (Path_of "/repo/scripts") (mkTexts "docker_run.py" "" "")
                       ("--devkit-log-file" :: "l" :: demo_argv) demo_run_world.

(** Docker is reached, with these arguments, and its exit code is passed on. *)
Example demo_started_docker :
  demo_started.1 = Raise (SystemExit 7) ∧ length (filter (λ cmd, take 2 cmd = ["docker"; "run"]) (ran demo_started.2)) = 1 ∧
  (reverse ∘ take 5 ∘ reverse <$> last (ran demo_started.2)) = Some demo_argv.
Proof. vm_compute. done. Qed.

Lemma run_arguments_pass_through_witness :
  ∃ new, w_trace demo_started.2 = [] ++ new ∧
    ∀ pre cmd post, new = pre ++ Ran cmd :: post → docker_run cmd →
      ∃ c, cmd = docker_cmd demo_run_host (Path_of "/repo/scripts") [] c ++ demo_argv.
Proof.
  pose proof (run_arguments_pass_through (SD:=table_order) demo_run_host elements 100 (Path_of "/repo/scripts")
    (mkTexts "docker_run.py" "" "") "l" demo_argv demo_run_world) as H.
  assert (run_script (SD:=table_order) demo_run_host elements 100 (Path_of "/repo/scripts") (mkTexts "docker_run.py" "" "")
            (["--devkit-log-file"; "l"] ++ demo_argv) demo_run_world = demo_started) as E by vm_cast_no_check (@eq_refl (result () * World ()) demo_started).
  rewrite <- E. apply H; [reflexivity| |right; left].
  repeat (apply List.Forall_cons; [reflexivity|]). apply List.Forall_nil.
Defined.

(** An abbreviation further on belongs to the script, not to the container: the
    command loses it together with its value. *)
Theorem abbreviation_swallowed x :
  parse_known (run_parser x) ["devkit/build"; "tool"; "--dev"; "out"; "-v"]
  = Got ([("devkit_log_file", VPath (Path_of "out"))], ["devkit/build"; "tool"; "-v"]) ∧
  ∃ msg, parse_known (run_parser x) ["devkit/build"; "tool"; "--d"] = Stop (UsageError msg).
Proof. split; [reflexivity|]. eexists. reflexivity. Qed.

Lemma ensure_frame {PS : Type} (w : World PS) : ∃ w', ensure_cloudsdk_python_is_set w = (Ok tt, w') ∧
  ran w' = ran w ∧ w_fs w' = w_fs w.
Proof.
  unfold ensure_cloudsdk_python_is_set, getenv, exists_p, putenv, mbind, M_bind, gets, modify.
  destruct (assoc "CLOUDSDK_PYTHON" (w_env w)); [by eauto|].
  destruct (path_exists _ _ (Path_of "/usr/bin/python3")); [by eauto|].
  destruct (path_exists _ _ (Path_of "/usr/bin/python")); by eauto.
Qed.

(** A command line that does not parse ends the builder with code 2 (0 for the
    help) before any program is started or file touched. *)
Theorem bad_command_line {PS : Type} {EX : Exec PS} {SO : SetOrder} x n argv (w : World PS) s :
  parse_known (build_parser x) argv = Stop s →
  let '(r, w') := build_script x n argv w in
  r = Raise (SystemExit (match s with ShowHelp => 0 | UsageError _ => 2 end)) ∧ ran w' = ran w ∧ w_fs w' = w_fs w.
Proof.
  intros H. unfold build_script. destruct (ensure_frame w) as (w1 & Hw & <- & <-).
  rewrite (M_bind_ok _ _ _ _ _ Hw). unfold parse_args, parse_known_args. rewrite H.
  destruct s; cbn; (split; [done|]); (split; [|done]); unfold ran; cbn; rewrite ?commands_app; cbn; by rewrite ?app_nil_r.
Qed.
