(* ===== verification/Copies.v ===== *)
(** * The copies of the devkit

    The scripts are in the repository five times: at the root and under api,
    container-tools, mbs and mbs/api.  The copies are the same text except in three
    scripts, and the differences are the definitions of this file: the event
    handler and the container runner of mbs/api, and the coverage report of
    container-tools. *)

From stdpp Require Import base gmap sets list strings.
From Stdlib Require Import Ascii ZArith Lia SpecFloat.
From S2P Require Import Prelude PyStr PyFloat PyTime Fs World FsOps Json Shlex FindRoot.
From S2P Require Import Mounts MountsProofs Cleanup EventHandler DockerRun Coverage CoverageProofs.

(** ** mbs/api: the latency metric *)

Module MbsApi.
Section metrics.
Context {PS : Type}.
Local Abbreviation W := (World PS).

(** The metrics client is not part of the repository: a program that gets a name,
    arguments and fields. *)
Context (emit_metric : string → list (string * string) → list (string * string) → M W ()).

Definition metric_name : string := "/corp/private_compute_infra_toolkit/devkit/latency".

Definition metric_error (e : exn) : string :=
  match e with ValueError m | OSError m | FileNotFoundError m => m | _ => "" end.

Definition emit_latency_metric (start_time end_time : string) : M W () :=
  try_with
    (command ← getenv "METRICS_DEVKIT_COMMAND";
     project ← getenv "METRICS_PROJECT_ID";
     emit_metric metric_name [("start_time", start_time); ("end_time", end_time)]
       [("command", default "unknown" command); ("project_id", default "unknown" project)])
    (λ e, if is_Exception e then Some (log_warning ("Failed to emit metrics: " +:+ metric_error e)) else None).

Definition handle_end_time : string → M W () := handle_entrypoint_end_time_ms emit_latency_metric.

Definition process_event : string → M W () := process_container_event emit_latency_metric.

Definition listener : Z → conf → action → option conf := listener_step emit_latency_metric.
End metrics.

(** ** mbs/api: the site's mounts *)

Record site_host := mkSiteHost {
  s_home : Path;                        (* the home of "~" *)
  s_home_of : string → option Path;     (* the home of "~user" *)
  s_locked : bool                       (* looking at /google/bin/releases fails before gcert *)
}.

Definition site_paths : list string :=
  ["/usr/bin/git-remote-sso"; "/usr/bin/git-remote-rpc"; "/usr/share/git-core"; "/usr/share/git-repo";
   "/var/run/ccache"; "/var/run/credentials-cache"; "/run/connectd"; "/google"; "/etc/google"; "/usr/grte";
   "/var/google"; "/usr/envelope"; "/usr/share/com.google.loas"].

Definition site_paths_after : list string :=
  ["/usr/lib/thinmint-verification-keys-corp"; "/etc/googlekeys"; "/etc/security-realms"; "/usr/bin/gcert";
   "/usr/bin/g4"; "/usr/bin/p4"; "/usr/bin/gcertstatus"; "/dev/log"; "/usr/bin/uplink-helper";
   "/etc/uplink/proxy.conf"; "/usr/bin/glogin"; "/usr/bin/mpm"; "/etc/gcloud";
   "/usr/lib/x86_64-linux-gnu/pkcs11/libnative_pkcs11_credkit.so"; "/usr/bin/ecp"; "/usr/bin/ecp_http_proxy";
   "/usr/lib/google-cloud-sdk"].

(** [google_mounts] *)
Definition google_mounts (user_name : string) : list Path :=
  (Path_of <$> site_paths)
  ++ [join_name (Path_of "/run/credentials-cache") ("loas-" +:+ user_name)]
  ++ (Path_of <$> site_paths_after).

Definition google_bin : Path := Path_of "/google/bin".
Definition google_bin_releases : Path := join_name google_bin "releases".
Definition gemini_tools : Path := join_name google_bin_releases "gemini-cli/tools".

(** [p.expanduser()] *)
Definition expanduser (s : site_host) (p : Path) : result Path :=
  match p_root p, p_parts p with
  | false, String "~" user :: rest =>
      match (if bool_decide (user = "") then Some (s_home s) else s_home_of s user) with
      | Some home => Ok (joinpath home (mkPath false rest))
      | None => Raise (RuntimeError "Could not determine home directory.")
      end
  | _, _ => Ok p
  end.

Section site.
Context {PS : Type} {EX : Exec PS} (s : site_host).
Local Abbreviation W := (World PS).

Definition refresh_credentials : M W () :=
  here ← exists_p google_bin;
  if (here : bool) && s_locked s then
    println ("Accessing Google-specific tools requires authentication. "
             +:+ "Running 'gcert' to refresh your credentials. ") ;;
    _ ← run_checked ["gcert"]; mret tt
  else mret tt.

Definition cookie_file : M W (list Path) :=
  try_with
    ('(out, _) ← run_checked ["git"; "config"; "--get"; "http.cookiefile"];
     match strip out with
     | "" => mret []
     | file => p ← lift_result (expanduser s (Path_of file)); mret [p]
     end)
    (λ e, if is_CalledProcessError e || is_FileNotFoundError e then Some (mret []) else None).

Definition existing (paths : list Path) : M W (list Path) :=
  for_acc (λ mounts p, (here ← exists_p p; mret (if (here : bool) then mounts ++ [p] else mounts))) [] paths.

Definition google_site (user_name : string) (user_id : Z) : M W (list Path * list string * list Path) :=
  refresh_credentials ;;
  tools ← exists_p gemini_tools;
  gemini ← (if (tools : bool) then
              let dir := join_name (join_name (Path_of "/run/user") (str_of_Z user_id)) "gemini_cli_for_google" in
              mkdir_p dir ;; mret [dir]
            else mret []);
  sock ← env_nonempty "SSH_AUTH_SOCK";
  cookie ← cookie_file;
  mounts ← existing (google_mounts user_name ++ gemini
                     ++ match sock with Some p => [Path_of p] | None => [] end ++ cookie);
  mret (mounts, match sock with Some _ => ["--env=SSH_AUTH_SOCK"] | None => [] end,
        if (tools : bool) then [gemini_tools] else []).

(** The script of this copy. *)
Definition mbs_api_main {SD : ScanDir} (h : host) : (gset Path → list Path) → nat → Path → list string → M W () :=
  run_main h google_site.
End site.
End MbsApi.

(** ** container-tools: where the coverage report is *)

Module ContainerTools.
Section coverage.
Context {PS : Type} {EX : Exec PS}.
Local Abbreviation W := (World PS).

(** The report is only looked for at the project root. *)
Definition run_bazel_coverage_at_root (target : string) : M W Path :=
  project_root ← find_project_root;
  try_with
    (run_checked (coverage_cmd project_root target) ;; mret (report_in project_root))
    (λ e, match e with
          | CalledProcessError _ rc _ _ =>
              Some (eprintln ("Error: Bazel coverage failed with exit code " +:+ str_of_Z rc +:+ ".") ;;
                    sys_exit 1)
          | _ => None
          end).
End coverage.
End ContainerTools.

(** ** What the differences change *)

(** A metrics client that does not exit or interrupt. *)
Definition tame_client {PS} (emit_metric : string → list (string * string) → list (string * string) → M (World PS) ()) : Prop :=
  ∀ n a f, raises (λ e, is_Exception e = true) (emit_metric n a f).

Lemma emit_latency_returns {PS} emit_metric a b (w : World PS) : tame_client emit_metric →
  ∃ w', MbsApi.emit_latency_metric emit_metric a b w = (Ok tt, w').
Proof.
  intros Ht. unfold MbsApi.emit_latency_metric, try_with, getenv, gets, mbind, M_bind.
  match goal with |- context [emit_metric ?n ?x ?y w] => destruct (emit_metric n x y w) as [[[]|e] w'] eqn:E end; [by eexists|].
  apply Ht in E. rewrite E. by eexists.
Qed.

Lemma latency_after_returns {PS} after ts v s (w : World PS) : (∀ a b w, ∃ w', after a b w = (Ok tt, w')) →
  ∃ w', latency after ts v s w = (Ok tt, w').
Proof.
  intros Ha. unfold latency, try_with, lift_result, mbind, M_bind. pose proof (py_int_r_raise s) as H.
  destruct (py_int_r s) as [n|e]; [|rewrite (H e eq_refl); by eexists].
  unfold log_info, emit, modify. cbn beta zeta iota.
  match goal with |- context [after s v ?w1] => destruct (Ha s v w1) as [w2 E] end. rewrite E. by eexists.
Qed.

(** C39: In the copy with metrics, whatever the metrics client does short of an exit
    or an interrupt, an event has the same outcome as without metrics: a client
    that fails costs a warning and never stops the listener. *)
Theorem metrics_never_interfere {PS : Type} emit_metric data (w : World PS) : tame_client emit_metric →
  (MbsApi.process_event emit_metric data w).1 = (process_container_event no_metric data w).1.
Proof.
  intros Ht. unfold MbsApi.process_event, process_container_event. cbn zeta.
  erewrite !M_bind_ok by reflexivity. destruct (str_mem _ _); [|done]. destruct (split1 _ _) as [name value].
  case_bool_decide; [|done]. unfold handle_entrypoint_end_time_ms, try_with, lift_result, getenv, gets, when.
  set (w1 := emit_event _ w). unfold mbind, M_bind.
  destruct (py_int_r (strip value)) as [n|e]; [|by destruct (is_ValueError e)].
  destruct (n <? 0)%Z; cbn [raise mret M_ret]; [done|].
  destruct (int_div n 1000) as [x|e]; [|by destruct (is_ValueError e)].
  destruct (fromtimestamp x) as [dt|e]; [|by destruct (is_ValueError e)].
  unfold log_info, emit, modify. set (w2 := emit_event _ w1).
  destruct (assoc "DEVKIT_START_TIME_MS" (w_env w2)) as [[|ch st]|]; [done| |done].
  destruct (latency_after_returns (MbsApi.emit_latency_metric emit_metric) n value (String ch st) w2) as [w3 ->];
    [intros; by apply emit_latency_returns|].
  by destruct (latency_returns n value (String ch st) w2) as [w4 ->].
Qed.

Lemma metrics_never_interfere_witness :
  (MbsApi.process_event (λ _ _ _, raise (OSError "no network")) "entrypoint_end_time_ms:5"
     (mkWorld (PS:=()) [("DEVKIT_START_TIME_MS", "2")] ∅ [] [] tt)).1 = Ok tt.
Proof.
  rewrite (metrics_never_interfere (λ _ _ _, raise (OSError "no network"))); [vm_compute; reflexivity|].
  intros n a f. by apply raises_raise.
Defined.

(** The coverage report of container-tools is read from the project root only:
    run from a directory of its own that bazel left a report in, the other copies
    read that report and this one does not. *)
Theorem container_tools_report {PS : Type} {EX : Exec PS} target (w : World PS) :
  match ContainerTools.run_bazel_coverage_at_root target w, Coverage.run_bazel_coverage target w with
  | (Ok p, _), (Ok q, w') =>
      let here := report_in (mkPath true (w_cwd w)) in
      ∃ root, (find_project_root w).1 = Ok root ∧ p = report_in root ∧
        q = (if path_exists (w_fs w') (w_cwd w) here then here else p)
  | (Raise e, _), (r, _) => r = Raise e
  | (Ok _, _), (Raise _, _) => False
  end.
Proof.
  unfold ContainerTools.run_bazel_coverage_at_root, Coverage.run_bazel_coverage.
  destruct (find_project_root w) as [[root|e] w0] eqn:Er; pose proof (find_root_state _ _ _ Er) as ->.
  2: { by rewrite !(M_bind_raise _ _ _ _ _ Er). }
  rewrite !(M_bind_ok _ _ _ _ _ Er). unfold try_with.
  destruct (run_checked (coverage_cmd root target) w) as [[[out err]|e] w1] eqn:Ec.
  2: { rewrite !(M_bind_raise _ _ _ _ _ Ec). by destruct e. }
  assert (w_cwd w1 = w_cwd w) as Hcwd.
  { unfold run_checked, run_unchecked, start in Ec. munfold.
    destruct (exec _ _) as [[rc o er| |] [ps f]]; [case_bool_decide|..]; by simplify_eq. }
  rewrite !(M_bind_ok _ _ _ _ _ Ec). rewrite (M_bind_ok (gets _) _ w1 (report_in (mkPath true (w_cwd w))) w1).
  2: { unfold gets. by rewrite Hcwd. }
  destruct (exists_p (report_in (mkPath true (w_cwd w))) w1) as [rh wh] eqn:Eh.
  pose proof (exists_p_inv _ _ _ _ Eh) as [-> ->]. rewrite (M_bind_ok _ _ _ _ _ Eh). clear Eh. rewrite Hcwd.
  destruct (path_exists (w_fs w1) (w_cwd w) (report_in (mkPath true (w_cwd w)))) eqn:Ep; unfold mret, M_ret; cbn zeta.
  - exists root. rewrite Ep. done.
  - exists root. rewrite Ep. done.
Qed.
