(* ===== verification/MbsApiCopy.v ===== *)
(** * The copy under mbs/api, script by script

    This copy has the metrics and the site's mounts of [Copies]; its other scripts
    are, function by function, the text of the root's, and each name below is the
    model of that function of this copy. *)

From stdpp Require Import base gmap sets list strings.
From S2P Require Import Prelude PyStr PyFloat Fs World FsOps Json Config Graph Sha256 DockerOps Builder.
From S2P Require Import Cleanup FindRoot Coverage EventHandler Mounts Bep Bootstrap DockerRun Argparse Cli Copies.

(** ** docker/build.py *)

Definition mbs_api_ensure_cloudsdk_python_is_set := @ensure_cloudsdk_python_is_set.
Definition mbs_api_CONFIG_SCHEMA := @CONFIG_SCHEMA.
Definition mbs_api_validate_config := @validate_config.
Definition mbs_api_parse_registry_config := @parse_registry_config.
Definition mbs_api_get_image_prefix := @get_image_prefix.
Definition mbs_api_check_docker_installed := @check_docker_installed.
Definition mbs_api_check_docker_buildx_installed := @check_docker_buildx_installed.
Definition mbs_api_load_image_configs := @load_image_configs.
Definition mbs_api_calculate_sha256 := @calculate_sha256.
Definition mbs_api_get_dependency_subgraph := @get_dependency_subgraph.
Definition mbs_api_DockerBuilder := @DockerBuilder.
Definition mbs_api_new_builder := @new_builder.
Definition mbs_api_load_config := @load_config.
Definition mbs_api_load_registry_config := @load_registry_config.
Definition mbs_api_load_images_config := @load_images_config.
Definition mbs_api_get_image_tag := @get_image_tag.
Definition mbs_api_get_build_order := @get_build_order.
Definition mbs_api_calculate_tags := @calculate_tags.
Definition mbs_api_calculate_tag_for_image := @calculate_tag_for_image.
Definition mbs_api_build_images := @build_images.
Definition mbs_api_get_all_docker_image_tags := @get_all_docker_image_tags.
Definition mbs_api_manage_docker_image := @manage_docker_image.
Definition mbs_api_check_if_image_exists_locally := @check_if_image_exists_locally.
Definition mbs_api_build_image := @build_image.
Definition mbs_api_check_if_image_exists_in_remote_registry := @check_if_image_exists_in_remote_registry.
Definition mbs_api_pull_image_from_registry := @pull_image_from_registry.
Definition mbs_api_push_image_to_registry := @push_image_to_registry.
Definition mbs_api_build_main := @Builder.main.
Definition mbs_api_build_parser := @build_parser.
Definition mbs_api_build_script := @build_script.

(** ** docker_cleanup.py *)

Definition mbs_api_ALLOWED_IMAGE_NAMES := @ALLOWED_IMAGE_NAMES.
Definition mbs_api_match_image := @match_image.
Definition mbs_api_get_ignored_images := @get_ignored_images.
Definition mbs_api_get_images := @get_images.
Definition mbs_api_filter_allowed_images := @filter_allowed_images.
Definition mbs_api_get_images_to_cleanup := @get_images_to_cleanup.
Definition mbs_api_cleanup_images_batch := @cleanup_images_batch.
Definition mbs_api_cleanup_images := @cleanup_images.
Definition mbs_api_start_background_cleanup := @start_background_cleanup.
Definition mbs_api_cleanup_main := @Cleanup.main.
Definition mbs_api_cleanup_parser := @cleanup_parser.
Definition mbs_api_cleanup_script := @cleanup_script.

(** ** find_project_root.py *)

Definition mbs_api_find_project_root := @find_project_root.
Definition mbs_api_find_root_main := @FindRoot.main.

(** ** coverage_report.py *)

Definition mbs_api_FileCoverage := @FileCoverage.
Definition mbs_api_new_FileCoverage := @new_FileCoverage.
Definition mbs_api_line_coverage_percent := @line_coverage_percent.
Definition mbs_api_branch_coverage_percent := @branch_coverage_percent.
Definition mbs_api_generate_summary_line := @generate_summary_line.
Definition mbs_api_get_missing_branches_str := @get_missing_branches_str.
Definition mbs_api_generate_missing_coverage_report := @generate_missing_coverage_report.
Definition mbs_api_fit_to_column := @fit_to_column.
Definition mbs_api_print_and_validate_report := @print_and_validate_report.
Definition mbs_api_group_consecutive_numbers := @group_consecutive_numbers.
Definition mbs_api_generate_lcov_report := @generate_lcov_report.
Definition mbs_api_parse_lcov_data_line := @parse_lcov_data_line.
Definition mbs_api_run_bazel_coverage := @run_bazel_coverage.
Definition mbs_api_parse_thresholds_file := @parse_thresholds_file.
Definition mbs_api_coverage_main := @Coverage.main.
Definition mbs_api_coverage_parser := @coverage_parser.
Definition mbs_api_coverage_script := @coverage_script.

(** ** list_external_mounts.py *)

Definition mbs_api_list_external_mounts := @list_external_mounts.
Definition mbs_api_process_symlink := @process_symlink.
Definition mbs_api_minimize_paths := @minimize_paths.
Definition mbs_api_get_minimal_mounts := @get_minimal_mounts.
Definition mbs_api_mounts_main := @mounts_main.
Definition mbs_api_mounts_parser := @mounts_parser.
Definition mbs_api_mounts_script := @mounts_script.

(** ** bep.py *)

Definition mbs_api_run_command := @run_command.
Definition mbs_api_generate_build_event_json := @generate_build_event_json.
Definition mbs_api_process_target_and_save := @process_target_and_save.
Definition mbs_api_generate_bazel_events_folder := @generate_bazel_events_folder.
Definition mbs_api_bep_main := @bep_main.
Definition mbs_api_bep_parser := @bep_parser.
Definition mbs_api_bep_script := @bep_script.

(** ** bootstrap.py *)

Definition mbs_api_copy_and_template := @copy_and_template.
Definition mbs_api_boot_main := @boot_main.
Definition mbs_api_boot_parser := @boot_parser.
Definition mbs_api_boot_script := @boot_script.

(** ** docker_run.py *)

Definition mbs_api_path_from_env := @path_from_env.
Definition mbs_api_find_places := @find_places.
Definition mbs_api_make_home_dirs := @make_home_dirs.
Definition mbs_api_make_home_files := @make_home_files.
Definition mbs_api_git_mounts := @git_mounts.
Definition mbs_api_group_id := @group_id.
Definition mbs_api_config_args := @config_args.
Definition mbs_api_env_args := @env_args.
Definition mbs_api_docker_args := @docker_args.
Definition mbs_api_docker_mount := @docker_mount.
Definition mbs_api_docker_cmd := @docker_cmd.
Definition mbs_api_run_docker := @run_docker.
Definition mbs_api_launch := @launch.
Definition mbs_api_run_parser := @run_parser.
